(** * Session orchestration core of the automated engagement scripts

    Shallow embedding of [automated.js] (the unbounded, one-window-per-click
    campaign) and of its bounded sibling script (the [MAX_CLICKS] campaign
    with parallel tab workers), together with the properties of the
    profile generator, the telemetry recorder, the session worker and the
    batch scheduler.  The account generator, the browser-side overrides of
    [setupPageFingerprint], the text of the two CSV files and the
    virtual-machine demonstration ([demo-vm-system.js]) are embedded as
    well.

    Conventions.  JavaScript numbers are rationals ([Q]): counts, indices
    and durations are computed exactly, and the arithmetic on geographic
    coordinates, whose result depends on it, is rounded to the nearest
    binary64 value after every operation ([Float64]);
    [Math.random()] is a stream of draws; promises are modelled by explicit
    state passing with an outcome ([Ok] or [Throw]); cooperative
    concurrency is modelled by interleaving the synchronous segments that
    lie between two [await]s. *)

From Stdlib Require Import String Ascii List ZArith QArith Qround Qabs Lia Bool Arith.
From Stdlib Require Import DecimalString Lqa Qpower SpecFloat.
Import ListNotations.
Open Scope string_scope.

(** ** Pseudo-random source *)

Module Random.

(** Successive results of [Math.random()]. *)
Definition Rng := nat -> Q.

Definition Math_random (g : Rng) : Q * Rng := (g 0%nat, fun n => g (S n)).

(** [Math.random()] returns a number in the half-open interval [[0, 1)]. *)
Definition fair (g : Rng) : Prop := forall n, (0 <= g n /\ g n < 1)%Q.

Definition Math_floor (x : Q) : Z := Qfloor x.

(** [arr[i]] for a JavaScript array: [undefined] outside the bounds. *)
Definition index {A : Type} (arr : list A) (i : Z) : option A :=
  if (i <? 0)%Z then None else nth_error arr (Z.to_nat i).

Definition length_Q {A : Type} (arr : list A) : Q := inject_Z (Z.of_nat (length arr)).

(** [array[Math.floor(Math.random() * array.length)]] *)
Definition getRandomElement {A : Type} (array : list A) (g : Rng) : option A * Rng :=
  let (r, g1) := Math_random g in
  (index array (Math_floor (r * length_Q array)), g1).

Definition constant (r : Q) : Rng := fun _ => r.

End Random.

(** ** Double-precision arithmetic *)

Module Float64.

Definition pow2 (k : Z) : Q := 2 ^ k.

(** The integer nearest to [y]; of two equally near, the even one. *)
Definition roundEven (y : Q) : Z :=
  let n := Qfloor y in
  match Qcompare (y - inject_Z n) (1 # 2) with
  | Lt => n
  | Gt => (n + 1)%Z
  | Eq => if Z.even n then n else (n + 1)%Z
  end.

(** The exponent [e] with [2 ^ e <= |x| < 2 ^ (e + 1)], for [x] other
    than zero. *)
Definition ilog2 (x : Q) : Z :=
  let e := (Z.log2 (Z.abs (Qnum x)) - Z.log2 (Zpos (Qden x)))%Z in
  if Qle_bool (pow2 e) (Qabs x) then e else (e - 1)%Z.

(** Exponent of the unit in the last place of [x]: 53 significant bits,
    and no unit below that of the subnormal numbers. *)
Definition quantum (x : Q) : Z := Z.max (ilog2 x - 52) (-1074).

(** The binary64 value nearest to [x], ties to the even significand.
    Overflow is left out: the function is used on magnitudes below
    [2 ^ 1024] only, where the format has no upper limit to apply. *)
Definition round64 (x : Q) : Q :=
  inject_Z (roundEven (x / pow2 (quantum x))) * pow2 (quantum x).

(** A decimal literal of the source denotes the nearest double; [+], [-]
    and [*] return the double nearest to the exact result. *)
Definition number (literal : Q) : Q := round64 literal.
Definition add (x y : Q) : Q := round64 (x + y).
Definition sub (x y : Q) : Q := round64 (x - y).
Definition mul (x y : Q) : Q := round64 (x * y).

(** The same operations taken from the standard library's specification
    of IEEE 754 arithmetic, at precision 53 and maximal exponent 1024,
    to compare [round64] with on given numbers.  [fraction] is exact to
    half a unit in the last place when numerator and denominator are
    below [2 ^ 53]. *)
Definition integer (n : Z) : spec_float := binary_normalize 53 1024 n 0 false.
Definition fraction (q : Q) : spec_float :=
  SFdiv 53 1024 (integer (Qnum q)) (integer (Zpos (Qden q))).

Definition value (f : spec_float) : Q :=
  match f with
  | S754_finite s m e => (if s then -1 else 1) * inject_Z (Zpos m) * pow2 e
  | _ => 0
  end.

Definition finite (f : spec_float) : bool :=
  match f with
  | S754_finite _ _ _ | S754_zero _ => true
  | _ => false
  end.

Arguments round64 : simpl never.
Arguments number : simpl never.
Arguments add : simpl never.
Arguments sub : simpl never.
Arguments mul : simpl never.

End Float64.

(** ** Profile generator: reference tables and pure operations *)

Module Profile.
Import Random.

Record Connection := mkConn {
  type : string;
  downlink : Q;
  effectiveType : string;
  rtt : nat;
  description : string
}.

Definition connectionTypes : list Connection :=
[ mkConn "fiber" (100 # 1) "4g" 10 "Fiber Broadband 100Mbps";
  mkConn "fiber" (50 # 1) "4g" 15 "Fiber Broadband 50Mbps";
  mkConn "fiber" (25 # 1) "4g" 20 "Fiber Broadband 25Mbps";
  mkConn "cable" (20 # 1) "4g" 25 "Cable Broadband 20Mbps";
  mkConn "cable" (15 # 1) "4g" 30 "Cable Broadband 15Mbps";
  mkConn "dsl" (8 # 1) "4g" 40 "DSL Broadband 8Mbps";
  mkConn "dsl" (4 # 1) "3g" 60 "DSL Broadband 4Mbps";
  mkConn "4g" (25 # 1) "4g" 30 "Jio 4G Premium";
  mkConn "4g" (15 # 1) "4g" 40 "Airtel 4G Plus";
  mkConn "4g" (12 # 1) "4g" 45 "Vi 4G Network";
  mkConn "4g" (10 # 1) "4g" 50 "BSNL 4G";
  mkConn "4g" (8 # 1) "4g" 55 "Standard 4G";
  mkConn "4g" (5 # 1) "4g" 70 "Budget 4G Plan";
  mkConn "5g" (200 # 1) "4g" 5 "Jio True 5G";
  mkConn "5g" (150 # 1) "4g" 8 "Airtel 5G Plus";
  mkConn "5g" (100 # 1) "4g" 10 "Vi 5G Ultra";
  mkConn "3g" (3 # 1) "3g" 150 "BSNL 3G";
  mkConn "3g" (2 # 1) "3g" 180 "Legacy 3G Network";
  mkConn "3g" (15 # 10) "3g" 200 "Rural 3G Connection";
  mkConn "2g" (5 # 10) "2g" 800 "EDGE Connection";
  mkConn "slow-2g" (25 # 100) "slow-2g" 1500 "GPRS Connection";
  mkConn "wifi" (50 # 1) "4g" 20 "Office WiFi";
  mkConn "wifi" (30 # 1) "4g" 25 "Home WiFi Premium";
  mkConn "wifi" (15 # 1) "4g" 35 "Home WiFi Standard";
  mkConn "wifi" (8 # 1) "4g" 50 "Public WiFi";
  mkConn "wifi" (5 # 1) "3g" 80 "Cafe WiFi";
  mkConn "satellite" (10 # 1) "4g" 600 "Satellite Internet";
  mkConn "satellite" (5 # 1) "3g" 800 "VSAT Connection" ].

Record IPRecord := mkIP {
  ip : string;
  isp : string;
  city : string;
  state : string;
  pincode : string;
  area : string
}.

Definition indianIPData : list IPRecord :=
[ mkIP "203.122.58." "Bharti Airtel Ltd" "Mumbai" "Maharashtra" "400001" "Fort";
  mkIP "117.239.195." "Reliance Jio Infocomm" "Mumbai" "Maharashtra" "400070" "Andheri";
  mkIP "103.21.58." "Hathway Cable & Datacom" "Pune" "Maharashtra" "411001" "Shivaji Nagar";
  mkIP "203.109.137." "You Broadband India" "Pune" "Maharashtra" "411014" "Hadapsar";
  mkIP "103.87.169." "Spectranet Pvt Ltd" "Nagpur" "Maharashtra" "440001" "Civil Lines";
  mkIP "14.102.152." "BSNL Maharashtra" "Nashik" "Maharashtra" "422001" "College Road";
  mkIP "49.14.89." "Vi (Vodafone Idea)" "Aurangabad" "Maharashtra" "431001" "Cidco";
  mkIP "14.139.56." "Bharti Airtel Ltd" "New Delhi" "Delhi" "110001" "Connaught Place";
  mkIP "115.242.174." "Vi (Vodafone Idea)" "New Delhi" "Delhi" "110021" "Lajpat Nagar";
  mkIP "182.71.146." "Excitel Broadband" "Gurgaon" "Haryana" "122001" "DLF Phase 1";
  mkIP "103.195.185." "D-VoiS Broadband" "Noida" "Uttar Pradesh" "201301" "Sector 62";
  mkIP "157.119.188." "Connect Broadband" "Faridabad" "Haryana" "121001" "Sector 15";
  mkIP "122.180.155." "Jio Fiber" "Ghaziabad" "Uttar Pradesh" "201001" "Raj Nagar";
  mkIP "27.109.13." "GTPL Hathway" "Delhi" "Delhi" "110092" "Dwarka";
  mkIP "152.58.96." "BSNL Karnataka" "Bangalore" "Karnataka" "560001" "MG Road";
  mkIP "122.161.49." "ACT Fibernet" "Bangalore" "Karnataka" "560025" "Koramangala";
  mkIP "103.76.253." "Atria Convergence Technologies" "Mysore" "Karnataka" "570001" "Sayyaji Rao Road";
  mkIP "45.118.132." "Tata Play Fiber" "Mangalore" "Karnataka" "575001" "Hampankatta";
  mkIP "103.99.177." "Bharti Airtel Fiber" "Hubli" "Karnataka" "580020" "Vidyanagar";
  mkIP "49.43.84." "Bharti Airtel Ltd" "Chennai" "Tamil Nadu" "600001" "T. Nagar";
  mkIP "103.195.185." "Siti Cable Network" "Chennai" "Tamil Nadu" "600034" "Adyar";
  mkIP "45.248.77." "Railtel Corporation of India" "Coimbatore" "Tamil Nadu" "641001" "RS Puram";
  mkIP "117.241.35." "BSNL Tamil Nadu" "Madurai" "Tamil Nadu" "625001" "Anna Nagar";
  mkIP "14.142.112." "Jio Fiber" "Salem" "Tamil Nadu" "636001" "Fairlands";
  mkIP "115.242.174." "Vi (Vodafone Idea)" "Hyderabad" "Telangana" "500001" "Abids";
  mkIP "203.192.228." "GTPL Hathway Ltd" "Hyderabad" "Telangana" "500081" "Gachibowli";
  mkIP "117.239.195." "Reliance Jio Infocomm" "Visakhapatnam" "Andhra Pradesh" "530001" "Dwaraka Nagar";
  mkIP "27.5.102." "Airtel Fiber" "Vijayawada" "Andhra Pradesh" "520001" "Governorpet";
  mkIP "122.161.49." "Alliance Broadband Services" "Kolkata" "West Bengal" "700001" "Park Street";
  mkIP "103.76.253." "Wishnet Pvt Ltd" "Kolkata" "West Bengal" "700091" "Salt Lake";
  mkIP "157.119.188." "Cal Broadband Networks" "Durgapur" "West Bengal" "713201" "City Center";
  mkIP "182.74.200." "BSNL West Bengal" "Siliguri" "West Bengal" "734001" "Hill Cart Road";
  mkIP "49.43.84." "Tikona Digital Networks" "Ahmedabad" "Gujarat" "380001" "Navrangpura";
  mkIP "103.21.58." "Gujarat Telelink Pvt Ltd" "Surat" "Gujarat" "395001" "Nanpura";
  mkIP "203.122.58." "Bharti Airtel Ltd" "Vadodara" "Gujarat" "390001" "Alkapuri";
  mkIP "115.99.248." "Jio Fiber" "Rajkot" "Gujarat" "360001" "Race Course";
  mkIP "103.195.185." "Siti Cable Network" "Jaipur" "Rajasthan" "302001" "C Scheme";
  mkIP "115.242.174." "Vi (Vodafone Idea)" "Jodhpur" "Rajasthan" "342001" "Sardarpura";
  mkIP "27.109.14." "BSNL Rajasthan" "Udaipur" "Rajasthan" "313001" "Fateh Sagar";
  mkIP "14.140.137." "Airtel Fiber" "Kota" "Rajasthan" "324001" "Vigyan Nagar";
  mkIP "45.248.77." "Asianet Broadband" "Kochi" "Kerala" "682001" "Marine Drive";
  mkIP "103.87.169." "BSNL Kerala" "Thiruvananthapuram" "Kerala" "695001" "Palayam";
  mkIP "122.164.253." "Asianet Cable Vision" "Kozhikode" "Kerala" "673001" "Mavoor Road";
  mkIP "117.241.8." "Jio Fiber" "Thrissur" "Kerala" "680001" "Round South";
  mkIP "182.71.146." "Connect Broadband" "Ludhiana" "Punjab" "141001" "Model Town";
  mkIP "203.109.137." "Netplus Broadband" "Amritsar" "Punjab" "143001" "Lawrence Road";
  mkIP "115.186.128." "BSNL Punjab" "Jalandhar" "Punjab" "144001" "Civil Lines";
  mkIP "49.15.193." "Airtel Broadband" "Patiala" "Punjab" "147001" "Leela Bhawan";
  mkIP "157.119.188." "Alliance Broadband Services" "Bhubaneswar" "Odisha" "751001" "Saheed Nagar";
  mkIP "103.76.253." "BSNL Odisha" "Cuttack" "Odisha" "753001" "Buxi Bazaar";
  mkIP "27.109.115." "Jio Fiber" "Berhampur" "Odisha" "760001" "Brahmapur";
  mkIP "203.109.137." "You Broadband India" "Indore" "Madhya Pradesh" "452001" "Vijay Nagar";
  mkIP "49.43.84." "Bharti Airtel Ltd" "Bhopal" "Madhya Pradesh" "462001" "MP Nagar";
  mkIP "14.140.156." "BSNL MP" "Jabalpur" "Madhya Pradesh" "482001" "Wright Town";
  mkIP "115.240.113." "Jio Fiber" "Gwalior" "Madhya Pradesh" "474001" "Lashkar";
  mkIP "117.239.195." "Reliance Jio Infocomm" "Lucknow" "Uttar Pradesh" "226001" "Hazratganj";
  mkIP "115.242.174." "Vi (Vodafone Idea)" "Kanpur" "Uttar Pradesh" "208001" "The Mall";
  mkIP "14.139.198." "BSNL UP West" "Agra" "Uttar Pradesh" "282001" "Sadar Bazaar";
  mkIP "49.15.241." "Airtel Fiber" "Varanasi" "Uttar Pradesh" "221001" "Cantonment";
  mkIP "182.68.144." "Jio Fiber" "Meerut" "Uttar Pradesh" "250001" "Sadar Bazar";
  mkIP "152.58.96." "BSNL Bihar" "Patna" "Bihar" "800001" "Boring Road";
  mkIP "103.213.241." "Jio Fiber" "Gaya" "Bihar" "823001" "Ramna Road";
  mkIP "27.109.14." "Airtel Broadband" "Bhagalpur" "Bihar" "812001" "Sultanganj Road";
  mkIP "45.248.77." "Railtel Corporation" "Guwahati" "Assam" "781001" "Fancy Bazaar";
  mkIP "103.89.136." "BSNL Assam" "Dibrugarh" "Assam" "786001" "Graham Bazaar";
  mkIP "14.142.128." "Jio Fiber" "Silchar" "Assam" "788001" "Rangirkhari";
  mkIP "115.242.174." "Vi (Vodafone Idea)" "Ranchi" "Jharkhand" "834001" "Main Road";
  mkIP "122.252.252." "BSNL Jharkhand" "Jamshedpur" "Jharkhand" "831001" "Bistupur";
  mkIP "49.15.67." "Airtel Fiber" "Dhanbad" "Jharkhand" "826001" "Bank More";
  mkIP "103.21.58." "Syscon Infoway Pvt Ltd" "Raipur" "Chhattisgarh" "492001" "Civil Lines";
  mkIP "14.140.189." "BSNL Chhattisgarh" "Bhilai" "Chhattisgarh" "490001" "Sector 1";
  mkIP "115.240.35." "Jio Fiber" "Bilaspur" "Chhattisgarh" "495001" "Link Road";
  mkIP "103.21.58." "Syscon Infoway Pvt Ltd" "Dehradun" "Uttarakhand" "248001" "Rajpur Road";
  mkIP "27.109.14." "BSNL Uttarakhand" "Haridwar" "Uttarakhand" "249401" "Railway Road";
  mkIP "49.15.193." "Airtel Broadband" "Nainital" "Uttarakhand" "263001" "Mallital";
  mkIP "115.242.174." "Vi (Vodafone Idea)" "Chandigarh" "Chandigarh" "160001" "Sector 17";
  mkIP "103.89.136." "BSNL Himachal" "Shimla" "Himachal Pradesh" "171001" "The Mall";
  mkIP "14.142.128." "Jio Fiber" "Jammu" "Jammu and Kashmir" "180001" "Gandhi Nagar";
  mkIP "122.252.252." "BSNL J&K" "Srinagar" "Jammu and Kashmir" "190001" "Lal Chowk";
  mkIP "103.213.241." "Jio Fiber" "Panaji" "Goa" "403001" "Miramar";
  mkIP "27.109.115." "BSNL Goa" "Margao" "Goa" "403601" "Fatorda";
  mkIP "49.15.67." "Airtel Fiber" "Puducherry" "Puducherry" "605001" "MG Road" ].

Record Coords := mkCoords { lat : Q; lng : Q }.

(** The object literal of [getRandomCoordinatesForCity], in source order.
    ['Gurgaon'] and ['Noida'] occur twice with the same value, so the
    first-match lookup below agrees with the object's last-wins rule. *)
Definition indianCoordinates : list (string * Coords) :=
[ ("Mumbai", mkCoords (190760 # 10000) (728777 # 10000));
  ("New Delhi", mkCoords (287041 # 10000) (771025 # 10000));
  ("Bangalore", mkCoords (129716 # 10000) (775946 # 10000));
  ("Chennai", mkCoords (130827 # 10000) (802707 # 10000));
  ("Pune", mkCoords (185204 # 10000) (738567 # 10000));
  ("Hyderabad", mkCoords (173850 # 10000) (784867 # 10000));
  ("Kolkata", mkCoords (225726 # 10000) (883639 # 10000));
  ("Ahmedabad", mkCoords (230225 # 10000) (725714 # 10000));
  ("Gurgaon", mkCoords (284595 # 10000) (770266 # 10000));
  ("Noida", mkCoords (285355 # 10000) (773910 # 10000));
  ("Surat", mkCoords (211702 # 10000) (728311 # 10000));
  ("Jaipur", mkCoords (269124 # 10000) (757873 # 10000));
  ("Lucknow", mkCoords (268467 # 10000) (809462 # 10000));
  ("Kanpur", mkCoords (264499 # 10000) (803319 # 10000));
  ("Nagpur", mkCoords (211458 # 10000) (790882 # 10000));
  ("Indore", mkCoords (227196 # 10000) (758577 # 10000));
  ("Bhopal", mkCoords (232599 # 10000) (774126 # 10000));
  ("Visakhapatnam", mkCoords (176868 # 10000) (832185 # 10000));
  ("Patna", mkCoords (255941 # 10000) (851376 # 10000));
  ("Vadodara", mkCoords (223072 # 10000) (731812 # 10000));
  ("Ludhiana", mkCoords (309009 # 10000) (758573 # 10000));
  ("Agra", mkCoords (271767 # 10000) (780081 # 10000));
  ("Nashik", mkCoords (199975 # 10000) (737898 # 10000));
  ("Faridabad", mkCoords (284089 # 10000) (773178 # 10000));
  ("Meerut", mkCoords (289845 # 10000) (777064 # 10000));
  ("Rajkot", mkCoords (223039 # 10000) (708022 # 10000));
  ("Kalyan-Dombivali", mkCoords (192403 # 10000) (731305 # 10000));
  ("Vasai-Virar", mkCoords (194914 # 10000) (728054 # 10000));
  ("Varanasi", mkCoords (253176 # 10000) (829739 # 10000));
  ("Srinagar", mkCoords (340837 # 10000) (747973 # 10000));
  ("Aurangabad", mkCoords (198762 # 10000) (753433 # 10000));
  ("Dhanbad", mkCoords (237957 # 10000) (864304 # 10000));
  ("Amritsar", mkCoords (316340 # 10000) (748723 # 10000));
  ("Navi Mumbai", mkCoords (190330 # 10000) (730297 # 10000));
  ("Allahabad", mkCoords (254358 # 10000) (818463 # 10000));
  ("Ranchi", mkCoords (233441 # 10000) (853096 # 10000));
  ("Howrah", mkCoords (225958 # 10000) (882636 # 10000));
  ("Coimbatore", mkCoords (110168 # 10000) (769558 # 10000));
  ("Jabalpur", mkCoords (231815 # 10000) (799864 # 10000));
  ("Gwalior", mkCoords (262183 # 10000) (781828 # 10000));
  ("Vijayawada", mkCoords (165062 # 10000) (806480 # 10000));
  ("Jodhpur", mkCoords (262389 # 10000) (730243 # 10000));
  ("Madurai", mkCoords (99252 # 10000) (781198 # 10000));
  ("Raipur", mkCoords (212514 # 10000) (816296 # 10000));
  ("Kota", mkCoords (252138 # 10000) (758648 # 10000));
  ("Chandigarh", mkCoords (307333 # 10000) (767794 # 10000));
  ("Guwahati", mkCoords (261445 # 10000) (917362 # 10000));
  ("Solapur", mkCoords (176599 # 10000) (759064 # 10000));
  ("Hubli", mkCoords (153647 # 10000) (751240 # 10000));
  ("Bareilly", mkCoords (283670 # 10000) (794304 # 10000));
  ("Moradabad", mkCoords (288386 # 10000) (787733 # 10000));
  ("Mysore", mkCoords (122958 # 10000) (766394 # 10000));
  ("Gurgaon", mkCoords (284595 # 10000) (770266 # 10000));
  ("Aligarh", mkCoords (278974 # 10000) (780880 # 10000));
  ("Jalandhar", mkCoords (313260 # 10000) (755762 # 10000));
  ("Tiruchirappalli", mkCoords (107905 # 10000) (787047 # 10000));
  ("Bhubaneswar", mkCoords (202961 # 10000) (858245 # 10000));
  ("Salem", mkCoords (116643 # 10000) (781460 # 10000));
  ("Mira-Bhayandar", mkCoords (192952 # 10000) (728544 # 10000));
  ("Warangal", mkCoords (179689 # 10000) (795941 # 10000));
  ("Thiruvananthapuram", mkCoords (85241 # 10000) (769366 # 10000));
  ("Guntur", mkCoords (163067 # 10000) (804365 # 10000));
  ("Bhiwandi", mkCoords (193002 # 10000) (730637 # 10000));
  ("Saharanpur", mkCoords (299680 # 10000) (775552 # 10000));
  ("Gorakhpur", mkCoords (267606 # 10000) (833732 # 10000));
  ("Bikaner", mkCoords (280229 # 10000) (733119 # 10000));
  ("Amravati", mkCoords (209374 # 10000) (777796 # 10000));
  ("Noida", mkCoords (285355 # 10000) (773910 # 10000));
  ("Jamshedpur", mkCoords (228046 # 10000) (862029 # 10000));
  ("Bhilai Nagar", mkCoords (211938 # 10000) (813509 # 10000));
  ("Cuttack", mkCoords (204625 # 10000) (858828 # 10000));
  ("Firozabad", mkCoords (271592 # 10000) (783957 # 10000));
  ("Kochi", mkCoords (99312 # 10000) (762673 # 10000));
  ("Bhavnagar", mkCoords (217645 # 10000) (721519 # 10000));
  ("Dehradun", mkCoords (303165 # 10000) (780322 # 10000));
  ("Durgapur", mkCoords (234803 # 10000) (873119 # 10000));
  ("Asansol", mkCoords (236739 # 10000) (869924 # 10000));
  ("Nanded", mkCoords (191383 # 10000) (772975 # 10000));
  ("Kolhapur", mkCoords (167050 # 10000) (742433 # 10000));
  ("Ajmer", mkCoords (264499 # 10000) (746399 # 10000));
  ("Akola", mkCoords (207002 # 10000) (770082 # 10000));
  ("Gulbarga", mkCoords (173297 # 10000) (768343 # 10000));
  ("Jamnagar", mkCoords (224707 # 10000) (700577 # 10000));
  ("Ujjain", mkCoords (231765 # 10000) (757885 # 10000));
  ("Loni", mkCoords (287333 # 10000) (772833 # 10000));
  ("Siliguri", mkCoords (267271 # 10000) (883953 # 10000));
  ("Jhansi", mkCoords (254484 # 10000) (785685 # 10000));
  ("Ulhasnagar", mkCoords (192183 # 10000) (731535 # 10000));
  ("Jammu", mkCoords (327266 # 10000) (748570 # 10000));
  ("Sangli-Miraj", mkCoords (168524 # 10000) (745815 # 10000));
  ("Mangalore", mkCoords (129141 # 10000) (748560 # 10000));
  ("Erode", mkCoords (113410 # 10000) (777172 # 10000));
  ("Belgaum", mkCoords (158497 # 10000) (744977 # 10000));
  ("Ambattur", mkCoords (131143 # 10000) (801548 # 10000));
  ("Tirunelveli", mkCoords (87139 # 10000) (777567 # 10000));
  ("Malegaon", mkCoords (205579 # 10000) (745287 # 10000));
  ("Gaya", mkCoords (247914 # 10000) (850002 # 10000));
  ("Jalgaon", mkCoords (210077 # 10000) (755626 # 10000));
  ("Udaipur", mkCoords (245854 # 10000) (737125 # 10000));
  ("Maheshtala", mkCoords (224983 # 10000) (882483 # 10000)) ].

Definition tier1Cities : list string :=
[
  "Mumbai"; "New Delhi"; "Bangalore"; "Chennai"; "Pune"; "Hyderabad"; "Kolkata"; "Ahmedabad";
  "Gurgaon"; "Noida" ].

Definition tier2Cities : list string :=
[
  "Surat"; "Jaipur"; "Lucknow"; "Kanpur"; "Nagpur"; "Indore"; "Bhopal"; "Visakhapatnam";
  "Patna"; "Vadodara"; "Ludhiana"; "Agra"; "Nashik"; "Faridabad"; "Meerut"; "Rajkot";
  "Varanasi"; "Aurangabad"; "Amritsar"; "Allahabad"; "Ranchi"; "Howrah"; "Coimbatore";
  "Jabalpur"; "Gwalior"; "Vijayawada"; "Jodhpur"; "Madurai"; "Raipur"; "Kota"; "Chandigarh";
  "Guwahati"; "Solapur"; "Hubli"; "Mysore"; "Tiruchirappalli"; "Salem"; "Thiruvananthapuram";
  "Guntur"; "Bikaner"; "Amravati"; "Jamshedpur"; "Bhilai"; "Cuttack"; "Kochi"; "Bhavnagar";
  "Dehradun"; "Durgapur"; "Asansol"; "Kolhapur"; "Ajmer"; "Gulbarga"; "Jamnagar"; "Ujjain";
  "Siliguri"; "Jhansi"; "Jammu"; "Mangalore"; "Erode"; "Belgaum"; "Tirunelveli"; "Udaipur" ].

(** [Array.prototype.includes] on strings. *)
Definition includes (l : list string) (s : string) : bool :=
  existsb (String.eqb s) l.

Definition getLocationTier (cityName : string) : string :=
  if includes tier1Cities cityName then "tier1"
  else if includes tier2Cities cityName then "tier2"
  else "tier3".

(** The [case] labels of the [switch] in [getRandomConnectionType]. *)
Inductive SwitchCase := CaseTier1 | CaseTier2 | CaseTier3 | CaseRural | CaseDefault.

Definition switchCase (locationTier : string) : SwitchCase :=
  if locationTier =? "tier1" then CaseTier1
  else if locationTier =? "tier2" then CaseTier2
  else if locationTier =? "tier3" then CaseTier3
  else if locationTier =? "rural" then CaseRural
  else CaseDefault.

Definition geQ (x y : Q) : bool := Qle_bool y x.
Definition leQ (x y : Q) : bool := Qle_bool x y.

(** The filter applied in each branch of the [switch]. *)
Definition caseFilter (c : SwitchCase) (conn : Connection) : bool :=
  match c with
  | CaseTier1 =>
      includes ["fiber"; "cable"; "5g"; "4g"; "wifi"] (type conn) && geQ (downlink conn) 5
  | CaseTier2 =>
      includes ["fiber"; "cable"; "4g"; "3g"; "wifi"; "dsl"] (type conn)
      && geQ (downlink conn) 2
  | CaseTier3 => includes ["4g"; "3g"; "2g"; "wifi"; "dsl"] (type conn)
  | CaseRural =>
      includes ["4g"; "3g"; "2g"; "satellite"] (type conn) && leQ (downlink conn) 10
  | CaseDefault => true
  end.

Definition filteredConnections (locationTier : string) : list Connection :=
  filter (caseFilter (switchCase locationTier)) connectionTypes.

Definition getRandomConnectionType (locationTier : string) (g : Rng)
  : option Connection * Rng :=
  getRandomElement (filteredConnections locationTier) g.

Fixpoint lookup (table : list (string * Coords)) (key : string) : option Coords :=
  match table with
  | [] => None
  | (k, v) :: rest => if k =? key then Some v else lookup rest key
  end.

(** [indianCoordinates[cityName] || indianCoordinates['Mumbai']]: the base
    point the jitter is added to. *)
Definition canonicalCoords (cityName : string) : Coords :=
  match lookup indianCoordinates cityName with
  | Some c => c
  | None => mkCoords (190760 # 10000) (728777 # 10000)
  end.

(** [(Math.random() - 0.5) * 0.01] *)
Definition jitter (r : Q) : Q :=
  Float64.mul (Float64.sub r (Float64.number (1 # 2))) (Float64.number (1 # 100)).

(** [coords.lat + (Math.random() - 0.5) * 0.01], and the same for
    [coords.lng]; the table entry is the double its literal denotes. *)
Definition getRandomCoordinatesForCity (cityName : string) (g : Rng) : Coords * Rng :=
  let coords := canonicalCoords cityName in
  let (r1, g1) := Math_random g in
  let (r2, g2) := Math_random g1 in
  (mkCoords (Float64.add (Float64.number (lat coords)) (jitter r1))
            (Float64.add (Float64.number (lng coords)) (jitter r2)), g2).

Record GeoIP := mkGeoIP {
  geo_ip : string;
  geo_isp : string;
  geo_city : string;
  geo_state : string;
  geo_pincode : string;
  geo_area : string;
  country : string;
  countryCode : string;
  latitude : Q;
  longitude : Q
}.

Definition decimal (z : Z) : string := NilEmpty.string_of_int (Z.to_int z).

(** [generateIndianIPData]: [None] stands for the [TypeError] raised when
    the drawn table entry is [undefined]. *)
Definition generateIndianIPData (g : Rng) : option GeoIP * Rng :=
  let (entry, g1) := getRandomElement indianIPData g in
  match entry with
  | None => (None, g1)
  | Some ipData =>
      let (r, g2) := Math_random g1 in
      let lastOctet := (Math_floor (r * 254) + 1)%Z in
      let fullIP := ip ipData ++ decimal lastOctet in
      let (c1, g3) := getRandomCoordinatesForCity (city ipData) g2 in
      let (c2, g4) := getRandomCoordinatesForCity (city ipData) g3 in
      (Some (mkGeoIP fullIP (isp ipData) (city ipData) (state ipData) (pincode ipData)
               (area ipData) "India" "IN" (lat c1) (lng c2)), g4)
  end.

(** [coords.lat + (Math.random() - 0.5) * 0.01] with the operations of
    the IEEE 754 specification. *)
Definition coordinate754 (base r : Q) : spec_float :=
  SFadd 53 1024 (Float64.fraction base)
    (SFmul 53 1024 (SFsub 53 1024 (Float64.fraction r) (Float64.fraction (1 # 2)))
                   (Float64.fraction (1 # 100))).

(** Draws at both ends of the range of [Math.random()], next to them and
    in the middle: 0, 2^-53, 1/2 - 2^-53, 1/2, 1 - 2^-53. *)
Definition sampleDraws : list Q :=
  [ 0; 1 # 9007199254740992; 4503599627370495 # 9007199254740992; 1 # 2;
    9007199254740991 # 9007199254740992 ].

(** Whether the two ways of computing a coordinate agree on [base] at every
    sample draw. *)
Definition agreesWith754 (base : Q) : bool :=
  forallb (fun r => Float64.finite (coordinate754 base r)
                    && Qeq_bool (Float64.value (coordinate754 base r))
                                (Float64.add (Float64.number base) (jitter r)))
          sampleDraws.

(** Half-width of the jitter interval, in degrees. *)
Definition jitterRadius : Q := 5 # 1000.

(** Room for the three roundings between a table entry and a coordinate:
    of the entry's literal, of the jitter and of their sum. *)
Definition roundingSlack : Q := Float64.pow2 (-45).

(** Connection types permitted for a tier, and the tier's speed floor in
    Mbps (no floor for the lowest tiers). *)
Definition allowedTypes (tier : string) : list string :=
  if tier =? "tier1" then ["fiber"; "cable"; "5g"; "4g"; "wifi"]
  else if tier =? "tier2" then ["fiber"; "cable"; "4g"; "3g"; "wifi"; "dsl"]
  else if tier =? "tier3" then ["4g"; "3g"; "2g"; "wifi"; "dsl"]
  else if tier =? "rural" then ["4g"; "3g"; "2g"; "satellite"]
  else [].

Definition downlinkFloor (tier : string) : Q :=
  if tier =? "tier1" then 5 else if tier =? "tier2" then 2 else 0.

(** [n] successive calls of [getRandomConnectionType] on one random source. *)
Fixpoint drawConnections (locationTier : string) (n : nat) (g : Rng)
  : list (option Connection) :=
  match n with
  | O => []
  | S k =>
      let (c, g1) := getRandomConnectionType locationTier g in
      c :: drawConnections locationTier k g1
  end.

Record Resolution := mkResolution { width : nat; height : nat }.

(** The value returned by [setupPageFingerprint]. *)
Record Fingerprint := mkFingerprint {
  userAgent : option string;
  resolution : option Resolution;
  timezone : option string;
  language : option string;
  ipData : GeoIP;
  connectionInfo : option Connection;
  locationTier : string
}.

Section Generator.

(** Reference tables whose content no property below depends on. *)
Variables (userAgents : list string) (resolutions : list Resolution)
          (timezones : list string) (languages : list string).

(** The draws of [setupPageFingerprint], before the page is touched. *)
Definition generateProfile (g : Rng) : option Fingerprint * Rng :=
  let (ua, g1) := getRandomElement userAgents g in
  let (res, g2) := getRandomElement resolutions g1 in
  let (tz, g3) := getRandomElement timezones g2 in
  let (lang, g4) := getRandomElement languages g3 in
  let (geo, g5) := generateIndianIPData g4 in
  match geo with
  | None => (None, g5)
  | Some ipData =>
      let locationTier := getLocationTier (geo_city ipData) in
      let (conn, g6) := getRandomConnectionType locationTier g5 in
      (Some (mkFingerprint ua res tz lang ipData conn locationTier), g6)
  end.

End Generator.

(** *** Stated property *)

(** The coordinates of every generated profile lie within the jitter
    radius, on each axis, of the entry the coordinate table holds for the
    profile's own city. *)
Definition OwnCityJitter : Prop :=
  forall (g : Rng) (p : Fingerprint),
    fair g ->
    fst (generateProfile [] [] [] [] g) = Some p ->
    exists c,
      lookup indianCoordinates (geo_city (ipData p)) = Some c
      /\ (Qabs (latitude (ipData p) - lat c) <= jitterRadius)%Q
      /\ (Qabs (longitude (ipData p) - lng c) <= jitterRadius)%Q.

(** A random source whose fifth draw selects the fourteenth record of the
    IP table, the one for Delhi. *)
Definition delhiRng : Rng := fun n => if (n =? 4)%nat then 27 # 164 else 0.

(** A random source whose fifth draw selects the fifteenth record, one of
    Bangalore, and whose draws for the coordinates are zero. *)
Definition bangaloreRng : Rng := fun n => if (n =? 4)%nat then 29 # 164 else 0.

End Profile.

(** ** Asynchronous computations

    An [async] function is a tree of state reads and writes, suspension
    points ([await]) and a final outcome.  The state survives a [Throw], as
    the effects of a JavaScript function survive the exception it raises. *)

Module Async.

Inductive Error :=
| BrowserLaunchFailure
| PageCreationFailure
| NavigationTimeout
| ProtocolError
| ClickFailure
| TelemetryWriteError
| CloseFailure
| MAX_CLICKS_REACHED.

Inductive Outcome (A : Type) : Type :=
| Ok (a : A)
| Throw (error : Error).

Arguments Ok {A} a.
Arguments Throw {A} error.

Inductive Co (S A : Type) : Type :=
| Ret (r : Outcome A)
| Get (k : S -> Co S A)
| Put (s : S) (k : Co S A)
| Yield (k : Co S A).

Arguments Ret {S A} r.
Arguments Get {S A} k.
Arguments Put {S A} s k.
Arguments Yield {S A} k.

Section Combinators.

Context {S : Type}.

Definition ret {A : Type} (a : A) : Co S A := Ret (Ok a).

Definition throw {A : Type} (error : Error) : Co S A := Ret (Throw error).

Fixpoint bind {A B : Type} (m : Co S A) (f : A -> Co S B) : Co S B :=
  match m with
  | Ret (Ok a) => f a
  | Ret (Throw error) => Ret (Throw error)
  | Get k => Get (fun s => bind (k s) f)
  | Put s k => Put s (bind k f)
  | Yield k => Yield (bind k f)
  end.

(** [try { m } catch (error) { handler error }] *)
Fixpoint tryCatch {A : Type} (m : Co S A) (handler : Error -> Co S A) : Co S A :=
  match m with
  | Ret (Ok a) => Ret (Ok a)
  | Ret (Throw error) => handler error
  | Get k => Get (fun s => tryCatch (k s) handler)
  | Put s k => Put s (tryCatch k handler)
  | Yield k => Yield (tryCatch k handler)
  end.

(** [try { m } finally { finalizer }]: the finalizer runs on both exits
    and its own exception, if any, replaces the outcome of [m]. *)
Fixpoint tryFinally {A : Type} (m : Co S A) (finalizer : Co S unit) : Co S A :=
  match m with
  | Ret r => bind finalizer (fun _ => Ret r)
  | Get k => Get (fun s => tryFinally (k s) finalizer)
  | Put s k => Put s (tryFinally k finalizer)
  | Yield k => Yield (tryFinally k finalizer)
  end.

(** [await m] for the promise of an [async] call [m]: the caller resumes in
    a later turn of the event loop, with the outcome of [m]. *)
Fixpoint await {A : Type} (m : Co S A) : Co S A :=
  match m with
  | Ret r => Yield (Ret r)
  | Get k => Get (fun s => await (k s))
  | Put s k => Put s (await k)
  | Yield k => Yield (await k)
  end.

(** [promise.catch(() => {})] *)
Definition swallow (m : Co S unit) : Co S unit := tryCatch m (fun _ => ret tt).

Definition gets {A : Type} (f : S -> A) : Co S A := Get (fun s => ret (f s)).

Definition modify (f : S -> S) : Co S unit := Get (fun s => Put (f s) (ret tt)).

(** Sequential execution: the computation runs alone to its end. *)
Fixpoint run {A : Type} (m : Co S A) (s : S) : Outcome A * S :=
  match m with
  | Ret r => (r, s)
  | Get k => run (k s) s
  | Put s' k => run k s'
  | Yield k => run k s
  end.

(** One turn of the event loop: the computation runs from where it is
    suspended to its next suspension point, or to its end. *)
Fixpoint advance {A : Type} (m : Co S A) (s : S) : S * Co S A :=
  match m with
  | Ret r => (s, Ret r)
  | Get k => advance (k s) s
  | Put s' k => advance k s'
  | Yield k => (s, k)
  end.

Definition settled {A : Type} (m : Co S A) : bool :=
  match m with
  | Ret _ => true
  | _ => false
  end.

End Combinators.

Declare Scope co_scope.
Delimit Scope co_scope with co.
Notation "x <- m ;; k" := (bind m (fun x => k))
  (at level 61, m at next level, right associativity) : co_scope.
Notation "m ;; k" := (bind m (fun _ => k))
  (at level 61, right associativity) : co_scope.

(** Variables local to one activation of a function: the body runs on the
    shared state paired with its locals. *)
Section Locals.

Context {W L : Type}.

Fixpoint scope {A : Type} (locals : L) (m : Co (W * L) A) : Co W A :=
  match m with
  | Ret r => Ret r
  | Get k => Get (fun w => scope locals (k (w, locals)))
  | Put (w, locals') k => Put w (scope locals' k)
  | Yield k => Yield (scope locals k)
  end.

Fixpoint lift {A : Type} (m : Co W A) : Co (W * L) A :=
  match m with
  | Ret r => Ret r
  | Get k => Get (fun s => lift (k (fst s)))
  | Put w k => Get (fun s => Put (w, snd s) (lift k))
  | Yield k => Yield (lift k)
  end.

Definition getLocal {A : Type} (f : L -> A) : Co (W * L) A := gets (fun s => f (snd s)).

Definition setLocal (f : L -> L) : Co (W * L) unit :=
  modify (fun s => (fst s, f (snd s))).

End Locals.

End Async.

(** ** Shared state, browser capability and telemetry recorder *)

Module Engine.
Import Async.
Local Open Scope list_scope.
Local Open Scope co_scope.

(** *** Pages and selectors *)

(** An element handle, as [page.$$] hands it out: the element it stands
    for, and what the browser answers when the script uses the handle. *)
Record Element := mkElement {
  tagName : string;
  attributes : list (string * string);
  textContent : string;
  (** [element.evaluate(...)] rejects *)
  evaluateFails : bool;
  (** [element.click()] rejects *)
  clickFails : bool
}.

(** The selectors the scripts pass to [page.$$]. *)
Inductive Simple :=
| ByTag (tag : string)
| ByTagAttr (tag attr value : string)
| ByClass (name : string)
| ById (name : string)
| AttrContains (attr value : string)
| AttrEquals (attr value : string)
| HasAttr (attr : string).

(** A selector group: [a, b, c]. *)
Definition Selector := list Simple.

(** An entry of [submitSelectors]: a selector for [page.$$], or the pseudo
    selector [button:contains(text)] recognised by
    [selector.includes('contains')]. *)
Inductive SubmitSelector :=
| Css (selector : Simple)
| Contains (text : string).

(** [String.prototype.toLowerCase] and [trim] on ASCII text, where they
    are the lowering of the letters A to Z and the removal of tab, line
    feed, vertical tab, form feed, carriage return and space.  The names,
    keywords and digits of the scripts are ASCII; text read from a page
    goes through [String_toLowerCase] and [String_trim] below. *)
Definition lowerChar (c : ascii) : ascii :=
  let n := nat_of_ascii c in
  if ((65 <=? n) && (n <=? 90))%nat then ascii_of_nat (n + 32) else c.

Fixpoint toLowerCase (s : string) : string :=
  match s with
  | EmptyString => EmptyString
  | String c rest => String (lowerChar c) (toLowerCase rest)
  end.

Definition isSpace (c : ascii) : bool :=
  let n := nat_of_ascii c in
  ((n =? 32) || (n =? 9) || (n =? 10) || (n =? 13) || (n =? 11) || (n =? 12))%nat.

Fixpoint trimStart (s : string) : string :=
  match s with
  | EmptyString => EmptyString
  | String c rest => if isSpace c then trimStart rest else s
  end.

Fixpoint trimEnd (s : string) : string :=
  match s with
  | EmptyString => EmptyString
  | String c rest =>
      match trimEnd rest with
      | EmptyString => if isSpace c then EmptyString else String c EmptyString
      | kept => String c kept
      end
  end.

Definition trim (s : string) : string := trimEnd (trimStart s).

Fixpoint startsWith (s prefix : string) : bool :=
  match prefix with
  | EmptyString => true
  | String p prefix' =>
      match s with
      | EmptyString => false
      | String c rest => Ascii.eqb c p && startsWith rest prefix'
      end
  end.

(** [String.prototype.includes] *)
Fixpoint strIncludes (s sub : string) : bool :=
  startsWith s sub
  || match s with
     | EmptyString => false
     | String _ rest => strIncludes rest sub
     end.

Fixpoint isAscii (s : string) : bool :=
  match s with
  | EmptyString => true
  | String c rest => (nat_of_ascii c <? 128)%nat && isAscii rest
  end.

(** *** Records *)

Record Account := mkAccount {
  name : string;
  email : string;
  userId : nat;
  sessionId : string
}.

Record ClickData := mkClickData {
  tabNumber : nat;
  username : string;
  clickEmail : string;
  clickUserId : nat;
  clickSessionId : string;
  url : string;
  sessionStartTime : N;
  sessionEndTime : N;
  timeTaken : N;
  interactionDuration : N
}.

(** [recordWithMeta]: the click data under its sequence number and
    timestamp. *)
Record ClickRecord := mkClickRecord {
  clickNumber : nat;
  timestamp : N;
  clickData : ClickData
}.

Inductive CsvLine :=
| HeaderLine
| RowLine (record : ClickRecord).

Inductive Handle :=
| BrowserHandle (id : nat)
| PageHandle (id : nat).

Definition Handle_eqb (a b : Handle) : bool :=
  match a, b with
  | BrowserHandle i, BrowserHandle j => (i =? j)%nat
  | PageHandle i, PageHandle j => (i =? j)%nat
  | _, _ => false
  end.

(** The console lines the properties refer to. *)
Inductive LogLine :=
| LOG_PROCESS (batch urlIndex : nat) (target : string)
| LOG_SESSION (index : nat) (target : string)
| LOG_CSV_UPDATE (count : nat)
| LOG_CSV_ERROR_update (error : Error)
| LOG_CSV_REPORT (records : nat)
| LOG_CSV_ERROR_report (error : Error)
| LOG_CLICK_COUNTER (count : nat)
| LOG_ERROR_interaction (error : Error)
| LOG_WARNING_no_submit
| LOG_ERROR_failed (index : nat) (error : Error)
| LOG_SYSTEM_terminated (index : nat).

(** *** The shared state *)

Record World := mkWorld {
  globalClickCounter : nat;
  clickReportData : list ClickRecord;
  (** [data.csv]: absent, or its lines *)
  dataCsv : option (list CsvLine);
  (** the [engagement-report-*.csv] files written so far *)
  reportFiles : list (list ClickRecord);
  (** [completedClicks] / [completedTabs] of the running [openEnhancedTabs] *)
  completed : nat;
  activeConnections : nat;
  (** milliseconds elapsed, as [Date.now()] sees them *)
  clock : N;
  (** the handles handed out by [launch] and [newPage], oldest first *)
  acquired : list Handle;
  (** the handles on which [close()] was called, oldest first *)
  closeCalls : list Handle;
  (** the handles on which [close()] was called and did not reject *)
  released : list Handle;
  (** the targets [page.goto] was called with, oldest first *)
  navigations : list string;
  (** the elements whose [click()] resolved, oldest first *)
  clicked : list Element;
  console : list LogLine
}.

Definition initialWorld : World :=
  mkWorld 0 [] None [] 0 0 0%N [] [] [] [] [] [].

Definition set_globalClickCounter (v : nat) (w : World) : World :=
  mkWorld v (clickReportData w) (dataCsv w) (reportFiles w) (completed w)
    (activeConnections w) (clock w) (acquired w) (closeCalls w) (released w)
    (navigations w) (clicked w) (console w).

Definition set_clickReportData (v : list ClickRecord) (w : World) : World :=
  mkWorld (globalClickCounter w) v (dataCsv w) (reportFiles w) (completed w)
    (activeConnections w) (clock w) (acquired w) (closeCalls w) (released w)
    (navigations w) (clicked w) (console w).

Definition set_dataCsv (v : option (list CsvLine)) (w : World) : World :=
  mkWorld (globalClickCounter w) (clickReportData w) v (reportFiles w) (completed w)
    (activeConnections w) (clock w) (acquired w) (closeCalls w) (released w)
    (navigations w) (clicked w) (console w).

Definition set_reportFiles (v : list (list ClickRecord)) (w : World) : World :=
  mkWorld (globalClickCounter w) (clickReportData w) (dataCsv w) v (completed w)
    (activeConnections w) (clock w) (acquired w) (closeCalls w) (released w)
    (navigations w) (clicked w) (console w).

Definition set_completed (v : nat) (w : World) : World :=
  mkWorld (globalClickCounter w) (clickReportData w) (dataCsv w) (reportFiles w) v
    (activeConnections w) (clock w) (acquired w) (closeCalls w) (released w)
    (navigations w) (clicked w) (console w).

Definition set_activeConnections (v : nat) (w : World) : World :=
  mkWorld (globalClickCounter w) (clickReportData w) (dataCsv w) (reportFiles w)
    (completed w) v (clock w) (acquired w) (closeCalls w) (released w)
    (navigations w) (clicked w) (console w).

Definition set_clock (v : N) (w : World) : World :=
  mkWorld (globalClickCounter w) (clickReportData w) (dataCsv w) (reportFiles w)
    (completed w) (activeConnections w) v (acquired w) (closeCalls w) (released w)
    (navigations w) (clicked w) (console w).

Definition set_acquired (v : list Handle) (w : World) : World :=
  mkWorld (globalClickCounter w) (clickReportData w) (dataCsv w) (reportFiles w)
    (completed w) (activeConnections w) (clock w) v (closeCalls w) (released w)
    (navigations w) (clicked w) (console w).

Definition set_closeCalls (v : list Handle) (w : World) : World :=
  mkWorld (globalClickCounter w) (clickReportData w) (dataCsv w) (reportFiles w)
    (completed w) (activeConnections w) (clock w) (acquired w) v (released w)
    (navigations w) (clicked w) (console w).

Definition set_released (v : list Handle) (w : World) : World :=
  mkWorld (globalClickCounter w) (clickReportData w) (dataCsv w) (reportFiles w)
    (completed w) (activeConnections w) (clock w) (acquired w) (closeCalls w) v
    (navigations w) (clicked w) (console w).

Definition set_navigations (v : list string) (w : World) : World :=
  mkWorld (globalClickCounter w) (clickReportData w) (dataCsv w) (reportFiles w)
    (completed w) (activeConnections w) (clock w) (acquired w) (closeCalls w)
    (released w) v (clicked w) (console w).

Definition set_clicked (v : list Element) (w : World) : World :=
  mkWorld (globalClickCounter w) (clickReportData w) (dataCsv w) (reportFiles w)
    (completed w) (activeConnections w) (clock w) (acquired w) (closeCalls w)
    (released w) (navigations w) v (console w).

Definition set_console (v : list LogLine) (w : World) : World :=
  mkWorld (globalClickCounter w) (clickReportData w) (dataCsv w) (reportFiles w)
    (completed w) (activeConnections w) (clock w) (acquired w) (closeCalls w)
    (released w) (navigations w) (clicked w) v.

(** *** What the outside world does during one session *)

Record Env := mkEnv {
  (** the result of [generateAccountDetails()] *)
  account : Account;
  launchOk : bool;
  newPageOk : bool;
  gotoOk : bool;
  (** [page.title()] and [page.url()] resolve *)
  titleOk : bool;
  (** [page.waitForSelector('body')] and the page analysis resolve *)
  bodyOk : bool;
  (** the element handles [page.$$(selector)] resolves to, in document
      order: the answer of the browser's selector engine for the page *)
  select : Selector -> list Element;
  (** [page.$$(selector)] rejects *)
  queryFails : Selector -> bool;
  (** the [page.evaluate] calls after the click resolve *)
  contentOk : bool;
  isLoading : bool;
  (** [fs.promises.appendFile] and [fs.promises.writeFile] resolve *)
  appendOk : bool;
  writeOk : bool;
  pageCloseOk : bool;
  browserCloseOk : bool;
  (** [Math.floor(Math.random() * (60000 - 20000 + 1)) + 20000] *)
  randomDelay : N;
  (** [String.prototype.toLowerCase] and [String.prototype.trim] of the
      platform on text that is not ASCII: the Unicode case mapping and the
      Unicode white space are the platform's *)
  unicodeToLowerCase : string -> string;
  unicodeTrim : string -> string
}.

(** [s.toLowerCase()] *)
Definition String_toLowerCase (env : Env) (s : string) : string :=
  if isAscii s then toLowerCase s else unicodeToLowerCase env s.

(** [s.trim()] *)
Definition String_trim (env : Env) (s : string) : string :=
  if isAscii s then trim s else unicodeTrim env s.

(** *** Primitives *)

Definition log (line : LogLine) : Co World unit :=
  modify (fun w => set_console (console w ++ [line]) w).

(** [await delay(ms)] *)
Definition delay (ms : N) : Co World unit :=
  Yield (modify (fun w => set_clock (clock w + ms)%N w)).

(** [await puppeteer.launch(...)] *)
Definition launch (env : Env) : Co World Handle :=
  Yield (if launchOk env
         then w <- gets (fun w => w) ;;
              let h := BrowserHandle (length (acquired w)) in
              modify (set_acquired (acquired w ++ [h])) ;;
              ret h
         else throw BrowserLaunchFailure).

(** [await browser.newPage()] *)
Definition newPage (env : Env) (browser : Handle) : Co World Handle :=
  Yield (if newPageOk env
         then w <- gets (fun w => w) ;;
              let h := PageHandle (length (acquired w)) in
              modify (set_acquired (acquired w ++ [h])) ;;
              ret h
         else throw PageCreationFailure).

(** [await page.goto(url, ...)]: the navigation is attempted, and times out
    or resolves. *)
Definition goto (env : Env) (target : string) : Co World unit :=
  modify (fun w => set_navigations (navigations w ++ [target]) w) ;;
  Yield (if gotoOk env then ret tt else throw NavigationTimeout).

(** [await page.title()] followed by [await page.url()] *)
Definition title (env : Env) : Co World unit :=
  Yield (if titleOk env then ret tt else throw ProtocolError).

(** [await page.waitForSelector('body')] followed by the page analysis *)
Definition waitForBody (env : Env) : Co World unit :=
  Yield (if bodyOk env then ret tt else throw ProtocolError).

(** [await page.evaluate(...)] after the click *)
Definition evaluateContent (env : Env) : Co World unit :=
  Yield (if contentOk env then ret tt else throw ProtocolError).

(** [await page.$$(selector)]: the matching elements in document order. *)
Definition querySelectorAll (env : Env) (selector : Selector) : Co World (list Element) :=
  Yield (if queryFails env selector
         then throw ProtocolError
         else ret (select env selector)).

(** [await element.evaluate(...)] *)
Definition evaluate (element : Element) : Co World unit :=
  Yield (if evaluateFails element then throw ProtocolError else ret tt).

(** [await element.click()] *)
Definition click (element : Element) : Co World unit :=
  Yield (if clickFails element
         then throw ClickFailure
         else modify (fun w => set_clicked (clicked w ++ [element]) w)).

Definition closeOk (env : Env) (h : Handle) : bool :=
  match h with
  | BrowserHandle _ => browserCloseOk env
  | PageHandle _ => pageCloseOk env
  end.

(** [handle.close()] *)
Definition close (env : Env) (h : Handle) : Co World unit :=
  modify (fun w => set_closeCalls (closeCalls w ++ [h]) w) ;;
  Yield (if closeOk env h
         then modify (fun w => set_released (released w ++ [h]) w)
         else throw CloseFailure).

(** [await fs.promises.appendFile(csvPath, csvContent)] *)
Definition appendFile (env : Env) (csvContent : list CsvLine) : Co World unit :=
  Yield (if appendOk env
         then modify (fun w =>
                        set_dataCsv
                          (Some (match dataCsv w with
                                 | Some old => old ++ csvContent
                                 | None => csvContent
                                 end)) w)
         else throw TelemetryWriteError).

(** [await fs.promises.writeFile(filePath, csvContent)] *)
Definition writeFile (env : Env) (csvContent : list ClickRecord) : Co World unit :=
  Yield (if writeOk env
         then modify (fun w => set_reportFiles (reportFiles w ++ [csvContent]) w)
         else throw TelemetryWriteError).

(** *** Telemetry recorder (the same text in both scripts) *)

Definition existsSync (w : World) : bool :=
  match dataCsv w with
  | Some _ => true
  | None => false
  end.

Definition updateCSVFile (env : Env) (record : ClickRecord) : Co World unit :=
  fileExists <- gets existsSync ;;
  let csvContent := (if fileExists then [] else [HeaderLine]) ++ [RowLine record] in
  appendFile env csvContent.

Definition addClickRecord (env : Env) (data : ClickData) : Co World unit :=
  w <- gets (fun w => w) ;;
  let recordWithMeta := mkClickRecord (globalClickCounter w) (clock w) data in
  modify (fun w => set_clickReportData (clickReportData w ++ [recordWithMeta]) w) ;;
  tryCatch
    (await (updateCSVFile env recordWithMeta) ;;
     n <- gets globalClickCounter ;;
     log (LOG_CSV_UPDATE n))
    (fun error => log (LOG_CSV_ERROR_update error)).

Definition generateCSVReport (env : Env) : Co World unit :=
  csvContent <- gets clickReportData ;;
  tryCatch
    (writeFile env csvContent ;;
     n <- gets (fun w => length (clickReportData w)) ;;
     log (LOG_CSV_REPORT n))
    (fun error => log (LOG_CSV_ERROR_report error) ;; throw error).

(** One attempt on an element, as the loops of [automated.js] make it:
    the element is read for the log, scrolled into view and, a second
    later, clicked. *)
Definition attempt (element : Element) : Co World unit :=
  evaluate element ;;
  evaluate element ;;
  delay 1000%N ;;
  click element.

(** [for (const element of elements)]: the elements are tried in order,
    each attempt in its own [try], until one succeeds
    ([submitted = true; break]). *)
Fixpoint clickFirstThatWorks (elements : list Element) : Co World bool :=
  match elements with
  | [] => ret false
  | element :: rest =>
      submitted <- tryCatch (attempt element ;; ret true) (fun _ => ret false) ;;
      if submitted then ret true else clickFirstThatWorks rest
  end.

(** The session gets as far as the recording step: launch, page creation,
    navigation and the title and URL queries all resolve. *)
Definition reaches (env : Env) : bool :=
  launchOk env && newPageOk env && gotoOk env && titleOk env.

(** The handles a session acquires, in the order of acquisition. *)
Definition newHandles (env : Env) (w : World) : list Handle :=
  if launchOk env
  then BrowserHandle (length (acquired w))
       :: (if newPageOk env then [PageHandle (S (length (acquired w)))] else [])
  else [].

(** *** Frame predicates *)

(** Every field except the clock, the click log and the console. *)
Definition core (w : World) :=
  (globalClickCounter w, clickReportData w, dataCsv w, reportFiles w, completed w,
   activeConnections w, acquired w, closeCalls w, released w, navigations w).

Definition Quiet {A : Type} (m : Co World A) : Prop :=
  forall w, core (snd (run m w)) = core w.

Definition NoThrow {A : Type} (m : Co World A) : Prop :=
  forall w, exists a, fst (run m w) = Ok a.

(** The line [addClickRecord] appends to [data.csv] when the append
    resolves. *)
Definition appended (old : option (list CsvLine)) (record : ClickRecord)
  : option (list CsvLine) :=
  match old with
  | Some lines => Some (lines ++ [RowLine record])
  | None => Some [HeaderLine; RowLine record]
  end.

(** The telemetry: counter, records, [data.csv] and the report files. *)
Definition telemetry (w : World) :=
  (globalClickCounter w, clickReportData w, dataCsv w, reportFiles w).

(** [data.csv] once the rows of [rs] have been appended to [file], one
    append per row. *)
Definition csvAfter (file : option (list CsvLine)) (rs : list ClickRecord)
  : option (list CsvLine) :=
  match file with
  | Some old => Some (old ++ map RowLine rs)
  | None =>
      match rs with
      | [] => None
      | _ => Some (HeaderLine :: map RowLine rs)
      end
  end.

(** [l] is [l'] with some elements left out. *)
Inductive Subseq {X : Type} : list X -> list X -> Prop :=
| Subseq_nil : Subseq [] []
| Subseq_skip (x : X) (l l' : list X) : Subseq l l' -> Subseq l (x :: l')
| Subseq_take (x : X) (l l' : list X) : Subseq l l' -> Subseq (x :: l) (x :: l').

(** The computation lets at least [ms] milliseconds of scripted delay
    pass when it returns, and never sets the clock back. *)
Definition Lasts {A : Type} (ms : N) (m : Co World A) : Prop :=
  forall w,
    match fst (run m w) with
    | Ok _ => (clock w + ms <= clock (snd (run m w)))%N
    | Throw _ => (clock w <= clock (snd (run m w)))%N
    end.

End Engine.
(** ** [automated.js]: the unbounded campaign, one browser window per click *)

Module Automated.
Import Async Engine.
Local Open Scope list_scope.
Local Open Scope co_scope.

Definition incrementClickCounter (env : Env) (data : ClickData) : Co World bool :=
  modify (fun w => set_globalClickCounter (globalClickCounter w + 1) w) ;;
  await (addClickRecord env data) ;;
  n <- gets globalClickCounter ;;
  log (LOG_CLICK_COUNTER n) ;;
  n25 <- gets globalClickCounter ;;
  (if (n25 mod 25 =? 0)%nat then await (generateCSVReport env) else ret tt) ;;
  n10 <- gets globalClickCounter ;;
  (if (n10 mod 10 =? 0)%nat then delay 30000%N else ret tt) ;;
  ret true.

Definition shouldContinue (w : World) : bool := true.

(** The click that is about to be counted triggers the periodic report and
    the report cannot be written. *)
Definition reportFails (env : Env) (w : World) : bool :=
  ((globalClickCounter w + 1) mod 25 =? 0)%nat && negb (writeOk env).

Definition submitSelectors : list SubmitSelector :=
  [ Css (ByTagAttr "button" "type" "submit");
    Css (ByTagAttr "input" "type" "submit");
    Contains "Send";
    Contains "Submit";
    Contains "Ask";
    Contains "Go";
    Contains "Enter";
    Css (ByClass "send-btn");
    Css (ByClass "submit-btn");
    Css (ById "send");
    Css (ById "submit");
    Css (ById "send-btn");
    Css (ByTag "button") ].

Definition fallbackSelectors : list Simple :=
  [ AttrContains "onclick" "send";
    AttrContains "onclick" "submit";
    AttrContains "class" "send";
    AttrContains "class" "submit";
    AttrContains "id" "send";
    AttrContains "id" "submit";
    ByTagAttr "input" "type" "button";
    AttrEquals "role" "button" ].

Definition anyClickableSelector : Selector :=
  [ ByTag "button";
    ByTagAttr "input" "type" "button";
    ByTagAttr "input" "type" "submit";
    HasAttr "onclick";
    AttrEquals "role" "button" ].

(** The text of a button as the text branch reads it:
    [el.textContent?.trim().toLowerCase() || ''] *)
Definition buttonText (env : Env) (button : Element) : string :=
  String_toLowerCase env (String_trim env (textContent button)).

(** [for (const button of buttons)] of the text branch: the text of each
    button is read in turn, and the first button whose text includes the
    search text is scrolled into view and clicked; a rejection, of a read
    or of the click, leaves the loop through the [catch] of the selector. *)
Fixpoint clickButtonWithText (env : Env) (searchText : string) (buttons : list Element)
  : Co World bool :=
  match buttons with
  | [] => ret false
  | button :: rest =>
      evaluate button ;;
      if strIncludes (buttonText env button) searchText
      then evaluate button ;; delay 1000%N ;; click button ;; ret true
      else clickButtonWithText env searchText rest
  end.

(** The body of [for (const selector of submitSelectors)], inside its
    [try]. *)
Definition trySelector (env : Env) (selector : SubmitSelector) : Co World bool :=
  match selector with
  | Contains text =>
      buttons <- querySelectorAll env [ByTag "button"] ;;
      clickButtonWithText env (String_toLowerCase env text) buttons
  | Css simple =>
      elements <- querySelectorAll env [simple] ;;
      clickFirstThatWorks elements
  end.

Fixpoint trySelectors (env : Env) (selectors : list SubmitSelector) : Co World bool :=
  match selectors with
  | [] => ret false
  | selector :: rest =>
      submitted <- tryCatch (trySelector env selector) (fun _ => ret false) ;;
      if submitted then ret true else trySelectors env rest
  end.

(** [for (const fallbackSelector of fallbackSelectors)]: a rejected
    [page.$$] leaves the loop through the [catch] around it. *)
Fixpoint tryFallbackSelectors (env : Env) (selectors : list Simple) : Co World bool :=
  match selectors with
  | [] => ret false
  | fallbackSelector :: rest =>
      fallbackElements <- querySelectorAll env [fallbackSelector] ;;
      submitted <- clickFirstThatWorks fallbackElements ;;
      if submitted then ret true else tryFallbackSelectors env rest
  end.

(** The three stages that look for something to click; the result is the
    final value of [submitted]. *)
Definition findAndClick (env : Env) : Co World bool :=
  submitted <- trySelectors env submitSelectors ;;
  submitted <- (if submitted : bool then ret true
                else tryCatch (tryFallbackSelectors env fallbackSelectors)
                              (fun _ => ret false)) ;;
  if submitted : bool then ret true
  else tryCatch (anyClickable <- querySelectorAll env anyClickableSelector ;;
                 clickFirstThatWorks (firstn 3 anyClickable))
                (fun _ => ret false).

(** The interaction block of the worker, with its own [try]/[catch]. *)
Definition interact (env : Env) : Co World unit :=
  tryCatch
    (waitForBody env ;;
     submitted <- findAndClick env ;;
     if submitted : bool
     then delay 15000%N ;;
          evaluateContent env ;;
          delay 20000%N ;;
          evaluateContent env ;;
          evaluateContent env ;;
          (if isLoading env then delay 10000%N else ret tt)
     else log LOG_WARNING_no_submit ;;
          delay 25000%N)
    (fun error => log (LOG_ERROR_interaction error) ;; delay 25000%N).

(** [let browser = null; let page = null;] *)
Record Locals := mkLocals {
  browser : option Handle;
  page : option Handle
}.

Definition closeIfSet (env : Env) (h : option Handle) : Co (World * Locals) unit :=
  match h with
  | Some handle => lift (swallow (close env handle))
  | None => ret tt
  end.

Definition createClickWorker (env : Env) (target : string) (clickIndex : nat)
  : Co World unit :=
  clickStart <- gets clock ;;
  scope (mkLocals None None)
    (tryFinally
       (tryCatch
          (lift (log (LOG_SESSION (clickIndex + 1) target)) ;;
           b <- lift (launch env) ;;
           setLocal (fun l => mkLocals (Some b) (page l)) ;;
           p <- lift (newPage env b) ;;
           setLocal (fun l => mkLocals (browser l) (Some p)) ;;
           lift (goto env target) ;;
           lift (delay 3600%N) ;;
           lift (title env) ;;
           lift (interact env) ;;
           clickEnd <- lift (gets clock) ;;
           let data :=
             mkClickData (clickIndex + 1) (name (account env)) (email (account env))
               (userId (account env)) (sessionId (account env)) target
               clickStart clickEnd (clickEnd - clickStart)%N (clickEnd - clickStart)%N in
           lift (await (incrementClickCounter env data)) ;;
           lift (modify (fun w => set_completed (completed w + 1) w)) ;;
           lift (delay (randomDelay env)))
          (fun error => lift (log (LOG_ERROR_failed (clickIndex + 1) error))))
       (p <- getLocal page ;;
        closeIfSet env p ;;
        b <- getLocal browser ;;
        closeIfSet env b)).

(** [for (let i = 0; i < numberOfClicks; i++) await createClickWorker(i)],
    from index [i] on, [remaining] iterations. *)
Fixpoint clickLoop (envs : nat -> Env) (target : string) (i remaining : nat)
  : Co World unit :=
  match remaining with
  | O => ret tt
  | S k =>
      await (createClickWorker (envs i) target i) ;;
      clickLoop envs target (i + 1) k
  end.

Definition openEnhancedTabs (envs : nat -> Env) (target : string) (numberOfClicks : nat)
  : Co World nat :=
  modify (set_completed 0) ;;
  clickLoop envs target 0 numberOfClicks ;;
  gets completed.

Definition urls : list string :=
  [ "https://aiskillshouse.com/student/qr-mediator.html?uid=50&promptId=17";
    "https://aiskillshouse.com/student/qr-mediator.html?uid=50&promptId=13";
    "https://aiskillshouse.com/student/qr-mediator.html?uid=50&promptId=14";
    "https://aiskillshouse.com/student/qr-mediator.html?uid=50&promptId=16";
    "https://aiskillshouse.com/student/qr-mediator.html?uid=50&promptId=15";
    "https://aiskillshouse.com/student/qr-mediator.html?uid=4620&promptId=17";
    "https://aiskillshouse.com/student/qr-mediator.html?uid=4620&promptId=16";
    "https://aiskillshouse.com/student/qr-mediator.html?uid=4620&promptId=15";
    "https://aiskillshouse.com/student/qr-mediator.html?uid=4620&promptId=14";
    "https://aiskillshouse.com/student/qr-mediator.html?uid=4620&promptId=13" ].

(** [for (let urlIndex = 0; urlIndex < urls.length; urlIndex++)] of one
    batch; [envs batch urlIndex i] describes the session of click [i]. *)
Fixpoint processUrls (envs : nat -> nat -> nat -> Env) (targets : list string)
  (batchCount urlIndex : nat) : Co World unit :=
  match targets with
  | [] => ret tt
  | target :: rest =>
      log (LOG_PROCESS batchCount (urlIndex + 1) target) ;;
      await (openEnhancedTabs (envs batchCount urlIndex) target 1) ;;
      processUrls envs rest batchCount (urlIndex + 1)
  end.

(** [while (true)] of [runEnhancedAutomation], observed for [batches]
    iterations from batch [batchCount] on. *)
Fixpoint runBatches (envs : nat -> nat -> nat -> Env) (targets : list string)
  (batchCount batches : nat) : Co World unit :=
  match batches with
  | O => ret tt
  | S k =>
      processUrls envs targets batchCount 0 ;;
      delay 2000%N ;;
      runBatches envs targets (batchCount + 1) k
  end.

Definition runEnhancedAutomation (envs : nat -> nat -> nat -> Env) (batches : nat)
  : Co World unit :=
  runBatches envs urls 1 batches.

(** *** Observations on a batch *)

(** The session obtains a browser and a page, so that it navigates. *)
Definition opensPage (env : Env) : bool := launchOk env && newPageOk env.

(** The URLs of [targets] whose session satisfies [p], in list order; the
    URL at position [urlIndex] is visited by session [envs batchCount
    urlIndex 0]. *)
Fixpoint sessionsSuchThat (p : Env -> bool) (envs : nat -> nat -> nat -> Env)
  (targets : list string) (batchCount urlIndex : nat) : list string :=
  match targets with
  | [] => []
  | target :: rest =>
      (if p (envs batchCount urlIndex 0%nat) then [target] else [])
      ++ sessionsSuchThat p envs rest batchCount (urlIndex + 1)
  end.

(** The URLs of the records, oldest first. *)
Definition recordedUrls (w : World) : list string :=
  map (fun r => url (clickData r)) (clickReportData w).

(** *** Observations on a campaign *)

(** The state in which the script starts when [data.csv] holds [file]
    (or is absent). *)
Definition startWorld (file : option (list CsvLine)) : World :=
  set_dataCsv file initialWorld.

(** The records carry the numbers 1 to the counter, in order. *)
Definition Numbered (w : World) : Prop :=
  map clickNumber (clickReportData w) = seq 1 (globalClickCounter w).

(** Every report file holds the first [25 * k] records, for some
    [k >= 1], and there is at most one file per 25 clicks. *)
Definition Snapshots (w : World) : Prop :=
  Numbered w
  /\ Forall (fun f => exists k,
                (1 <= k)%nat /\ (25 * k <= globalClickCounter w)%nat
                /\ f = firstn (25 * k) (clickReportData w))
       (reportFiles w)
  /\ (length (reportFiles w) <= globalClickCounter w / 25)%nat.

(** One report file for every 25 clicks counted. *)
Definition EverySnapshot (w : World) : Prop :=
  length (reportFiles w) = (globalClickCounter w / 25)%nat.

(** [data.csv] holds the starting file followed by rows of records, in
    the order of the records. *)
Definition CsvRows (file : option (list CsvLine)) (w : World) : Prop :=
  exists rs, dataCsv w = csvAfter file rs /\ Subseq rs (clickReportData w).

(** [data.csv] holds the starting file followed by the row of every
    record. *)
Definition CsvMirror (file : option (list CsvLine)) (w : World) : Prop :=
  dataCsv w = csvAfter file (clickReportData w).

(** The URLs whose session satisfies [p], over [batches] batches from
    batch [first] on. *)
Definition visited (p : Env -> bool) (envs : nat -> nat -> nat -> Env)
  (targets : list string) (first batches : nat) : list string :=
  flat_map (fun b => sessionsSuchThat p envs targets b 0%nat) (seq first batches).

(** Since [start], at least [perClick] milliseconds of scripted delay
    have passed for every click counted. *)
Definition Paced (perClick : N) (start w : World) : Prop :=
  (globalClickCounter start <= globalClickCounter w)%nat
  /\ (clock start
      + perClick * N.of_nat (globalClickCounter w - globalClickCounter start)
      <= clock w)%N.

End Automated.
(** ** The bounded script: [MAX_CLICKS] budget, parallel tab workers *)

Module Bounded.
Import Async Engine.
Local Open Scope list_scope.
Local Open Scope co_scope.

Section Budget.

(** [const MAX_CLICKS = 100] in the script; the budget is kept a parameter. *)
Variable MAX_CLICKS : nat.

Definition incrementClickCounter (env : Env) (data : ClickData) : Co World bool :=
  modify (fun w => set_globalClickCounter (globalClickCounter w + 1) w) ;;
  await (addClickRecord env data) ;;
  n <- gets globalClickCounter ;;
  log (LOG_CLICK_COUNTER n) ;;
  reached <- gets (fun w => (MAX_CLICKS <=? globalClickCounter w)%nat) ;;
  if reached : bool
  then await (generateCSVReport env) ;; ret false
  else ret true.

Definition shouldContinue (w : World) : bool :=
  (globalClickCounter w <? MAX_CLICKS)%nat.

(** What [incrementClickCounter] hands to the worker when it is called in
    state [w]. *)
Definition budgetOutcome (env : Env) (w : World) : Outcome bool :=
  if (MAX_CLICKS <=? globalClickCounter w + 1)%nat
  then if writeOk env then Ok false else Throw TelemetryWriteError
  else Ok true.

(** The session reaches the recording step and the budget is not met by
    its click: [completedTabs++] is executed. *)
Definition counted (env : Env) (w : World) : bool :=
  reaches env && (globalClickCounter w + 1 <? MAX_CLICKS)%nat.

Definition submitSelectors : list SubmitSelector :=
  [ Css (ByTagAttr "button" "type" "submit");
    Css (ByTagAttr "input" "type" "submit");
    Contains "Submit";
    Contains "Send";
    Contains "Ask";
    Css (ByTag "button");
    Css (ByClass "submit-btn");
    Css (ByClass "send-btn");
    Css (ById "submit");
    Css (ById "send-btn") ].

Definition clickableSelector : Selector :=
  [ ByTag "button";
    ByTagAttr "input" "type" "button";
    HasAttr "onclick";
    AttrEquals "role" "button" ].

(** [text && text.toLowerCase().includes(searchText?.toLowerCase() || '')] *)
Definition textMatches (env : Env) (element : Element) (searchText : string) : bool :=
  negb (textContent element =? "")
  && strIncludes (String_toLowerCase env (textContent element))
       (String_toLowerCase env searchText).

(** [for (const element of elements)] for a text selector: the text of
    each element is read in turn, and the first element whose text matches
    is clicked. *)
Fixpoint clickElementWithText (env : Env) (searchText : string) (elements : list Element)
  : Co World bool :=
  match elements with
  | [] => ret false
  | element :: rest =>
      evaluate element ;;
      if textMatches env element searchText
      then click element ;; ret true
      else clickElementWithText env searchText rest
  end.

(** [for (const element of elements)] for a CSS selector: the first
    element is clicked and the loop is left, by [break] or by the
    exception of the click. *)
Definition clickFirstElement (elements : list Element) : Co World bool :=
  match elements with
  | [] => ret false
  | element :: _ => click element ;; ret true
  end.

Definition trySelector (env : Env) (selector : SubmitSelector) : Co World bool :=
  match selector with
  | Contains text =>
      elements <- querySelectorAll env [ByTag "button"] ;;
      clickElementWithText env text elements
  | Css simple =>
      elements <- querySelectorAll env [simple] ;;
      clickFirstElement elements
  end.

Fixpoint trySelectors (env : Env) (selectors : list SubmitSelector) : Co World bool :=
  match selectors with
  | [] => ret false
  | selector :: rest =>
      submitted <- tryCatch (trySelector env selector) (fun _ => ret false) ;;
      if submitted then ret true else trySelectors env rest
  end.

Definition findAndClick (env : Env) : Co World bool :=
  submitted <- trySelectors env submitSelectors ;;
  if submitted : bool then ret true
  else tryCatch (clickableElements <- querySelectorAll env clickableSelector ;;
                 clickFirstElement clickableElements)
                (fun _ => ret false).

Definition interact (env : Env) : Co World unit :=
  tryCatch
    (waitForBody env ;;
     submitted <- findAndClick env ;;
     if submitted : bool
     then delay 10000%N ;; evaluateContent env
     else log LOG_WARNING_no_submit ;; delay 15000%N)
    (fun error => log (LOG_ERROR_interaction error) ;; delay 15000%N).

Record Locals := mkLocals {
  browser : option Handle;
  page : option Handle
}.

Definition closeIfSet (env : Env) (h : option Handle) : Co (World * Locals) unit :=
  match h with
  | Some handle => lift (swallow (close env handle))
  | None => ret tt
  end.

Definition createTabWorker (env : Env) (target : string) (tabIndex : nat)
  : Co World unit :=
  tabStart <- gets clock ;;
  scope (mkLocals None None)
    (tryFinally
       (tryCatch
          (lift (modify (fun w => set_activeConnections (activeConnections w + 1) w)) ;;
           lift (log (LOG_SESSION (tabIndex + 1) target)) ;;
           b <- lift (launch env) ;;
           setLocal (fun l => mkLocals (Some b) (page l)) ;;
           p <- lift (newPage env b) ;;
           setLocal (fun l => mkLocals (browser l) (Some p)) ;;
           lift (goto env target) ;;
           lift (delay 5000%N) ;;
           lift (title env) ;;
           lift (interact env) ;;
           tabEnd <- lift (gets clock) ;;
           let data :=
             mkClickData (tabIndex + 1) (name (account env)) (email (account env))
               (userId (account env)) (sessionId (account env)) target
               tabStart tabEnd (tabEnd - tabStart)%N (tabEnd - tabStart)%N in
           continue <- lift (await (incrementClickCounter env data)) ;;
           (if continue : bool then ret tt else throw MAX_CLICKS_REACHED) ;;
           lift (modify (fun w => set_completed (completed w + 1) w)))
          (fun error =>
             match error with
             | MAX_CLICKS_REACHED => lift (log (LOG_SYSTEM_terminated (tabIndex + 1)))
             | _ => lift (log (LOG_ERROR_failed (tabIndex + 1) error))
             end))
       (lift (modify (fun w => set_activeConnections (activeConnections w - 1) w)) ;;
        p <- getLocal page ;;
        closeIfSet env p ;;
        b <- getLocal browser ;;
        closeIfSet env b)).

End Budget.

End Bounded.

(** ** The search for something to click: candidates, orders and example inputs *)

Module Strategy.
Import Async Engine.
Local Open Scope list_scope.

(** *** The candidates of a search *)

(** What a loop over [page.$$(selector)] gets to see: nothing when the
    query rejects, since the rejection leaves the loop. *)
Definition resolved (env : Env) (selector : Selector) : list Element :=
  if queryFails env selector then [] else select env selector.

(** The button a text selector settles on: the first whose text passes
    [test], provided its text and the text of every button before it could
    be read. *)
Fixpoint firstWithText (test : Element -> bool) (buttons : list Element)
  : list Element :=
  match buttons with
  | [] => []
  | button :: rest =>
      if evaluateFails button then []
      else if test button then [button]
      else firstWithText test rest
  end.

Definition textIncludes (env : Env) (searchText : string) (button : Element) : bool :=
  strIncludes (Automated.buttonText env button) searchText.

(** The results of the selectors up to the first query that rejects. *)
Fixpoint untilRejected (env : Env) (selectors : list Simple) : list Element :=
  match selectors with
  | [] => []
  | selector :: rest =>
      if queryFails env [selector] then []
      else select env [selector] ++ untilRejected env rest
  end.

(** The elements an entry of [submitSelectors] makes [automated.js] try,
    in the order it tries them. *)
Definition automatedCandidates (env : Env) (selector : SubmitSelector) : list Element :=
  match selector with
  | Css simple => resolved env [simple]
  | Contains text =>
      firstWithText (textIncludes env (String_toLowerCase env text))
        (resolved env [ByTag "button"])
  end.

(** *** The order [automated.js] follows: the entries of [submitSelectors],
    the fallback selectors, then the first three clickable elements *)
Definition automatedOrder (env : Env) : list Element :=
  flat_map (automatedCandidates env) Automated.submitSelectors
  ++ untilRejected env Automated.fallbackSelectors
  ++ firstn 3 (resolved env Automated.anyClickableSelector).

(** The element an entry of [submitSelectors] makes the bounded script
    try: the first of a CSS selector, the first matching button of a text
    selector. *)
Definition boundedCandidates (env : Env) (selector : SubmitSelector) : list Element :=
  match selector with
  | Css simple => firstn 1 (resolved env [simple])
  | Contains text =>
      firstWithText (fun element => Bounded.textMatches env element text)
        (resolved env [ByTag "button"])
  end.

(** *** The order the bounded script follows *)
Definition boundedOrder (env : Env) : list Element :=
  flat_map (boundedCandidates env) (Bounded.submitSelectors)
  ++ firstn 1 (resolved env Bounded.clickableSelector).

(** An attempt of [automated.js] on the element goes through: the element
    can be read and scrolled, and its click resolves. *)
Definition attemptResolves (element : Element) : bool :=
  negb (evaluateFails element) && negb (clickFails element).

(** The click of the bounded script on the element resolves. *)
Definition clickResolves (element : Element) : bool := negb (clickFails element).

Definition isSome {A : Type} (o : option A) : bool :=
  match o with
  | Some _ => true
  | None => false
  end.

Definition toList {A : Type} (o : option A) : list A :=
  match o with
  | Some a => [a]
  | None => []
  end.

(** The search clicks the first element of [order] that is clickable, and
    no other; it reports whether there was one. *)
Definition SelectsBy (order : Env -> list Element) (clickable : Element -> bool)
  (findAndClick : Env -> Co World bool) : Prop :=
  forall env w,
    fst (run (findAndClick env) w) = Ok (isSome (find clickable (order env)))
    /\ clicked (snd (run (findAndClick env) w))
       = clicked w ++ toList (find clickable (order env)).

(** The interaction found nothing to click: the warning, then the fallback
    delay of at least [ms] milliseconds. *)
Definition SoftFailure (ms : N) (w w' : World) : Prop :=
  clicked w' = clicked w
  /\ console w' = console w ++ [LOG_WARNING_no_submit]
  /\ (clock w + ms <= clock w')%N.

(** What a series of attempts of [automated.js] reports and leaves behind:
    an element that cannot be read is passed over at once, every other
    attempt takes its second of scrolling. *)
Fixpoint attempts (elements : list Element) (w : World) : bool * World :=
  match elements with
  | [] => (false, w)
  | element :: rest =>
      if evaluateFails element then attempts rest w
      else let scrolled := set_clock (clock w + 1000)%N w in
           if clickFails element then attempts rest scrolled
           else (true, set_clicked (clicked scrolled ++ [element]) scrolled)
  end.

(** The same for the clicks of the bounded script. *)
Fixpoint presses (elements : list Element) (w : World) : bool * World :=
  match elements with
  | [] => (false, w)
  | element :: rest =>
      if clickFails element then presses rest w
      else (true, set_clicked (clicked w ++ [element]) w)
  end.

(** What a [try] whose [catch] only goes on makes of a result: a
    rejection counts as nothing clicked. *)
Definition caught (result : Outcome bool * World) : bool * World :=
  match result with
  | (Ok submitted, w) => (submitted, w)
  | (Throw _, w) => (false, w)
  end.

(** *** The order the specification states *)

Definition keywords : list string := ["submit"; "send"; "ask"; "go"; "enter"].

Definition hasKeyword (env : Env) (element : Element) : bool :=
  existsb (strIncludes (Automated.buttonText env element)) keywords.

(** (a) submit-typed controls, (b) text match against the keyword set,
    (c) [onclick], [class] or [id] containing "send" or "submit",
    (d) the first clickable element. *)
Definition statedOrder (env : Env) : list Element :=
  resolved env [ByTagAttr "button" "type" "submit"; ByTagAttr "input" "type" "submit"]
  ++ filter (hasKeyword env) (resolved env [ByTag "button"])
  ++ resolved env [AttrContains "onclick" "send"; AttrContains "onclick" "submit";
                   AttrContains "class" "send"; AttrContains "class" "submit";
                   AttrContains "id" "send"; AttrContains "id" "submit"]
  ++ resolved env Automated.anyClickableSelector.

(** Every invocation of the worker appends exactly one record. *)
Definition ExactlyOneRecord (worker : Env -> string -> nat -> Co World unit) : Prop :=
  forall env target index w,
    length (clickReportData (snd (run (worker env target index) w)))
    = S (length (clickReportData w)).

(** *** Example pages

    A small selector matcher for the pages of the examples: lower-case tag
    names, no quirks mode.  The properties do not depend on it; they hold
    for every answer [select] of the browser. *)

Fixpoint getAttribute (attrs : list (string * string)) (name : string) : option string :=
  match attrs with
  | [] => None
  | (k, v) :: rest => if k =? name then Some v else getAttribute rest name
  end.

(** Whitespace-separated tokens of a [class] attribute. *)
Fixpoint tokens (current : string) (s : string) : list string :=
  match s with
  | EmptyString => match current with EmptyString => [] | _ => [current] end
  | String c rest =>
      if isSpace c
      then match current with
           | EmptyString => tokens EmptyString rest
           | _ => current :: tokens EmptyString rest
           end
      else tokens (String.append current (String c EmptyString)) rest
  end.

(** [[attr="value"]]; the value of [type] is compared without regard to
    the case of ASCII letters, as HTML has it. *)
Definition attrIs (e : Element) (attr value : string) : bool :=
  match getAttribute (attributes e) attr with
  | Some v => if attr =? "type" then toLowerCase v =? toLowerCase value else v =? value
  | None => false
  end.

Definition matchesSimple (e : Element) (s : Simple) : bool :=
  match s with
  | ByTag tag => tagName e =? tag
  | ByTagAttr tag attr value => (tagName e =? tag) && attrIs e attr value
  | ByClass name =>
      match getAttribute (attributes e) "class" with
      | Some v => existsb (String.eqb name) (tokens EmptyString v)
      | None => false
      end
  | ById name => attrIs e "id" name
  | AttrContains attr value =>
      match getAttribute (attributes e) attr with
      | Some v => strIncludes v value
      | None => false
      end
  | AttrEquals attr value => attrIs e attr value
  | HasAttr attr =>
      match getAttribute (attributes e) attr with
      | Some _ => true
      | None => false
      end
  end.

Definition matchesSelector (selector : Selector) (e : Element) : bool :=
  existsb (matchesSimple e) selector.

(** [page.$$(selector)] on a page made of the elements of [document]. *)
Definition elementsOf (document : list Element) (selector : Selector) : list Element :=
  filter (matchesSelector selector) document.

(** A page with an element carrying a send handler, followed by a button
    of unrelated text. *)
Definition sendDiv : Element :=
  mkElement "div" [("onclick", "sendMessage()")] EmptyString false false.

Definition plainButton : Element := mkElement "button" [] "Foo" false false.

Definition examplePage : list Element := [sendDiv; plainButton].

(** A page whose send button rejects the click, followed by a button of
    unrelated text and a second send button. *)
Definition deadSendButton : Element := mkElement "button" [] "Send now" false true.

Definition secondSendButton : Element := mkElement "button" [] "Send" false false.

Definition stubbornPage : list Element := [deadSendButton; plainButton; secondSendButton].

Definition someAccount : Account := mkAccount "Rajesh Sharma" "rajesh1@gmail.com" 1000 "k7j8m9".

Definition exampleEnv : Env :=
  mkEnv someAccount true true true true true (elementsOf examplePage) (fun _ => false)
        true false true true true true 20000%N
        (fun s => s) (fun s => s).

(** The browser cannot be launched. *)
Definition crashEnv : Env :=
  mkEnv someAccount false true true true true (elementsOf examplePage) (fun _ => false)
        true false true true true true 20000%N
        (fun s => s) (fun s => s).

(** The periodic report cannot be written. *)
Definition reportFailureEnv : Env :=
  mkEnv someAccount true true true true true (elementsOf examplePage) (fun _ => false)
        true false true false true true 20000%N
        (fun s => s) (fun s => s).

(** The line cannot be appended to [data.csv]. *)
Definition appendFailureEnv : Env :=
  mkEnv someAccount true true true true true (elementsOf examplePage) (fun _ => false)
        true false false true true true 20000%N
        (fun s => s) (fun s => s).

(** The page is [stubbornPage]; nothing else fails. *)
Definition stubbornEnv : Env :=
  mkEnv someAccount true true true true true (elementsOf stubbornPage) (fun _ => false)
        true false true true true true 20000%N
        (fun s => s) (fun s => s).

(** Twenty-four clicks have been counted. *)
Definition after24 : World := set_globalClickCounter 24 initialWorld.

Definition exampleTarget : string :=
  "https://aiskillshouse.com/student/qr-mediator.html?uid=50&promptId=17".

Definition exampleData : ClickData :=
  mkClickData 1 "Rajesh Sharma" "rajesh1@gmail.com" 1000 "k7j8m9" exampleTarget
    0%N 28600%N 28600%N 28600%N.

End Strategy.
(** ** Concurrent completions: tasks interleaved at their suspension points *)

Module Pool.
Import Async Engine.
Local Open Scope nat_scope.
Local Open Scope list_scope.

(** [array[i] = x], inside the bounds. *)
Fixpoint replace {X : Type} (i : nat) (x : X) (l : list X) : list X :=
  match l, i with
  | [], _ => []
  | _ :: rest, O => x :: rest
  | first :: rest, S k => first :: replace k x rest
  end.

(** The counter and the record buffer: the state the completions share. *)
Definition ledger (w : World) := (globalClickCounter w, clickReportData w).

Section Tasks.

Context {A : Type}.

(** The event loop gives one turn to task [i], which must not have
    settled yet. *)
Definition turn (i : nat) (pool : list (Co World A)) (w : World)
  : option (World * list (Co World A)) :=
  match nth_error pool i with
  | Some task =>
      if settled task then None
      else let (w', task') := advance task w in Some (w', replace i task' pool)
  | None => None
  end.

(** The turns are given in the order of [schedule]. *)
Fixpoint runSchedule (schedule : list nat) (pool : list (Co World A)) (w : World)
  : option (World * list (Co World A)) :=
  match schedule with
  | [] => Some (w, pool)
  | i :: rest =>
      match turn i pool w with
      | Some (w', pool') => runSchedule rest pool' w'
      | None => None
      end
  end.

Definition allSettled (pool : list (Co World A)) : bool := forallb settled pool.

(** *** Invariants of a pool of completions *)

(** Every turn of the task, from any state, leaves the ledger alone. *)
Inductive Harmless : Co World A -> Prop :=
| Harmless_settled (r : Outcome A) : Harmless (Ret r)
| Harmless_turn (m : Co World A) :
    (forall w, ledger (fst (advance m w)) = ledger w) ->
    (forall w, Harmless (snd (advance m w))) ->
    Harmless m.

(** The first turn of the task counts one click and appends its record,
    numbered with the incremented counter, in one piece; its later turns
    are harmless. *)
Definition Recording (m : Co World A) : Prop :=
  settled m = false
  /\ forall w,
      exists r,
        globalClickCounter (fst (advance m w)) = globalClickCounter w + 1
        /\ clickReportData (fst (advance m w)) = clickReportData w ++ [r]
        /\ clickNumber r = globalClickCounter w + 1
        /\ Harmless (snd (advance m w)).

Definition Good (m : Co World A) (pending : bool) : Prop :=
  if pending then Recording m else Harmless m.

Definition pendingCount (pendings : list bool) : nat :=
  length (filter (fun b => b) pendings).

(** The invariant of a pool started in a state with counter [c0] and
    records [recs0]. *)
Definition Inv (c0 : nat) (recs0 : list ClickRecord) (n : nat)
  (pool : list (Co World A)) (w : World) : Prop :=
  exists pendings news,
    Forall2 Good pool pendings
    /\ globalClickCounter w + pendingCount pendings = c0 + n
    /\ c0 <= globalClickCounter w
    /\ clickReportData w = recs0 ++ news
    /\ map clickNumber news = seq (c0 + 1) (globalClickCounter w - c0).

End Tasks.

(** A completing worker: what the outside world does to it, and the click
    data it hands to [incrementClickCounter]. *)
Definition Job := (Env * ClickData)%type.

Inductive Script :=
| AutomatedScript
| BoundedScript (MAX_CLICKS : nat).

(** The call [incrementClickCounter(clickData)] of a completing worker. *)
Definition completion (script : Script) (job : Job) : Co World bool :=
  match script with
  | AutomatedScript => Automated.incrementClickCounter (fst job) (snd job)
  | BoundedScript MAX_CLICKS =>
      Bounded.incrementClickCounter MAX_CLICKS (fst job) (snd job)
  end.

Definition completions (script : Script) (jobs : list Job) : list (Co World bool) :=
  map (completion script) jobs.

Definition clickNumbers (w : World) : list nat := map clickNumber (clickReportData w).

(** The counter values the completions read before incrementing. *)
Definition countersRead (w : World) : list nat := map pred (clickNumbers w).

(** Three workers complete; their turns alternate. *)
Definition threeJobs : list Job :=
  [ (Strategy.exampleEnv, Strategy.exampleData);
    (Strategy.appendFailureEnv, Strategy.exampleData);
    (Strategy.reportFailureEnv, Strategy.exampleData) ].

Definition alternating : list nat := [2; 0; 1; 1; 0; 2; 0; 2; 1; 2; 0; 1].

End Pool.

(** ** The budget under interleaving: the phases of a tab worker *)

Module Budget.
Import Async Engine.
Local Open Scope nat_scope.
Local Open Scope list_scope.

(** Where a worker stands with respect to the counter: it has not counted
    its click yet; it has counted and not yet compared the counter with the
    budget; it has found the counter below the budget and has not
    incremented [completedTabs] yet; it has nothing left to do to either
    number. *)
Inductive Phase := Fresh | Counted | Owed | Spent.

Section Tracking.

Context {S : Type}.
Variables (MAX_CLICKS : nat) (counter completedTabs : S -> nat).

(** The computation changes neither number, from whatever state it is
    resumed in after a suspension. *)
Fixpoint idle {A : Type} (m : Co S A) (s : S) : Prop :=
  match m with
  | Ret _ => True
  | Get k => idle (k s) s
  | Put s' k => counter s' = counter s /\ completedTabs s' = completedTabs s /\ idle k s'
  | Yield k => forall s', idle k s'
  end.

(** The computation goes through the phases in order: it counts once,
    passes to [Owed] only at a point where the counter is below the budget,
    and increments [completedTabs] only once and only when [Owed].  [Post]
    is what holds when it returns. *)
Inductive Track {A : Type} (Post : Phase -> Outcome A -> S -> Prop)
  : Phase -> Co S A -> S -> Prop :=
| Track_ret (ph : Phase) (r : Outcome A) (s : S) :
    Post ph r s -> Track Post ph (Ret r) s
| Track_get (ph : Phase) (k : S -> Co S A) (s : S) :
    Track Post ph (k s) s -> Track Post ph (Get k) s
| Track_put (ph : Phase) (s' : S) (k : Co S A) (s : S) :
    counter s' = counter s -> completedTabs s' = completedTabs s ->
    Track Post ph k s' -> Track Post ph (Put s' k) s
| Track_count (s' : S) (k : Co S A) (s : S) :
    counter s' = counter s + 1 -> completedTabs s' = completedTabs s ->
    Track Post Counted k s' -> Track Post Fresh (Put s' k) s
| Track_complete (s' : S) (k : Co S A) (s : S) :
    counter s' = counter s -> completedTabs s' = completedTabs s + 1 ->
    Track Post Spent k s' -> Track Post Owed (Put s' k) s
| Track_yield (ph : Phase) (k : Co S A) (s : S) :
    (forall s', Track Post ph k s') -> Track Post ph (Yield k) s
| Track_decide (m : Co S A) (s : S) :
    counter s < MAX_CLICKS -> Track Post Owed m s -> Track Post Counted m s
| Track_forfeit (ph : Phase) (m : Co S A) (s : S) :
    Track Post Spent m s -> Track Post ph m s.

End Tracking.

Definition counterOf {L : Type} (s : World * L) : nat := globalClickCounter (fst s).
Definition completedOf {L : Type} (s : World * L) : nat := completed (fst s).

Definition isCounted (ph : Phase) : bool :=
  match ph with Counted => true | _ => false end.

Definition isOwed (ph : Phase) : bool :=
  match ph with Owed => true | _ => false end.

Definition count {X : Type} (f : X -> bool) (l : list X) : nat := length (filter f l).

Definition anyOutcome {A : Type} (ph : Phase) (r : Outcome A) (w : World) : Prop := True.

(** A task of the pool in phase [ph], whatever state it is resumed in. *)
Definition InPhase {A : Type} (MAX_CLICKS : nat) (m : Co World A) (ph : Phase) : Prop :=
  forall w, Track MAX_CLICKS globalClickCounter completed anyOutcome ph m w.

(** The invariant of a pool of workers started with counter [c0] and
    [completedTabs] at [t0]: [k] workers have counted, [d] of them have
    compared the counter with the budget, [t] of these have found it below
    the budget. *)
Definition Inv {A : Type} (MAX_CLICKS c0 t0 : nat) (pool : list (Co World A)) (w : World)
  : Prop :=
  exists phases k d t,
    Forall2 (InPhase MAX_CLICKS) pool phases
    /\ globalClickCounter w = c0 + k
    /\ d + count isCounted phases = k
    /\ t <= d
    /\ (t = 0 \/ c0 + t < MAX_CLICKS)
    /\ completed w + count isOwed phases <= t0 + t.

(** The computation changes neither number in any state. *)
Definition Idle {A : Type} (m : Co World A) : Prop :=
  forall w, idle globalClickCounter completed m w.

Definition IdleL {A : Type} (m : Co (World * Bounded.Locals) A) : Prop :=
  forall s, idle counterOf completedOf m s.

Definition b2n (b : bool) : nat := if b then 1 else 0.

(** The invariant of the pool as seen from the task that has the turn, the
    other tasks contributing [othersCounted] and [othersOwed]. *)
Definition Around (MAX_CLICKS c0 t0 othersCounted othersOwed : nat) (ph : Phase)
  (w : World) (k d t : nat) : Prop :=
  globalClickCounter w = c0 + k
  /\ d + othersCounted + b2n (isCounted ph) = k
  /\ t <= d
  /\ (t = 0 \/ c0 + t < MAX_CLICKS)
  /\ completed w + othersOwed + b2n (isOwed ph) <= t0 + t.

(** A tab to open: the behaviour of the outside world, the URL and the
    index of the tab. *)
Definition Tab := (Env * string * nat)%type.

Definition tabWorker (MAX_CLICKS : nat) (tab : Tab) : Co World unit :=
  Bounded.createTabWorker MAX_CLICKS (fst (fst tab)) (snd (fst tab)) (snd tab).

Definition tabWorkers (MAX_CLICKS : nat) (tabs : list Tab) : list (Co World unit) :=
  map (tabWorker MAX_CLICKS) tabs.

(** Two tabs on the example page, their turns alternating until both
    workers have settled. *)
Definition twoTabs : list Tab :=
  [ (Strategy.exampleEnv, Strategy.exampleTarget, 0);
    (Strategy.exampleEnv, Strategy.exampleTarget, 1) ].

Definition alternating (turns : nat) : list nat :=
  flat_map (fun _ => [0; 1]) (seq 0 turns).

End Budget.
(** ** The bounded campaign: batch scheduler and cycle loop

    [runEnhancedAutomation] of the bounded script starts one
    [openEnhancedTabs] call per URL, all in the same turn of the event
    loop, and awaits them together; each call creates its tab workers
    batch by batch.  The state below holds where each of these activations
    is suspended; an event resumes one of them.  A tab worker is followed
    through the two moments the scheduler can observe: the turn in which
    it counts its click, and the turn in which it settles. *)

Module Campaign.
Local Open Scope nat_scope.
Local Open Scope list_scope.

Record Config := mkConfig {
  urls : list string;
  numberOfTabsPerUrl : nat;
  concurrentTabsPerUrl : nat;
  MAX_CLICKS : nat
}.

(** The constants of the script. *)
Definition scriptConfig : Config :=
  mkConfig
    [ "https://aiskillshouse.com/student/qr-mediator.html?uid=50&promptId=17";
      "https://aiskillshouse.com/student/qr-mediator.html?uid=50&promptId=13";
      "https://aiskillshouse.com/student/qr-mediator.html?uid=50&promptId=14";
      "https://aiskillshouse.com/student/qr-mediator.html?uid=50&promptId=16";
      "https://aiskillshouse.com/student/qr-mediator.html?uid=50&promptId=15" ]
    5 1 100.

Inductive WorkerPhase :=
| Running    (* created, has not reached [incrementClickCounter] *)
| Recorded.  (* has counted its click, has not settled *)

(** Where an [openEnhancedTabs] call is suspended. *)
Inductive TabsPhase :=
| AwaitingWorkers (i : nat)  (* at [await Promise.allSettled(...)], loop index [i] *)
| Pausing (i : nat)          (* at [await delay(...)], loop index [i] *)
| Returned.

Record Tabs := mkTabs {
  phase : TabsPhase;
  (** the workers of the current batch that have not settled: tab index
      and phase *)
  workers : list (nat * WorkerPhase)
}.

(** Where [runEnhancedAutomation] is suspended. *)
Inductive Control :=
| NotStarted
| InCycle        (* at [await Promise.allSettled(urlPromises)] *)
| BetweenCycles  (* at the delay between two cycles *)
| Finished.

(** A tab worker: the cycle, the position of its URL and its tab index. *)
Record Dispatch := mkDispatch {
  ofCycle : nat;
  ofUrl : nat;
  ofTab : nat
}.

Record State := mkState {
  globalClickCounter : nat;
  (** the records, each under the worker that appended it, oldest first *)
  clickReportData : list Dispatch;
  (** the workers created so far, oldest first *)
  dispatched : list Dispatch;
  (** the [openEnhancedTabs] calls of the current cycle, in URL order *)
  tabs : list Tabs;
  control : Control;
  cycleCount : nat
}.

Definition initialState : State := mkState 0 [] [] [] NotStarted 1.

Inductive Event :=
| LoopTest                      (* the [while] condition is evaluated *)
| WorkerRecords (u t : nat)     (* worker [t] of URL [u] counts its click *)
| WorkerFails (u t : nat)       (* it fails before that, and settles *)
| WorkerSettles (u t : nat)     (* it settles after having counted *)
| BatchSettled (u : nat)        (* [Promise.allSettled(workers)] resolves *)
| PauseOver (u : nat)           (* the delay between two batches ends *)
| CycleSettled.                 (* [Promise.allSettled(urlPromises)] resolves *)

Definition shouldContinue (cfg : Config) (s : State) : bool :=
  globalClickCounter s <? MAX_CLICKS cfg.

(** The [for] loop of [openEnhancedTabs] from index [i], run until the call
    suspends or returns: the tab indices of the workers it creates, and
    where the call is then.  [continue] is the value of [shouldContinue()],
    which no worker can change within the turn. *)
Fixpoint dispatchLoop (cfg : Config) (continue : bool) (fuel i : nat)
  : list nat * TabsPhase :=
  match fuel with
  | O => ([], Returned)
  | S fuel' =>
      if i <? numberOfTabsPerUrl cfg
      then if continue
           then if ((i + 1) mod concurrentTabsPerUrl cfg =? 0)
                   || (i =? numberOfTabsPerUrl cfg - 1)
                then ([i], AwaitingWorkers i)
                else let (created, suspended) := dispatchLoop cfg continue fuel' (i + 1) in
                     (i :: created, suspended)
           else ([], Returned)
      else ([], Returned)
  end.

Definition resumeTabs (cfg : Config) (continue : bool) (cycle u i : nat)
  : Tabs * list Dispatch :=
  let (created, suspended) := dispatchLoop cfg continue (S (numberOfTabsPerUrl cfg)) i in
  (mkTabs suspended (map (fun t => (t, Running)) created),
   map (mkDispatch cycle u) created).

(** The callback of [urls.map], for the URL at position [u]. *)
Definition startTabs (cfg : Config) (continue : bool) (cycle u : nat)
  : Tabs * list Dispatch :=
  if continue then resumeTabs cfg continue cycle u 0 else (mkTabs Returned [], []).

(** [urls.map(...)]: the callbacks run one after the other, in list order. *)
Fixpoint startAll (cfg : Config) (continue : bool) (cycle u : nat)
  (targets : list string) : list Tabs * list Dispatch :=
  match targets with
  | [] => ([], [])
  | _ :: rest =>
      let (first, created) := startTabs cfg continue cycle u in
      let (others, createdLater) := startAll cfg continue cycle (S u) rest in
      (first :: others, created ++ createdLater)
  end.

Definition WorkerPhase_eqb (a b : WorkerPhase) : bool :=
  match a, b with
  | Running, Running | Recorded, Recorded => true
  | _, _ => false
  end.

Definition isWorker (t : nat) (p : WorkerPhase) (worker : nat * WorkerPhase) : bool :=
  (fst worker =? t) && WorkerPhase_eqb (snd worker) p.

Definition hasWorker (t : nat) (p : WorkerPhase) (ws : list (nat * WorkerPhase)) : bool :=
  existsb (isWorker t p) ws.

Definition withoutWorker (t : nat) (p : WorkerPhase) (ws : list (nat * WorkerPhase))
  : list (nat * WorkerPhase) :=
  filter (fun worker => negb (isWorker t p worker)) ws.

Definition recordWorker (t : nat) (ws : list (nat * WorkerPhase))
  : list (nat * WorkerPhase) :=
  map (fun worker => if isWorker t Running worker then (t, Recorded) else worker) ws.

Definition allReturned (ts : list Tabs) : bool :=
  forallb (fun tb => match phase tb with Returned => true | _ => false end) ts.

Definition set_tabs (u : nat) (tb : Tabs) (s : State) : State :=
  mkState (globalClickCounter s) (clickReportData s) (dispatched s)
    (Pool.replace u tb (tabs s)) (control s) (cycleCount s).

Definition step (cfg : Config) (event : Event) (s : State) : option State :=
  match event with
  | LoopTest =>
      match control s with
      | NotStarted | BetweenCycles =>
          if shouldContinue cfg s
          then let (started, created) := startAll cfg true (cycleCount s) 0 (urls cfg) in
               Some (mkState (globalClickCounter s) (clickReportData s)
                       (dispatched s ++ created) started InCycle (cycleCount s))
          else Some (mkState (globalClickCounter s) (clickReportData s) (dispatched s)
                       (tabs s) Finished (cycleCount s))
      | _ => None
      end
  | WorkerRecords u t =>
      match nth_error (tabs s) u with
      | Some tb =>
          if hasWorker t Running (workers tb)
          then Some (mkState (globalClickCounter s + 1)
                       (clickReportData s ++ [mkDispatch (cycleCount s) u t])
                       (dispatched s)
                       (Pool.replace u (mkTabs (phase tb) (recordWorker t (workers tb)))
                          (tabs s))
                       (control s) (cycleCount s))
          else None
      | None => None
      end
  | WorkerFails u t =>
      match nth_error (tabs s) u with
      | Some tb =>
          if hasWorker t Running (workers tb)
          then Some (set_tabs u (mkTabs (phase tb) (withoutWorker t Running (workers tb))) s)
          else None
      | None => None
      end
  | WorkerSettles u t =>
      match nth_error (tabs s) u with
      | Some tb =>
          if hasWorker t Recorded (workers tb)
          then Some (set_tabs u (mkTabs (phase tb) (withoutWorker t Recorded (workers tb))) s)
          else None
      | None => None
      end
  | BatchSettled u =>
      match nth_error (tabs s) u with
      | Some (mkTabs (AwaitingWorkers i) []) =>
          Some (set_tabs u (mkTabs (if shouldContinue cfg s then Pausing i else Returned) [])
                  s)
      | _ => None
      end
  | PauseOver u =>
      match nth_error (tabs s) u with
      | Some (mkTabs (Pausing i) _) =>
          let (resumed, created) :=
            resumeTabs cfg (shouldContinue cfg s) (cycleCount s) u (i + 1) in
          Some (mkState (globalClickCounter s) (clickReportData s)
                  (dispatched s ++ created) (Pool.replace u resumed (tabs s))
                  (control s) (cycleCount s))
      | _ => None
      end
  | CycleSettled =>
      match control s with
      | InCycle =>
          if allReturned (tabs s)
          then if shouldContinue cfg s
               then Some (mkState (globalClickCounter s) (clickReportData s)
                            (dispatched s) [] BetweenCycles (cycleCount s + 1))
               else Some (mkState (globalClickCounter s) (clickReportData s)
                            (dispatched s) (tabs s) Finished (cycleCount s))
          else None
      | _ => None
      end
  end.

Fixpoint runEvents (cfg : Config) (events : list Event) (s : State) : option State :=
  match events with
  | [] => Some s
  | event :: rest =>
      match step cfg event s with
      | Some s' => runEvents cfg rest s'
      | None => None
      end
  end.

(** The workers that have been created and have not counted or failed. *)
Definition running (s : State) : nat :=
  list_sum (map (fun tb => length (filter (fun w => WorkerPhase_eqb (snd w) Running)
                                     (workers tb)))
              (tabs s)).

(** Position, in the dispatch log, of the first worker of cycle [k] for
    the URL at position [u]. *)
Fixpoint firstDispatch (k u : nat) (log : list Dispatch) : option nat :=
  match log with
  | [] => None
  | d :: rest =>
      if (ofCycle d =? k) && (ofUrl d =? u) then Some 0
      else match firstDispatch k u rest with
           | Some p => Some (S p)
           | None => None
           end
  end.

(** *** Invariants of the scheduler *)

(** The workers of one activation that have not yet counted or failed. *)
Definition runningOf (tb : Tabs) : nat :=
  length (filter (fun w => WorkerPhase_eqb (snd w) Running) (workers tb)).

Definition countRunning (ws : list (nat * WorkerPhase)) : nat :=
  length (filter (fun w => WorkerPhase_eqb (snd w) Running) ws).

(** A batch holds at most [concurrentTabsPerUrl] workers, and none is left
    when the call pauses between two batches. *)
Definition TabsOk (cfg : Config) (tb : Tabs) : Prop :=
  length (workers tb) <= concurrentTabsPerUrl cfg
  /\ (forall i, phase tb = Pausing i -> workers tb = []).

(** Once the budget is met, the count and the workers still to count fit
    in the budget plus one batch per URL, less one. *)
Definition BudgetInv (cfg : Config) (s : State) : Prop :=
  length (tabs s) <= length (urls cfg)
  /\ Forall (TabsOk cfg) (tabs s)
  /\ (MAX_CLICKS cfg <= globalClickCounter s ->
      globalClickCounter s + running s + 1
      <= MAX_CLICKS cfg + length (urls cfg) * concurrentTabsPerUrl cfg)
  /\ (control s = Finished -> MAX_CLICKS cfg <= globalClickCounter s).

Definition isDispatch (k u : nat) (d : Dispatch) : bool :=
  (ofCycle d =? k) && (ofUrl d =? u).

(** The workers with tab indices [ts] for each of the [n] URLs from
    position [a], URL by URL. *)
Definition block (k : nat) (ts : list nat) (a n : nat) : list Dispatch :=
  flat_map (fun u => map (mkDispatch k u) ts) (seq a n).

(** In every cycle, a URL that has a worker in the log is preceded by the
    first worker of each URL before it in the list. *)
Definition Ordered (log : list Dispatch) : Prop :=
  forall k i j pj, i < j -> firstDispatch k j log = Some pj ->
    exists pi, firstDispatch k i log = Some pi /\ pi < pj.

Definition OrderInv (s : State) : Prop :=
  Ordered (dispatched s)
  /\ (forall d, In d (dispatched s) -> ofCycle d <= cycleCount s)
  /\ (control s = NotStarted \/ control s = BetweenCycles ->
      tabs s = [] /\ forall d, In d (dispatched s) -> ofCycle d < cycleCount s)
  /\ (forall u tb, nth_error (tabs s) u = Some tb -> phase tb <> Returned ->
      exists t, In (mkDispatch (cycleCount s) u t) (dispatched s))
  /\ length (clickReportData s) = globalClickCounter s.

(** *** Stated properties *)

(** The final count lies between the budget [M] and [M + C - 1], [C] the
    concurrency passed to [openEnhancedTabs]. *)
Definition StatedBound (cfg : Config) : Prop :=
  forall events s,
    runEvents cfg events initialState = Some s ->
    control s = Finished ->
    MAX_CLICKS cfg <= globalClickCounter s
    /\ globalClickCounter s <= MAX_CLICKS cfg + concurrentTabsPerUrl cfg - 1.

(** A finished campaign has exactly the records of URL 0 and URL 1, in
    that order. *)
Definition StatedScenario (cfg : Config) : Prop :=
  forall events s,
    runEvents cfg events initialState = Some s ->
    control s = Finished ->
    map ofUrl (clickReportData s) = [0; 1].

(** *** Example campaigns *)

Definition twoUrls : Config := mkConfig ["url0"; "url1"] 1 1 1.

(** Both workers of [twoUrls] are created by the first loop test; the
    first to count meets the budget, the second counts all the same. *)
Definition overshoot : list Event :=
  [ LoopTest; WorkerRecords 0 0; WorkerRecords 1 0; WorkerSettles 0 0;
    WorkerSettles 1 0; BatchSettled 0; BatchSettled 1; CycleSettled ].

(** Three URLs, one tab at a time per URL, a budget of two clicks. *)
Definition threeUrls : Config := mkConfig ["url0"; "url1"; "url2"] 1 1 2.

Definition lastFirst : list Event :=
  [ LoopTest; WorkerRecords 2 0; WorkerRecords 0 0; WorkerRecords 1 0;
    WorkerSettles 0 0; WorkerSettles 1 0; WorkerSettles 2 0;
    BatchSettled 0; BatchSettled 1; BatchSettled 2; CycleSettled ].

(** One round of a cycle over [n] URLs: the worker of tab [t] of every URL
    counts its click (the one of URL [failing], if any, fails instead),
    those that counted settle, and every batch resolves. *)
Definition roundEvents (n t : nat) (failing : option nat) : list Event :=
  let fails u := match failing with Some f => u =? f | None => false end in
  map (fun u => if fails u then WorkerFails u t else WorkerRecords u t) (seq 0 n)
  ++ map (fun u => WorkerSettles u t) (filter (fun u => negb (fails u)) (seq 0 n))
  ++ map BatchSettled (seq 0 n).

(** A whole cycle that leaves the budget unmet: after every round each
    call pauses and goes on. *)
Definition cycleEvents (n tabsPerUrl : nat) (failing : option nat) : list Event :=
  LoopTest
  :: flat_map (fun t => roundEvents n t (if t =? 0 then failing else None)
                        ++ map PauseOver (seq 0 n))
       (seq 0 tabsPerUrl)
  ++ [CycleSettled].

(** With the constants of the script: three cycles of 25 clicks, a fourth
    of 24 because one session fails, and a fifth whose first round starts
    at 99 clicks with one worker per URL. *)
Definition scriptOvershoot : list Event :=
  cycleEvents 5 5 None ++ cycleEvents 5 5 None ++ cycleEvents 5 5 None
  ++ cycleEvents 5 5 (Some 0)
  ++ LoopTest :: roundEvents 5 0 None ++ [CycleSettled].

(** *** Batches and the ledger of workers *)

(** The number of workers [openEnhancedTabs] creates from loop index [i]
    before it suspends: up to the next multiple of
    [concurrentTabsPerUrl], or to the last tab. *)
Definition batchSize (cfg : Config) (i : nat) : nat :=
  if i <? numberOfTabsPerUrl cfg
  then if concurrentTabsPerUrl cfg =? 0
       then numberOfTabsPerUrl cfg - i
       else Nat.min (concurrentTabsPerUrl cfg - i mod concurrentTabsPerUrl cfg)
                    (numberOfTabsPerUrl cfg - i)
  else 0.

(** The workers that have not settled, over all URLs. *)
Definition inFlight (s : State) : nat :=
  list_sum (map (fun tb => length (workers tb)) (tabs s)).

(** Nothing has been created, counted or finished, and every activation
    of the cycle has returned. *)
Definition Idle (s : State) : Prop :=
  dispatched s = []
  /\ globalClickCounter s = 0
  /\ clickReportData s = []
  /\ control s <> Finished
  /\ Forall (fun tb => phase tb = Returned /\ workers tb = []) (tabs s).

(** The events of [k] cycles in which no worker exists. *)
Fixpoint emptyCycles (k : nat) : list Event :=
  match k with
  | O => []
  | S k' => LoopTest :: CycleSettled :: emptyCycles k'
  end.

(** Every worker created so far is distinct and within the configured
    ranges; the workers of the current cycle of a URL lie at or below the
    loop index of its activation; the records are distinct, belong to
    created workers, and none belongs to a worker still to count. *)
Definition Ledger (cfg : Config) (s : State) : Prop :=
  NoDup (dispatched s)
  /\ (forall d, In d (dispatched s) ->
        1 <= ofCycle d <= cycleCount s
        /\ ofUrl d < length (urls cfg)
        /\ ofTab d < numberOfTabsPerUrl cfg)
  /\ (control s = NotStarted \/ control s = BetweenCycles ->
        tabs s = [] /\ forall d, In d (dispatched s) -> ofCycle d < cycleCount s)
  /\ length (tabs s) <= length (urls cfg)
  /\ 1 <= cycleCount s
  /\ (forall u tb i d, nth_error (tabs s) u = Some tb ->
        phase tb = AwaitingWorkers i \/ phase tb = Pausing i ->
        In d (dispatched s) -> ofCycle d = cycleCount s -> ofUrl d = u -> ofTab d <= i)
  /\ NoDup (clickReportData s)
  /\ incl (clickReportData s) (dispatched s)
  /\ (forall u tb t, nth_error (tabs s) u = Some tb -> In (t, Running) (workers tb) ->
        In (mkDispatch (cycleCount s) u t) (dispatched s)
        /\ ~ In (mkDispatch (cycleCount s) u t) (clickReportData s)).

(** A campaign with no URL to visit. *)
Definition noUrls : Config := mkConfig [] 5 1 100.

End Campaign.
(** ** Account details of a session ([generateAccountDetails], the same
    text in both scripts) *)

Module Identity.
Import Random Profile Engine.
Local Open Scope string_scope.

Definition indianFirstNames : list string :=
  [ "Rajesh"; "Amit"; "Vikram"; "Arjun"; "Rohit"; "Sanjay"; "Ravi"; "Kiran";
    "Suresh"; "Manish"; "Anil"; "Gaurav"; "Ramesh"; "Ashok"; "Nikhil";
    "Mohan"; "Vinod"; "Harsh"; "Sunil"; "Arun"; "Prakash"; "Manoj"; "Jatin";
    "Praveen"; "Deepak"; "Anupam"; "Vivek"; "Sachin"; "Ajay"; "Akash";
    "Vishal"; "Sandeep"; "Rakesh"; "Devesh"; "Hemant"; "Lalit"; "Mukesh";
    "Naveen"; "Pankaj"; "Rajeev"; "Satish"; "Tarun"; "Umesh"; "Varun"; "Yash";
    "Abhishek"; "Aditya"; "Aman"; "Ankit"; "Anurag"; "Priya"; "Sunita";
    "Kavya"; "Meera"; "Anjali"; "Pooja"; "Neha"; "Deepika"; "Shreya"; "Rina";
    "Sita"; "Divya"; "Nisha"; "Preeti"; "Swati"; "Rekha"; "Sapna"; "Rachna";
    "Vaishali"; "Sushma"; "Vandana"; "Seema"; "Shilpa"; "Madhuri"; "Anita";
    "Alka"; "Archana"; "Bharti"; "Chitra"; "Deepti"; "Geeta"; "Hemlata";
    "Indira"; "Jyoti"; "Kalpana"; "Lalita"; "Mamta"; "Nidhi"; "Pallavi";
    "Radha"; "Sarita"; "Tanvi"; "Usha"; "Vidya"; "Yamini"; "Aarti"; "Bindu";
    "Chhaya"; "Disha"; "Ekta" ].

Definition indianLastNames : list string :=
  [ "Sharma"; "Gupta"; "Singh"; "Kumar"; "Agarwal"; "Jain"; "Bansal";
    "Chopra"; "Malhotra"; "Kapoor"; "Verma"; "Mittal"; "Goel"; "Joshi";
    "Saxena"; "Srivastava"; "Tiwari"; "Pandey"; "Yadav"; "Mishra"; "Aggarwal";
    "Bhardwaj"; "Chandra"; "Dutta"; "Thakur"; "Bhatia"; "Khanna"; "Sethi";
    "Arora"; "Bajaj"; "Chawla"; "Dhawan"; "Goyal"; "Khurana"; "Mahajan";
    "Oberoi"; "Sachdeva"; "Tandon"; "Vohra"; "Wadhwa"; "Nair"; "Reddy"; "Rao";
    "Iyer"; "Menon"; "Krishnan"; "Raman"; "Subramanian"; "Venkatesh";
    "Murthy"; "Naidu"; "Pillai"; "Varma"; "Sastry"; "Bhat"; "Shenoy";
    "Kamath"; "Kulkarni"; "Joshi"; "Deshpande"; "Patel"; "Shah"; "Desai";
    "Modi"; "Trivedi"; "Mehta"; "Pandya"; "Parikh"; "Vora"; "Bhatt"; "Gandhi";
    "Joshi"; "Raval"; "Sheth"; "Thakkar"; "Vasani"; "Zaveri"; "Chokshi";
    "Dalal"; "Kothari"; "Ghosh"; "Chatterjee"; "Mukherjee"; "Banerjee"; "Das";
    "Sen"; "Bose"; "Roy"; "Saha"; "Dey"; "Chakraborty"; "Bhattacharya";
    "Mitra"; "Ganguly"; "Sarkar"; "Paul"; "Biswas"; "Chowdhury"; "Mazumdar";
    "Pal" ].

Definition domains : list string :=
  [ "gmail.com"; "yahoo.com"; "hotmail.com"; "outlook.com"; "rediffmail.com";
    "yahoo.co.in"; "protonmail.com"; "yandex.com"; "zoho.com"; "icloud.com";
    "live.com"; "msn.com"; "aol.com"; "mail.com"; "gmx.com"; "fastmail.com";
    "tutanota.com"; "guerrillamail.com" ].

Record AccountDetails := mkAccountDetails {
  name : string;
  email : string;
  userId : Z;
  sessionId : string;
  timestamp : string
}.

(** [`${v}`] for a value that may be [undefined]. *)
Definition template (v : option string) : string :=
  match v with
  | Some s => s
  | None => "undefined"
  end.

Section Platform.

(** [Number.prototype.toString(36)] applied to a draw, and
    [new Date().toISOString()] at the time of the call: results of the
    platform. *)
Variable toString36 : Q -> string.
Variable now : string.

(** [None] stands for the [TypeError] that [firstName.toLowerCase()]
    raises on [undefined]. *)
Definition generateAccountDetails (g : Rng) : option AccountDetails * Rng :=
  let (firstName, g1) := getRandomElement indianFirstNames g in
  let (lastName, g2) := getRandomElement indianLastNames g1 in
  let domain := "gmail.com" in
  let (r3, g3) := Math_random g2 in
  let randomNum := (Math_floor (r3 * 999) + 1)%Z in
  match firstName with
  | None => (None, g3)
  | Some first =>
      let email := toLowerCase first ++ decimal randomNum ++ "@" ++ domain in
      let (r4, g4) := Math_random g3 in
      let (r5, g5) := Math_random g4 in
      (Some (mkAccountDetails
               (first ++ " " ++ template lastName)
               email
               (Math_floor (r4 * 9000) + 1000)%Z
               (substring 2 6 (toString36 r5))
               now),
       g5)
  end.

End Platform.

End Identity.
(** ** Browser-side overrides installed by [setupPageFingerprint]

    The expressions of the callback handed to [page.evaluateOnNewDocument],
    each as a function of the draws it makes. *)

Module Overrides.
Import Random Profile Engine.
Local Open Scope Q_scope.

(** [navigator.hardwareConcurrency]: [Math.floor(Math.random() * 8) + 2] *)
Definition hardwareConcurrency (g : Rng) : Z * Rng :=
  let (r, g1) := Math_random g in
  ((Math_floor (r * 8) + 2)%Z, g1).

(** [navigator.deviceMemory]: [[1, 2, 4, 8, 16][Math.floor(Math.random() * 5)]] *)
Definition deviceMemory (g : Rng) : option Z * Rng :=
  getRandomElement [1; 2; 4; 8; 16]%Z g.

(** [/Mobile|Android|iPhone|iPad/.test(navigator.userAgent)] *)
Definition isMobile (userAgent : string) : bool :=
  strIncludes userAgent "Mobile" || strIncludes userAgent "Android"
  || strIncludes userAgent "iPhone" || strIncludes userAgent "iPad".

(** [navigator.maxTouchPoints]: the draw is made for a mobile user agent
    only. *)
Definition maxTouchPoints (userAgent : string) (g : Rng) : Z * Rng :=
  if isMobile userAgent
  then let (r, g1) := Math_random g in ((Math_floor (r * 5) + 5)%Z, g1)
  else (0%Z, g).

(** [connInfo.downlink + (Math.random() - 0.5) * 2] *)
Definition spoofedDownlink (connInfo : Connection) (g : Rng) : Q * Rng :=
  let (r, g1) := Math_random g in
  (downlink connInfo + (r - (1 # 2)) * 2, g1).

(** [connInfo.rtt + Math.floor((Math.random() - 0.5) * 20)] *)
Definition spoofedRtt (connInfo : Connection) (g : Rng) : Z * Rng :=
  let (r, g1) := Math_random g in
  ((Z.of_nat (rtt connInfo) + Math_floor ((r - (1 # 2)) * 20))%Z, g1).

(** The [coords] object handed to the [success] callback. *)
Record Position := mkPosition {
  pos_latitude : Q;
  pos_longitude : Q;
  accuracy : Q;
  altitude : Q;
  altitudeAccuracy : Q;
  heading : Q;
  speed : Q
}.

(** [navigator.geolocation.getCurrentPosition]: the delay passed to
    [setTimeout] is drawn at the call, the other numbers when the timer
    fires.  The result is the delay in milliseconds and the position. *)
Definition getCurrentPosition (ipInfo : GeoIP) (g : Rng) : (Q * Position) * Rng :=
  let (r0, g0) := Math_random g in
  let (r1, g1) := Math_random g0 in
  let (r2, g2) := Math_random g1 in
  let (r3, g3) := Math_random g2 in
  let (r4, g4) := Math_random g3 in
  let (r5, g5) := Math_random g4 in
  ((r0 * 1000 + 100,
    mkPosition (latitude ipInfo) (longitude ipInfo)
      (r1 * 50 + 20) (r2 * 100 + 10) (r3 * 20 + 5) (r4 * 360) (r5 * 2)),
   g5).

Definition Math_min (a b : Q) : Q := if Qle_bool a b then a else b.

Definition Math_max (a b : Q) : Q := if Qle_bool a b then b else a.

(** Storing a number into an element of a [Uint8ClampedArray], as
    [imageData.data] is: clamped to 0..255 and rounded to the nearest
    integer, a tie going to the even one. *)
Definition ToUint8Clamp (x : Q) : Z :=
  if Qle_bool x 0 then 0%Z
  else if Qle_bool 255 x then 255%Z
  else let f := Qfloor x in
       let half := inject_Z f + (1 # 2) in
       if Qle_bool x half
       then if Qle_bool half x
            then if Z.even f then f else (f + 1)%Z
            else f
       else (f + 1)%Z.

(** The value [toDataURL] leaves in [imageData.data[0]] when it held
    [pixel]: [Math.min(255, Math.max(0, pixel + noise * 255))] with
    [noise = (Math.random() - 0.5) * 0.0001]. *)
Definition noisyPixel (pixel : Z) (g : Rng) : Z * Rng :=
  let (r, g1) := Math_random g in
  let noise := (r - (1 # 2)) * (1 # 10000) in
  (ToUint8Clamp (Math_min 255 (Math_max 0 (inject_Z pixel + noise * 255))), g1).

End Overrides.
(** ** [demo-vm-system.js]: identities of the simulated virtual machines *)

Module Demo.
Import Random Profile Engine Identity.
Local Open Scope string_scope.

Definition vendorPrefixes : list string :=
  [ "00:50:56"; "08:00:27"; "52:54:00"; "00:15:5d"; "00:1c:42" ].

Definition hexDigit (d : Z) : ascii :=
  match d with
  | 0 => "0" | 1 => "1" | 2 => "2" | 3 => "3" | 4 => "4" | 5 => "5" | 6 => "6"
  | 7 => "7" | 8 => "8" | 9 => "9" | 10 => "a" | 11 => "b" | 12 => "c"
  | 13 => "d" | 14 => "e" | _ => "f"
  end%Z%char.

Fixpoint hexDigits (fuel : nat) (n : Z) (acc : string) : string :=
  match fuel with
  | O => acc
  | S k =>
      let acc' := String (hexDigit (n mod 16)) acc in
      if (n <? 16)%Z then acc' else hexDigits k (n / 16) acc'
  end.

(** [n.toString(16)] for a non-negative integer. *)
Definition toString16 (n : Z) : string :=
  hexDigits (S (Z.to_nat (Z.log2 n))) n EmptyString.

(** [s.padStart(targetLength, padString)] *)
Definition padStart (targetLength : nat) (padString s : string) : string :=
  let missing := (targetLength - String.length s)%nat in
  substring 0 missing (String.concat EmptyString (repeat padString missing)) ++ s.

(** The two lower-case hexadecimal digits of a byte. *)
Definition hexByte (b : Z) : string :=
  String (hexDigit (b / 16)) (String (hexDigit (b mod 16)) EmptyString).

(** [Math.floor(Math.random() * 256).toString(16).padStart(2, '0')] *)
Definition randomByte (g : Rng) : string * Rng :=
  let (r, g1) := Math_random g in
  (padStart 2 "0" (toString16 (Math_floor (r * 256))), g1).

Definition generateMacAddress (g : Rng) : string * Rng :=
  let (prefix, g1) := getRandomElement vendorPrefixes g in
  let (b1, g2) := randomByte g1 in
  let (b2, g3) := randomByte g2 in
  let (b3, g4) := randomByte g3 in
  let suffix := String.concat ":" [b1; b2; b3] in
  (toLowerCase (template prefix ++ ":" ++ suffix), g4).

Definition cpuBrands : list string := ["Intel"; "AMD"].

Definition intelCpus : list string :=
  ["Intel Core i7-10700K"; "Intel Core i5-9600K"; "Intel Core i7-8700K"].

Definition amdCpus : list string :=
  ["AMD Ryzen 7 3700X"; "AMD Ryzen 5 3600"; "AMD Ryzen 9 3900X"].

Definition ramSizes : list Z := [8; 16; 32; 64]%Z.

Definition gpus : list string :=
  ["NVIDIA GeForce RTX 3070"; "AMD Radeon RX 580"; "Intel UHD Graphics 630"].

Record Hardware := mkHardware {
  cpu : option string;
  ram : string;
  gpu : option string
}.

Definition generateHardwareProfile (g : Rng) : Hardware * Rng :=
  let (cpuBrand, g1) := getRandomElement cpuBrands g in
  let (cpu, g2) :=
    match cpuBrand with
    | Some brand =>
        if brand =? "Intel" then getRandomElement intelCpus g1
        else getRandomElement amdCpus g1
    | None => getRandomElement amdCpus g1
    end in
  let (ram, g3) := getRandomElement ramSizes g2 in
  let (gpu, g4) := getRandomElement gpus g3 in
  (mkHardware cpu (template (option_map decimal ram) ++ "GB DDR4") gpu, g4).

Definition osList : list string :=
  ["Windows 10 Pro"; "Windows 11 Pro"; "Windows 10 Home"].

Record System := mkSystem {
  os : option string;
  computerName : string
}.

Definition upperChar (c : ascii) : ascii :=
  let n := nat_of_ascii c in
  if ((97 <=? n) && (n <=? 122))%nat then ascii_of_nat (n - 32) else c.

Fixpoint toUpperCase (s : string) : string :=
  match s with
  | EmptyString => EmptyString
  | String c rest => String (upperChar c) (toUpperCase rest)
  end.

(** A line of the output: the rotation notice, the identity block of a
    machine, or the line of a click. *)
Inductive Line :=
| RotationLine (vm : nat)
| IdentityBlock (vm : nat) (macAddress : string) (hardware : Hardware) (system : System)
| ClickLine (click vm counter : nat).

Record Vm := mkVm {
  vmClickCounter : nat;
  currentVmId : nat;
  rng : Rng;
  output : list Line
}.

Section Platform.

(** [Number.prototype.toString(36)] applied to a draw. *)
Variable toString36 : Q -> string.

Definition generateSystemProfile (g : Rng) : System * Rng :=
  let (os, g1) := getRandomElement osList g in
  let (r, g2) := Math_random g1 in
  (mkSystem os ("PC-" ++ toUpperCase (substring 2 8 (toString36 r))), g2).

(** The body of the [for] loop, for click number [click]. *)
Definition clickStep (click : nat) (st : Vm) : Vm :=
  let incremented := (vmClickCounter st + 1)%nat in
  let rotate := (5 <? incremented)%nat in
  let vm := if rotate then (currentVmId st + 1)%nat else currentVmId st in
  let counter := if rotate then 1%nat else incremented in
  let out := if rotate then (output st ++ [RotationLine vm])%list else output st in
  if (counter =? 1)%nat
  then let (macAddress, g1) := generateMacAddress (rng st) in
       let (hardware, g2) := generateHardwareProfile g1 in
       let (system, g3) := generateSystemProfile g2 in
       mkVm counter vm g3
         (out ++ [IdentityBlock vm macAddress hardware system;
                  ClickLine click vm counter])%list
  else mkVm counter vm (rng st) (out ++ [ClickLine click vm counter])%list.

(** [for (let click = ...; click <= last; click++)], [remaining]
    iterations from [click] on. *)
Fixpoint clicksFrom (click remaining : nat) (st : Vm) : Vm :=
  match remaining with
  | O => st
  | S k => clicksFrom (click + 1) k (clickStep click st)
  end.

(** The script simulates twelve clicks from [vmClickCounter = 0] and
    [currentVmId = 1]; the number of clicks is kept a parameter. *)
Definition simulate (clicks : nat) (g : Rng) : Vm :=
  clicksFrom 1 clicks (mkVm 0 1 g []).

End Platform.

(** The line of click [k] when every machine serves five clicks. *)
Definition expectedClick (k : nat) : nat * nat * nat :=
  (k, ((k - 1) / 5 + 1)%nat, ((k - 1) mod 5 + 1)%nat).

Definition isRotation (line : Line) : bool :=
  match line with RotationLine _ => true | _ => false end.

Definition isIdentity (line : Line) : bool :=
  match line with IdentityBlock _ _ _ _ => true | _ => false end.

Definition clickOf (line : Line) : list (nat * nat * nat) :=
  match line with ClickLine click vm counter => [(click, vm, counter)] | _ => [] end.

Definition rotations (out : list Line) : nat := length (filter isRotation out).

Definition identities (out : list Line) : nat := length (filter isIdentity out).

Definition clickLines (out : list Line) : list (nat * nat * nat) := flat_map clickOf out.

(** The values of [Math.floor(Math.random() * 256)]. *)
Definition bytes : list Z := map Z.of_nat (seq 0 256).

(** After [n] clicks: the counter and the machine number account for the
    clicks, five to a machine, and the output has a rotation notice for
    every machine but the first, an identity block for every machine and
    the click lines in order. *)
Definition Served (n : nat) (st : Vm) : Prop :=
  (vmClickCounter st + 5 * (currentVmId st - 1) = n)%nat
  /\ (1 <= currentVmId st)%nat
  /\ (vmClickCounter st <= 5)%nat
  /\ (n = 0%nat -> vmClickCounter st = 0%nat)
  /\ (1 <= n -> 1 <= vmClickCounter st)%nat
  /\ (rotations (output st) = currentVmId st - 1)%nat
  /\ (identities (output st) = if (n =? 0)%nat then 0 else currentVmId st)%nat
  /\ clickLines (output st) = map expectedClick (seq 1 n).

End Demo.
(** ** The text of the CSV files ([updateCSVFile] and [generateCSVReport],
    the same text in both scripts) *)

Module Report.
Local Open Scope string_scope.

(** The values a record holds, and the result of reading a property that
    an object does not have. *)
Inductive JSValue :=
| JSUndefined
| JSString (s : string)
| JSNumber (n : Q).

(** An object: its own properties, in insertion order. *)
Definition JSObject := list (string * JSValue).

(** [obj.key] *)
Fixpoint getProp (obj : JSObject) (key : string) : JSValue :=
  match obj with
  | [] => JSUndefined
  | (k, v) :: rest => if k =? key then v else getProp rest key
  end.

(** [obj[key] = v]: an existing property keeps its place. *)
Fixpoint setProp (key : string) (v : JSValue) (obj : JSObject) : JSObject :=
  match obj with
  | [] => [(key, v)]
  | (k, old) :: rest =>
      if k =? key then (k, v) :: rest else (k, old) :: setProp key v rest
  end.

(** [{ ...target, ...source }] *)
Definition spread (source target : JSObject) : JSObject :=
  fold_left (fun obj property => setProp (fst property) (snd property) obj) source target.

Definition doubleQuote : string := String (ascii_of_nat 34) EmptyString.

Definition newline : string := String (ascii_of_nat 10) EmptyString.

Definition csvHeaders : list string :=
  [ "Click Number"; "Timestamp"; "Tab Number"; "Username"; "Email"; "User ID";
    "Session ID"; "URL Clicked"; "Session Start Time"; "Session End Time";
    "Time Taken (seconds)"; "Interaction Duration (seconds)" ].

Definition reportHeaders : list string :=
  [ "Click Number"; "Timestamp"; "Tab Number"; "Username"; "Email"; "User ID";
    "Session ID"; "Fingerprint"; "Birth Year"; "Account Age"; "URL Clicked";
    "IP Address"; "ISP"; "City"; "State"; "Area"; "Pincode"; "Country";
    "Country Code"; "Latitude"; "Longitude"; "Connection Type";
    "Connection Speed (Mbps)"; "Latency (ms)"; "Connection Description";
    "Location Tier"; "User Agent"; "Screen Resolution"; "Timezone"; "Language";
    "Session Start Time"; "Session End Time"; "Time Taken (seconds)";
    "Interaction Duration (seconds)" ].

(** [recordWithMeta] of [addClickRecord]:
    [{ clickNumber: globalClickCounter, timestamp: ..., ...clickData }] *)
Definition recordWithMeta (clickNumber : Q) (timestamp : string) (clickData : JSObject)
  : JSObject :=
  spread clickData [("clickNumber", JSNumber clickNumber); ("timestamp", JSString timestamp)].

(** The object literal [clickData] of the two workers. *)
Definition workerClickData (tabNumber : Q) (username email : string) (userId : Q)
  (sessionId url sessionStartTime sessionEndTime : string) (timeTaken : Q)
  (interactionDuration : string) : JSObject :=
  [ ("tabNumber", JSNumber tabNumber); ("username", JSString username);
    ("email", JSString email); ("userId", JSNumber userId);
    ("sessionId", JSString sessionId); ("url", JSString url);
    ("sessionStartTime", JSString sessionStartTime);
    ("sessionEndTime", JSString sessionEndTime);
    ("timeTaken", JSNumber timeTaken);
    ("interactionDuration", JSString interactionDuration) ].

Section Platform.

(** [String(n)] for a number: a result of the platform. *)
Variable numberToString : Q -> string.

(** [`${v}`] *)
Definition toString (v : JSValue) : string :=
  match v with
  | JSUndefined => "undefined"
  | JSString s => s
  | JSNumber n => numberToString n
  end.

(** An element as [Array.prototype.join] renders it: nothing for
    [undefined]. *)
Definition joinItem (v : JSValue) : string :=
  match v with
  | JSUndefined => EmptyString
  | _ => toString v
  end.

Definition join (separator : string) (items : list JSValue) : string :=
  String.concat separator (map joinItem items).

(** [`"${v}"`] *)
Definition quoted (v : JSValue) : JSValue :=
  JSString (doubleQuote ++ toString v ++ doubleQuote).

(** The array [row] of [updateCSVFile]. *)
Definition csvRow (record : JSObject) : list JSValue :=
  [ getProp record "clickNumber";
    quoted (getProp record "timestamp");
    getProp record "tabNumber";
    quoted (getProp record "username");
    quoted (getProp record "email");
    quoted (getProp record "userId");
    quoted (getProp record "sessionId");
    quoted (getProp record "url");
    quoted (getProp record "sessionStartTime");
    quoted (getProp record "sessionEndTime");
    getProp record "timeTaken";
    getProp record "interactionDuration" ].

(** The text [updateCSVFile] appends. *)
Definition csvContent (fileExists : bool) (record : JSObject) : string :=
  (if fileExists then EmptyString else String.concat "," csvHeaders ++ newline)
  ++ join "," (csvRow record) ++ newline.

(** The array [row] of [generateCSVReport]. *)
Definition reportRow (record : JSObject) : list JSValue :=
  [ getProp record "clickNumber";
    quoted (getProp record "timestamp");
    getProp record "tabNumber";
    quoted (getProp record "username");
    quoted (getProp record "email");
    getProp record "userId";
    quoted (getProp record "sessionId");
    quoted (getProp record "fingerprint");
    getProp record "birthYear";
    getProp record "accountAge";
    quoted (getProp record "url");
    quoted (getProp record "ipAddress");
    quoted (getProp record "isp");
    quoted (getProp record "city");
    quoted (getProp record "state");
    quoted (getProp record "area");
    quoted (getProp record "pincode");
    quoted (getProp record "country");
    quoted (getProp record "countryCode");
    getProp record "latitude";
    getProp record "longitude";
    quoted (getProp record "connectionType");
    getProp record "connectionSpeed";
    getProp record "latency";
    quoted (getProp record "connectionDescription");
    quoted (getProp record "locationTier");
    quoted (getProp record "userAgent");
    quoted (getProp record "screenResolution");
    quoted (getProp record "timezone");
    quoted (getProp record "language");
    quoted (getProp record "sessionStartTime");
    quoted (getProp record "sessionEndTime");
    getProp record "timeTaken";
    getProp record "interactionDuration" ].

(** The text [generateCSVReport] writes. *)
Definition reportContent (clickReportData : list JSObject) : string :=
  String.concat "," reportHeaders ++ newline
  ++ String.concat EmptyString
       (map (fun record => join "," (reportRow record) ++ newline) clickReportData).

(** The fields of a row under their column headers. *)
Definition columns (headers : list string) (row : list JSValue)
  : list (string * string) :=
  combine headers (map joinItem row).

End Platform.

(** [`"${s}"`] for a string. *)
Definition inQuotes (s : string) : string := doubleQuote ++ s ++ doubleQuote.

(** The field [`"${v}"`] of a property the record does not have. *)
Definition missing : string := inQuotes "undefined".

End Report.
(** * Properties *)

(** ** Double-precision arithmetic *)

Module Float64Facts.
Import Float64.

Lemma roundEven_error (y : Q) : (Qabs (inject_Z (roundEven y) - y) <= 1 # 2)%Q.
Proof.
  unfold roundEven.
  pose proof (Qfloor_le y) as Hlo. pose proof (Qlt_floor y) as Hhi.
  rewrite inject_Z_plus in Hhi. change (inject_Z 1) with 1%Q in Hhi.
  apply Qabs_Qle_condition.
  destruct (Qcompare (y - inject_Z (Qfloor y)) (1 # 2)) eqn:E.
  - apply Qeq_alt in E.
    destruct (Z.even (Qfloor y)); [| rewrite inject_Z_plus; change (inject_Z 1) with 1%Q];
      split; lra.
  - apply Qlt_alt in E. split; lra.
  - apply Qgt_alt in E. rewrite inject_Z_plus. change (inject_Z 1) with 1%Q. split; lra.
Qed.

Lemma pow2_pos (k : Z) : (0 < pow2 k)%Q.
Proof. apply Qpower_0_lt. reflexivity. Qed.

Lemma pow2_add (a b : Z) : (pow2 (a + b) == pow2 a * pow2 b)%Q.
Proof. apply Qpower_plus. discriminate. Qed.

Lemma pow2_le (a b : Z) : (a <= b)%Z -> (pow2 a <= pow2 b)%Q.
Proof. intros H. apply Qpower_le_compat_l; [exact H | discriminate]. Qed.

Lemma pow2_nat (k : Z) : (0 <= k)%Z -> (pow2 k == inject_Z (2 ^ k))%Q.
Proof. intros H. unfold pow2. rewrite Zpower_Qpower by exact H. reflexivity. Qed.

Lemma Qabs_fraction (x : Q) :
  (Qabs x == inject_Z (Z.abs (Qnum x)) / inject_Z (Zpos (Qden x)))%Q.
Proof. destruct x as [n d]. cbn [Qabs Qnum Qden]. apply Qmake_Qdiv. Qed.

(** [2 ^ ilog2 x <= |x|] for every non-zero [x]. *)
Lemma ilog2_le (x : Q) : ~ (x == 0)%Q -> (pow2 (ilog2 x) <= Qabs x)%Q.
Proof.
  intros Hx. unfold ilog2.
  set (n := Z.abs (Qnum x)). set (d := Zpos (Qden x)).
  destruct (Qle_bool (pow2 (Z.log2 n - Z.log2 d)) (Qabs x)) eqn:E.
  - apply Qle_bool_iff. exact E.
  - clear E.
    assert (Hn : (0 < n)%Z).
    { subst n. destruct x as [[| p | p] q]; cbn; try lia. exfalso. apply Hx. reflexivity. }
    assert (Hd : (0 < d)%Z) by (subst d; lia).
    destruct (Z.log2_spec n Hn) as [Hn1 _].
    destruct (Z.log2_spec d Hd) as [_ Hd2].
    pose proof (Z.log2_nonneg n) as Ln. pose proof (Z.log2_nonneg d) as Ld.
    rewrite Qabs_fraction. fold n d.
    apply Qle_shift_div_l; [change 0%Q with (inject_Z 0); rewrite <- Zlt_Qlt; exact Hd |].
    apply Qle_trans with (pow2 (Z.log2 n - Z.log2 d - 1) * pow2 (Z.succ (Z.log2 d)))%Q.
    + apply Qmult_le_l; [apply pow2_pos |].
      rewrite pow2_nat by lia. rewrite <- Zle_Qle. lia.
    + rewrite <- pow2_add.
      replace (Z.log2 n - Z.log2 d - 1 + Z.succ (Z.log2 d))%Z with (Z.log2 n) by lia.
      rewrite pow2_nat by lia. rewrite <- Zle_Qle. exact Hn1.
Qed.

Lemma round64_quantum (x : Q) :
  (Qabs (round64 x - x) <= (1 # 2) * pow2 (quantum x))%Q.
Proof.
  unfold round64. set (q := quantum x).
  pose proof (pow2_pos q) as Hq.
  pose proof (roundEven_error (x / pow2 q)) as H.
  assert (E : (inject_Z (roundEven (x / pow2 q)) * pow2 q - x
               == (inject_Z (roundEven (x / pow2 q)) - x / pow2 q) * pow2 q)%Q).
  { field. lra. }
  rewrite E, Qabs_Qmult. rewrite (Qabs_pos (pow2 q)) by lra.
  apply Qmult_le_compat_r; [exact H | lra].
Qed.

Lemma round64_0 (x : Q) : (x == 0)%Q -> (round64 x == 0)%Q.
Proof.
  intros Hx. unfold round64. set (p := pow2 (quantum x)).
  assert (E : roundEven (x / p) = 0%Z).
  { unfold roundEven.
    assert (Hy : (x / p == 0)%Q) by (rewrite Hx; apply Qmult_0_l).
    assert (Hf : Qfloor (x / p) = 0%Z) by (rewrite Hy; reflexivity).
    rewrite Hf.
    assert (Hc : Qcompare (x / p - inject_Z 0) (1 # 2) = Lt).
    { rewrite <- Qlt_alt. rewrite Hy. reflexivity. }
    rewrite Hc. reflexivity. }
  rewrite E. apply Qmult_0_l.
Qed.

(** Rounding moves a number below [2 ^ k] by at most half a unit in the
    last place of that range. *)
Lemma round64_error (x : Q) (k : Z) :
  (-1021 <= k)%Z -> (Qabs x < pow2 k)%Q ->
  (Qabs (round64 x - x) <= pow2 (k - 54))%Q.
Proof.
  intros Hk Hlt.
  destruct (Qeq_dec x 0) as [Hx | Hx].
  - pose proof (round64_0 x Hx) as H0. pose proof (pow2_pos (k - 54)) as Hp.
    apply Qabs_Qle_condition. split; lra.
  - pose proof (ilog2_le x Hx) as He.
    assert (Hek : (ilog2 x < k)%Z).
    { apply Qpower_lt_compat_l_inv with (q := 2%Q); [| reflexivity].
      apply Qle_lt_trans with (Qabs x); assumption. }
    apply Qle_trans with ((1 # 2) * pow2 (quantum x))%Q; [apply round64_quantum |].
    apply Qle_trans with ((1 # 2) * pow2 (k - 53))%Q.
    + apply Qmult_le_l; [reflexivity |]. apply pow2_le. unfold quantum. lia.
    + replace (k - 53)%Z with (1 + (k - 54))%Z by lia. rewrite pow2_add.
      change (pow2 1) with 2%Q. pose proof (pow2_pos (k - 54)). lra.
Qed.

End Float64Facts.

(** ** Profile generator *)

Module ProfileFacts.
Import Random Profile.

Lemma fair_tail (g : Rng) : fair g -> fair (snd (Math_random g)).
Proof. intros H n. exact (H (S n)). Qed.

Lemma fair_constant (r : Q) : (0 <= r)%Q -> (r < 1)%Q -> fair (constant r).
Proof. intros H0 H1 n. split; assumption. Qed.

(** [Math.floor(r * n)] is a valid index of an array of [n > 0] elements. *)
Lemma floor_scaled_range (r : Q) (n : nat) :
  (0 <= r)%Q -> (r < 1)%Q -> (0 < n)%nat ->
  (0 <= Math_floor (r * inject_Z (Z.of_nat n)) < Z.of_nat n)%Z.
Proof.
  intros H0 H1 Hn. unfold Math_floor.
  assert (Hpos : (0 < inject_Z (Z.of_nat n))%Q).
  { change 0%Q with (inject_Z 0). rewrite <- Zlt_Qlt. lia. }
  split.
  - change 0%Z with (Qfloor 0). apply Qfloor_resp_le.
    apply Qmult_le_0_compat; [assumption | apply Qlt_le_weak; assumption].
  - rewrite Zlt_Qlt.
    apply Qle_lt_trans with (r * inject_Z (Z.of_nat n))%Q; [apply Qfloor_le |].
    setoid_replace (inject_Z (Z.of_nat n)) with (1 * inject_Z (Z.of_nat n))%Q at 2 by ring.
    apply Qmult_lt_compat_r; assumption.
Qed.

Lemma index_in_range {A : Type} (arr : list A) (i : Z) :
  (0 <= i < Z.of_nat (length arr))%Z -> exists a, index arr i = Some a /\ In a arr.
Proof.
  intros [H0 H1]. unfold index.
  destruct (Z.ltb_spec i 0) as [Hneg | _]; [lia |].
  destruct (nth_error arr (Z.to_nat i)) as [a |] eqn:E.
  - exists a. split; [reflexivity | eapply nth_error_In; eassumption].
  - apply nth_error_None in E. lia.
Qed.

(** A draw from a non-empty table is an element of the table. *)
Lemma getRandomElement_In {A : Type} (array : list A) (g : Rng) :
  fair g -> array <> [] ->
  exists a, fst (getRandomElement array g) = Some a /\ In a array.
Proof.
  intros Hg Hne. unfold getRandomElement, Math_random. cbn [fst].
  apply index_in_range. unfold length_Q.
  destruct (Hg 0%nat) as [H0 H1].
  apply floor_scaled_range; try assumption.
  destruct array; [congruence | cbn; lia].
Qed.

Lemma getRandomElement_rng {A : Type} (array : list A) (g : Rng) :
  snd (getRandomElement array g) = snd (Math_random g).
Proof. reflexivity. Qed.

Lemma includes_In (l : list string) (s : string) : includes l s = true -> In s l.
Proof.
  unfold includes. intros H. apply existsb_exists in H as [x [Hx Heq]].
  apply String.eqb_eq in Heq. subst. assumption.
Qed.

Lemma getLocationTier_cases (cityName : string) :
  getLocationTier cityName = "tier1" \/ getLocationTier cityName = "tier2"
  \/ getLocationTier cityName = "tier3".
Proof.
  unfold getLocationTier.
  destruct (includes tier1Cities cityName); [now left |].
  destruct (includes tier2Cities cityName); [right; now left | right; now right].
Qed.

Lemma connectionTypes_downlink_nonneg (c : Connection) :
  In c connectionTypes -> (0 <= downlink c)%Q.
Proof.
  intros H.
  assert (Hall : forallb (fun c => Qle_bool 0 (downlink c)) connectionTypes = true)
    by (vm_compute; reflexivity).
  rewrite forallb_forall in Hall. apply Qle_bool_iff. apply Hall. exact H.
Qed.

(** Every entry that survives the filter of a city tier is permitted for
    the tier and meets its floor. *)
Lemma filteredConnections_sound (cityName : string) (c : Connection) :
  In c (filteredConnections (getLocationTier cityName)) ->
  In (type c) (allowedTypes (getLocationTier cityName))
  /\ (downlinkFloor (getLocationTier cityName) <= downlink c)%Q.
Proof.
  unfold filteredConnections. intros H. apply filter_In in H as [Hin H].
  destruct (getLocationTier_cases cityName) as [E | [E | E]]; rewrite E in *;
    cbn [switchCase String.eqb Ascii.eqb Bool.eqb caseFilter] in H.
  - apply andb_true_iff in H as [Ht Hd]. split.
    + apply includes_In in Ht. exact Ht.
    + apply Qle_bool_iff in Hd. exact Hd.
  - apply andb_true_iff in H as [Ht Hd]. split.
    + apply includes_In in Ht. exact Ht.
    + apply Qle_bool_iff in Hd. exact Hd.
  - split.
    + apply includes_In in H. exact H.
    + apply connectionTypes_downlink_nonneg. exact Hin.
Qed.

(** The filtered table of a city tier is never empty, so the draw never
    yields [undefined]. *)
Lemma filteredConnections_nonempty (cityName : string) :
  filteredConnections (getLocationTier cityName) <> [].
Proof.
  destruct (getLocationTier_cases cityName) as [E | [E | E]]; rewrite E;
    vm_compute; discriminate.
Qed.

Lemma getRandomConnectionType_sound (cityName : string) (g : Rng) :
  fair g ->
  exists c, fst (getRandomConnectionType (getLocationTier cityName) g) = Some c
    /\ In (type c) (allowedTypes (getLocationTier cityName))
    /\ (downlinkFloor (getLocationTier cityName) <= downlink c)%Q.
Proof.
  intros Hg. unfold getRandomConnectionType.
  destruct (getRandomElement_In (filteredConnections (getLocationTier cityName)) g Hg
              (filteredConnections_nonempty cityName)) as [c [Hc Hin]].
  exists c. split; [exact Hc | apply filteredConnections_sound; exact Hin].
Qed.

Lemma half_is_a_double : (Float64.number (1 # 2) == 1 # 2)%Q.
Proof. vm_compute. reflexivity. Qed.

(** The jitter stays within the radius up to the rounding of the factor
    [0.01] and of the product. *)
Lemma jitter_bound (r : Q) :
  (0 <= r)%Q -> (r < 1)%Q -> (Qabs (jitter r) <= jitterRadius + Float64.pow2 (-59))%Q.
Proof.
  intros H0 H1. unfold jitter, Float64.mul, Float64.sub.
  pose proof half_is_a_double as Hh.
  set (h := Float64.number (1 # 2)) in *.
  assert (Ha : (Qabs (Float64.round64 (r - h) - (r - h)) <= Float64.pow2 (0 - 54))%Q).
  { apply Float64Facts.round64_error; [lia |].
    change (Float64.pow2 0) with 1%Q. apply Qabs_Qlt_condition. split; lra. }
  assert (Hc : (Qabs (Float64.number (1 # 100) - (1 # 100)) <= Float64.pow2 (-6 - 54))%Q).
  { apply Float64Facts.round64_error; [lia | reflexivity]. }
  set (a := Float64.round64 (r - h)) in *.
  set (c := Float64.number (1 # 100)) in *.
  assert (P54 : (Float64.pow2 (0 - 54) == 1 # 18014398509481984)%Q) by reflexivity.
  assert (P59 : (Float64.pow2 (-59) == 1 # 576460752303423488)%Q) by reflexivity.
  assert (P60 : (Float64.pow2 (-6 - 54) == 1 # 1152921504606846976)%Q) by reflexivity.
  assert (P61 : (Float64.pow2 (-7 - 54) == 1 # 2305843009213693952)%Q) by reflexivity.
  apply Qabs_Qle_condition in Ha, Hc.
  assert (Hac : (Qabs (a * c) <= ((1 # 2) + (1 # 18014398509481984))
                                  * ((1 # 100) + (1 # 1152921504606846976)))%Q).
  { rewrite Qabs_Qmult. apply Qmult_le_compat_nonneg.
    - split; [apply Qabs_nonneg | apply Qabs_Qle_condition; split; lra].
    - split; [apply Qabs_nonneg | apply Qabs_Qle_condition; split; lra]. }
  assert (Hb : (Qabs (Float64.round64 (a * c) - a * c) <= Float64.pow2 (-7 - 54))%Q).
  { apply Float64Facts.round64_error; [lia |].
    apply Qle_lt_trans with (1 := Hac). reflexivity. }
  set (b := Float64.round64 (a * c)) in *.
  apply Qabs_Qle_condition in Hac, Hb.
  unfold jitterRadius.
  apply Qabs_Qle_condition. split; lra.
Qed.

Lemma lookup_In (table : list (string * Coords)) (key : string) (v : Coords) :
  lookup table key = Some v -> In v (map snd table).
Proof.
  induction table as [| [k x] rest IH]; cbn [lookup]; [discriminate |].
  destruct (k =? key)%string.
  - intros H. injection H as <-. left. reflexivity.
  - intros H. right. exact (IH H).
Qed.

(** Every entry of the coordinate table lies between 0 and 100 degrees on
    both axes. *)
Lemma canonicalCoords_range (cityName : string) :
  (Qabs (lat (canonicalCoords cityName)) <= 100
   /\ Qabs (lng (canonicalCoords cityName)) <= 100)%Q.
Proof.
  assert (Hall : Forall (fun c => (Qabs (lat c) <= 100 /\ Qabs (lng c) <= 100)%Q)
                        (map snd indianCoordinates)).
  { repeat constructor; discriminate. }
  unfold canonicalCoords.
  destruct (lookup indianCoordinates cityName) as [c |] eqn:E.
  - rewrite Forall_forall in Hall. apply Hall. exact (lookup_In _ _ _ E).
  - cbn. split; discriminate.
Qed.

(** On every entry of the coordinate table and at every sample draw,
    rounding with [Float64.round64] gives the coordinate that the IEEE 754
    operations of the standard library give. *)
Lemma coordinates_agree_with_IEEE754 :
  Forall (fun c => agreesWith754 (lat c) = true /\ agreesWith754 (lng c) = true)
         (map snd indianCoordinates).
Proof.
  apply Forall_forall. intros c Hc.
  assert (H : forallb (fun c => agreesWith754 (lat c) && agreesWith754 (lng c))
                      (map snd indianCoordinates) = true) by (vm_compute; reflexivity).
  rewrite forallb_forall in H. apply andb_true_iff. apply H. exact Hc.
Qed.

(** A table entry and the coordinate computed from it differ by the
    jitter and by three roundings. *)
Lemma coordinate_bound (base r : Q) :
  (Qabs base <= 100)%Q -> (0 <= r)%Q -> (r < 1)%Q ->
  (Qabs (Float64.add (Float64.number base) (jitter r) - base)
   <= jitterRadius + roundingSlack)%Q.
Proof.
  intros Hbase H0 H1. unfold Float64.add, Float64.number, roundingSlack.
  pose proof (jitter_bound r H0 H1) as Hj. set (b := jitter r) in *.
  assert (P45 : (Float64.pow2 (-45) == 1 # 35184372088832)%Q) by reflexivity.
  assert (P47 : (Float64.pow2 (7 - 54) == 1 # 140737488355328)%Q) by reflexivity.
  assert (P59 : (Float64.pow2 (-59) == 1 # 576460752303423488)%Q) by reflexivity.
  assert (P7 : (Float64.pow2 7 == 128)%Q) by reflexivity.
  unfold jitterRadius in *.
  apply Qabs_Qle_condition in Hbase, Hj.
  assert (HL : (Qabs (Float64.round64 base - base) <= Float64.pow2 (7 - 54))%Q).
  { apply Float64Facts.round64_error; [lia |].
    rewrite P7. apply Qabs_Qlt_condition. split; lra. }
  set (L := Float64.round64 base) in *.
  apply Qabs_Qle_condition in HL.
  assert (HS : (Qabs (Float64.round64 (L + b) - (L + b)) <= Float64.pow2 (7 - 54))%Q).
  { apply Float64Facts.round64_error; [lia |].
    rewrite P7. apply Qabs_Qlt_condition. split; lra. }
  apply Qabs_Qle_condition in HS.
  apply Qabs_Qle_condition. split; lra.
Qed.

Lemma indianIPData_nonempty : indianIPData <> [].
Proof. discriminate. Qed.

(** What [generateIndianIPData] returns, draw by draw. *)
Lemma generateIndianIPData_spec (g : Rng) :
  fair g ->
  exists e d,
    In e indianIPData
    /\ generateIndianIPData g = (Some d, fun n => g (6 + n)%nat)
    /\ geo_city d = city e
    /\ latitude d
       = Float64.add (Float64.number (lat (canonicalCoords (city e)))) (jitter (g 2%nat))
    /\ longitude d
       = Float64.add (Float64.number (lng (canonicalCoords (city e)))) (jitter (g 5%nat)).
Proof.
  intros Hg.
  destruct (getRandomElement_In indianIPData g Hg indianIPData_nonempty) as [e [He Hin]].
  unfold generateIndianIPData.
  unfold getRandomElement, Math_random in *. cbn [fst] in He. rewrite He.
  unfold getRandomCoordinatesForCity, Math_random.
  eexists e, _. split; [exact Hin |]. split; [reflexivity |].
  cbn. repeat split; reflexivity.
Qed.

Section GeneratorFacts.

Variables (userAgents : list string) (resolutions : list Resolution)
          (timezones : list string) (languages : list string).

Let generate := generateProfile userAgents resolutions timezones languages.

(** What [setupPageFingerprint] draws, for a fair random source. *)
Lemma generateProfile_spec (g : Rng) :
  fair g ->
  exists e p c,
    In e indianIPData
    /\ fst (generate g) = Some p
    /\ geo_city (ipData p) = city e
    /\ latitude (ipData p)
       = Float64.add (Float64.number (lat (canonicalCoords (city e)))) (jitter (g 6%nat))
    /\ longitude (ipData p)
       = Float64.add (Float64.number (lng (canonicalCoords (city e)))) (jitter (g 9%nat))
    /\ locationTier p = getLocationTier (city e)
    /\ connectionInfo p = Some c
    /\ In (type c) (allowedTypes (locationTier p))
    /\ (downlinkFloor (locationTier p) <= downlink c)%Q.
Proof.
  intros Hg. subst generate. unfold generateProfile.
  unfold getRandomElement at 1 2 3 4. unfold Math_random. 
  set (g4 := fun n => g (S (S (S (S n))))).
  assert (Hg4 : fair g4) by (intros n; apply Hg).
  destruct (generateIndianIPData_spec g4 Hg4) as [e [d [Hin [Hd [Hcity [Hlat Hlng]]]]]].
  rewrite Hd. rewrite Hcity.
  set (g5 := fun n => g4 (6 + n)%nat).
  assert (Hg5 : fair g5) by (intros n; apply Hg4).
  destruct (getRandomConnectionType_sound (city e) g5 Hg5) as [c [Hc [Hty Hfl]]].
  destruct (getRandomConnectionType (getLocationTier (city e)) g5) as [oc g6] eqn:E.
  cbn [fst] in Hc. subst oc.
  eexists e, _, c. split; [exact Hin |]. split; [cbn [fst]; reflexivity |].
  cbn [ipData locationTier connectionInfo].
  repeat split; assumption.
Qed.

Lemma generateProfile_tier (g : Rng) (p : Fingerprint) :
  fst (generate g) = Some p ->
  locationTier p = getLocationTier (geo_city (ipData p)).
Proof.
  subst generate. unfold generateProfile.
  unfold getRandomElement at 1 2 3 4. unfold Math_random.
  destruct (generateIndianIPData _) as [[d |] g5]; [| discriminate].
  destruct (getRandomConnectionType _ g5) as [oc g6].
  cbn [fst]. intros H. injection H as <-. reflexivity.
Qed.

(** C5, amended. For every generated profile, the coordinates lie within
    the jitter radius of the base point of the profile's city, up to the
    rounding of double-precision arithmetic: on each axis the distance is
    at most 0.005 + 2^-45 degrees, hence at most (0.005 + 2^-45) * sqrt 2
    degrees in the plane, for every city the IP table can yield.  The base
    point is the city's entry in the coordinate table when there is one,
    and the entry of Mumbai otherwise.  The literal of the entry, the
    jitter and their sum are each rounded to the nearest double, so the
    radius itself can be exceeded ([radius_exceeded_by_rounding]). *)
Theorem coordinates_within_jitter_radius (g : Rng) :
  fair g ->
  exists p,
    let cityName := geo_city (ipData p) in
    let dlat := (latitude (ipData p) - lat (canonicalCoords cityName))%Q in
    let dlng := (longitude (ipData p) - lng (canonicalCoords cityName))%Q in
    let radius := (jitterRadius + roundingSlack)%Q in
    fst (generate g) = Some p
    /\ (exists e, In e indianIPData /\ cityName = city e)
    /\ Some (canonicalCoords cityName)
       = match lookup indianCoordinates cityName with
         | Some c => Some c
         | None => lookup indianCoordinates "Mumbai"
         end
    /\ (Qabs dlat <= radius)%Q
    /\ (Qabs dlng <= radius)%Q
    /\ (dlat * dlat + dlng * dlng <= 2 * (radius * radius))%Q.
Proof.
  intros Hg.
  destruct (generateProfile_spec g Hg)
    as [e [p [c [Hin [Hp [Hcity [Hlat [Hlng _]]]]]]]].
  exists p. cbn zeta. split; [exact Hp |]. split; [exists e; split; assumption |].
  split; [unfold canonicalCoords; destruct (lookup indianCoordinates _); reflexivity |].
  rewrite Hcity, Hlat, Hlng.
  destruct (canonicalCoords_range (city e)) as [Rlat Rlng].
  destruct (Hg 6%nat) as [H60 H61]. destruct (Hg 9%nat) as [H90 H91].
  pose proof (coordinate_bound _ _ Rlat H60 H61) as H6.
  pose proof (coordinate_bound _ _ Rlng H90 H91) as H9.
  split; [exact H6 |]. split; [exact H9 |].
  apply Qabs_Qle_condition in H6, H9.
  assert (P45 : (roundingSlack == 1 # 35184372088832)%Q) by reflexivity.
  unfold jitterRadius in *. nra.
Qed.

(** C6. For every generated profile, the connection type is permitted
    for the tier of the profile's city and the downlink meets the tier's
    floor; for Mumbai, a tier-1 city, every one of any number of draws
    has a type among fiber, cable, 5g, 4g, wifi and a downlink of at
    least 5. *)
Theorem connection_permitted_for_tier (g : Rng) (n : nat) :
  fair g ->
  (exists p c,
      fst (generate g) = Some p
      /\ connectionInfo p = Some c
      /\ In (type c) (allowedTypes (getLocationTier (geo_city (ipData p))))
      /\ (downlinkFloor (getLocationTier (geo_city (ipData p))) <= downlink c)%Q)
  /\ getLocationTier "Mumbai" = "tier1"
  /\ length (drawConnections (getLocationTier "Mumbai") n g) = n
  /\ Forall (fun drawn => exists c,
                drawn = Some c
                /\ In (type c) ["fiber"; "cable"; "5g"; "4g"; "wifi"]
                /\ (5 <= downlink c)%Q)
            (drawConnections (getLocationTier "Mumbai") n g).
Proof.
  intros Hg. split; [| split; [reflexivity |]].
  - destruct (generateProfile_spec g Hg)
      as [e [p [c [_ [Hp [Hcity [_ [_ [Htier [Hc [Hty Hfl]]]]]]]]]]].
    exists p, c. rewrite Hcity, <- Htier. repeat split; assumption.
  - revert g Hg. induction n as [| k IH]; intros g Hg.
    + split; [reflexivity | constructor].
    + cbn [drawConnections].
      destruct (getRandomConnectionType_sound "Mumbai" g Hg) as [c [Hc [Hty Hfl]]].
      unfold getRandomConnectionType, getRandomElement in *.
      cbn [Math_random fst] in *.
      destruct (IH (fun i => g (S i)) (fair_tail g Hg)) as [Hlen Hall].
      split; [cbn [length]; f_equal; exact Hlen |].
      constructor; [| exact Hall].
      exists c. split; [exact Hc |]. split; [exact Hty | exact Hfl].
Qed.

(** C10. The city-to-tier lookup only returns tier1, tier2 or tier3 and
    never rural, so every generated profile has one of these three tiers
    and the rural case of the connection filter, which the switch does
    name, is never selected by profile generation. *)
Theorem tier_lookup_never_rural (g : Rng) (p : Fingerprint) :
  fst (generate g) = Some p ->
  (forall cityName,
      In (getLocationTier cityName) ["tier1"; "tier2"; "tier3"]
      /\ getLocationTier cityName <> "rural")
  /\ In (locationTier p) ["tier1"; "tier2"; "tier3"]
  /\ switchCase (locationTier p) <> CaseRural
  /\ switchCase "rural" = CaseRural
  /\ filteredConnections "rural" <> [].
Proof.
  intros Hp.
  assert (Hall : forall cityName,
             In (getLocationTier cityName) ["tier1"; "tier2"; "tier3"]
             /\ getLocationTier cityName <> "rural"
             /\ switchCase (getLocationTier cityName) <> CaseRural).
  { intros cityName.
    destruct (getLocationTier_cases cityName) as [E | [E | E]]; rewrite E;
      (split; [cbn; tauto | split; discriminate]). }
  split; [intros cityName; destruct (Hall cityName) as [H1 [H2 _]]; now split |].
  rewrite (generateProfile_tier g p Hp).
  destruct (Hall (geo_city (ipData p))) as [H1 [_ H3]].
  split; [exact H1 |]. split; [exact H3 |]. split; [reflexivity |].
  vm_compute. discriminate.
Qed.

End GeneratorFacts.

(** C5 as stated does not hold: the record for Delhi in the IP table has
    no entry of its own in the coordinate table, which lists New Delhi. *)
Lemma delhi_has_no_coordinates_of_its_own : ~ OwnCityJitter.
Proof.
  intros H.
  assert (Hfair : fair delhiRng).
  { intros n. unfold delhiRng. destruct (n =? 4)%nat; split; reflexivity || discriminate. }
  destruct (fst (generateProfile [] [] [] [] delhiRng)) as [p |] eqn:E;
    [| vm_compute in E; discriminate].
  destruct (H delhiRng p Hfair E) as (c & Hc & _).
  vm_compute in E. injection E as <-. vm_compute in Hc. discriminate.
Qed.

(** The radius itself does not bound the distance: with a draw of zero
    the latitude computed for Bangalore lies more than 0.005 degrees from
    the table entry, both as written and as a double. *)
Lemma radius_exceeded_by_rounding :
  fair bangaloreRng
  /\ exists p,
      fst (generateProfile [] [] [] [] bangaloreRng) = Some p
      /\ geo_city (ipData p) = "Bangalore"
      /\ lookup indianCoordinates "Bangalore" = Some (mkCoords (129716 # 10000) (775946 # 10000))
      /\ (jitterRadius < Qabs (latitude (ipData p) - (129716 # 10000)))%Q
      /\ (jitterRadius
          < Qabs (latitude (ipData p) - Float64.number (129716 # 10000)))%Q.
Proof.
  split.
  - intros n. unfold bangaloreRng. destruct (n =? 4)%nat; split; reflexivity || discriminate.
  - eexists. split; [vm_compute; reflexivity |].
    split; [reflexivity |]. split; [reflexivity |]. split; vm_compute; reflexivity.
Qed.

Lemma coordinates_within_jitter_radius_witness :
  fair delhiRng
  /\ exists p,
      fst (generateProfile [] [] [] [] delhiRng) = Some p
      /\ geo_city (ipData p) = "Delhi"
      /\ Some (canonicalCoords (geo_city (ipData p))) = lookup indianCoordinates "Mumbai"
      /\ (Qabs (latitude (ipData p) - (190760 # 10000)) <= jitterRadius + roundingSlack)%Q
      /\ (Qabs (longitude (ipData p) - (728777 # 10000)) <= jitterRadius + roundingSlack)%Q.
Proof.
  assert (Hfair : fair delhiRng).
  { intros n. unfold delhiRng. destruct (n =? 4)%nat; split; reflexivity || discriminate. }
  split; [exact Hfair |].
  destruct (coordinates_within_jitter_radius [] [] [] [] delhiRng Hfair)
    as (p & Hp & _ & Hbase & Hlat & Hlng & _).
  assert (Hcity : geo_city (ipData p) = "Delhi").
  { vm_compute in Hp. injection Hp as <-. reflexivity. }
  exists p. rewrite Hcity in *.
  split; [exact Hp |]. split; [reflexivity |].
  split; [exact Hbase |]. split; [exact Hlat | exact Hlng].
Defined.

Lemma connection_permitted_for_tier_witness :
  fair (constant (1 # 2))
  /\ Forall (fun drawn => exists c,
                drawn = Some c
                /\ In (type c) ["fiber"; "cable"; "5g"; "4g"; "wifi"]
                /\ (5 <= downlink c)%Q)
            (drawConnections (getLocationTier "Mumbai") 1000 (constant (1 # 2))).
Proof.
  assert (H : fair (constant (1 # 2))) by (intros n; split; [discriminate | reflexivity]).
  split; [exact H |].
  apply (connection_permitted_for_tier [] [] [] [] (constant (1 # 2)) 1000 H).
Defined.

Lemma tier_lookup_never_rural_witness :
  exists p,
    fst (generateProfile [] [] [] [] (constant 0)) = Some p
    /\ In (locationTier p) ["tier1"; "tier2"; "tier3"]
    /\ switchCase (locationTier p) <> CaseRural.
Proof.
  destruct (fst (generateProfile [] [] [] [] (constant 0))) as [p |] eqn:E;
    [| vm_compute in E; discriminate].
  exists p. split; [reflexivity |].
  destruct (tier_lookup_never_rural [] [] [] [] (constant 0) p E) as [_ [H1 [H2 _]]].
  split; assumption.
Defined.

End ProfileFacts.

(** ** Sequential execution of asynchronous computations *)

Module AsyncFacts.
Import Async.

Section Run.

Context {S : Type}.

Lemma run_bind {A B : Type} (m : Co S A) (f : A -> Co S B) (s : S) :
  run (bind m f) s =
  match run m s with
  | (Ok a, s') => run (f a) s'
  | (Throw error, s') => (Throw error, s')
  end.
Proof.
  revert s. induction m as [[a | error] | k IH | s' k IH | k IH]; intros s; cbn.
  - reflexivity.
  - reflexivity.
  - apply IH.
  - apply IH.
  - apply IH.
Qed.

Lemma run_tryCatch {A : Type} (m : Co S A) (handler : Error -> Co S A) (s : S) :
  run (tryCatch m handler) s =
  match run m s with
  | (Ok a, s') => (Ok a, s')
  | (Throw error, s') => run (handler error) s'
  end.
Proof.
  revert s. induction m as [[a | error] | k IH | s' k IH | k IH]; intros s; cbn;
    try reflexivity; apply IH.
Qed.

Lemma run_tryFinally {A : Type} (m : Co S A) (finalizer : Co S unit) (s : S) :
  run (tryFinally m finalizer) s =
  match run m s with
  | (r, s') =>
      match run finalizer s' with
      | (Ok _, s'') => (r, s'')
      | (Throw error, s'') => (Throw error, s'')
      end
  end.
Proof.
  revert s. induction m as [r | k IH | s' k IH | k IH]; intros s; cbn;
    try apply IH.
  rewrite run_bind. destruct (run finalizer s) as [[[] | error] s'']; reflexivity.
Qed.

Lemma run_await {A : Type} (m : Co S A) (s : S) : run (await m) s = run m s.
Proof.
  revert s. induction m as [r | k IH | s' k IH | k IH]; intros s; cbn;
    try reflexivity; apply IH.
Qed.

Lemma run_ret {A : Type} (a : A) (s : S) : run (ret a) s = (Ok a, s).
Proof. reflexivity. Qed.

Lemma run_throw {A : Type} (error : Error) (s : S) :
  run (throw error : Co S A) s = (Throw error, s).
Proof. reflexivity. Qed.

Lemma run_gets {A : Type} (f : S -> A) (s : S) : run (gets f) s = (Ok (f s), s).
Proof. reflexivity. Qed.

Lemma run_modify (f : S -> S) (s : S) : run (modify f) s = (Ok tt, f s).
Proof. reflexivity. Qed.

Lemma run_swallow (m : Co S unit) (s : S) :
  run (swallow m) s = (Ok tt, snd (run m s)).
Proof.
  unfold swallow. rewrite run_tryCatch.
  destruct (run m s) as [[[] | error] s']; reflexivity.
Qed.

End Run.

Section RunLocals.

Context {W L : Type}.

Lemma run_scope {A : Type} (m : Co (W * L) A) (locals : L) (w : W) :
  run (scope locals m) w = (fst (run m (w, locals)), fst (snd (run m (w, locals)))).
Proof.
  revert locals w.
  induction m as [r | k IH | [w' locals'] k IH | k IH]; intros locals w; cbn.
  - reflexivity.
  - apply IH.
  - apply IH.
  - apply IH.
Qed.

Lemma run_lift {A : Type} (m : Co W A) (w : W) (locals : L) :
  run (lift m) (w, locals) = (fst (run m w), (snd (run m w), locals)).
Proof.
  revert w. induction m as [r | k IH | w' k IH | k IH]; intros w; cbn.
  - reflexivity.
  - apply IH.
  - apply IH.
  - apply IH.
Qed.

Lemma run_getLocal {A : Type} (f : L -> A) (w : W) (locals : L) :
  run (getLocal f) (w, locals) = (Ok (f locals), (w, locals)).
Proof. reflexivity. Qed.

Lemma run_setLocal (f : L -> L) (w : W) (locals : L) :
  run (setLocal f) (w, locals) = (Ok tt, (w, f locals)).
Proof. reflexivity. Qed.

End RunLocals.

End AsyncFacts.

(** ** Browser primitives and telemetry recorder, run sequentially *)

Module EngineFacts.
Import Async Engine AsyncFacts.
Local Open Scope list_scope.

Lemma run_log (line : LogLine) (w : World) :
  run (log line) w = (Ok tt, set_console (console w ++ [line]) w).
Proof. reflexivity. Qed.

Lemma run_delay (ms : N) (w : World) :
  run (delay ms) w = (Ok tt, set_clock (clock w + ms)%N w).
Proof. reflexivity. Qed.

Lemma run_launch (env : Env) (w : World) :
  run (launch env) w =
  if launchOk env
  then (Ok (BrowserHandle (length (acquired w))),
        set_acquired (acquired w ++ [BrowserHandle (length (acquired w))]) w)
  else (Throw BrowserLaunchFailure, w).
Proof. unfold launch. cbn [run]. destruct (launchOk env); reflexivity. Qed.

Lemma run_newPage (env : Env) (b : Handle) (w : World) :
  run (newPage env b) w =
  if newPageOk env
  then (Ok (PageHandle (length (acquired w))),
        set_acquired (acquired w ++ [PageHandle (length (acquired w))]) w)
  else (Throw PageCreationFailure, w).
Proof. unfold newPage. cbn [run]. destruct (newPageOk env); reflexivity. Qed.

Lemma run_goto (env : Env) (target : string) (w : World) :
  run (goto env target) w =
  (if gotoOk env then Ok tt else Throw NavigationTimeout,
   set_navigations (navigations w ++ [target]) w).
Proof. unfold goto. cbn. destruct (gotoOk env); reflexivity. Qed.

Lemma run_title (env : Env) (w : World) :
  run (title env) w = if titleOk env then (Ok tt, w) else (Throw ProtocolError, w).
Proof. unfold title. cbn [run]. destruct (titleOk env); reflexivity. Qed.

Lemma run_close (env : Env) (h : Handle) (w : World) :
  run (close env h) w =
  if closeOk env h
  then (Ok tt, set_released (released w ++ [h]) (set_closeCalls (closeCalls w ++ [h]) w))
  else (Throw CloseFailure, set_closeCalls (closeCalls w ++ [h]) w).
Proof. unfold close. cbn. destruct (closeOk env h); reflexivity. Qed.

(** *** Computations that leave telemetry, handles and navigations alone *)

Lemma Quiet_ret {A : Type} (a : A) : Quiet (ret a).
Proof. intros w. reflexivity. Qed.

Lemma Quiet_throw {A : Type} (error : Error) : Quiet (throw error : Co World A).
Proof. intros w. reflexivity. Qed.

Lemma Quiet_bind {A B : Type} (m : Co World A) (f : A -> Co World B) :
  Quiet m -> (forall a, Quiet (f a)) -> Quiet (bind m f).
Proof.
  intros Hm Hf w. rewrite run_bind. specialize (Hm w).
  destruct (run m w) as [[a | error] w1]; cbn [snd] in *.
  - rewrite (Hf a w1). exact Hm.
  - exact Hm.
Qed.

Lemma Quiet_tryCatch {A : Type} (m : Co World A) (handler : Error -> Co World A) :
  Quiet m -> (forall error, Quiet (handler error)) -> Quiet (tryCatch m handler).
Proof.
  intros Hm Hh w. rewrite run_tryCatch. specialize (Hm w).
  destruct (run m w) as [[a | error] w1]; cbn [snd] in *.
  - exact Hm.
  - rewrite (Hh error w1). exact Hm.
Qed.

Lemma Quiet_if {A : Type} (b : bool) (m1 m2 : Co World A) :
  Quiet m1 -> Quiet m2 -> Quiet (if b then m1 else m2).
Proof. destruct b; auto. Qed.

Lemma Quiet_log (line : LogLine) : Quiet (log line).
Proof. intros w. reflexivity. Qed.

Lemma Quiet_delay (ms : N) : Quiet (delay ms).
Proof. intros w. reflexivity. Qed.

Lemma Quiet_click (element : Element) : Quiet (click element).
Proof. intros w. unfold click. cbn [run]. destruct (clickFails element); reflexivity. Qed.

Lemma Quiet_evaluate (element : Element) : Quiet (evaluate element).
Proof.
  intros w. unfold evaluate. cbn [run]. destruct (evaluateFails element); reflexivity.
Qed.

Lemma Quiet_querySelectorAll (env : Env) (selector : Selector) :
  Quiet (querySelectorAll env selector).
Proof.
  intros w. unfold querySelectorAll. cbn [run].
  destruct (queryFails env selector); reflexivity.
Qed.

Lemma Quiet_waitForBody (env : Env) : Quiet (waitForBody env).
Proof. intros w. unfold waitForBody. cbn [run]. destruct (bodyOk env); reflexivity. Qed.

Lemma Quiet_evaluateContent (env : Env) : Quiet (evaluateContent env).
Proof.
  intros w. unfold evaluateContent. cbn [run]. destruct (contentOk env); reflexivity.
Qed.

Create HintDb quiet.
#[export] Hint Resolve Quiet_ret Quiet_throw Quiet_log Quiet_delay Quiet_click
  Quiet_evaluate Quiet_querySelectorAll Quiet_waitForBody Quiet_evaluateContent : quiet.

(** Solves [Quiet] goals built from binds, handlers and conditionals. *)
Ltac quiet :=
  repeat first
    [ solve [auto with quiet]
    | apply Quiet_bind; [| intros ?]
    | apply Quiet_tryCatch; [| intros ?]
    | apply Quiet_if ].

Lemma Quiet_clickFirstThatWorks (elements : list Element) :
  Quiet (clickFirstThatWorks elements).
Proof.
  induction elements as [| element rest IH]; cbn [clickFirstThatWorks].
  - quiet.
  - unfold attempt. apply Quiet_bind; [quiet | intros [|]; [quiet | exact IH]].
Qed.

#[export] Hint Resolve Quiet_clickFirstThatWorks : quiet.

Lemma NoThrow_tryCatch {A : Type} (m : Co World A) (handler : Error -> Co World A) :
  (forall error, NoThrow (handler error)) -> NoThrow (tryCatch m handler).
Proof.
  intros Hh w. rewrite run_tryCatch.
  destruct (run m w) as [[a | error] w1].
  - exists a. reflexivity.
  - apply Hh.
Qed.

Lemma NoThrow_log_delay (line : LogLine) (ms : N) :
  NoThrow (bind (log line) (fun _ => delay ms)).
Proof. intros w. exists tt. reflexivity. Qed.

(** A quiet computation that cannot throw, run on [w]. *)
Lemma run_quiet_nothrow (m : Co World unit) (w : World) :
  Quiet m -> NoThrow m ->
  exists w', run m w = (Ok tt, w') /\ core w' = core w.
Proof.
  intros Hq Hn. specialize (Hq w). destruct (Hn w) as [[] Ha].
  destruct (run m w) as [r w'] eqn:E. cbn [fst snd] in *. subst r.
  exists w'. split; [reflexivity | exact Hq].
Qed.

(** *** Telemetry recorder *)

Lemma run_addClickRecord (env : Env) (data : ClickData) (w : World) :
  let record := mkClickRecord (globalClickCounter w) (clock w) data in
  let w1 := set_clickReportData (clickReportData w ++ [record]) w in
  run (addClickRecord env data) w =
  (Ok tt,
   if appendOk env
   then set_console (console w ++ [LOG_CSV_UPDATE (globalClickCounter w)])
          (set_dataCsv (appended (dataCsv w) record) w1)
   else set_console (console w ++ [LOG_CSV_ERROR_update TelemetryWriteError]) w1).
Proof.
  cbn zeta. unfold addClickRecord.
  rewrite run_bind, run_gets, run_bind, run_modify, run_tryCatch.
  rewrite run_bind, run_await. unfold updateCSVFile.
  rewrite run_bind, run_gets. unfold appendFile. cbn [run].
  destruct (appendOk env).
  - rewrite run_modify, run_bind, run_gets, run_log.
    unfold existsSync. cbn. destruct (dataCsv w); reflexivity.
  - rewrite run_throw, run_log. reflexivity.
Qed.

Lemma run_generateCSVReport (env : Env) (w : World) :
  run (generateCSVReport env) w =
  if writeOk env
  then (Ok tt,
        set_console (console w ++ [LOG_CSV_REPORT (length (clickReportData w))])
          (set_reportFiles (reportFiles w ++ [clickReportData w]) w))
  else (Throw TelemetryWriteError,
        set_console (console w ++ [LOG_CSV_ERROR_report TelemetryWriteError]) w).
Proof.
  unfold generateCSVReport.
  rewrite run_bind, run_gets, run_tryCatch, run_bind. unfold writeFile. cbn [run].
  destruct (writeOk env).
  - rewrite run_modify, run_bind, run_gets, run_log. reflexivity.
  - rewrite run_throw, run_bind, run_log, run_throw. reflexivity.
Qed.

End EngineFacts.

(** ** Session workers, run sequentially *)

Module WorkerFacts.
Import Async Engine AsyncFacts EngineFacts.
Local Open Scope nat_scope.
Local Open Scope list_scope.

(** One step of symbolic execution of [run]. *)
Ltac exec1 :=
  match goal with
  | |- context [run ?m ?s] =>
      lazymatch m with
      | bind ?a ?f => rewrite (run_bind a f s)
      | tryCatch ?a ?h => rewrite (run_tryCatch a h s)
      | tryFinally ?a ?f => rewrite (run_tryFinally a f s)
      | await ?a => rewrite (run_await a s)
      | scope ?l ?a => rewrite (run_scope a l s)
      | lift ?a => lazymatch s with (?w, ?l) => rewrite (run_lift a w l) end
      | getLocal ?f => lazymatch s with (?w, ?l) => rewrite (run_getLocal f w l) end
      | setLocal ?f => lazymatch s with (?w, ?l) => rewrite (run_setLocal f w l) end
      | swallow ?a => rewrite (run_swallow a s)
      | gets ?f => rewrite (run_gets f s)
      | modify ?f => rewrite (run_modify f s)
      | ret ?a => rewrite (run_ret a s)
      | throw ?e => rewrite (run_throw e s)
      | log ?l => rewrite (run_log l s)
      | delay ?n => rewrite (run_delay n s)
      | launch ?e => rewrite (run_launch e s)
      | newPage ?e ?b => rewrite (run_newPage e b s)
      | goto ?e ?t => rewrite (run_goto e t s)
      | title ?e => rewrite (run_title e s)
      | close ?e ?h => rewrite (run_close e h s)
      end
  end.

Ltac simpl_world :=
  cbn [fst snd Automated.page Automated.browser Bounded.page Bounded.browser
       globalClickCounter clickReportData dataCsv
       reportFiles completed activeConnections clock acquired closeCalls
       released navigations clicked console set_globalClickCounter
       set_clickReportData set_dataCsv set_reportFiles set_completed
       set_activeConnections set_clock set_acquired set_closeCalls
       set_released set_navigations set_clicked set_console closeOk
       Automated.closeIfSet Bounded.closeIfSet].

Ltac simpl_world_all :=
  cbn [fst snd Automated.page Automated.browser Bounded.page Bounded.browser
       globalClickCounter clickReportData dataCsv
       reportFiles completed activeConnections clock acquired closeCalls
       released navigations clicked console set_globalClickCounter
       set_clickReportData set_dataCsv set_reportFiles set_completed
       set_activeConnections set_clock set_acquired set_closeCalls
       set_released set_navigations set_clicked set_console closeOk
       Automated.closeIfSet Bounded.closeIfSet] in *.

Ltac exec := repeat first [ exec1 | progress simpl_world ].

(** Closes a failure case of a worker: the final state is explicit. *)
Ltac finish :=
  (eexists; split; [reflexivity |]);
  simpl_world; cbn [rev filter app andb negb closeOk];
  repeat match goal with
         | H : _ = true |- _ => rewrite H
         | H : _ = false |- _ => rewrite H
         end;
  cbn [rev filter app andb negb];
  rewrite ?Nat.add_0_r, ?length_app, <- ?app_assoc; cbn [length app];
  rewrite ?Nat.add_1_r, ?app_nil_r;
  repeat split; reflexivity.

(** *** [automated.js] *)

Section AutomatedWorker.
Import Automated.

Lemma Quiet_clickButtonWithText (env : Env) (searchText : string)
  (buttons : list Element) :
  Quiet (clickButtonWithText env searchText buttons).
Proof.
  induction buttons as [| b rest IH]; cbn [clickButtonWithText]; [quiet |].
  apply Quiet_bind; [quiet | intros _].
  destruct (strIncludes _ _); [quiet | exact IH].
Qed.

Lemma Quiet_trySelectors (env : Env) (selectors : list SubmitSelector) :
  Quiet (trySelectors env selectors).
Proof.
  induction selectors as [| s rest IH]; cbn [trySelectors]; [quiet |].
  apply Quiet_bind; [| intros [|]; [quiet | exact IH]].
  apply Quiet_tryCatch; [| intros; quiet].
  destruct s; cbn [trySelector]; apply Quiet_bind; try (intros ?); quiet.
  apply Quiet_clickButtonWithText.
Qed.

Lemma Quiet_tryFallbackSelectors (env : Env) (selectors : list Simple) :
  Quiet (tryFallbackSelectors env selectors).
Proof.
  induction selectors as [| s rest IH]; cbn [tryFallbackSelectors]; [quiet |].
  apply Quiet_bind; [quiet | intros els].
  apply Quiet_bind; [quiet | intros [|]; [quiet | exact IH]].
Qed.

Lemma Quiet_findAndClick (env : Env) : Quiet (findAndClick env).
Proof.
  unfold findAndClick.
  apply Quiet_bind; [apply Quiet_trySelectors | intros s1].
  apply Quiet_bind; [destruct s1; quiet; apply Quiet_tryFallbackSelectors | intros s2].
  destruct s2; quiet.
Qed.

Lemma Quiet_interact (env : Env) : Quiet (interact env).
Proof.
  unfold interact. apply Quiet_tryCatch; [| intros; quiet].
  apply Quiet_bind; [quiet | intros _].
  apply Quiet_bind; [apply Quiet_findAndClick | intros [|]]; quiet.
Qed.

Lemma NoThrow_interact (env : Env) : NoThrow (interact env).
Proof. unfold interact. apply NoThrow_tryCatch. intros e. apply NoThrow_log_delay. Qed.

(** [incrementClickCounter] rejects exactly when the periodic report is due
    and cannot be written; the click is counted and recorded either way. *)
Lemma run_incrementClickCounter (env : Env) (data : ClickData) (w : World) :
  exists w',
    run (incrementClickCounter env data) w =
      (if reportFails env w then Throw TelemetryWriteError else Ok true, w')
    /\ globalClickCounter w' = globalClickCounter w + 1
    /\ clickReportData w' =
       clickReportData w ++ [mkClickRecord (globalClickCounter w + 1) (clock w) data]
    /\ completed w' = completed w
    /\ acquired w' = acquired w /\ closeCalls w' = closeCalls w
    /\ released w' = released w /\ navigations w' = navigations w.
Proof.
  unfold incrementClickCounter, reportFails.
  rewrite run_bind, run_modify, run_bind, run_await, run_addClickRecord.
  cbn zeta.
  set (w1 := if appendOk env then _ else _).
  assert (H1 : globalClickCounter w1 = globalClickCounter w + 1
               /\ clickReportData w1 =
                  clickReportData w
                  ++ [mkClickRecord (globalClickCounter w + 1) (clock w) data]
               /\ completed w1 = completed w
               /\ acquired w1 = acquired w /\ closeCalls w1 = closeCalls w
               /\ released w1 = released w /\ navigations w1 = navigations w).
  { subst w1. destruct (appendOk env); cbn; repeat split; reflexivity. }
  clearbody w1. destruct H1 as (Hc & Hr & Hcomp & Ha & Hcc & Hrel & Hnav).
  rewrite run_bind, run_gets, run_bind, run_log, run_bind, run_gets.
  cbn [globalClickCounter set_console]. rewrite Hc.
  destruct ((globalClickCounter w + 1) mod 25 =? 0)%nat.
  - rewrite run_bind, run_await, run_generateCSVReport.
    destruct (writeOk env); cbn [andb negb].
    + rewrite run_bind, run_gets.
      cbn [globalClickCounter set_console set_reportFiles]. rewrite Hc.
      destruct ((globalClickCounter w + 1) mod 10 =? 0)%nat.
      * rewrite run_bind, run_delay, run_ret. eexists. split; [reflexivity |].
        cbn. repeat split; assumption.
      * rewrite run_bind, run_ret, run_ret. eexists. split; [reflexivity |].
        cbn. repeat split; assumption.
    + eexists. split; [reflexivity |]. cbn. repeat split; assumption.
  - rewrite run_bind, run_ret, run_bind, run_gets.
    cbn [globalClickCounter set_console andb]. rewrite Hc.
    destruct ((globalClickCounter w + 1) mod 10 =? 0)%nat.
    + rewrite run_bind, run_delay, run_ret. eexists. split; [reflexivity |].
      cbn. repeat split; assumption.
    + rewrite run_bind, run_ret, run_ret. eexists. split; [reflexivity |].
      cbn. repeat split; assumption.
Qed.

(** What one invocation of [createClickWorker] does to the shared state,
    on every path. *)
Lemma createClickWorker_spec (env : Env) (target : string) (i : nat) (w : World) :
  exists w',
    run (createClickWorker env target i) w = (Ok tt, w')
    /\ globalClickCounter w' = globalClickCounter w + (if reaches env then 1 else 0)
    /\ (if reaches env
        then exists r, clickReportData w' = clickReportData w ++ [r]
                       /\ clickNumber r = globalClickCounter w + 1
                       /\ url (clickData r) = target
        else clickReportData w' = clickReportData w)
    /\ completed w' =
       completed w + (if reaches env && negb (reportFails env w) then 1 else 0)
    /\ acquired w' = acquired w ++ newHandles env w
    /\ closeCalls w' = closeCalls w ++ rev (newHandles env w)
    /\ released w' = released w ++ filter (closeOk env) (rev (newHandles env w)).
Proof.
  unfold createClickWorker, reaches, newHandles.
  exec.
  destruct (launchOk env) eqn:El; exec; [| finish].
  destruct (newPageOk env) eqn:En; exec;
    [| destruct (browserCloseOk env) eqn:Ec; exec; finish].
  destruct (gotoOk env) eqn:Eg; exec;
    [| destruct (pageCloseOk env) eqn:Ep; exec;
       destruct (browserCloseOk env) eqn:Ec; exec; finish].
  destruct (titleOk env) eqn:Et; exec;
    [| destruct (pageCloseOk env) eqn:Ep; exec;
       destruct (browserCloseOk env) eqn:Ec; exec; finish].
  match goal with
  | |- context [run (interact env) ?W] =>
      destruct (run_quiet_nothrow (interact env) W (Quiet_interact env)
                  (NoThrow_interact env)) as (wi & Hi & Hcore)
  end.
  rewrite Hi; unfold core in Hcore; injection Hcore as H1 H2 H3 H4 H5 H6 H7 H8 H9 H10.
  simpl_world_all. exec.
  match goal with
  | |- context [run (incrementClickCounter env ?d) ?W] =>
      destruct (run_incrementClickCounter env d W)
        as (wc & Hc & Hcnt & Hrec & Hcomp & Hacq & Hcc & Hrel & Hnav)
  end.
  rewrite Hc. unfold reportFails. rewrite H1.
  destruct (((globalClickCounter w + 1) mod 25 =? 0)%nat && negb (writeOk env)) eqn:Erep;
    exec;
    destruct (pageCloseOk env) eqn:Ep; exec; destruct (browserCloseOk env) eqn:Ec; exec;
    (eexists; split; [reflexivity |]);
    simpl_world; cbn [rev filter app andb negb closeOk];
    rewrite ?Ep, ?Ec, ?Hcnt, ?Hcomp, ?Hacq, ?Hcc, ?Hrel, ?H1, ?H5, ?H7, ?H8, ?H9;
    rewrite ?Nat.add_0_r, ?length_app, <- ?app_assoc; cbn [length app];
    rewrite ?Nat.add_1_r, ?app_nil_r;
    (split; [reflexivity |]); (split; [| repeat split; reflexivity]);
    (eexists; rewrite Hrec, H2;
     split; [reflexivity | split; [cbn; rewrite H1; lia | reflexivity]]).
Qed.

(** A session navigates once, to its target, when it has obtained a page. *)
Lemma createClickWorker_navigations (env : Env) (target : string) (i : nat) (w : World) :
  navigations (snd (run (createClickWorker env target i) w))
  = navigations w ++ (if launchOk env && newPageOk env then [target] else []).
Proof.
  unfold createClickWorker.
  exec.
  destruct (launchOk env) eqn:El; exec; [| cbn [andb]; rewrite app_nil_r; reflexivity].
  destruct (newPageOk env) eqn:En; exec;
    [| destruct (browserCloseOk env) eqn:Ec; exec; cbn [andb]; rewrite app_nil_r;
       reflexivity].
  cbn [andb].
  destruct (gotoOk env) eqn:Eg; exec;
    [| destruct (pageCloseOk env) eqn:Ep; exec;
       destruct (browserCloseOk env) eqn:Ec; exec; reflexivity].
  destruct (titleOk env) eqn:Et; exec;
    [| destruct (pageCloseOk env) eqn:Ep; exec;
       destruct (browserCloseOk env) eqn:Ec; exec; reflexivity].
  match goal with
  | |- context [run (interact env) ?W] =>
      destruct (run_quiet_nothrow (interact env) W (Quiet_interact env)
                  (NoThrow_interact env)) as (wi & Hi & Hcore)
  end.
  rewrite Hi; unfold core in Hcore; injection Hcore as H1 H2 H3 H4 H5 H6 H7 H8 H9 H10.
  simpl_world_all. exec.
  match goal with
  | |- context [run (incrementClickCounter env ?d) ?W] =>
      destruct (run_incrementClickCounter env d W)
        as (wc & Hc & Hcnt & Hrec & Hcomp & Hacq & Hcc & Hrel & Hnav)
  end.
  rewrite Hc.
  destruct (reportFails env wi) eqn:Erep;
    exec;
    destruct (pageCloseOk env) eqn:Ep; exec; destruct (browserCloseOk env) eqn:Ec; exec;
    rewrite Hnav, H10; reflexivity.
Qed.

(** One pass over the URL list: the sessions run one after the other. *)
Lemma run_processUrls (envs : nat -> nat -> nat -> Env) (targets : list string)
  (batchCount urlIndex : nat) (w : World) :
  exists w',
    run (processUrls envs targets batchCount urlIndex) w = (Ok tt, w')
    /\ navigations w' =
       navigations w ++ sessionsSuchThat opensPage envs targets batchCount urlIndex
    /\ recordedUrls w' =
       recordedUrls w ++ sessionsSuchThat reaches envs targets batchCount urlIndex.
Proof.
  revert urlIndex w. induction targets as [| target rest IH]; intros urlIndex w;
    cbn [processUrls sessionsSuchThat].
  - exec. eexists. split; [reflexivity |]. rewrite !app_nil_r. split; reflexivity.
  - unfold openEnhancedTabs. cbn [clickLoop]. exec.
    match goal with
    | |- context [run (createClickWorker ?e ?t ?i) ?W] =>
        pose proof (createClickWorker_navigations e t i W) as Hnav;
        destruct (createClickWorker_spec e t i W) as (w1 & Hrun & _ & Hrec & _)
    end.
    rewrite Hrun in *. simpl_world_all. exec.
    destruct (IH (urlIndex + 1) w1) as (w2 & Hrun2 & Hnav2 & Hrec2).
    exists w2. split; [exact Hrun2 |]. split.
    + rewrite Hnav2, Hnav, <- app_assoc. reflexivity.
    + rewrite Hrec2, app_assoc. f_equal. unfold recordedUrls.
      destruct (reaches (envs batchCount urlIndex 0)).
      * destruct Hrec as (r & -> & _ & Hurl). rewrite map_app. cbn [map].
        rewrite Hurl. reflexivity.
      * rewrite Hrec, app_nil_r. reflexivity.
Qed.


End AutomatedWorker.

(** *** The bounded script *)

Section BoundedWorker.
Import Bounded.

Variable MAX_CLICKS : nat.

Lemma Quiet_clickElementWithText (env : Env) (searchText : string)
  (elements : list Element) :
  Quiet (clickElementWithText env searchText elements).
Proof.
  induction elements as [| e rest IH]; cbn [clickElementWithText]; [quiet |].
  apply Quiet_bind; [quiet | intros _].
  destruct (textMatches env e searchText); [quiet | exact IH].
Qed.

Lemma Quiet_clickFirstElement (elements : list Element) :
  Quiet (clickFirstElement elements).
Proof. destruct elements; cbn [clickFirstElement]; quiet. Qed.

Lemma Quiet_bounded_trySelectors (env : Env) (selectors : list SubmitSelector) :
  Quiet (trySelectors env selectors).
Proof.
  induction selectors as [| s rest IH]; cbn [trySelectors]; [quiet |].
  apply Quiet_bind; [| intros [|]; [quiet | exact IH]].
  apply Quiet_tryCatch; [| intros; quiet].
  destruct s; cbn [trySelector]; apply Quiet_bind; try (intros ?); quiet.
  - apply Quiet_clickFirstElement.
  - apply Quiet_clickElementWithText.
Qed.

Lemma Quiet_bounded_interact (env : Env) : Quiet (interact env).
Proof.
  unfold interact. apply Quiet_tryCatch; [| intros; quiet].
  apply Quiet_bind; [quiet | intros _].
  apply Quiet_bind; [| intros [|]; quiet].
  unfold findAndClick.
  apply Quiet_bind; [apply Quiet_bounded_trySelectors | intros [|]; quiet].
  apply Quiet_clickFirstElement.
Qed.

Lemma NoThrow_bounded_interact (env : Env) : NoThrow (interact env).
Proof. unfold interact. apply NoThrow_tryCatch. intros e. apply NoThrow_log_delay. Qed.

Lemma run_bounded_incrementClickCounter (env : Env) (data : ClickData) (w : World) :
  exists w',
    run (incrementClickCounter MAX_CLICKS env data) w = (budgetOutcome MAX_CLICKS env w, w')
    /\ globalClickCounter w' = globalClickCounter w + 1
    /\ clickReportData w' =
       clickReportData w ++ [mkClickRecord (globalClickCounter w + 1) (clock w) data]
    /\ completed w' = completed w
    /\ activeConnections w' = activeConnections w
    /\ acquired w' = acquired w /\ closeCalls w' = closeCalls w
    /\ released w' = released w /\ navigations w' = navigations w.
Proof.
  unfold incrementClickCounter, budgetOutcome.
  rewrite run_bind, run_modify, run_bind, run_await, run_addClickRecord.
  cbn zeta.
  set (w1 := if appendOk env then _ else _).
  assert (H1 : globalClickCounter w1 = globalClickCounter w + 1
               /\ clickReportData w1 =
                  clickReportData w
                  ++ [mkClickRecord (globalClickCounter w + 1) (clock w) data]
               /\ completed w1 = completed w /\ activeConnections w1 = activeConnections w
               /\ acquired w1 = acquired w /\ closeCalls w1 = closeCalls w
               /\ released w1 = released w /\ navigations w1 = navigations w).
  { subst w1. destruct (appendOk env); cbn; repeat split; reflexivity. }
  clearbody w1. destruct H1 as (Hc & Hr & Hcomp & Hact & Ha & Hcc & Hrel & Hnav).
  rewrite run_bind, run_gets, run_bind, run_log, run_bind, run_gets.
  cbn [globalClickCounter set_console]. rewrite Hc.
  destruct (MAX_CLICKS <=? globalClickCounter w + 1)%nat.
  - rewrite run_bind, run_await, run_generateCSVReport.
    destruct (writeOk env); [rewrite run_ret |];
      (eexists; split; [reflexivity |]); cbn; repeat split; assumption.
  - rewrite run_ret. eexists; split; [reflexivity |]. cbn. repeat split; assumption.
Qed.

(** What one invocation of [createTabWorker] does to the shared state, on
    every path. *)
Lemma createTabWorker_spec (env : Env) (target : string) (i : nat) (w : World) :
  exists w',
    run (createTabWorker MAX_CLICKS env target i) w = (Ok tt, w')
    /\ globalClickCounter w' = globalClickCounter w + (if reaches env then 1 else 0)
    /\ (if reaches env
        then exists r, clickReportData w' = clickReportData w ++ [r]
                       /\ clickNumber r = globalClickCounter w + 1
                       /\ url (clickData r) = target
        else clickReportData w' = clickReportData w)
    /\ completed w' = completed w + (if counted MAX_CLICKS env w then 1 else 0)
    /\ acquired w' = acquired w ++ newHandles env w
    /\ closeCalls w' = closeCalls w ++ rev (newHandles env w)
    /\ released w' = released w ++ filter (closeOk env) (rev (newHandles env w)).
Proof.
  unfold createTabWorker, counted, reaches, newHandles.
  exec.
  destruct (launchOk env) eqn:El; exec; [| finish].
  destruct (newPageOk env) eqn:En; exec;
    [| destruct (browserCloseOk env) eqn:Ec; exec; finish].
  destruct (gotoOk env) eqn:Eg; exec;
    [| destruct (pageCloseOk env) eqn:Ep; exec;
       destruct (browserCloseOk env) eqn:Ec; exec; finish].
  destruct (titleOk env) eqn:Et; exec;
    [| destruct (pageCloseOk env) eqn:Ep; exec;
       destruct (browserCloseOk env) eqn:Ec; exec; finish].
  match goal with
  | |- context [run (interact env) ?W] =>
      destruct (run_quiet_nothrow (interact env) W (Quiet_bounded_interact env)
                  (NoThrow_bounded_interact env)) as (wi & Hi & Hcore)
  end.
  rewrite Hi; unfold core in Hcore; injection Hcore as H1 H2 H3 H4 H5 H6 H7 H8 H9 H10.
  simpl_world_all. exec.
  match goal with
  | |- context [run (incrementClickCounter MAX_CLICKS env ?d) ?W] =>
      destruct (run_bounded_incrementClickCounter env d W)
        as (wc & Hc & Hcnt & Hrec & Hcomp & Hact & Hacq & Hcc & Hrel & Hnav)
  end.
  rewrite Hc. unfold budgetOutcome. rewrite H1.
  assert (EM' : (globalClickCounter w + 1 <? MAX_CLICKS)%nat
                = negb (MAX_CLICKS <=? globalClickCounter w + 1)%nat)
    by (rewrite Nat.leb_antisym, Bool.negb_involutive; reflexivity).
  rewrite EM'.
  destruct (MAX_CLICKS <=? globalClickCounter w + 1)%nat eqn:EM;
    [destruct (writeOk env) eqn:Ew |];
    exec;
    destruct (pageCloseOk env) eqn:Ep; exec; destruct (browserCloseOk env) eqn:Ec; exec;
    (eexists; split; [reflexivity |]);
    simpl_world; cbn [rev filter app andb negb closeOk];
    rewrite ?Ep, ?Ec, ?Hcnt, ?Hcomp, ?Hacq, ?Hcc, ?Hrel, ?H1, ?H5, ?H7, ?H8, ?H9;
    rewrite ?Nat.add_0_r, ?length_app, <- ?app_assoc; cbn [length app];
    rewrite ?Nat.add_1_r, ?app_nil_r;
    (split; [reflexivity |]); (split; [| repeat split; reflexivity]);
    (eexists; rewrite Hrec, H2;
     split; [reflexivity | split; [cbn; rewrite H1; lia | reflexivity]]).
Qed.

End BoundedWorker.

End WorkerFacts.

(** ** The search for something to click, as a walk down a list of candidates *)

Module StrategyFacts.
Import Async Engine AsyncFacts EngineFacts WorkerFacts Strategy.
Local Open Scope nat_scope.
Local Open Scope list_scope.

Lemma run_evaluate (e : Element) (w : World) :
  run (evaluate e) w = (if evaluateFails e then Throw ProtocolError else Ok tt, w).
Proof. unfold evaluate. cbn [run]. destruct (evaluateFails e); reflexivity. Qed.

Lemma run_click (e : Element) (w : World) :
  run (click e) w =
  if clickFails e then (Throw ClickFailure, w)
  else (Ok tt, set_clicked (clicked w ++ [e]) w).
Proof. unfold click. cbn [run]. destruct (clickFails e); reflexivity. Qed.

Lemma run_querySelectorAll (env : Env) (selector : Selector) (w : World) :
  run (querySelectorAll env selector) w =
  if queryFails env selector then (Throw ProtocolError, w)
  else (Ok (select env selector), w).
Proof. unfold querySelectorAll. cbn [run]. destruct (queryFails env selector); reflexivity. Qed.

Lemma run_waitForBody (env : Env) (w : World) :
  run (waitForBody env) w = (if bodyOk env then Ok tt else Throw ProtocolError, w).
Proof. unfold waitForBody. cbn [run]. destruct (bodyOk env); reflexivity. Qed.

Lemma run_evaluateContent (env : Env) (w : World) :
  run (evaluateContent env) w = (if contentOk env then Ok tt else Throw ProtocolError, w).
Proof. unfold evaluateContent. cbn [run]. destruct (contentOk env); reflexivity. Qed.

Lemma run_try (m : Co World bool) (w : World) :
  run (tryCatch m (fun _ => ret false)) w = (Ok (fst (caught (run m w))), snd (caught (run m w))).
Proof. rewrite run_tryCatch. destruct (run m w) as [[b | error] w']; reflexivity. Qed.

(** *** Walks down a list of candidates *)

Lemma attempts_app (l1 l2 : list Element) (w : World) :
  attempts (l1 ++ l2) w =
  if fst (attempts l1 w) then attempts l1 w else attempts l2 (snd (attempts l1 w)).
Proof.
  revert w. induction l1 as [| e rest IH]; intros w; cbn [attempts app fst snd].
  - reflexivity.
  - destruct (evaluateFails e); [apply IH |].
    destruct (clickFails e); [apply IH | reflexivity].
Qed.

Lemma attempts_found (l : list Element) (w : World) :
  fst (attempts l w) = isSome (find attemptResolves l).
Proof.
  revert w. induction l as [| e rest IH]; intros w; cbn [attempts find]; [reflexivity |].
  unfold attemptResolves at 1.
  destruct (evaluateFails e); cbn [negb andb]; [apply IH |].
  destruct (clickFails e); cbn [negb]; [apply IH | reflexivity].
Qed.

Lemma attempts_clicked (l : list Element) (w : World) :
  clicked (snd (attempts l w)) = clicked w ++ toList (find attemptResolves l).
Proof.
  revert w. induction l as [| e rest IH]; intros w; cbn [attempts find].
  - cbn. rewrite app_nil_r. reflexivity.
  - unfold attemptResolves at 1.
    destruct (evaluateFails e); cbn [negb andb]; [apply IH |].
    destruct (clickFails e); cbn [negb]; [rewrite IH; reflexivity | reflexivity].
Qed.

Lemma attempts_console (l : list Element) (w : World) :
  console (snd (attempts l w)) = console w.
Proof.
  revert w. induction l as [| e rest IH]; intros w; cbn [attempts]; [reflexivity |].
  destruct (evaluateFails e); [apply IH |].
  destruct (clickFails e); [rewrite IH; reflexivity | reflexivity].
Qed.

Lemma attempts_clock (l : list Element) (w : World) :
  (clock w <= clock (snd (attempts l w)))%N.
Proof.
  revert w. induction l as [| e rest IH]; intros w; cbn [attempts]; [cbn; lia |].
  destruct (evaluateFails e); [apply IH |].
  destruct (clickFails e); [| cbn; lia].
  specialize (IH (set_clock (clock w + 1000)%N w)). cbn [clock set_clock] in IH. lia.
Qed.

Lemma presses_app (l1 l2 : list Element) (w : World) :
  presses (l1 ++ l2) w =
  if fst (presses l1 w) then presses l1 w else presses l2 (snd (presses l1 w)).
Proof.
  revert w. induction l1 as [| e rest IH]; intros w; cbn [presses app fst snd].
  - reflexivity.
  - destruct (clickFails e); [apply IH | reflexivity].
Qed.

Lemma presses_found (l : list Element) (w : World) :
  fst (presses l w) = isSome (find clickResolves l).
Proof.
  revert w. induction l as [| e rest IH]; intros w; cbn [presses find]; [reflexivity |].
  unfold clickResolves at 1. destruct (clickFails e); cbn [negb]; [apply IH | reflexivity].
Qed.

Lemma presses_clicked (l : list Element) (w : World) :
  clicked (snd (presses l w)) = clicked w ++ toList (find clickResolves l).
Proof.
  revert w. induction l as [| e rest IH]; intros w; cbn [presses find].
  - cbn. rewrite app_nil_r. reflexivity.
  - unfold clickResolves at 1. destruct (clickFails e); cbn [negb]; [apply IH | reflexivity].
Qed.

Lemma presses_console (l : list Element) (w : World) :
  console (snd (presses l w)) = console w.
Proof.
  revert w. induction l as [| e rest IH]; intros w; cbn [presses]; [reflexivity |].
  destruct (clickFails e); [apply IH | reflexivity].
Qed.

Lemma presses_clock (l : list Element) (w : World) :
  clock (snd (presses l w)) = clock w.
Proof.
  revert w. induction l as [| e rest IH]; intros w; cbn [presses]; [reflexivity |].
  destruct (clickFails e); [apply IH | reflexivity].
Qed.

(** *** [automated.js] *)

Section AutomatedSearch.
Import Automated.

Lemma run_clickFirstThatWorks (elements : list Element) (w : World) :
  run (clickFirstThatWorks elements) w
  = (Ok (fst (attempts elements w)), snd (attempts elements w)).
Proof.
  revert w. induction elements as [| e rest IH]; intros w;
    cbn [clickFirstThatWorks attempts]; [reflexivity |].
  unfold attempt.
  rewrite run_bind, run_tryCatch, run_bind, run_bind, run_evaluate.
  destruct (evaluateFails e) eqn:E; [rewrite run_ret; apply IH |].
  rewrite run_bind, run_evaluate, E, run_bind, run_delay, run_click.
  destruct (clickFails e); rewrite run_ret; [apply IH | reflexivity].
Qed.

Lemma run_clickButtonWithText (env : Env) (searchText : string)
  (buttons : list Element) (w : World) :
  caught (run (clickButtonWithText env searchText buttons) w)
  = attempts (firstWithText (textIncludes env searchText) buttons) w.
Proof.
  induction buttons as [| b rest IH]; cbn [clickButtonWithText firstWithText];
    [reflexivity |].
  rewrite run_bind, run_evaluate. destruct (evaluateFails b) eqn:E; [reflexivity |].
  unfold textIncludes at 1.
  destruct (strIncludes (buttonText env b) searchText); [| exact IH].
  cbn [attempts]. rewrite E.
  rewrite run_bind, run_evaluate, E, run_bind, run_delay, run_bind, run_click.
  destruct (clickFails b); reflexivity.
Qed.

Lemma run_trySelector (env : Env) (selector : SubmitSelector) (w : World) :
  caught (run (trySelector env selector) w) = attempts (automatedCandidates env selector) w.
Proof.
  destruct selector as [simple | text]; cbn [trySelector automatedCandidates];
    unfold resolved; rewrite run_bind, run_querySelectorAll;
    destruct (queryFails env _); try reflexivity.
  - rewrite run_clickFirstThatWorks. cbn [caught]. symmetry. apply surjective_pairing.
  - apply run_clickButtonWithText.
Qed.

Lemma run_trySelectors (env : Env) (selectors : list SubmitSelector) (w : World) :
  run (trySelectors env selectors) w
  = (Ok (fst (attempts (flat_map (automatedCandidates env) selectors) w)),
     snd (attempts (flat_map (automatedCandidates env) selectors) w)).
Proof.
  revert w. induction selectors as [| s rest IH]; intros w;
    cbn [trySelectors flat_map]; [reflexivity |].
  rewrite run_bind, run_try, run_trySelector, attempts_app.
  destruct (attempts (automatedCandidates env s) w) as [[|] w1]; cbn [fst snd];
    [reflexivity | apply IH].
Qed.

Lemma run_tryFallbackSelectors (env : Env) (selectors : list Simple) (w : World) :
  caught (run (tryFallbackSelectors env selectors) w)
  = attempts (untilRejected env selectors) w.
Proof.
  revert w. induction selectors as [| s rest IH]; intros w;
    cbn [tryFallbackSelectors untilRejected]; [reflexivity |].
  rewrite run_bind, run_querySelectorAll.
  destruct (queryFails env [s]); [reflexivity |].
  rewrite run_bind, run_clickFirstThatWorks, attempts_app.
  destruct (attempts (select env [s]) w) as [[|] w1]; cbn [fst snd];
    [reflexivity | apply IH].
Qed.

Lemma run_findAndClick (env : Env) (w : World) :
  run (findAndClick env) w
  = (Ok (fst (attempts (automatedOrder env) w)), snd (attempts (automatedOrder env) w)).
Proof.
  unfold findAndClick, automatedOrder.
  rewrite run_bind, run_trySelectors, attempts_app.
  destruct (attempts (flat_map (automatedCandidates env) submitSelectors) w)
    as [[|] w1]; cbn [fst snd].
  - rewrite run_bind, run_ret, run_ret. reflexivity.
  - rewrite run_bind, run_try, run_tryFallbackSelectors, attempts_app.
    destruct (attempts (untilRejected env fallbackSelectors) w1) as [[|] w2];
      cbn [fst snd].
    + rewrite run_ret. reflexivity.
    + rewrite run_try, run_bind, run_querySelectorAll. unfold resolved.
      destruct (queryFails env anyClickableSelector); [reflexivity |].
      rewrite run_clickFirstThatWorks. cbn [caught fst snd]. reflexivity.
Qed.

Lemma findAndClick_selects : SelectsBy automatedOrder attemptResolves findAndClick.
Proof.
  intros env w. rewrite run_findAndClick. cbn [fst snd].
  rewrite attempts_found, attempts_clicked. split; reflexivity.
Qed.

Lemma interact_clicked (env : Env) (w : World) :
  bodyOk env = true ->
  clicked (snd (run (interact env) w))
  = clicked w ++ toList (find attemptResolves (automatedOrder env))
  /\ (find attemptResolves (automatedOrder env) = None ->
      SoftFailure 25000 w (snd (run (interact env) w))).
Proof.
  intros Hb. unfold interact.
  rewrite run_tryCatch, run_bind, run_waitForBody, Hb, run_bind, run_findAndClick.
  pose proof (attempts_found (automatedOrder env) w) as Hf.
  pose proof (attempts_clicked (automatedOrder env) w) as Hc.
  pose proof (attempts_console (automatedOrder env) w) as Hl.
  pose proof (attempts_clock (automatedOrder env) w) as Hk.
  destruct (attempts (automatedOrder env) w) as [b w1]. cbn [fst snd] in *.
  destruct (find attemptResolves (automatedOrder env)) as [e |]; cbn [isSome] in Hf;
    subst b.
  - split; [| discriminate].
    destruct (contentOk env) eqn:Ec; destruct (isLoading env) eqn:Ei;
      repeat first [ rewrite run_bind | rewrite run_delay | rewrite run_log
                   | rewrite run_ret | rewrite run_evaluateContent, Ec ];
      cbn; exact Hc.
  - rewrite run_bind, run_log, run_delay. cbn [snd].
    split; [cbn; exact Hc |]. intros _. unfold SoftFailure. cbn.
    rewrite app_nil_r in Hc. rewrite Hc, Hl. repeat split; try reflexivity. lia.
Qed.

End AutomatedSearch.

(** *** The bounded script *)

Section BoundedSearch.
Import Bounded.

Lemma run_clickElementWithText (env : Env) (searchText : string)
  (elements : list Element) (w : World) :
  caught (run (clickElementWithText env searchText elements) w)
  = presses (firstWithText (fun e => textMatches env e searchText) elements) w.
Proof.
  induction elements as [| e rest IH]; cbn [clickElementWithText firstWithText];
    [reflexivity |].
  rewrite run_bind, run_evaluate. destruct (evaluateFails e); [reflexivity |].
  destruct (textMatches env e searchText); [| exact IH].
  cbn [presses]. rewrite run_bind, run_click.
  destruct (clickFails e); reflexivity.
Qed.

Lemma run_clickFirstElement (elements : list Element) (w : World) :
  caught (run (clickFirstElement elements) w) = presses (firstn 1 elements) w.
Proof.
  destruct elements as [| e rest]; cbn [clickFirstElement firstn presses]; [reflexivity |].
  rewrite run_bind, run_click. destruct (clickFails e); reflexivity.
Qed.

Lemma run_bounded_trySelector (env : Env) (selector : SubmitSelector) (w : World) :
  caught (run (trySelector env selector) w) = presses (boundedCandidates env selector) w.
Proof.
  destruct selector as [simple | text]; cbn [trySelector boundedCandidates];
    unfold resolved; rewrite run_bind, run_querySelectorAll;
    destruct (queryFails env _); try reflexivity.
  - apply run_clickFirstElement.
  - apply run_clickElementWithText.
Qed.

Lemma run_bounded_trySelectors (env : Env) (selectors : list SubmitSelector) (w : World) :
  run (trySelectors env selectors) w
  = (Ok (fst (presses (flat_map (boundedCandidates env) selectors) w)),
     snd (presses (flat_map (boundedCandidates env) selectors) w)).
Proof.
  revert w. induction selectors as [| s rest IH]; intros w;
    cbn [trySelectors flat_map]; [reflexivity |].
  rewrite run_bind, run_try, run_bounded_trySelector, presses_app.
  destruct (presses (boundedCandidates env s) w) as [[|] w1]; cbn [fst snd];
    [reflexivity | apply IH].
Qed.

Lemma run_bounded_findAndClick (env : Env) (w : World) :
  run (findAndClick env) w
  = (Ok (fst (presses (boundedOrder env) w)), snd (presses (boundedOrder env) w)).
Proof.
  unfold findAndClick, boundedOrder.
  rewrite run_bind, run_bounded_trySelectors, presses_app.
  destruct (presses (flat_map (boundedCandidates env) submitSelectors) w)
    as [[|] w1]; cbn [fst snd].
  - rewrite run_ret. reflexivity.
  - rewrite run_try, run_bind, run_querySelectorAll. unfold resolved.
    destruct (queryFails env clickableSelector); [reflexivity |].
    rewrite run_clickFirstElement. reflexivity.
Qed.

Lemma bounded_findAndClick_selects : SelectsBy boundedOrder clickResolves findAndClick.
Proof.
  intros env w. rewrite run_bounded_findAndClick. cbn [fst snd].
  rewrite presses_found, presses_clicked. split; reflexivity.
Qed.

Lemma bounded_interact_clicked (env : Env) (w : World) :
  bodyOk env = true ->
  clicked (snd (run (interact env) w))
  = clicked w ++ toList (find clickResolves (boundedOrder env))
  /\ (find clickResolves (boundedOrder env) = None ->
      SoftFailure 15000 w (snd (run (interact env) w))).
Proof.
  intros Hb. unfold interact.
  rewrite run_tryCatch, run_bind, run_waitForBody, Hb, run_bind, run_bounded_findAndClick.
  pose proof (presses_found (boundedOrder env) w) as Hf.
  pose proof (presses_clicked (boundedOrder env) w) as Hc.
  pose proof (presses_console (boundedOrder env) w) as Hl.
  pose proof (presses_clock (boundedOrder env) w) as Hk.
  destruct (presses (boundedOrder env) w) as [b w1]. cbn [fst snd] in *.
  destruct (find clickResolves (boundedOrder env)) as [e |]; cbn [isSome] in Hf;
    subst b.
  - split; [| discriminate].
    destruct (contentOk env) eqn:Ec;
      repeat first [ rewrite run_bind | rewrite run_delay | rewrite run_log
                   | rewrite run_ret | rewrite run_evaluateContent, Ec ];
      cbn; exact Hc.
  - rewrite run_bind, run_log, run_delay. cbn [snd].
    split; [cbn; exact Hc |]. intros _. unfold SoftFailure. cbn.
    rewrite app_nil_r in Hc. rewrite Hc, Hl, Hk. repeat split; try reflexivity; lia.
Qed.

End BoundedSearch.

End StrategyFacts.
(** ** Interleaved completions *)

Module PoolFacts.
Import Async Engine Pool.
Local Open Scope nat_scope.
Local Open Scope list_scope.

Section Tasks.

Context {A : Type}.

Lemma Forall2_nth_error (pool : list (Co World A)) (pendings : list bool)
  (i : nat) (m : Co World A) :
  Forall2 Good pool pendings -> nth_error pool i = Some m ->
  exists p, nth_error pendings i = Some p /\ Good m p.
Proof.
  intros H. revert i. induction H as [| m0 p0 pool' pendings' Hg H IH]; intros i Hi.
  - destruct i; discriminate.
  - destruct i as [| k]; cbn [nth_error] in *.
    + injection Hi as <-. exists p0. split; [reflexivity | exact Hg].
    + apply IH. exact Hi.
Qed.

Lemma Forall2_replace (pool : list (Co World A)) (pendings : list bool)
  (i : nat) (m : Co World A) (p : bool) :
  Forall2 Good pool pendings -> Good m p ->
  Forall2 Good (replace i m pool) (replace i p pendings).
Proof.
  intros H Hg. revert i. induction H as [| m0 p0 pool' pendings' Hg0 H IH]; intros i.
  - destruct i; constructor.
  - destruct i as [| k]; cbn [replace]; constructor; auto.
Qed.

Lemma pendingCount_replace_done (pendings : list bool) (i : nat) :
  nth_error pendings i = Some true ->
  pendingCount (replace i false pendings) + 1 = pendingCount pendings.
Proof.
  unfold pendingCount. revert i.
  induction pendings as [| p rest IH]; intros i Hi; [destruct i; discriminate |].
  destruct i as [| k]; cbn [nth_error replace] in *.
  - injection Hi as ->. cbn. lia.
  - specialize (IH k Hi). destruct p; cbn [filter length]; lia.
Qed.

Lemma replace_same {X : Type} (l : list X) (i : nat) (x : X) :
  nth_error l i = Some x -> replace i x l = l.
Proof.
  revert i. induction l as [| y rest IH]; intros i Hi; [destruct i; discriminate |].
  destruct i as [| k]; cbn [nth_error replace] in *.
  - injection Hi as ->. reflexivity.
  - f_equal. apply IH. exact Hi.
Qed.

Lemma Harmless_unsettled (m : Co World A) :
  Harmless m -> settled m = false ->
  (forall w, ledger (fst (advance m w)) = ledger w)
  /\ (forall w, Harmless (snd (advance m w))).
Proof.
  intros H Hs. destruct H as [r | m H1 H2]; [discriminate |]. split; assumption.
Qed.

(** One turn of the event loop preserves the invariant. *)
Lemma turn_Inv (c0 : nat) (recs0 : list ClickRecord) (n i : nat)
  (pool pool' : list (Co World A)) (w w' : World) :
  Inv c0 recs0 n pool w -> turn i pool w = Some (w', pool') -> Inv c0 recs0 n pool' w'.
Proof.
  intros (pendings & news & Hgood & Hcount & Hle & Hrecs & Hnums) Hturn.
  unfold turn in Hturn.
  destruct (nth_error pool i) as [m |] eqn:Hm; [| discriminate].
  destruct (settled m) eqn:Hs; [discriminate |].
  destruct (advance m w) as [w1 m1] eqn:Hadv. injection Hturn as <- <-.
  destruct (Forall2_nth_error pool pendings i m Hgood Hm) as (p & Hp & Hg).
  destruct p; cbn [Good] in Hg.
  - destruct Hg as [_ Hrec]. destruct (Hrec w) as (r & Hc & Hr & Hn & Hh).
    rewrite Hadv in *. cbn [fst snd] in *.
    exists (replace i false pendings), (news ++ [r]).
    split; [apply Forall2_replace; assumption |].
    pose proof (pendingCount_replace_done pendings i Hp) as Hpc.
    split; [lia |]. split; [lia |].
    split; [rewrite Hr, Hrecs, app_assoc; reflexivity |].
    rewrite map_app, Hnums, Hc. cbn [map]. rewrite Hn.
    replace (globalClickCounter w + 1 - c0) with (S (globalClickCounter w - c0)) by lia.
    rewrite seq_S. f_equal. f_equal. lia.
  - destruct (Harmless_unsettled m Hg Hs) as [Hl Hh].
    specialize (Hl w). specialize (Hh w). rewrite Hadv in *. cbn [fst snd] in *.
    unfold ledger in Hl. injection Hl as Hc Hr.
    exists pendings, news.
    split.
    + rewrite <- (replace_same pendings i false Hp).
      apply Forall2_replace; assumption.
    + rewrite Hc, Hr. repeat split; assumption.
Qed.

Lemma runSchedule_Inv (c0 : nat) (recs0 : list ClickRecord) (n : nat)
  (schedule : list nat) (pool pool' : list (Co World A)) (w w' : World) :
  Inv c0 recs0 n pool w -> runSchedule schedule pool w = Some (w', pool') ->
  Inv c0 recs0 n pool' w'.
Proof.
  revert pool w. induction schedule as [| i rest IH]; intros pool w HI Hrun;
    cbn [runSchedule] in Hrun.
  - injection Hrun as <- <-. exact HI.
  - destruct (turn i pool w) as [[w1 pool1] |] eqn:Hturn; [| discriminate].
    apply (IH pool1 w1); [| exact Hrun].
    apply (turn_Inv c0 recs0 n i pool pool1 w w1); assumption.
Qed.

Lemma allSettled_no_pending (pool : list (Co World A)) (pendings : list bool) :
  Forall2 Good pool pendings -> allSettled pool = true -> pendingCount pendings = 0.
Proof.
  unfold allSettled, pendingCount.
  intros H. induction H as [| m p pool' pendings' Hg H IH]; intros Hs; [reflexivity |].
  cbn [forallb] in Hs. apply andb_true_iff in Hs as [Hm Hrest].
  destruct p; cbn [Good] in Hg.
  - destruct Hg as [Hu _]. congruence.
  - cbn [filter]. apply IH. exact Hrest.
Qed.

Lemma Inv_start (pool : list (Co World A)) (w : World) :
  Forall Recording pool ->
  Inv (globalClickCounter w) (clickReportData w) (length pool) pool w.
Proof.
  intros H. exists (map (fun _ => true) pool), [].
  split; [| split; [| split; [| split]]].
  - induction H; cbn [map]; constructor; assumption.
  - unfold pendingCount. f_equal.
    induction pool; cbn [map filter length]; [reflexivity |].
    f_equal. apply IHpool. inversion H; assumption.
  - lia.
  - rewrite app_nil_r. reflexivity.
  - rewrite Nat.sub_diag. reflexivity.
Qed.

End Tasks.

Ltac split_ifs :=
  repeat (match goal with
          | |- context [if ?b then _ else _] => destruct b eqn:?
          end; cbn -[Nat.modulo Nat.eqb Nat.leb]).

(** Proves a task harmless by following it turn by turn. *)
Ltac harmless :=
  first
    [ apply Harmless_settled
    | apply Harmless_turn; intros ?w; cbn -[Nat.modulo Nat.eqb Nat.leb]; split_ifs;
      first [ reflexivity | harmless ] ].

Lemma Recording_completion (script : Script) (job : Job) :
  Recording (completion script job).
Proof.
  destruct job as [env data]. destruct script as [| MAX_CLICKS]; cbn [completion fst snd].
  - split; [reflexivity |]. intros w. eexists.
    cbn -[Nat.modulo Nat.eqb Nat.leb].
    split; [reflexivity |]. split; [reflexivity |]. split; [reflexivity |].
    harmless.
  - split; [reflexivity |]. intros w. eexists.
    cbn -[Nat.modulo Nat.eqb Nat.leb].
    split; [reflexivity |]. split; [reflexivity |]. split; [reflexivity |].
    harmless.
Qed.

(** At every point of every interleaving of the completions of [jobs],
    started with a fresh counter, the records are numbered 1, 2, ... up to
    the counter, in the order they were appended. *)
Lemma completions_numbered (script : Script) (jobs : list Job) (schedule : list nat)
  (w : World) (pool : list (Co World bool)) :
  runSchedule schedule (completions script jobs) initialWorld = Some (w, pool) ->
  clickNumbers w = seq 1 (globalClickCounter w)
  /\ globalClickCounter w <= length jobs
  /\ (allSettled pool = true -> globalClickCounter w = length jobs).
Proof.
  intros Hrun.
  assert (Hstart : Inv 0 [] (length (completions script jobs))
                     (completions script jobs) initialWorld).
  { apply (Inv_start (completions script jobs) initialWorld).
    unfold completions. apply Forall_map. apply Forall_forall.
    intros job _. apply Recording_completion. }
  pose proof (runSchedule_Inv 0 [] _ schedule _ pool initialWorld w Hstart Hrun) as HI.
  destruct HI as (pendings & news & Hgood & Hcount & _ & Hrecs & Hnums).
  unfold completions in Hcount. rewrite length_map in Hcount.
  cbn [app] in Hrecs. cbn [Nat.add] in *. rewrite Nat.sub_0_r in Hnums.
  split; [unfold clickNumbers; rewrite Hrecs; exact Hnums |].
  split; [lia |].
  intros Hs. rewrite (allSettled_no_pending pool pendings Hgood Hs) in Hcount. lia.
Qed.

End PoolFacts.

(** ** The budget under interleaving *)

Module BudgetFacts.
Import Async Engine Pool Budget.
Local Open Scope nat_scope.
Local Open Scope list_scope.

Section Rules.

Context {S : Type}.
Variables (MAX_CLICKS : nat) (counter completedTabs : S -> nat).

Local Abbreviation idle := (idle counter completedTabs).
Local Abbreviation Track := (Track MAX_CLICKS counter completedTabs).

Lemma Track_weaken {A : Type} (Post Post' : Phase -> Outcome A -> S -> Prop)
  (ph : Phase) (m : Co S A) (s : S) :
  (forall ph r s, Post ph r s -> Post' ph r s) ->
  Track Post ph m s -> Track Post' ph m s.
Proof.
  intros Hw H. induction H.
  - apply Track_ret. apply Hw. assumption.
  - apply Track_get. assumption.
  - apply Track_put; assumption.
  - apply Track_count; assumption.
  - apply Track_complete; assumption.
  - apply Track_yield. assumption.
  - apply Track_decide; assumption.
  - apply Track_forfeit. assumption.
Qed.

Lemma idle_Track {A : Type} (Post : Phase -> Outcome A -> S -> Prop) (ph : Phase)
  (m : Co S A) :
  forall s, idle m s -> (forall r s', Post ph r s') -> Track Post ph m s.
Proof.
  induction m as [r | k IH | s' k IH | k IH]; intros s Hi Hp; cbn [Budget.idle] in Hi.
  - apply Track_ret. apply Hp.
  - apply Track_get. apply IH; assumption.
  - destruct Hi as (Hc & Ht & Hi). apply Track_put; [assumption | assumption |].
    apply IH; assumption.
  - apply Track_yield. intros s1. apply IH; [apply Hi | assumption].
Qed.

Lemma idle_bind {A B : Type} (m : Co S A) (f : A -> Co S B) :
  forall s, idle m s -> (forall a s', idle (f a) s') -> idle (bind m f) s.
Proof.
  induction m as [[a | e] | k IH | s' k IH | k IH]; intros s Hi Hf;
    cbn [bind Budget.idle] in *.
  - apply Hf.
  - exact I.
  - apply IH; assumption.
  - destruct Hi as (Hc & Ht & Hi). repeat split; try assumption. apply IH; assumption.
  - intros s1. apply IH; [apply Hi | assumption].
Qed.

Lemma idle_tryCatch {A : Type} (m : Co S A) (handler : Error -> Co S A) :
  forall s, idle m s -> (forall e s', idle (handler e) s') -> idle (tryCatch m handler) s.
Proof.
  induction m as [[a | e] | k IH | s' k IH | k IH]; intros s Hi Hf;
    cbn [tryCatch Budget.idle] in *.
  - exact I.
  - apply Hf.
  - apply IH; assumption.
  - destruct Hi as (Hc & Ht & Hi). repeat split; try assumption. apply IH; assumption.
  - intros s1. apply IH; [apply Hi | assumption].
Qed.

Lemma idle_await {A : Type} (m : Co S A) : forall s, idle m s -> idle (await m) s.
Proof.
  induction m as [r | k IH | s' k IH | k IH]; intros s Hi; cbn [await Budget.idle] in *.
  - intros _. exact I.
  - apply IH; assumption.
  - destruct Hi as (Hc & Ht & Hi). repeat split; try assumption. apply IH; assumption.
  - intros s1. apply IH. apply Hi.
Qed.

(** Sequencing: the continuation starts in the phase and the state the first
    part ends in. *)
Lemma Track_bind {A B : Type} (Post : Phase -> Outcome B -> S -> Prop)
  (ph : Phase) (m : Co S A) (f : A -> Co S B) (s : S) :
  Track (fun ph r s => match r with
                       | Ok a => Track Post ph (f a) s
                       | Throw e => Post ph (Throw e) s
                       end) ph m s ->
  Track Post ph (bind m f) s.
Proof.
  intros H. induction H; cbn [bind].
  - destruct r as [a | e]; [assumption | apply Track_ret; assumption].
  - apply Track_get. assumption.
  - apply Track_put; assumption.
  - apply Track_count; assumption.
  - apply Track_complete; assumption.
  - apply Track_yield. assumption.
  - apply Track_decide; assumption.
  - apply Track_forfeit. assumption.
Qed.

Lemma Track_tryCatch {A : Type} (Post : Phase -> Outcome A -> S -> Prop)
  (ph : Phase) (m : Co S A) (handler : Error -> Co S A) (s : S) :
  Track (fun ph r s => match r with
                       | Ok a => Post ph (Ok a) s
                       | Throw e => Track Post ph (handler e) s
                       end) ph m s ->
  Track Post ph (tryCatch m handler) s.
Proof.
  intros H. induction H; cbn [tryCatch].
  - destruct r as [a | e]; [apply Track_ret; assumption | assumption].
  - apply Track_get. assumption.
  - apply Track_put; assumption.
  - apply Track_count; assumption.
  - apply Track_complete; assumption.
  - apply Track_yield. assumption.
  - apply Track_decide; assumption.
  - apply Track_forfeit. assumption.
Qed.

Lemma Track_tryFinally {A : Type} (Post : Phase -> Outcome A -> S -> Prop)
  (ph : Phase) (m : Co S A) (finalizer : Co S unit) (s : S) :
  Track (fun ph r s => Track Post ph (bind finalizer (fun _ => Ret r)) s) ph m s ->
  Track Post ph (tryFinally m finalizer) s.
Proof.
  intros H. induction H; cbn [tryFinally].
  - assumption.
  - apply Track_get. assumption.
  - apply Track_put; assumption.
  - apply Track_count; assumption.
  - apply Track_complete; assumption.
  - apply Track_yield. assumption.
  - apply Track_decide; assumption.
  - apply Track_forfeit. assumption.
Qed.

Lemma Track_await {A : Type} (Post : Phase -> Outcome A -> S -> Prop)
  (ph : Phase) (m : Co S A) (s : S) :
  Track (fun ph r _ => forall s', Post ph r s') ph m s -> Track Post ph (await m) s.
Proof.
  intros H. induction H; cbn [await].
  - apply Track_yield. intros s1. apply Track_ret. apply H.
  - apply Track_get. assumption.
  - apply Track_put; assumption.
  - apply Track_count; assumption.
  - apply Track_complete; assumption.
  - apply Track_yield. assumption.
  - apply Track_decide; assumption.
  - apply Track_forfeit. assumption.
Qed.

(** A part that changes neither number, then a continuation. *)
Lemma Track_idle_bind {A B : Type} (Post : Phase -> Outcome B -> S -> Prop)
  (ph : Phase) (m : Co S A) (f : A -> Co S B) (s : S) :
  idle m s ->
  (forall a s', Track Post ph (f a) s') ->
  (forall e s', Post ph (Throw e) s') ->
  Track Post ph (bind m f) s.
Proof.
  intros Hi Hf He. apply Track_bind. apply idle_Track; [exact Hi |].
  intros [a | e] s1; [apply Hf | apply He].
Qed.

End Rules.

Section Scoped.

Context {L : Type}.
Variables (MAX_CLICKS : nat).

Lemma idle_lift {A : Type} (m : Co World A) :
  forall s : World * L,
    idle globalClickCounter completed m (fst s) -> idle counterOf completedOf (lift m) s.
Proof.
  induction m as [r | k IH | w' k IH | k IH]; intros s Hi; cbn [lift Budget.idle] in *.
  - exact I.
  - apply IH. exact Hi.
  - destruct Hi as (Hc & Ht & Hi). repeat split; try assumption. apply IH. exact Hi.
  - intros s1. apply IH. apply Hi.
Qed.

Lemma Track_lift {A : Type} (Post : Phase -> Outcome A -> World -> Prop)
  (ph : Phase) (m : Co World A) (w : World) :
  Track MAX_CLICKS globalClickCounter completed Post ph m w ->
  forall locals : L,
    Track MAX_CLICKS counterOf completedOf (fun ph r s => Post ph r (fst s)) ph
      (lift m) (w, locals).
Proof.
  intros H. induction H; intros locals; cbn [lift].
  - apply Track_ret. assumption.
  - apply Track_get. apply IHTrack.
  - apply Track_get. apply Track_put; [assumption | assumption | apply IHTrack].
  - apply Track_get. apply Track_count; [assumption | assumption | apply IHTrack].
  - apply Track_get. apply Track_complete; [assumption | assumption | apply IHTrack].
  - apply Track_yield. intros [w1 l1]. apply H0.
  - apply Track_decide; [assumption | apply IHTrack].
  - apply Track_forfeit. apply IHTrack.
Qed.

Lemma Track_scope {A : Type} (Post : Phase -> Outcome A -> World -> Prop)
  (ph : Phase) (m : Co (World * L) A) (s : World * L) :
  Track MAX_CLICKS counterOf completedOf (fun ph r s => Post ph r (fst s)) ph m s ->
  Track MAX_CLICKS globalClickCounter completed Post ph (scope (snd s) m) (fst s).
Proof.
  intros H. induction H.
  - apply Track_ret. assumption.
  - cbn [scope]. apply Track_get. destruct s as [w l]. exact IHTrack.
  - destruct s' as [w1 l1]. cbn [scope]. apply Track_put; assumption.
  - destruct s' as [w1 l1]. cbn [scope]. apply Track_count; assumption.
  - destruct s' as [w1 l1]. cbn [scope]. apply Track_complete; assumption.
  - cbn [scope]. apply Track_yield. intros w1. exact (H0 (w1, snd s)).
  - apply Track_decide; assumption.
  - apply Track_forfeit. assumption.
Qed.

End Scoped.

(** *** One turn of a tracked task *)

Section Turn.

Context {A : Type}.
Variables (MAX_CLICKS c0 t0 : nat).

Local Abbreviation Around := (Around MAX_CLICKS c0 t0).

Lemma advance_Track (othersCounted othersOwed : nat) (ph : Phase) (m : Co World A)
  (w : World) :
  Track MAX_CLICKS globalClickCounter completed anyOutcome ph m w ->
  forall k d t,
    Around othersCounted othersOwed ph w k d t ->
    exists ph' k' d' t',
      Around othersCounted othersOwed ph' (fst (advance m w)) k' d' t'
      /\ InPhase MAX_CLICKS (snd (advance m w)) ph'.
Proof.
  intros H. induction H; intros k0 d t HJ; cbn [advance].
  - exists ph, k0, d, t. split; [exact HJ |]. intros w1. apply Track_ret. exact I.
  - apply (IHTrack k0 d t). exact HJ.
  - apply (IHTrack k0 d t). unfold Budget.Around in *. rewrite H, H0. exact HJ.
  - apply (IHTrack (k0 + 1) d t). unfold Budget.Around in *. rewrite H, H0.
    cbn [isCounted isOwed b2n] in *. lia.
  - apply (IHTrack k0 d t). unfold Budget.Around in *. rewrite H, H0.
    cbn [isCounted isOwed b2n] in *. lia.
  - exists ph, k0, d, t. split; [exact HJ |]. intros w1. apply H.
  - apply (IHTrack k0 (d + 1) (t + 1)). unfold Budget.Around in *.
    cbn [isCounted isOwed b2n] in *. lia.
  - destruct ph.
    + apply (IHTrack k0 d t). unfold Budget.Around in *. cbn [isCounted isOwed b2n] in *. lia.
    + apply (IHTrack k0 (d + 1) t). unfold Budget.Around in *. cbn [isCounted isOwed b2n] in *. lia.
    + apply (IHTrack k0 d t). unfold Budget.Around in *. cbn [isCounted isOwed b2n] in *. lia.
    + apply (IHTrack k0 d t). exact HJ.
Qed.

Lemma count_replace {X : Type} (f : X -> bool) (l : list X) (i : nat) (x y : X) :
  nth_error l i = Some x ->
  count f (replace i y l) + b2n (f x) = count f l + b2n (f y).
Proof.
  revert i. induction l as [| z rest IH]; intros [| i] H; cbn in H; try discriminate.
  - injection H as ->. unfold count. cbn [replace filter].
    destruct (f x), (f y); cbn [length b2n]; lia.
  - unfold count in *. cbn [replace filter]. specialize (IH i H).
    destruct (f z); cbn [length]; lia.
Qed.

Lemma count_member {X : Type} (f : X -> bool) (l : list X) (i : nat) (x : X) :
  nth_error l i = Some x -> b2n (f x) <= count f l.
Proof.
  revert i. induction l as [| z rest IH]; intros [| i] H; cbn in H; try discriminate.
  - injection H as ->. unfold count. cbn [filter].
    destruct (f x); cbn [length b2n]; lia.
  - unfold count in *. cbn [filter]. specialize (IH i H).
    destruct (f z); cbn [length]; lia.
Qed.

Lemma Forall2_phase (pool : list (Co World A)) (phases : list Phase) (i : nat)
  (task : Co World A) :
  Forall2 (InPhase MAX_CLICKS) pool phases ->
  nth_error pool i = Some task ->
  exists ph, nth_error phases i = Some ph /\ InPhase MAX_CLICKS task ph.
Proof.
  intros H. revert i. induction H as [| m ph pool' phases' Hm _ IH]; intros [| i] Hi;
    cbn in Hi; try discriminate.
  - injection Hi as ->. exists ph. split; [reflexivity | exact Hm].
  - apply IH. exact Hi.
Qed.

Lemma Forall2_replaced (pool : list (Co World A)) (phases : list Phase) (i : nat)
  (task : Co World A) (ph : Phase) :
  Forall2 (InPhase MAX_CLICKS) pool phases ->
  InPhase MAX_CLICKS task ph ->
  Forall2 (InPhase MAX_CLICKS) (replace i task pool) (replace i ph phases).
Proof.
  intros H Ht. revert i. induction H as [| m ph0 pool' phases' Hm Hrest IH]; intros [| i];
    cbn [replace]; constructor; auto.
Qed.

Lemma turn_keeps_budget (i : nat) (pool pool' : list (Co World A)) (w w' : World) :
  Inv MAX_CLICKS c0 t0 pool w ->
  turn i pool w = Some (w', pool') ->
  Inv MAX_CLICKS c0 t0 pool' w'.
Proof.
  intros (phases & k & d & t & Hall & Hc & Hd & Ht & Hb & Hcomp) Hturn.
  unfold turn in Hturn.
  destruct (nth_error pool i) as [task |] eqn:Hi; [| discriminate].
  destruct (settled task); [discriminate |].
  destruct (advance task w) as [w1 task1] eqn:Hadv.
  injection Hturn as <- <-.
  destruct (Forall2_phase pool phases i task Hall Hi) as (ph & Hph & Htask).
  pose proof (count_replace isCounted phases i ph) as HC.
  pose proof (count_replace isOwed phases i ph) as HO.
  pose proof (count_member isCounted phases i ph Hph) as HgC.
  pose proof (count_member isOwed phases i ph Hph) as HgO.
  destruct (advance_Track (count isCounted phases - b2n (isCounted ph))
              (count isOwed phases - b2n (isOwed ph)) ph task w (Htask w) k d t)
    as (ph' & k' & d' & t' & HJ & Hnext).
  { unfold Budget.Around. lia. }
  rewrite Hadv in HJ, Hnext. cbn [fst snd] in HJ, Hnext.
  exists (replace i ph' phases), k', d', t'.
  split; [apply Forall2_replaced; assumption |].
  specialize (HC ph' Hph). specialize (HO ph' Hph).
  unfold Budget.Around in HJ. lia.
Qed.

Lemma runSchedule_keeps_budget (schedule : list nat) :
  forall (pool pool' : list (Co World A)) (w w' : World),
    Inv MAX_CLICKS c0 t0 pool w ->
    runSchedule schedule pool w = Some (w', pool') ->
    Inv MAX_CLICKS c0 t0 pool' w'.
Proof.
  induction schedule as [| i rest IH]; intros pool pool' w w' HI Hrun; cbn [runSchedule] in Hrun.
  - injection Hrun as <- <-. exact HI.
  - destruct (turn i pool w) as [[w1 pool1] |] eqn:Hturn; [| discriminate].
    apply (IH pool1 pool' w1 w'); [| exact Hrun].
    apply (turn_keeps_budget i pool pool1 w w1); assumption.
Qed.

End Turn.

Lemma count_repeat_Fresh (f : Phase -> bool) (n : nat) :
  f Fresh = false -> count f (repeat Fresh n) = 0.
Proof.
  intros H. induction n as [| n IH]; [reflexivity |].
  unfold count in *. cbn [repeat filter]. rewrite H. exact IH.
Qed.

Lemma workers_start_Fresh {A : Type} (MAX_CLICKS : nat) (pool : list (Co World A)) (w : World) :
  Forall (fun m => InPhase MAX_CLICKS m Fresh) pool ->
  Inv MAX_CLICKS (globalClickCounter w) (completed w) pool w.
Proof.
  intros H. exists (repeat Fresh (length pool)), 0, 0, 0.
  rewrite !count_repeat_Fresh by reflexivity.
  split; [| lia].
  induction H; cbn [length repeat]; constructor; assumption.
Qed.

(** *** The tab worker of the bounded script *)

Lemma Idle_bind {A B : Type} (m : Co World A) (f : A -> Co World B) :
  Idle m -> (forall a, Idle (f a)) -> Idle (bind m f).
Proof. intros Hm Hf w. apply idle_bind; [apply Hm | intros a w1; apply Hf]. Qed.

Lemma Idle_tryCatch {A : Type} (m : Co World A) (handler : Error -> Co World A) :
  Idle m -> (forall e, Idle (handler e)) -> Idle (tryCatch m handler).
Proof. intros Hm Hf w. apply idle_tryCatch; [apply Hm | intros a w1; apply Hf]. Qed.

Lemma Idle_await {A : Type} (m : Co World A) : Idle m -> Idle (await m).
Proof. intros Hm w. apply idle_await. apply Hm. Qed.

Lemma Idle_if {A : Type} (b : bool) (m1 m2 : Co World A) :
  Idle m1 -> Idle m2 -> Idle (if b then m1 else m2).
Proof. destruct b; auto. Qed.

Lemma Idle_ret {A : Type} (a : A) : Idle (ret a).
Proof. intros w. exact I. Qed.

Lemma Idle_throw {A : Type} (e : Error) : Idle (throw e : Co World A).
Proof. intros w. exact I. Qed.

Ltac idle_step :=
  first [ exact I | intros ? | split | reflexivity
        | match goal with |- context [if ?b then _ else _] => destruct b end ].

Ltac idle_prim := intros ?; cbn; repeat (idle_step; cbn).

Lemma Idle_log (line : LogLine) : Idle (log line).
Proof. idle_prim. Qed.

Lemma Idle_delay (ms : N) : Idle (delay ms).
Proof. idle_prim. Qed.

Lemma Idle_launch (env : Env) : Idle (launch env).
Proof. idle_prim. Qed.

Lemma Idle_newPage (env : Env) (b : Handle) : Idle (newPage env b).
Proof. idle_prim. Qed.

Lemma Idle_goto (env : Env) (target : string) : Idle (goto env target).
Proof. idle_prim. Qed.

Lemma Idle_title (env : Env) : Idle (title env).
Proof. idle_prim. Qed.

Lemma Idle_waitForBody (env : Env) : Idle (waitForBody env).
Proof. idle_prim. Qed.

Lemma Idle_evaluateContent (env : Env) : Idle (evaluateContent env).
Proof. idle_prim. Qed.

Lemma Idle_querySelectorAll (env : Env) (selector : Selector) :
  Idle (querySelectorAll env selector).
Proof. idle_prim. Qed.

Lemma Idle_evaluate (element : Element) : Idle (evaluate element).
Proof. idle_prim. Qed.

Lemma Idle_click (element : Element) : Idle (click element).
Proof. idle_prim. Qed.

Lemma Idle_close (env : Env) (h : Handle) : Idle (close env h).
Proof. idle_prim. Qed.

Lemma Idle_gets {A : Type} (f : World -> A) : Idle (gets f).
Proof. idle_prim. Qed.

Create HintDb idle.
#[export] Hint Resolve Idle_ret Idle_throw Idle_log Idle_delay Idle_launch Idle_newPage
  Idle_goto Idle_title Idle_waitForBody Idle_evaluateContent Idle_querySelectorAll
  Idle_evaluate Idle_click Idle_close Idle_gets : idle.

(** Solves [Idle] goals built from binds, handlers and conditionals. *)
Ltac idle :=
  repeat first
    [ solve [auto with idle]
    | apply Idle_bind; [| intros ?]
    | apply Idle_tryCatch; [| intros ?]
    | apply Idle_await
    | apply Idle_if ].

Lemma Idle_appendFile (env : Env) (csvContent : list CsvLine) :
  Idle (appendFile env csvContent).
Proof. idle_prim. Qed.

Lemma Idle_writeFile (env : Env) (csvContent : list ClickRecord) :
  Idle (writeFile env csvContent).
Proof. idle_prim. Qed.

#[export] Hint Resolve Idle_appendFile Idle_writeFile : idle.

Lemma Idle_updateCSVFile (env : Env) (record : ClickRecord) :
  Idle (updateCSVFile env record).
Proof. unfold updateCSVFile. idle. Qed.

Lemma Idle_addClickRecord (env : Env) (data : ClickData) : Idle (addClickRecord env data).
Proof.
  unfold addClickRecord. apply Idle_bind; [idle | intros w0].
  apply Idle_bind; [idle_prim | intros _].
  apply Idle_tryCatch; [| intros e; idle].
  apply Idle_bind; [apply Idle_await, Idle_updateCSVFile | intros _]. idle.
Qed.

Lemma Idle_generateCSVReport (env : Env) : Idle (generateCSVReport env).
Proof. unfold generateCSVReport. idle. Qed.

Lemma Idle_clickElementWithText (env : Env) (searchText : string) (elements : list Element) :
  Idle (Bounded.clickElementWithText env searchText elements).
Proof.
  induction elements as [| element rest IH]; cbn [Bounded.clickElementWithText]; [idle |].
  apply Idle_bind; [idle | intros _]. apply Idle_if; [idle | exact IH].
Qed.

Lemma Idle_clickFirstElement (elements : list Element) :
  Idle (Bounded.clickFirstElement elements).
Proof. destruct elements; cbn [Bounded.clickFirstElement]; idle. Qed.

Lemma Idle_trySelectors (env : Env) (selectors : list SubmitSelector) :
  Idle (Bounded.trySelectors env selectors).
Proof.
  induction selectors as [| selector rest IH]; cbn [Bounded.trySelectors]; [idle |].
  apply Idle_bind; [| intros [|]; [idle | exact IH]].
  apply Idle_tryCatch; [| intros e; idle].
  destruct selector; cbn [Bounded.trySelector]; (apply Idle_bind; [idle | intros els]).
  - apply Idle_clickFirstElement.
  - apply Idle_clickElementWithText.
Qed.

Lemma Idle_interact (env : Env) : Idle (Bounded.interact env).
Proof.
  unfold Bounded.interact. apply Idle_tryCatch; [| intros e; idle].
  apply Idle_bind; [idle | intros _].
  apply Idle_bind; [| intros [|]; idle].
  unfold Bounded.findAndClick.
  apply Idle_bind; [apply Idle_trySelectors | intros [|]; [idle |]].
  apply Idle_tryCatch; [| intros e; idle].
  apply Idle_bind; [idle | intros els]. apply Idle_clickFirstElement.
Qed.

Lemma IdleL_lift {A : Type} (m : Co World A) : Idle m -> IdleL (lift m).
Proof. intros H s. apply idle_lift. apply H. Qed.

Lemma IdleL_bind {A B : Type} (m : Co (World * Bounded.Locals) A)
  (f : A -> Co (World * Bounded.Locals) B) :
  IdleL m -> (forall a, IdleL (f a)) -> IdleL (bind m f).
Proof. intros Hm Hf s. apply idle_bind; [apply Hm | intros a s1; apply Hf]. Qed.

Lemma IdleL_setLocal (f : Bounded.Locals -> Bounded.Locals) : IdleL (setLocal f).
Proof. intros s. cbn. repeat split. Qed.

Lemma IdleL_getLocal {A : Type} (f : Bounded.Locals -> A) : IdleL (getLocal f).
Proof. intros s. exact I. Qed.

Lemma IdleL_closeIfSet (env : Env) (h : option Handle) : IdleL (Bounded.closeIfSet env h).
Proof.
  destruct h as [handle |]; cbn [Bounded.closeIfSet].
  - apply (IdleL_lift (swallow (close env handle))). unfold swallow. idle.
  - intros s. exact I.
Qed.

Section Worker.

Variable MAX_CLICKS : nat.

Local Abbreviation TrackL :=
  (Track (S := World * Bounded.Locals) MAX_CLICKS counterOf completedOf).

(** [incrementClickCounter] counts at once, and returns [true] only from a
    point where it has found the counter below the budget. *)
Lemma Track_incrementClickCounter (env : Env) (data : ClickData) (w : World) :
  Track MAX_CLICKS globalClickCounter completed
    (fun ph r _ => r = Ok true -> ph = Owed) Fresh
    (Bounded.incrementClickCounter MAX_CLICKS env data) w.
Proof.
  unfold Bounded.incrementClickCounter, modify. cbn [bind].
  apply Track_get. apply Track_count; [reflexivity | reflexivity |].
  cbn [bind ret].
  apply Track_idle_bind; [apply Idle_await, Idle_addClickRecord | | discriminate].
  intros _ w1. unfold gets at 1. cbn [bind ret]. apply Track_get.
  apply Track_idle_bind; [apply Idle_log | | discriminate].
  intros _ w2. unfold gets. cbn [bind ret]. apply Track_get.
  destruct (MAX_CLICKS <=? globalClickCounter w2) eqn:E.
  - apply Track_idle_bind; [apply Idle_await, Idle_generateCSVReport | | discriminate].
    intros _ w3. apply Track_ret. discriminate.
  - apply Nat.leb_gt in E. apply Track_decide; [exact E |].
    apply Track_ret. reflexivity.
Qed.

(** The last steps of the [try] block: the call of
    [incrementClickCounter], the test of its result and
    [completedTabs++]. *)
Lemma Track_recording (env : Env) (data : ClickData) (s : World * Bounded.Locals) :
  TrackL (fun _ _ _ => True) Fresh
    (continue <- lift (await (Bounded.incrementClickCounter MAX_CLICKS env data)) ;;
     (if continue : bool then ret tt else throw MAX_CLICKS_REACHED) ;;
     lift (modify (fun w => set_completed (completed w + 1) w)))%co s.
Proof.
  apply Track_bind. destruct s as [w locals].
  pose proof (Track_incrementClickCounter env data w) as H1.
  assert (H2 : Track MAX_CLICKS globalClickCounter completed
                 (fun ph r _ => r = Ok true -> ph = Owed) Fresh
                 (await (Bounded.incrementClickCounter MAX_CLICKS env data)) w).
  { apply Track_await. eapply Track_weaken; [| exact H1].
    cbn beta. intros ph r _ H _. exact H. }
  pose proof (Track_lift MAX_CLICKS _ _ _ _ H2 locals) as H3. cbn beta in H3.
  eapply Track_weaken; [| exact H3].
  intros ph [[|] | e] s1 H; cbn beta iota in *; [| apply Track_ret; exact I | exact I].
  rewrite (H eq_refl). cbn.
  apply Track_get. apply Track_get. apply Track_complete; [reflexivity | reflexivity |].
  apply Track_ret. exact I.
Qed.

Lemma Track_top_tryCatch {A : Type} (ph : Phase) (m : Co (World * Bounded.Locals) A)
  (handler : Error -> Co (World * Bounded.Locals) A) (s : World * Bounded.Locals) :
  TrackL (fun _ _ _ => True) ph m s -> (forall e, IdleL (handler e)) ->
  TrackL (fun _ _ _ => True) ph (tryCatch m handler) s.
Proof.
  intros H Hh. apply Track_tryCatch. eapply Track_weaken; [| exact H].
  intros ph1 [a | e] s1 _; [exact I |].
  apply idle_Track; [apply Hh | intros; exact I].
Qed.

Lemma Track_top_tryFinally {A : Type} (ph : Phase) (m : Co (World * Bounded.Locals) A)
  (finalizer : Co (World * Bounded.Locals) unit) (s : World * Bounded.Locals) :
  TrackL (fun _ _ _ => True) ph m s -> IdleL finalizer ->
  TrackL (fun _ _ _ => True) ph (tryFinally m finalizer) s.
Proof.
  intros H Hf. apply Track_tryFinally. eapply Track_weaken; [| exact H].
  intros ph1 r s1 _.
  apply idle_Track; [| intros; exact I].
  apply idle_bind; [apply Hf | intros; exact I].
Qed.

Ltac idle_then :=
  apply Track_idle_bind; [| intros ? ? | intros; exact I].

Ltac lifted :=
  match goal with
  | |- idle _ _ (lift ?m) _ => apply (IdleL_lift m)
  | |- IdleL (lift ?m) => apply (IdleL_lift m)
  end.

(** A tab worker goes through the phases in order, whatever happens to the
    shared state while it is suspended. *)
Lemma createTabWorker_Fresh (env : Env) (target : string) (tabIndex : nat) :
  InPhase MAX_CLICKS (Bounded.createTabWorker MAX_CLICKS env target tabIndex) Fresh.
Proof.
  intros w. unfold Bounded.createTabWorker, anyOutcome.
  unfold gets at 1. cbn [bind ret]. apply Track_get.
  apply (Track_scope MAX_CLICKS (fun _ _ _ => True) Fresh _
           (w, Bounded.mkLocals None None)).
  apply Track_top_tryFinally.
  - apply Track_top_tryCatch.
    + idle_then; [lifted; idle_prim |].
      idle_then; [lifted; idle |].
      idle_then; [lifted; idle |].
      idle_then; [apply IdleL_setLocal |].
      idle_then; [lifted; idle |].
      idle_then; [apply IdleL_setLocal |].
      idle_then; [lifted; idle |].
      idle_then; [lifted; idle |].
      idle_then; [lifted; idle |].
      idle_then; [lifted; apply Idle_interact |].
      idle_then; [lifted; idle |].
      apply Track_recording.
    + intros e. destruct e; lifted; idle.
  - apply IdleL_bind; [lifted; idle_prim | intros _].
    apply IdleL_bind; [apply IdleL_getLocal | intros p].
    apply IdleL_bind; [apply IdleL_closeIfSet | intros _].
    apply IdleL_bind; [apply IdleL_getLocal | intros b].
    apply IdleL_closeIfSet.
Qed.

End Worker.

End BudgetFacts.
(** ** The bounded campaign *)

Module CampaignFacts.
Import Campaign.
Local Open Scope nat_scope.
Local Open Scope list_scope.

(** Splits a five-part invariant. *)
Ltac parts := split; [| split; [| split; [| split]]].

Section Bound.

Variable cfg : Config.

Let T := numberOfTabsPerUrl cfg.
Let C := concurrentTabsPerUrl cfg.
Let M := MAX_CLICKS cfg.
Let U := length (urls cfg).

Lemma succ_mod (i : nat) : 1 <= C -> (i + 1) mod C <> 0 -> (i + 1) mod C = i mod C + 1.
Proof.
  intros HC Hnz.
  pose proof (Nat.div_mod_eq i C) as Hi.
  pose proof (Nat.mod_upper_bound i C ltac:(lia)) as Hr.
  destruct (Nat.eq_dec (i mod C + 1) C) as [E | E].
  - exfalso. apply Hnz.
    replace (i + 1) with ((i / C + 1) * C) by nia.
    apply Nat.Div0.mod_mul.
  - symmetry. apply (Nat.mod_unique (i + 1) C (i / C)); lia.
Qed.

Lemma dispatchLoop_stopped (fuel i : nat) :
  dispatchLoop cfg false fuel i = ([], Returned).
Proof. destruct fuel; cbn [dispatchLoop]; [reflexivity |]. destruct (i <? _); reflexivity. Qed.

(** A batch holds at most [C] workers. *)
Lemma dispatchLoop_batch (continue : bool) (fuel i : nat) :
  1 <= C -> length (fst (dispatchLoop cfg continue fuel i)) <= C - i mod C.
Proof.
  intros HC. revert i. induction fuel as [| fuel IH]; intros i; cbn [dispatchLoop].
  - cbn. lia.
  - pose proof (Nat.mod_upper_bound i C ltac:(lia)) as Hr.
    destruct (i <? numberOfTabsPerUrl cfg); [| cbn; lia].
    destruct continue; [| cbn; lia].
    fold C.
    destruct ((i + 1) mod C =? 0) eqn:E; cbn [orb].
    + cbn. lia.
    + destruct (i =? numberOfTabsPerUrl cfg - 1); [cbn; lia |].
      specialize (IH (i + 1)).
      destruct (dispatchLoop cfg true fuel (i + 1)) as [created suspended].
      cbn [fst length] in *. apply Nat.eqb_neq in E.
      rewrite (succ_mod i HC E) in IH. lia.
Qed.

Lemma dispatchLoop_phase (continue : bool) (fuel i j : nat) :
  snd (dispatchLoop cfg continue fuel i) <> Pausing j.
Proof.
  revert i. induction fuel as [| fuel IH]; intros i; cbn [dispatchLoop]; [discriminate |].
  destruct (i <? numberOfTabsPerUrl cfg); [| discriminate].
  destruct continue; [| discriminate].
  destruct (_ || _); [discriminate |].
  specialize (IH (i + 1)). destruct (dispatchLoop cfg true fuel (i + 1)). exact IH.
Qed.

Lemma list_sum_cons (x : nat) (l : list nat) : list_sum (x :: l) = x + list_sum l.
Proof. reflexivity. Qed.

Lemma runningOf_le (tb : Tabs) : runningOf tb <= length (workers tb).
Proof. apply filter_length_le. Qed.

Lemma running_le (ts : list Tabs) :
  Forall (TabsOk cfg) ts -> list_sum (map runningOf ts) <= length ts * C.
Proof.
  induction 1 as [| tb ts [Hlen _] H IH]; cbn [map length];
    [cbn; lia | rewrite list_sum_cons].
  pose proof (runningOf_le tb). lia.
Qed.

Lemma list_sum_replace {X : Type} (f : X -> nat) (l : list X) (u : nat) (x y : X) :
  nth_error l u = Some x ->
  list_sum (map f (Pool.replace u y l)) + f x = list_sum (map f l) + f y.
Proof.
  revert u. induction l as [| z rest IH]; intros u Hu; [destruct u; discriminate |].
  destruct u as [| k]; cbn [nth_error Pool.replace map] in *;
    rewrite !list_sum_cons.
  - injection Hu as ->. lia.
  - specialize (IH k Hu). lia.
Qed.

Lemma Forall_replace {X : Type} (P : X -> Prop) (l : list X) (u : nat) (y : X) :
  Forall P l -> P y -> Forall P (Pool.replace u y l).
Proof.
  intros H Hy. revert u. induction H as [| z rest Hz H IH]; intros u.
  - destruct u; constructor.
  - destruct u; cbn [Pool.replace]; constructor; auto.
Qed.

Lemma length_replace {X : Type} (l : list X) (u : nat) (y : X) :
  length (Pool.replace u y l) = length l.
Proof.
  revert u. induction l as [| z rest IH]; intros u; [destruct u; reflexivity |].
  destruct u; cbn [Pool.replace length]; [reflexivity | f_equal; apply IH].
Qed.

Lemma Forall_nth_error {X : Type} (P : X -> Prop) (l : list X) (u : nat) (x : X) :
  Forall P l -> nth_error l u = Some x -> P x.
Proof.
  intros H Hu. apply nth_error_In in Hu. rewrite Forall_forall in H. auto.
Qed.

Lemma countRunning_record (t : nat) (ws : list (nat * WorkerPhase)) :
  hasWorker t Running ws = true ->
  countRunning (recordWorker t ws) + 1 <= countRunning ws.
Proof.
  unfold countRunning, hasWorker, recordWorker.
  induction ws as [| [t0 p0] rest IH]; cbn [existsb map filter]; [discriminate |].
  unfold isWorker at 1 3. cbn [fst snd].
  destruct (t0 =? t) eqn:Et; destruct p0; cbn [andb WorkerPhase_eqb orb filter length snd].
  - intros _.
    assert (H : length (filter (fun w => WorkerPhase_eqb (snd w) Running)
                          (map (fun worker => if isWorker t Running worker
                                              then (t, Recorded) else worker) rest))
                <= length (filter (fun w => WorkerPhase_eqb (snd w) Running) rest)).
    { clear. induction rest as [| [t1 p1] rest IH]; cbn [map filter]; [lia |].
      unfold isWorker at 1. cbn [fst snd].
      destruct (t1 =? t); destruct p1; cbn [andb WorkerPhase_eqb filter length snd]; lia. }
    lia.
  - intros H. specialize (IH H). lia.
  - intros H. specialize (IH H). lia.
  - intros H. specialize (IH H). lia.
Qed.

Lemma countRunning_without (t : nat) (p : WorkerPhase) (ws : list (nat * WorkerPhase)) :
  countRunning (withoutWorker t p ws) <= countRunning ws.
Proof.
  unfold countRunning, withoutWorker.
  induction ws as [| [t0 p0] rest IH]; cbn [filter]; [lia |].
  destruct (negb _); destruct p0; cbn [filter snd WorkerPhase_eqb length]; lia.
Qed.

Lemma length_without (t : nat) (p : WorkerPhase) (ws : list (nat * WorkerPhase)) :
  length (withoutWorker t p ws) <= length ws.
Proof. apply filter_length_le. Qed.

Lemma resumeTabs_ok (continue : bool) (cycle u i : nat) :
  1 <= C -> TabsOk cfg (fst (resumeTabs cfg continue cycle u i)).
Proof.
  intros HC. unfold resumeTabs.
  pose proof (dispatchLoop_batch continue (S (numberOfTabsPerUrl cfg)) i HC) as Hb.
  pose proof (dispatchLoop_phase continue (S (numberOfTabsPerUrl cfg)) i) as Hp.
  destruct (dispatchLoop cfg continue (S (numberOfTabsPerUrl cfg)) i) as [created ph].
  cbn [fst snd] in *. split; cbn [workers phase].
  - rewrite length_map. lia.
  - intros j Hj. exfalso. exact (Hp j Hj).
Qed.

Lemma resumeTabs_stopped (cycle u i : nat) :
  resumeTabs cfg false cycle u i = (mkTabs Returned [], []).
Proof. unfold resumeTabs. rewrite dispatchLoop_stopped. reflexivity. Qed.

Lemma startAll_ok (cycle u : nat) (targets : list string) :
  1 <= C ->
  length (fst (startAll cfg true cycle u targets)) = length targets
  /\ Forall (TabsOk cfg) (fst (startAll cfg true cycle u targets)).
Proof.
  intros HC. revert u. induction targets as [| target rest IH]; intros u; cbn [startAll].
  - split; [reflexivity | constructor].
  - unfold startTabs. pose proof (resumeTabs_ok true cycle u 0 HC) as H0.
    destruct (resumeTabs cfg true cycle u 0) as [first created].
    destruct (IH (S u)) as [Hl Hf].
    destruct (startAll cfg true cycle (S u) rest) as [others later].
    cbn [fst length] in *. split; [f_equal; exact Hl | constructor; assumption].
Qed.

Lemma step_BudgetInv (event : Event) (s s' : State) :
  1 <= C -> 1 <= U -> BudgetInv cfg s -> step cfg event s = Some s' -> BudgetInv cfg s'.
Proof.
  intros HC HU (Hlen & Hok & Hbound & Hfin) Hstep.
  assert (HK : 1 <= U * C) by nia.
  pose proof (running_le (tabs s) Hok) as Hrun.
  change (running s <= length (tabs s) * C) in Hrun.
  assert (Hrun' : running s <= U * C).
  { apply Nat.le_trans with (length (tabs s) * C); [exact Hrun |].
    apply Nat.mul_le_mono_r. exact Hlen. }
  destruct event as [| u t | u t | u t | u | u |]; cbn [step] in Hstep.
  - (* LoopTest *)
    assert (Hgo : forall s0,
               (if shouldContinue cfg s
                then let (started, created) :=
                       startAll cfg true (cycleCount s) 0 (urls cfg) in
                     Some (mkState (globalClickCounter s) (clickReportData s)
                             (dispatched s ++ created) started InCycle (cycleCount s))
                else Some (mkState (globalClickCounter s) (clickReportData s)
                             (dispatched s) (tabs s) Finished (cycleCount s)))
               = Some s0 -> BudgetInv cfg s0).
    { intros s0 H0. unfold shouldContinue in H0. fold M in H0.
      destruct (globalClickCounter s <? M) eqn:Elt.
      - apply Nat.ltb_lt in Elt.
        destruct (startAll_ok (cycleCount s) 0 (urls cfg) HC) as [Hl Hf].
        destruct (startAll cfg true (cycleCount s) 0 (urls cfg)) as [started created].
        injection H0 as <-. cbn [fst] in *.
        repeat split; cbn [tabs globalClickCounter control].
        + fold U in Hl. lia.
        + exact Hf.
        + lia.
        + discriminate.
      - apply Nat.ltb_ge in Elt. injection H0 as <-.
        repeat split; cbn [tabs globalClickCounter control]; try assumption.
        intros _. exact Elt. }
    destruct (control s); try discriminate; apply Hgo; exact Hstep.
  - (* WorkerRecords *)
    destruct (nth_error (tabs s) u) as [tb |] eqn:Hu; [| discriminate].
    destruct (hasWorker t Running (workers tb)) eqn:Hw; [| discriminate].
    injection Hstep as <-.
    pose proof (Forall_nth_error _ _ _ _ Hok Hu) as [Htl Htp].
    pose proof (countRunning_record t (workers tb) Hw) as Hcr.
    pose proof (list_sum_replace runningOf (tabs s) u tb
                  (mkTabs (phase tb) (recordWorker t (workers tb))) Hu) as Hsum.
    unfold runningOf at 2 4 in Hsum. cbn [workers] in Hsum.
    fold (countRunning (workers tb)) in Hsum.
    fold (countRunning (recordWorker t (workers tb))) in Hsum.
    repeat split; cbn [tabs globalClickCounter control].
    + rewrite length_replace. exact Hlen.
    + apply Forall_replace; [exact Hok |]. split; cbn [workers phase].
      * unfold recordWorker. rewrite length_map. exact Htl.
      * intros i Hi. rewrite (Htp i Hi). reflexivity.
    + intros HM. unfold running in *. cbn [tabs].
      fold runningOf in *.
      destruct (Nat.le_gt_cases M (globalClickCounter s)) as [Hge | Hlt].
      * specialize (Hbound Hge). lia.
      * lia.
    + intros Hf. specialize (Hfin Hf). lia.
  - (* WorkerFails *)
    destruct (nth_error (tabs s) u) as [tb |] eqn:Hu; [| discriminate].
    destruct (hasWorker t Running (workers tb)) eqn:Hw; [| discriminate].
    injection Hstep as <-. unfold set_tabs.
    pose proof (Forall_nth_error _ _ _ _ Hok Hu) as [Htl Htp].
    pose proof (countRunning_without t Running (workers tb)) as Hcr.
    pose proof (length_without t Running (workers tb)) as Hlw.
    pose proof (list_sum_replace runningOf (tabs s) u tb
                  (mkTabs (phase tb) (withoutWorker t Running (workers tb))) Hu) as Hsum.
    unfold runningOf at 2 4 in Hsum. cbn [workers] in Hsum.
    fold (countRunning (workers tb)) in Hsum.
    fold (countRunning (withoutWorker t Running (workers tb))) in Hsum.
    repeat split; cbn [tabs globalClickCounter control].
    + rewrite length_replace. exact Hlen.
    + apply Forall_replace; [exact Hok |]. split; cbn [workers phase].
      * lia.
      * intros i Hi. rewrite (Htp i Hi). reflexivity.
    + intros HM. specialize (Hbound HM). unfold running in *. cbn [tabs].
      fold runningOf in *. lia.
    + exact Hfin.
  - (* WorkerSettles *)
    destruct (nth_error (tabs s) u) as [tb |] eqn:Hu; [| discriminate].
    destruct (hasWorker t Recorded (workers tb)) eqn:Hw; [| discriminate].
    injection Hstep as <-. unfold set_tabs.
    pose proof (Forall_nth_error _ _ _ _ Hok Hu) as [Htl Htp].
    pose proof (countRunning_without t Recorded (workers tb)) as Hcr.
    pose proof (length_without t Recorded (workers tb)) as Hlw.
    pose proof (list_sum_replace runningOf (tabs s) u tb
                  (mkTabs (phase tb) (withoutWorker t Recorded (workers tb))) Hu) as Hsum.
    unfold runningOf at 2 4 in Hsum. cbn [workers] in Hsum.
    fold (countRunning (workers tb)) in Hsum.
    fold (countRunning (withoutWorker t Recorded (workers tb))) in Hsum.
    repeat split; cbn [tabs globalClickCounter control].
    + rewrite length_replace. exact Hlen.
    + apply Forall_replace; [exact Hok |]. split; cbn [workers phase].
      * lia.
      * intros i Hi. rewrite (Htp i Hi). reflexivity.
    + intros HM. specialize (Hbound HM). unfold running in *. cbn [tabs].
      fold runningOf in *. lia.
    + exact Hfin.
  - (* BatchSettled *)
    destruct (nth_error (tabs s) u) as [[ph ws] |] eqn:Hu; [| discriminate].
    destruct ph as [i | i |]; try discriminate.
    destruct ws as [| w0 ws]; [| discriminate].
    injection Hstep as <-. unfold set_tabs.
    pose proof (list_sum_replace runningOf (tabs s) u _
                  (mkTabs (if shouldContinue cfg s then Pausing i else Returned) []) Hu)
      as Hsum.
    unfold runningOf at 2 4 in Hsum. cbn [workers filter length] in Hsum.
    repeat split; cbn [tabs globalClickCounter control].
    + rewrite length_replace. exact Hlen.
    + apply Forall_replace; [exact Hok |]. split; cbn [workers phase]; [cbn; lia | reflexivity].
    + intros HM. specialize (Hbound HM). unfold running in *. cbn [tabs].
      fold runningOf in *. lia.
    + exact Hfin.
  - (* PauseOver *)
    destruct (nth_error (tabs s) u) as [[ph ws] |] eqn:Hu; [| discriminate].
    destruct ph as [i | i |]; try discriminate.
    pose proof (Forall_nth_error _ _ _ _ Hok Hu) as [Htl Htp].
    cbn [phase workers] in Htp. specialize (Htp i eq_refl). subst ws.
    unfold shouldContinue in Hstep. fold M in Hstep.
    destruct (globalClickCounter s <? M) eqn:Elt.
    + apply Nat.ltb_lt in Elt.
      pose proof (resumeTabs_ok true (cycleCount s) u (i + 1) HC) as Hr.
      destruct (resumeTabs cfg true (cycleCount s) u (i + 1)) as [resumed created].
      injection Hstep as <-. cbn [fst] in Hr.
      repeat split; cbn [tabs globalClickCounter control].
      * rewrite length_replace. exact Hlen.
      * apply Forall_replace; assumption.
      * lia.
      * exact Hfin.
    + apply Nat.ltb_ge in Elt. rewrite resumeTabs_stopped in Hstep.
      injection Hstep as <-.
      pose proof (list_sum_replace runningOf (tabs s) u _ (mkTabs Returned []) Hu) as Hsum.
      unfold runningOf at 2 4 in Hsum. cbn [workers filter length] in Hsum.
      repeat split; cbn [tabs globalClickCounter control].
      * rewrite length_replace. exact Hlen.
      * apply Forall_replace; [exact Hok |]. split; cbn; [lia | discriminate].
      * intros HM. specialize (Hbound HM). unfold running in *. cbn [tabs].
        fold runningOf in *. lia.
      * exact Hfin.
  - (* CycleSettled *)
    destruct (control s) eqn:Ec; try discriminate.
    destruct (allReturned (tabs s)); [| discriminate].
    unfold shouldContinue in Hstep. fold M in Hstep.
    destruct (globalClickCounter s <? M) eqn:Elt; injection Hstep as <-.
    + apply Nat.ltb_lt in Elt.
      repeat split; cbn [tabs globalClickCounter control length]; try lia; try constructor.
      discriminate.
    + apply Nat.ltb_ge in Elt.
      repeat split; cbn [tabs globalClickCounter control length]; try assumption.
      intros _. exact Elt.
Qed.

End Bound.

Lemma firstDispatch_none (k u : nat) (log : list Dispatch) :
  firstDispatch k u log = None <-> (forall d, In d log -> isDispatch k u d = false).
Proof.
  induction log as [| d rest IH]; cbn [firstDispatch In].
  - split; [intros _ d [] | reflexivity].
  - fold (isDispatch k u d). destruct (isDispatch k u d) eqn:E.
    + split; [discriminate | intros H; specialize (H d (or_introl eq_refl)); congruence].
    + destruct (firstDispatch k u rest) as [p |].
      * split; [discriminate |]. intros H. exfalso.
        assert (Hn : @None nat = None) by reflexivity.
        destruct IH as [_ IH]. discriminate IH. intros d' Hd'. apply H. now right.
      * split; [| reflexivity]. intros _ d' [<- | Hd']; [exact E |].
        destruct IH as [IH _]. apply IH; [reflexivity | exact Hd'].
Qed.

Lemma firstDispatch_app_some (k u p : nat) (l l' : list Dispatch) :
  firstDispatch k u l = Some p -> firstDispatch k u (l ++ l') = Some p.
Proof.
  revert p. induction l as [| d rest IH]; intros p; cbn [firstDispatch app]; [discriminate |].
  destruct ((ofCycle d =? k) && (ofUrl d =? u)); [trivial |].
  destruct (firstDispatch k u rest) as [q |]; [| discriminate].
  intros H. rewrite (IH q eq_refl). exact H.
Qed.

Lemma firstDispatch_app_none (k u : nat) (l l' : list Dispatch) :
  firstDispatch k u l = None ->
  firstDispatch k u (l ++ l') =
  match firstDispatch k u l' with
  | Some p => Some (length l + p)
  | None => None
  end.
Proof.
  induction l as [| d rest IH]; cbn [firstDispatch app length].
  - intros _. destruct (firstDispatch k u l'); reflexivity.
  - destruct ((ofCycle d =? k) && (ofUrl d =? u)); [discriminate |].
    destruct (firstDispatch k u rest) as [q |]; [discriminate |].
    intros _. rewrite (IH eq_refl). destruct (firstDispatch k u l'); reflexivity.
Qed.

(** Appending workers of a URL that already has one in the cycle moves no
    first dispatch. *)
Lemma firstDispatch_app_known (k u k' u' : nat) (l : list Dispatch) (ts : list nat) :
  (exists t, In (mkDispatch k u t) l) ->
  firstDispatch k' u' (l ++ map (mkDispatch k u) ts) = firstDispatch k' u' l.
Proof.
  intros [t Ht].
  destruct (firstDispatch k' u' l) as [p |] eqn:E.
  - apply firstDispatch_app_some. exact E.
  - rewrite firstDispatch_app_none by exact E.
    assert (Hn : firstDispatch k' u' (map (mkDispatch k u) ts) = None).
    { apply firstDispatch_none. intros d Hd. apply in_map_iff in Hd as [t' [<- _]].
      rewrite firstDispatch_none in E. exact (E _ Ht). }
    rewrite Hn. reflexivity.
Qed.

(** The workers created by one loop test: for each URL in turn, the same
    tab indices. *)
Lemma firstDispatch_block (k : nat) (ts : list nat) (a n j : nat) :
  ts <> [] ->
  firstDispatch k j (block k ts a n) =
  if (a <=? j) && (j <? a + n) then Some ((j - a) * length ts) else None.
Proof.
  intros Hts. unfold block. revert a. induction n as [| n IH]; intros a; cbn [seq flat_map].
  - destruct (a <=? j) eqn:E1; destruct (j <? a + 0) eqn:E2; try reflexivity.
    apply Nat.leb_le in E1. apply Nat.ltb_lt in E2. lia.
  - destruct (Nat.eq_dec a j) as [-> | Hne].
    + assert (H0 : firstDispatch k j (map (mkDispatch k j) ts) = Some 0).
      { destruct ts as [| t0 ts']; [congruence |]. cbn [map firstDispatch ofCycle ofUrl].
        rewrite !Nat.eqb_refl. reflexivity. }
      rewrite (firstDispatch_app_some _ _ _ _ _ H0).
      rewrite Nat.leb_refl. replace (j <? j + S n) with true
        by (symmetry; apply Nat.ltb_lt; lia).
      cbn [andb]. f_equal. lia.
    + assert (Hn : firstDispatch k j (map (mkDispatch k a) ts) = None).
      { apply firstDispatch_none. intros d Hd. apply in_map_iff in Hd as [t' [<- _]].
        unfold isDispatch. cbn [ofCycle ofUrl]. apply andb_false_iff. right.
        apply Nat.eqb_neq. exact Hne. }
      rewrite (firstDispatch_app_none _ _ _ _ Hn), IH, length_map.
      destruct (Nat.lt_ge_cases a j) as [Hlt | Hge].
      * replace (S a <=? j) with true by (symmetry; apply Nat.leb_le; lia).
        replace (a <=? j) with true by (symmetry; apply Nat.leb_le; lia).
        replace (a + S n) with (S a + n) by lia. cbn [andb].
        destruct (j <? S a + n); [| reflexivity]. f_equal. nia.
      * replace (S a <=? j) with false by (symmetry; apply Nat.leb_gt; lia).
        replace (a <=? j) with false by (symmetry; apply Nat.leb_gt; lia).
        reflexivity.
Qed.

Lemma firstDispatch_block_empty (k k' : nat) (a n j : nat) :
  firstDispatch k' j (block k [] a n) = None.
Proof.
  apply firstDispatch_none. intros d Hd. unfold block in Hd.
  apply in_flat_map in Hd as [u [_ []]].
Qed.

Lemma firstDispatch_block_other (k k' : nat) (ts : list nat) (a n j : nat) :
  k' <> k -> firstDispatch k' j (block k ts a n) = None.
Proof.
  intros Hk. apply firstDispatch_none. intros d Hd. unfold block in Hd.
  apply in_flat_map in Hd as [u [_ Hd]]. apply in_map_iff in Hd as [t [<- _]].
  unfold isDispatch. cbn [ofCycle]. apply andb_false_iff. left.
  apply Nat.eqb_neq. congruence.
Qed.

Lemma Ordered_block (k : nat) (ts : list nat) (n : nat) (log : list Dispatch) :
  Ordered log ->
  (forall d, In d log -> ofCycle d < k) ->
  Ordered (log ++ block k ts 0 n).
Proof.
  intros Hord Hfresh k' i j pj Hij Hj.
  destruct (Nat.eq_dec k' k) as [-> | Hk].
  - assert (Hnone : forall u, firstDispatch k u log = None).
    { intros u. apply firstDispatch_none. intros d Hd. specialize (Hfresh d Hd).
      apply andb_false_iff. left. apply Nat.eqb_neq. lia. }
    rewrite firstDispatch_app_none in Hj by apply Hnone.
    rewrite firstDispatch_app_none by apply Hnone.
    destruct ts as [| t0 ts'].
    + rewrite firstDispatch_block_empty in Hj. discriminate.
    + rewrite firstDispatch_block in Hj by discriminate.
      rewrite firstDispatch_block by discriminate.
      cbn [Nat.leb Nat.add andb] in *.
      destruct (j <? n) eqn:Ej; [| discriminate]. apply Nat.ltb_lt in Ej.
      replace (i <? n) with true by (symmetry; apply Nat.ltb_lt; lia).
      injection Hj as <-. eexists. split; [reflexivity |]. cbn [length]. nia.
  - assert (Hb : forall u, firstDispatch k' u (block k ts 0 n) = None)
      by (intros u; apply firstDispatch_block_other; exact Hk).
    destruct (firstDispatch k' j log) as [q |] eqn:Eq.
    + rewrite (firstDispatch_app_some _ _ _ _ _ Eq) in Hj. injection Hj as <-.
      destruct (Hord k' i j q Hij Eq) as (pi & Hpi & Hlt).
      exists pi. split; [apply firstDispatch_app_some; exact Hpi | exact Hlt].
    + rewrite firstDispatch_app_none, Hb in Hj by exact Eq. discriminate.
Qed.

Section Order.

Variable cfg : Config.

Lemma dispatchLoop_returned (continue : bool) (fuel i : nat) :
  snd (dispatchLoop cfg continue fuel i) <> Returned ->
  fst (dispatchLoop cfg continue fuel i) <> [].
Proof.
  revert i. induction fuel as [| fuel IH]; intros i; cbn [dispatchLoop];
    [cbn [fst snd]; congruence |].
  destruct (i <? numberOfTabsPerUrl cfg); [| cbn [fst snd]; congruence].
  destruct continue; [| cbn [fst snd]; congruence].
  destruct (_ || _); [discriminate |].
  destruct (dispatchLoop cfg true fuel (i + 1)). discriminate.
Qed.

Lemma startAll_spec (k u0 : nat) (targets : list string) :
  let created := fst (dispatchLoop cfg true (S (numberOfTabsPerUrl cfg)) 0) in
  let suspended := snd (dispatchLoop cfg true (S (numberOfTabsPerUrl cfg)) 0) in
  snd (startAll cfg true k u0 targets) = block k created u0 (length targets)
  /\ Forall (fun tb => phase tb = suspended) (fst (startAll cfg true k u0 targets)).
Proof.
  cbn zeta. revert u0. induction targets as [| target rest IH]; intros u0;
    cbn [startAll length].
  - split; [reflexivity | constructor].
  - unfold startTabs, resumeTabs.
    destruct (IH (S u0)) as [Hs Hf].
    destruct (dispatchLoop cfg true (S (numberOfTabsPerUrl cfg)) 0) as [created suspended].
    destruct (startAll cfg true k (S u0) rest) as [others later].
    cbn [fst snd] in *. split.
    + unfold block in *. cbn [seq flat_map]. rewrite Hs. reflexivity.
    + constructor; [reflexivity | exact Hf].
Qed.

Lemma In_block (k : nat) (ts : list nat) (a n u t : nat) :
  a <= u < a + n -> In t ts -> In (mkDispatch k u t) (block k ts a n).
Proof.
  intros Hu Ht. unfold block. apply in_flat_map. exists u.
  split; [apply in_seq; lia | apply in_map; exact Ht].
Qed.

Lemma block_cycle (k : nat) (ts : list nat) (a n : nat) (d : Dispatch) :
  In d (block k ts a n) -> ofCycle d = k.
Proof.
  unfold block. intros H. apply in_flat_map in H as [u [_ H]].
  apply in_map_iff in H as [t [<- _]]. reflexivity.
Qed.

Lemma nth_error_replace {X : Type} (l : list X) (u v : nat) (y x : X) :
  nth_error (Pool.replace u y l) v = Some x ->
  (v = u /\ x = y) \/ (v <> u /\ nth_error l v = Some x).
Proof.
  revert u v. induction l as [| z rest IH]; intros u v H.
  - destruct u; destruct v; discriminate.
  - destruct u as [| u']; destruct v as [| v']; cbn [Pool.replace nth_error] in *.
    + left. split; [reflexivity | congruence].
    + right. split; [discriminate | exact H].
    + right. split; [discriminate | exact H].
    + destruct (IH u' v' H) as [[-> ->] | [Hne Hn]]; [left; now split | right].
      split; [congruence | exact Hn].
Qed.

(** Keeps the invariant when the dispatch log, the cycle and the control
    are untouched and one activation is replaced by one that is suspended
    only if the old one was. *)
Lemma OrderInv_set_tabs (s : State) (u : nat) (old new : Tabs) :
  OrderInv s -> nth_error (tabs s) u = Some old ->
  (phase new <> Returned -> phase old <> Returned) ->
  OrderInv (set_tabs u new s).
Proof.
  intros (Hord & Hle & Hidle & Hpres & Hlen) Hu Hph.
  unfold set_tabs. parts; cbn [dispatched cycleCount control tabs
                                 clickReportData globalClickCounter];
    try assumption.
  - intros Hc. destruct (Hidle Hc) as [Ht _]. rewrite Ht in Hu. destruct u; discriminate.
  - intros v tb Hv Hp. apply nth_error_replace in Hv as [[-> ->] | [_ Hv]].
    + apply (Hpres u old Hu). apply Hph. exact Hp.
    + apply (Hpres v tb Hv Hp).
Qed.

Lemma step_OrderInv (event : Event) (s s' : State) :
  OrderInv s -> step cfg event s = Some s' -> OrderInv s'.
Proof.
  intros HI Hstep. pose proof HI as (Hord & Hle & Hidle & Hpres & Hlen).
  destruct event as [| u t | u t | u t | u | u |]; cbn [step] in Hstep.
  - (* LoopTest *)
    assert (Hc : control s = NotStarted \/ control s = BetweenCycles).
    { destruct (control s); try discriminate; auto. }
    assert (Hgo : (if shouldContinue cfg s
                   then let (started, created) :=
                          startAll cfg true (cycleCount s) 0 (urls cfg) in
                        Some (mkState (globalClickCounter s) (clickReportData s)
                                (dispatched s ++ created) started InCycle (cycleCount s))
                   else Some (mkState (globalClickCounter s) (clickReportData s)
                                (dispatched s) (tabs s) Finished (cycleCount s)))
                  = Some s').
    { destruct (control s); try discriminate; exact Hstep. }
    clear Hstep. destruct (Hidle Hc) as [Htabs Hfresh].
    destruct (shouldContinue cfg s).
    + destruct (startAll_spec (cycleCount s) 0 (urls cfg)) as [Hs Hf].
      pose proof (dispatchLoop_returned true (S (numberOfTabsPerUrl cfg)) 0) as Hne.
      destruct (dispatchLoop cfg true (S (numberOfTabsPerUrl cfg)) 0)
        as [created suspended].
      destruct (startAll cfg true (cycleCount s) 0 (urls cfg)) as [started log'] eqn:Est.
      cbn [fst snd] in *. subst log'. injection Hgo as <-.
      parts; cbn [dispatched cycleCount control tabs
                    clickReportData globalClickCounter].
      * apply Ordered_block; assumption.
      * intros d Hd. apply in_app_or in Hd as [Hd | Hd]; [apply Hle; exact Hd |].
        rewrite (block_cycle _ _ _ _ _ Hd). lia.
      * intros [H | H]; discriminate.
      * intros u tb Hu Hp.
        pose proof (nth_error_In _ _ Hu) as Hin.
        rewrite Forall_forall in Hf. rewrite (Hf tb Hin) in Hp.
        specialize (Hne Hp).
        destruct created as [| t0 rest]; [congruence |].
        exists t0. apply in_or_app. right. apply In_block; [| now left].
        assert (Hlt : u < length started) by (apply nth_error_Some; congruence).
        assert (Hl : length started = length (urls cfg)).
        { pose proof (f_equal fst Est) as E. cbn [fst] in E. rewrite <- E.
          clear. generalize 0 as u0. induction (urls cfg) as [| x r IH]; intros u0;
            cbn [startAll]; [reflexivity |].
          destruct (startTabs cfg true (cycleCount s) u0).
          specialize (IH (S u0)). destruct (startAll cfg true (cycleCount s) (S u0) r).
          cbn [fst length] in *. f_equal. exact IH. }
        lia.
      * exact Hlen.
    + injection Hgo as <-.
      parts; cbn [dispatched cycleCount control tabs
                    clickReportData globalClickCounter]; try assumption.
      intros [H | H]; discriminate.
  - (* WorkerRecords *)
    destruct (nth_error (tabs s) u) as [tb |] eqn:Hu; [| discriminate].
    destruct (hasWorker t Running (workers tb)); [| discriminate].
    injection Hstep as <-.
    pose proof (OrderInv_set_tabs s u tb (mkTabs (phase tb) (recordWorker t (workers tb)))
                  HI Hu (fun H => H)) as (H1 & H2 & H3 & H4 & H5).
    unfold set_tabs in *.
    cbn [dispatched cycleCount control tabs clickReportData globalClickCounter] in *.
    parts; cbn [dispatched cycleCount control tabs
                  clickReportData globalClickCounter]; try assumption.
    rewrite length_app. cbn [length]. lia.
  - (* WorkerFails *)
    destruct (nth_error (tabs s) u) as [tb |] eqn:Hu; [| discriminate].
    destruct (hasWorker t Running (workers tb)); [| discriminate].
    injection Hstep as <-. apply (OrderInv_set_tabs s u tb); [exact HI | exact Hu | trivial].
  - (* WorkerSettles *)
    destruct (nth_error (tabs s) u) as [tb |] eqn:Hu; [| discriminate].
    destruct (hasWorker t Recorded (workers tb)); [| discriminate].
    injection Hstep as <-. apply (OrderInv_set_tabs s u tb); [exact HI | exact Hu | trivial].
  - (* BatchSettled *)
    destruct (nth_error (tabs s) u) as [[ph ws] |] eqn:Hu; [| discriminate].
    destruct ph as [i | i |]; try discriminate.
    destruct ws as [| w0 ws]; [| discriminate].
    injection Hstep as <-. apply (OrderInv_set_tabs s u _ _ HI Hu).
    intros _. discriminate.
  - (* PauseOver *)
    destruct (nth_error (tabs s) u) as [[ph ws] |] eqn:Hu; [| discriminate].
    destruct ph as [i | i |]; try discriminate.
    unfold resumeTabs in Hstep.
    destruct (dispatchLoop cfg (shouldContinue cfg s) (S (numberOfTabsPerUrl cfg)) (i + 1))
      as [created suspended].
    injection Hstep as <-.
    assert (Hknown : exists t, In (mkDispatch (cycleCount s) u t) (dispatched s)).
    { apply (Hpres u _ Hu). discriminate. }
    assert (Hc : ~ (control s = NotStarted \/ control s = BetweenCycles)).
    { intros Hc. destruct (Hidle Hc) as [Ht _]. rewrite Ht in Hu. destruct u; discriminate. }
    parts; cbn [dispatched cycleCount control tabs
                  clickReportData globalClickCounter].
    + intros k i0 j pj Hij Hj.
      rewrite firstDispatch_app_known in Hj by exact Hknown.
      destruct (Hord k i0 j pj Hij Hj) as (pi & Hpi & Hlt).
      exists pi. split; [| exact Hlt].
      rewrite firstDispatch_app_known by exact Hknown. exact Hpi.
    + intros d Hd. apply in_app_or in Hd as [Hd | Hd]; [apply Hle; exact Hd |].
      apply in_map_iff in Hd as [t [<- _]]. cbn [ofCycle]. lia.
    + intros H. exfalso. exact (Hc H).
    + intros v tb Hv Hp. destruct Hknown as [t0 Ht0].
      apply nth_error_replace in Hv as [[-> ->] | [_ Hv]].
      * exists t0. apply in_or_app. left. exact Ht0.
      * destruct (Hpres v tb Hv Hp) as [t1 Ht1]. exists t1. apply in_or_app. left. exact Ht1.
    + exact Hlen.
  - (* CycleSettled *)
    destruct (control s) eqn:Ec; try discriminate.
    destruct (allReturned (tabs s)); [| discriminate].
    destruct (shouldContinue cfg s); injection Hstep as <-.
    + parts; cbn [dispatched cycleCount control tabs
                    clickReportData globalClickCounter]; try assumption.
      * intros d Hd. specialize (Hle d Hd). lia.
      * intros _. split; [reflexivity |]. intros d Hd. specialize (Hle d Hd). lia.
      * intros u tb Hu. destruct u; discriminate.
    + parts; cbn [dispatched cycleCount control tabs
                    clickReportData globalClickCounter]; try assumption.
      intros [H | H]; discriminate.
Qed.

End Order.

Section Reach.

Variable cfg : Config.

Lemma runEvents_invariant (P : State -> Prop) :
  (forall event s s', P s -> step cfg event s = Some s' -> P s') ->
  forall events s s', P s -> runEvents cfg events s = Some s' -> P s'.
Proof.
  intros Hstep events. induction events as [| event rest IH]; intros s s' Hs Hrun;
    cbn [runEvents] in Hrun.
  - injection Hrun as <-. exact Hs.
  - destruct (step cfg event s) as [s1 |] eqn:E; [| discriminate].
    apply (IH s1 s'); [apply (Hstep event s s1 Hs E) | exact Hrun].
Qed.

Lemma BudgetInv_initial :
  1 <= concurrentTabsPerUrl cfg -> 1 <= length (urls cfg) -> BudgetInv cfg initialState.
Proof.
  intros HC HU. unfold BudgetInv, initialState, running.
  cbn [tabs globalClickCounter control length map list_sum fold_right].
  split; [lia |]. split; [constructor |]. split; [nia | discriminate].
Qed.

Lemma runEvents_BudgetInv (events : list Event) (s : State) :
  1 <= concurrentTabsPerUrl cfg -> 1 <= length (urls cfg) ->
  runEvents cfg events initialState = Some s -> BudgetInv cfg s.
Proof.
  intros HC HU. apply runEvents_invariant.
  - intros event s0 s1. apply step_BudgetInv; assumption.
  - apply BudgetInv_initial; assumption.
Qed.

Lemma OrderInv_initial : OrderInv initialState.
Proof.
  unfold OrderInv, initialState.
  cbn [dispatched cycleCount control tabs clickReportData globalClickCounter].
  parts.
  - intros k i j pj _ H. discriminate.
  - intros d [].
  - intros _. split; [reflexivity | intros d []].
  - intros u tb H. destruct u; discriminate.
  - reflexivity.
Qed.

Lemma runEvents_OrderInv (events : list Event) (s : State) :
  runEvents cfg events initialState = Some s -> OrderInv s.
Proof.
  apply runEvents_invariant.
  - intros event s0 s1. apply step_OrderInv.
  - apply OrderInv_initial.
Qed.

(** With the budget met, no event creates a worker, and the count does
    not go down. *)
Lemma step_budget_met (event : Event) (s s' : State) :
  MAX_CLICKS cfg <= globalClickCounter s -> step cfg event s = Some s' ->
  dispatched s' = dispatched s /\ MAX_CLICKS cfg <= globalClickCounter s'.
Proof.
  intros HM Hstep.
  assert (Hstop : shouldContinue cfg s = false).
  { unfold shouldContinue. apply Nat.ltb_ge. exact HM. }
  destruct event as [| u t | u t | u t | u | u |]; cbn [step] in Hstep.
  - rewrite Hstop in Hstep.
    destruct (control s); try discriminate; injection Hstep as <-;
      cbn [dispatched globalClickCounter]; (split; [reflexivity | exact HM]).
  - destruct (nth_error (tabs s) u) as [tb |]; [| discriminate].
    destruct (hasWorker t Running (workers tb)); [| discriminate].
    injection Hstep as <-. cbn [dispatched globalClickCounter]. split; [reflexivity | lia].
  - destruct (nth_error (tabs s) u) as [tb |]; [| discriminate].
    destruct (hasWorker t Running (workers tb)); [| discriminate].
    injection Hstep as <-. unfold set_tabs. cbn [dispatched globalClickCounter].
    split; [reflexivity | exact HM].
  - destruct (nth_error (tabs s) u) as [tb |]; [| discriminate].
    destruct (hasWorker t Recorded (workers tb)); [| discriminate].
    injection Hstep as <-. unfold set_tabs. cbn [dispatched globalClickCounter].
    split; [reflexivity | exact HM].
  - destruct (nth_error (tabs s) u) as [[ph ws] |]; [| discriminate].
    destruct ph as [i | i |]; try discriminate.
    destruct ws as [| w0 ws]; [| discriminate].
    injection Hstep as <-. unfold set_tabs. cbn [dispatched globalClickCounter].
    split; [reflexivity | exact HM].
  - destruct (nth_error (tabs s) u) as [[ph ws] |]; [| discriminate].
    destruct ph as [i | i |]; try discriminate.
    rewrite Hstop in Hstep. unfold resumeTabs in Hstep.
    rewrite (surjective_pairing (dispatchLoop cfg false (S (numberOfTabsPerUrl cfg)) (i + 1)))
      in Hstep.
    rewrite dispatchLoop_stopped in Hstep. cbn [fst snd map] in Hstep.
    injection Hstep as <-. cbn [dispatched globalClickCounter].
    rewrite app_nil_r. split; [reflexivity | exact HM].
  - rewrite Hstop in Hstep.
    destruct (control s); try discriminate.
    destruct (allReturned (tabs s)); [| discriminate].
    injection Hstep as <-. cbn [dispatched globalClickCounter].
    split; [reflexivity | exact HM].
Qed.

Lemma runEvents_budget_met (events : list Event) (s s' : State) :
  MAX_CLICKS cfg <= globalClickCounter s -> runEvents cfg events s = Some s' ->
  dispatched s' = dispatched s /\ MAX_CLICKS cfg <= globalClickCounter s'.
Proof.
  revert s. induction events as [| event rest IH]; intros s HM Hrun; cbn [runEvents] in Hrun.
  - injection Hrun as <-. split; [reflexivity | exact HM].
  - destruct (step cfg event s) as [s1 |] eqn:E; [| discriminate].
    destruct (step_budget_met event s s1 HM E) as [Hd HM1].
    destruct (IH s1 HM1 Hrun) as [Hd' HM']. split; [congruence | exact HM'].
Qed.

Lemma runEvents_app (before after : list Event) (s : State) :
  runEvents cfg (before ++ after) s
  = match runEvents cfg before s with
    | Some s1 => runEvents cfg after s1
    | None => None
    end.
Proof.
  revert s. induction before as [| event rest IH]; intros s; cbn [app runEvents];
    [reflexivity |].
  destruct (step cfg event s); [apply IH | reflexivity].
Qed.

End Reach.

End CampaignFacts.
(** ** Draws, rounding and strings: facts shared by the generators *)

Module DrawFacts.
Import Random Profile ProfileFacts Engine.

(** [Math.floor(r * n)] for a draw [r] and an integer [n > 0]. *)
Lemma floor_scaled_Z (r : Q) (n : Z) :
  (0 <= r)%Q -> (r < 1)%Q -> (0 < n)%Z ->
  (0 <= Math_floor (r * inject_Z n) < n)%Z.
Proof.
  intros H0 H1 Hn.
  pose proof (floor_scaled_range r (Z.to_nat n) H0 H1 ltac:(lia)) as H.
  rewrite Z2Nat.id in H by lia. exact H.
Qed.

Lemma floor_between (x : Q) (lo hi : Z) :
  (inject_Z lo <= x)%Q -> (x < inject_Z hi)%Q -> (lo <= Qfloor x < hi)%Z.
Proof.
  intros Hlo Hhi. split.
  - apply Qfloor_resp_le in Hlo. rewrite Qfloor_Z in Hlo. exact Hlo.
  - apply Z.lt_nge. intros Hge.
    apply (Qlt_irrefl x). apply Qlt_le_trans with (inject_Z hi); [exact Hhi |].
    apply Qle_trans with (inject_Z (Qfloor x)); [| apply Qfloor_le].
    rewrite <- Zle_Qle. exact Hge.
Qed.

Lemma fair_half : fair (constant (1 # 2)).
Proof. intros n. split; [discriminate | reflexivity]. Qed.

Lemma fair_zero : fair (constant 0).
Proof. intros n. split; [apply Qle_refl | reflexivity]. Qed.

Lemma Qle_bool_false (x y : Q) : Qle_bool x y = false -> (y < x)%Q.
Proof.
  intros H. apply Qnot_le_lt. intros Hle. apply Qle_bool_iff in Hle. congruence.
Qed.

Lemma Qle_bool_true (x y : Q) : (x <= y)%Q -> Qle_bool x y = true.
Proof. intros H. apply Qle_bool_iff. exact H. Qed.

Lemma Qle_bool_lt (x y : Q) : (y < x)%Q -> Qle_bool x y = false.
Proof.
  intros H. destruct (Qle_bool x y) eqn:E; [| reflexivity].
  apply Qle_bool_iff in E. exfalso. apply (Qlt_irrefl y).
  apply Qlt_le_trans with x; assumption.
Qed.

Lemma inject_Z_shift (z k : Z) : (inject_Z (z + k) == inject_Z z + inject_Z k)%Q.
Proof. rewrite inject_Z_plus. apply Qeq_refl. Qed.

Lemma In_includes (l : list string) (s : string) : In s l -> includes l s = true.
Proof.
  unfold includes. intros H. apply existsb_exists. exists s.
  split; [exact H | apply String.eqb_refl].
Qed.

Lemma includes_iff (l : list string) (s : string) : includes l s = true <-> In s l.
Proof. split; [apply includes_In | apply In_includes]. Qed.

Lemma length_substring (n m : nat) (s : string) :
  (String.length (substring n m s) <= m)%nat.
Proof.
  revert n m. induction s as [| c s IH]; intros n m.
  - destruct n, m; cbn; lia.
  - destruct n as [| n]; [destruct m as [| m]; cbn; [lia |] |].
    + specialize (IH 0%nat m). lia.
    + cbn. apply IH.
Qed.

Lemma toLowerCase_app (s t : string) :
  toLowerCase (s ++ t) = toLowerCase s ++ toLowerCase t.
Proof. induction s as [| c s IH]; cbn; [reflexivity | rewrite IH; reflexivity]. Qed.

Lemma length_append (s t : string) :
  String.length (s ++ t) = (String.length s + String.length t)%nat.
Proof. induction s as [| c s IH]; cbn; [reflexivity | rewrite IH; reflexivity]. Qed.

End DrawFacts.
(** ** Session worker: records, handles, telemetry errors, click strategy *)

Module SessionClaims.
Import Async Engine AsyncFacts EngineFacts WorkerFacts Strategy StrategyFacts.
Local Open Scope nat_scope.
Local Open Scope list_scope.

(** C1 as stated does not hold: a worker whose browser launch crashes
    appends no record at all. *)
Lemma launch_crash_appends_no_record : ~ ExactlyOneRecord Automated.createClickWorker.
Proof.
  intros H. specialize (H crashEnv exampleTarget 0 initialWorld).
  vm_compute in H. discriminate.
Qed.

(** C1, amended. Every invocation of a session worker, in either script,
    ends without an exception reaching its caller and appends at most one
    record: exactly one, numbered with the incremented counter, when
    launch, page creation, navigation and the title and URL queries
    resolve (whatever the interaction does), and none otherwise. *)
Theorem worker_appends_at_most_one_record
  (MAX_CLICKS : nat) (env : Env) (target : string) (index : nat) (w : World) :
  let click := run (Automated.createClickWorker env target index) w in
  let tab := run (Bounded.createTabWorker MAX_CLICKS env target index) w in
  fst click = Ok tt
  /\ fst tab = Ok tt
  /\ (if reaches env
      then (exists r, clickReportData (snd click) = clickReportData w ++ [r]
                      /\ clickNumber r = globalClickCounter w + 1
                      /\ url (clickData r) = target)
           /\ (exists r, clickReportData (snd tab) = clickReportData w ++ [r]
                         /\ clickNumber r = globalClickCounter w + 1
                         /\ url (clickData r) = target)
      else clickReportData (snd click) = clickReportData w
           /\ clickReportData (snd tab) = clickReportData w).
Proof.
  cbn zeta.
  destruct (createClickWorker_spec env target index w) as (w1 & H1 & _ & R1 & _).
  destruct (createTabWorker_spec MAX_CLICKS env target index w) as (w2 & H2 & _ & R2 & _).
  rewrite H1, H2. cbn [fst snd].
  split; [reflexivity |]. split; [reflexivity |].
  destruct (reaches env); split; assumption.
Qed.

(** C9. On every exit path of a session worker, in either script, close()
    has been called on the page handle and then on the browser handle
    that the session acquired, before the worker returns; a handle whose
    close() resolves is released. *)
Theorem handles_closed_on_every_exit
  (MAX_CLICKS : nat) (env : Env) (target : string) (index : nat) (w : World) :
  let click := snd (run (Automated.createClickWorker env target index) w) in
  let tab := snd (run (Bounded.createTabWorker MAX_CLICKS env target index) w) in
  (acquired click = acquired w ++ newHandles env w
   /\ closeCalls click = closeCalls w ++ rev (newHandles env w)
   /\ released click = released w ++ filter (closeOk env) (rev (newHandles env w)))
  /\ (acquired tab = acquired w ++ newHandles env w
      /\ closeCalls tab = closeCalls w ++ rev (newHandles env w)
      /\ released tab = released w ++ filter (closeOk env) (rev (newHandles env w)))
  /\ (forall h, In h (newHandles env w) -> In h (closeCalls click) /\ In h (closeCalls tab)).
Proof.
  cbn zeta.
  destruct (createClickWorker_spec env target index w)
    as (w1 & H1 & _ & _ & _ & A1 & C1 & L1).
  destruct (createTabWorker_spec MAX_CLICKS env target index w)
    as (w2 & H2 & _ & _ & _ & A2 & C2 & L2).
  rewrite H1, H2. cbn [snd].
  split; [repeat split; assumption |]. split; [repeat split; assumption |].
  intros h Hh. rewrite C1, C2.
  split; apply in_or_app; right; apply in_rev; rewrite rev_involutive; exact Hh.
Qed.

(** C7, on the code: when the write of the periodic report fails at the
    25th click, [incrementClickCounter] rejects; the worker has counted and
    recorded the click, but skips [completedClicks++] and the pacing delay
    and logs the click as failed.  A failing append to [data.csv], by
    contrast, is only logged. *)
Theorem report_write_failure_escapes_the_recorder :
  let report := run (Automated.createClickWorker reportFailureEnv exampleTarget 0) after24 in
  let append := run (Automated.createClickWorker appendFailureEnv exampleTarget 0) after24 in
  fst (run (Automated.incrementClickCounter reportFailureEnv exampleData) after24)
  = Throw TelemetryWriteError
  /\ fst report = Ok tt
  /\ globalClickCounter (snd report) = 25
  /\ length (clickReportData (snd report)) = 1
  /\ completed (snd report) = 0
  /\ In (LOG_ERROR_failed 1 TelemetryWriteError) (console (snd report))
  /\ fst append = Ok tt
  /\ globalClickCounter (snd append) = 25
  /\ length (clickReportData (snd append)) = 1
  /\ completed (snd append) = 1
  /\ In (LOG_CSV_ERROR_update TelemetryWriteError) (console (snd append))
  /\ (clock (snd append) = clock (snd report) + randomDelay appendFailureEnv)%N.
Proof.
  vm_compute. repeat split; try reflexivity; tauto.
Qed.

(** C8 as stated does not hold: on a page with an element carrying a send
    handler and a button of unrelated text, the stated order settles on
    the element with the handler, the script on the button. *)
Lemma stated_order_not_followed :
  ~ SelectsBy statedOrder attemptResolves Automated.findAndClick.
Proof.
  intros H. destruct (H exampleEnv initialWorld) as [_ Hc].
  vm_compute in Hc. discriminate.
Qed.

(** C8, amended. Each script walks down its own ordered list of candidate
    elements and clicks the first one on which its attempt goes through,
    and no other.  For [automated.js] the candidates are, for each entry
    of [submitSelectors] in turn, every element of a CSS entry and, of a
    text entry, only the first button whose text contains the keyword
    (none if a button's text cannot be read first); then the elements of
    the fallback selectors up to the first query that rejects; then the
    first three clickable elements.  For the bounded script they are the
    first element of each CSS entry, the first matching button of each
    text entry, then the first clickable element.  A query that rejects
    contributes no candidate.  The interaction never ends with an
    exception; when the page body is found it clicks exactly that
    element, and when there is none it ends with the warning and the
    fallback delay. *)
Theorem interaction_follows_script_order :
  SelectsBy automatedOrder attemptResolves Automated.findAndClick
  /\ SelectsBy boundedOrder clickResolves Bounded.findAndClick
  /\ forall env w,
       let automated := run (Automated.interact env) w in
       let bounded := run (Bounded.interact env) w in
       fst automated = Ok tt
       /\ fst bounded = Ok tt
       /\ (bodyOk env = true ->
           clicked (snd automated)
           = clicked w ++ toList (find attemptResolves (automatedOrder env))
           /\ clicked (snd bounded)
              = clicked w ++ toList (find clickResolves (boundedOrder env))
           /\ (find attemptResolves (automatedOrder env) = None ->
               SoftFailure 25000 w (snd automated))
           /\ (find clickResolves (boundedOrder env) = None ->
               SoftFailure 15000 w (snd bounded))).
Proof.
  split; [exact findAndClick_selects |].
  split; [exact bounded_findAndClick_selects |].
  intros env w. cbn zeta.
  destruct (NoThrow_interact env w) as [[] Ha].
  destruct (NoThrow_bounded_interact env w) as [[] Hb].
  split; [exact Ha |]. split; [exact Hb |].
  intros Hbody.
  destruct (interact_clicked env w Hbody) as [A1 A2].
  destruct (bounded_interact_clicked env w Hbody) as [B1 B2].
  split; [exact A1 | split; [exact B1 | split; [exact A2 | exact B2]]].
Qed.

(** On a page whose first button reads "Send now" and rejects its click,
    followed by a button "Foo" and a button "Send": [automated.js] gives
    up the text entries and clicks "Foo" as the second element of the
    [button] entry; the bounded script, which tries only the first
    element of an entry, clicks nothing. *)
Lemma interaction_follows_script_order_witness :
  clicked (snd (run (Automated.findAndClick stubbornEnv) initialWorld)) = [plainButton]
  /\ clicked (snd (run (Automated.findAndClick exampleEnv) initialWorld)) = [plainButton]
  /\ fst (run (Bounded.findAndClick stubbornEnv) initialWorld) = Ok false
  /\ SoftFailure 15000 initialWorld (snd (run (Bounded.interact stubbornEnv) initialWorld)).
Proof.
  destruct interaction_follows_script_order as (Ha & Hb & Hi).
  destruct (Ha stubbornEnv initialWorld) as [_ A1].
  destruct (Ha exampleEnv initialWorld) as [_ A2].
  destruct (Hb stubbornEnv initialWorld) as [B1 _].
  destruct (Hi stubbornEnv initialWorld) as (_ & _ & Hbody).
  destruct (Hbody eq_refl) as (_ & _ & _ & Hsoft).
  split; [rewrite A1; reflexivity |].
  split; [rewrite A2; reflexivity |].
  split; [rewrite B1; reflexivity |].
  apply Hsoft. reflexivity.
Defined.

End SessionClaims.

(** ** Concurrent completions against the counter *)

Module CounterClaims.
Import Async Engine Pool PoolFacts.
Local Open Scope nat_scope.
Local Open Scope list_scope.

Lemma map_pred_seq (n : nat) : map pred (seq 1 n) = seq 0 n.
Proof.
  rewrite <- seq_shift, map_map. cbn [pred]. apply map_id.
Qed.

(** C2. When the workers of [jobs] complete concurrently, their turns
    interleaved in any order at the suspension points, each completion
    increments the counter and numbers its record in one turn: once all
    have settled the counter equals the number of workers, the records
    carry the numbers 1 to N without duplicate or gap, and no two
    completions have read the same counter value before incrementing. *)
Theorem concurrent_completions_number_consecutively
  (script : Script) (jobs : list Job) (schedule : list nat)
  (w : World) (pool : list (Co World bool)) :
  runSchedule schedule (completions script jobs) initialWorld = Some (w, pool) ->
  allSettled pool = true ->
  globalClickCounter w = length jobs
  /\ clickNumbers w = seq 1 (length jobs)
  /\ NoDup (clickNumbers w)
  /\ NoDup (countersRead w)
  /\ Forall (fun job => Recording (completion script job)) jobs.
Proof.
  intros Hrun Hs.
  destruct (completions_numbered script jobs schedule w pool Hrun) as (Hn & _ & Hc).
  specialize (Hc Hs). rewrite Hc in Hn.
  split; [exact Hc |]. split; [exact Hn |].
  split; [rewrite Hn; apply seq_NoDup |].
  split; [unfold countersRead; rewrite Hn, map_pred_seq; apply seq_NoDup |].
  apply Forall_forall. intros job _. apply Recording_completion.
Qed.

Lemma concurrent_completions_number_consecutively_witness :
  exists w pool,
    runSchedule alternating (completions AutomatedScript threeJobs) initialWorld
    = Some (w, pool)
    /\ allSettled pool = true
    /\ globalClickCounter w = 3
    /\ clickNumbers w = [1; 2; 3].
Proof.
  destruct (runSchedule alternating (completions AutomatedScript threeJobs) initialWorld)
    as [[w pool] |] eqn:E; [| vm_compute in E; discriminate].
  assert (Hs : allSettled pool = true).
  { vm_compute in E. injection E as <- <-. reflexivity. }
  exists w, pool. split; [reflexivity |]. split; [exact Hs |].
  destruct (concurrent_completions_number_consecutively
              AutomatedScript threeJobs alternating w pool E Hs) as (H1 & H2 & _).
  split; [exact H1 | exact H2].
Defined.

End CounterClaims.

(** ** Budget and dispatch order of the bounded campaign *)

Module CampaignClaims.
Import Campaign CampaignFacts.
Local Open Scope nat_scope.
Local Open Scope list_scope.

(** X1. With the script's own constants (five URLs, one tab at a time per
    URL, a budget of 100) a campaign can finish at 104 clicks. *)
Lemma script_constants_overshoot :
  exists s,
    runEvents scriptConfig scriptOvershoot initialState = Some s
    /\ control s = Finished
    /\ globalClickCounter s = 104
    /\ length (clickReportData s) = 104.
Proof.
  destruct (runEvents scriptConfig scriptOvershoot initialState) as [s |] eqn:E;
    [| vm_compute in E; discriminate].
  exists s. split; [reflexivity |].
  vm_compute in E. injection E as <-. repeat split.
Qed.

(** C3, as stated, fails: with two URLs, one tab at a time per URL and a
    budget of one click, both workers of the first round count and the
    campaign finishes at 2 clicks, above [M + C - 1 = 1]. *)
Lemma two_urls_exceed_the_stated_interval : ~ StatedBound twoUrls.
Proof.
  intros H.
  destruct (runEvents twoUrls overshoot initialState) as [s |] eqn:E;
    [| vm_compute in E; discriminate].
  specialize (H overshoot s E).
  vm_compute in E. injection E as <-.
  destruct (H eq_refl) as [_ Hup]. vm_compute in Hup. lia.
Qed.

(** C3, amended.  In the bounded campaign with budget [M], [U] URLs and
    [C >= 1] tabs at a time per URL, the count never exceeds
    [M + U * C - 1]; a finished campaign has met the budget; and once the
    count has reached [M] no later event creates a worker. *)
Theorem count_stays_within_budget_plus_one_batch_per_url
  (cfg : Config) (events : list Event) (s : State) :
  1 <= concurrentTabsPerUrl cfg ->
  urls cfg <> [] ->
  runEvents cfg events initialState = Some s ->
  globalClickCounter s
  <= MAX_CLICKS cfg + length (urls cfg) * concurrentTabsPerUrl cfg - 1
  /\ (control s = Finished -> MAX_CLICKS cfg <= globalClickCounter s)
  /\ (MAX_CLICKS cfg <= globalClickCounter s ->
      forall later s',
        runEvents cfg later s = Some s' -> dispatched s' = dispatched s).
Proof.
  intros HC Hurls Hrun.
  assert (HU : 1 <= length (urls cfg)).
  { destruct (urls cfg); [congruence | cbn [length]; lia]. }
  destruct (runEvents_BudgetInv cfg events s HC HU Hrun) as (_ & _ & Hbound & Hfin).
  split; [| split].
  - destruct (Nat.le_gt_cases (MAX_CLICKS cfg) (globalClickCounter s)) as [Hm | Hm].
    + specialize (Hbound Hm). lia.
    + assert (1 <= length (urls cfg) * concurrentTabsPerUrl cfg) by nia. lia.
  - exact Hfin.
  - intros Hm later s' Hlater.
    apply (runEvents_budget_met cfg later s s' Hm Hlater).
Qed.

Lemma count_stays_within_budget_plus_one_batch_per_url_witness :
  exists s s',
    runEvents twoUrls [LoopTest; WorkerRecords 0 0] initialState = Some s
    /\ runEvents twoUrls (skipn 2 overshoot) s = Some s'
    /\ globalClickCounter s = 1
    /\ globalClickCounter s' = 2
    /\ control s' = Finished
    /\ dispatched s' = dispatched s
    /\ globalClickCounter s' <= 1 + 2 * 1 - 1.
Proof.
  destruct (runEvents twoUrls [LoopTest; WorkerRecords 0 0] initialState)
    as [s |] eqn:E; [| vm_compute in E; discriminate].
  destruct (runEvents twoUrls (skipn 2 overshoot) s) as [s' |] eqn:E';
    [| vm_compute in E; injection E as <-; vm_compute in E'; discriminate].
  assert (Hall : runEvents twoUrls overshoot initialState = Some s').
  { change overshoot with ([LoopTest; WorkerRecords 0 0] ++ skipn 2 overshoot).
    rewrite runEvents_app, E. exact E'. }
  assert (HC : 1 <= concurrentTabsPerUrl twoUrls) by (cbn; lia).
  assert (Hurls : urls twoUrls <> []) by discriminate.
  destruct (count_stays_within_budget_plus_one_batch_per_url
              twoUrls [LoopTest; WorkerRecords 0 0] s HC Hurls E) as (_ & _ & Hkeep).
  destruct (count_stays_within_budget_plus_one_batch_per_url
              twoUrls overshoot s' HC Hurls Hall) as (Hup & _ & _).
  assert (Hs : globalClickCounter s = 1).
  { vm_compute in E. injection E as <-. reflexivity. }
  assert (Hs' : globalClickCounter s' = 2 /\ control s' = Finished).
  { vm_compute in Hall. injection Hall as <-. split; reflexivity. }
  exists s, s'. split; [reflexivity |]. split; [exact E' |].
  split; [exact Hs |]. split; [apply Hs' |]. split; [apply Hs' |].
  split; [| exact Hup].
  apply (Hkeep ltac:(rewrite Hs; cbn; lia) (skipn 2 overshoot) s' E').
Defined.

(** C4, as stated, fails in its scenario: with three URLs, one tab at a
    time per URL and a budget of two clicks, the first round creates a
    worker for every URL; all three count, the one of the last URL first. *)
Lemma three_urls_leave_three_records : ~ StatedScenario threeUrls.
Proof.
  intros H.
  destruct (runEvents threeUrls lastFirst initialState) as [s |] eqn:E;
    [| vm_compute in E; discriminate].
  specialize (H lastFirst s E).
  vm_compute in E. injection E as <-.
  specialize (H eq_refl). vm_compute in H. discriminate.
Qed.

(** The scenario fails for every number of tabs per URL, from one on. *)
Lemma three_records_whatever_the_tab_count (tabsPerUrl : nat) :
  1 <= tabsPerUrl ->
  ~ StatedScenario (mkConfig ["url0"; "url1"; "url2"] tabsPerUrl 1 2).
Proof.
  intros Hpos H. destruct tabsPerUrl as [| k]; [lia |].
  destruct (runEvents (mkConfig ["url0"; "url1"; "url2"] (S k) 1 2) lastFirst initialState)
    as [s |] eqn:E; [| vm_compute in E; discriminate].
  specialize (H lastFirst s E).
  vm_compute in E. injection E as <-.
  specialize (H eq_refl). vm_compute in H. discriminate.
Qed.

(** C4, amended.  In every cycle of the bounded campaign the first worker
    for a URL is created after the first worker of each URL before it in
    the list.  Every click counted has left one record, in the order in
    which the workers counted; a finished campaign with [U] URLs and
    [C >= 1] tabs at a time per URL holds between [M] and [M + U * C - 1]
    of them.  In [automated.js] a pass over the URL list runs the sessions
    one after the other: the navigations and the records it adds follow
    the list. *)
Theorem first_dispatches_follow_the_url_list
  (cfg : Config) (events : list Event) (s : State)
  (envs : nat -> nat -> nat -> Engine.Env) (targets : list string)
  (batchCount : nat) (w : Engine.World) :
  runEvents cfg events initialState = Some s ->
  (forall k i j pj,
      i < j -> firstDispatch k j (dispatched s) = Some pj ->
      exists pi, firstDispatch k i (dispatched s) = Some pi /\ pi < pj)
  /\ length (clickReportData s) = globalClickCounter s
  /\ (1 <= concurrentTabsPerUrl cfg -> urls cfg <> [] -> control s = Finished ->
      MAX_CLICKS cfg <= length (clickReportData s)
      /\ length (clickReportData s)
         <= MAX_CLICKS cfg + length (urls cfg) * concurrentTabsPerUrl cfg - 1)
  /\ exists w',
       Async.run (Automated.processUrls envs targets batchCount 0) w = (Async.Ok tt, w')
       /\ Engine.navigations w' =
          Engine.navigations w
          ++ Automated.sessionsSuchThat Automated.opensPage envs targets batchCount 0
       /\ Automated.recordedUrls w' =
          Automated.recordedUrls w
          ++ Automated.sessionsSuchThat Engine.reaches envs targets batchCount 0.
Proof.
  intros Hrun.
  destruct (runEvents_OrderInv cfg events s Hrun) as (Hord & _ & _ & _ & Hlen).
  split; [exact Hord |]. split; [exact Hlen |].
  split; [| apply WorkerFacts.run_processUrls].
  intros HC Hurls Hfinished.
  assert (HU : 1 <= length (urls cfg)).
  { destruct (urls cfg); [congruence | cbn [length]; lia]. }
  destruct (runEvents_BudgetInv cfg events s HC HU Hrun) as (_ & _ & Hbound & Hfin).
  specialize (Hfin Hfinished). specialize (Hbound Hfin).
  rewrite Hlen. split; [exact Hfin | lia].
Qed.

Lemma first_dispatches_follow_the_url_list_witness :
  exists s w',
    runEvents threeUrls lastFirst initialState = Some s
    /\ dispatched s = [mkDispatch 1 0 0; mkDispatch 1 1 0; mkDispatch 1 2 0]
    /\ map ofUrl (clickReportData s) = [2; 0; 1]
    /\ (forall k i j pj,
           i < j -> firstDispatch k j (dispatched s) = Some pj ->
           exists pi, firstDispatch k i (dispatched s) = Some pi /\ pi < pj)
    /\ 2 <= length (clickReportData s) <= 2 + 3 * 1 - 1
    /\ Async.run (Automated.processUrls (fun _ _ _ => Strategy.exampleEnv)
                    Automated.urls 1 0) Engine.initialWorld
       = (Async.Ok tt, w')
    /\ Engine.navigations w' = Automated.urls
    /\ Automated.recordedUrls w' = Automated.urls.
Proof.
  destruct (runEvents threeUrls lastFirst initialState) as [s |] eqn:E;
    [| vm_compute in E; discriminate].
  destruct (first_dispatches_follow_the_url_list threeUrls lastFirst s
              (fun _ _ _ => Strategy.exampleEnv) Automated.urls 1 Engine.initialWorld E)
    as (Hord & _ & Hcount & w' & Hrun & Hnav & Hrec).
  assert (HC : 1 <= concurrentTabsPerUrl threeUrls) by (cbn; lia).
  assert (Hurls : urls threeUrls <> []) by discriminate.
  assert (Hfin : control s = Finished).
  { vm_compute in E. injection E as <-. reflexivity. }
  exists s, w'. split; [reflexivity |].
  split; [vm_compute in E; injection E as <-; reflexivity |].
  split; [vm_compute in E; injection E as <-; reflexivity |].
  split; [exact Hord |]. split; [exact (Hcount HC Hurls Hfin) |].
  split; [exact Hrun |]. split; [exact Hnav | exact Hrec].
Defined.

End CampaignClaims.
(** * Further properties of the code *)

(** ** Draws from the reference tables *)

Module ProfileExtras.
Import Random Profile ProfileFacts Engine DrawFacts.

(** X2. [getRandomElement] consumes one draw; on an empty array it returns
    [undefined], on any other array one of its elements. *)
Theorem random_element_is_a_member {A : Type} (array : list A) (g : Rng) :
  fair g ->
  (array = [] -> fst (getRandomElement array g) = None)
  /\ (array <> [] -> exists x, fst (getRandomElement array g) = Some x /\ In x array)
  /\ snd (getRandomElement array g) = (fun n => g (S n)).
Proof.
  intros Hg. split; [| split].
  - intros ->. unfold getRandomElement, Math_random, index. cbn [fst length_Q length].
    destruct (_ <? 0)%Z; [reflexivity |]. destruct (Z.to_nat _); reflexivity.
  - intros Hne. apply getRandomElement_In; assumption.
  - reflexivity.
Qed.

Lemma random_element_is_a_member_witness :
  fair (constant (1 # 2))
  /\ fst (getRandomElement ([] : list string) (constant (1 # 2))) = None
  /\ exists x,
      fst (getRandomElement ["a"; "b"; "c"] (constant (1 # 2))) = Some x
      /\ In x ["a"; "b"; "c"].
Proof.
  split; [exact fair_half |].
  split.
  - apply (random_element_is_a_member ([] : list string) (constant (1 # 2)) fair_half).
    reflexivity.
  - apply (random_element_is_a_member ["a"; "b"; "c"] (constant (1 # 2)) fair_half).
    discriminate.
Defined.

Lemma filteredConnections_incl (tier : string) (c : Connection) :
  In c (filteredConnections tier) -> In c connectionTypes.
Proof. unfold filteredConnections. intros H. apply filter_In in H. apply H. Qed.

(** X3. [getRandomConnectionType] returns a connection of the table for
    every tier string, the ones profile generation never passes included:
    for ['rural'] the type is one of 4g, 3g, 2g, satellite and the downlink
    is at most 10; for a string the [switch] does not name the draw is
    from the whole table. *)
Theorem connection_drawn_for_every_tier (tier : string) (g : Rng) :
  fair g ->
  exists c,
    fst (getRandomConnectionType tier g) = Some c
    /\ In c connectionTypes
    /\ (tier = "rural" ->
        In (type c) ["4g"; "3g"; "2g"; "satellite"] /\ (downlink c <= 10)%Q)
    /\ (switchCase tier = CaseDefault -> filteredConnections tier = connectionTypes).
Proof.
  intros Hg.
  assert (Hne : filteredConnections tier <> []).
  { unfold filteredConnections. destruct (switchCase tier); vm_compute; discriminate. }
  destruct (getRandomElement_In (filteredConnections tier) g Hg Hne) as [c [Hc Hin]].
  exists c. split; [exact Hc |]. split; [apply (filteredConnections_incl tier); exact Hin |].
  split.
  - intros ->. unfold filteredConnections in Hin. apply filter_In in Hin as [_ Hf].
    cbn [switchCase String.eqb Ascii.eqb Bool.eqb caseFilter] in Hf.
    apply andb_true_iff in Hf as [Ht Hd]. split.
    + apply includes_In. exact Ht.
    + apply Qle_bool_iff. exact Hd.
  - intros Hd. unfold filteredConnections. rewrite Hd. reflexivity.
Qed.

Lemma connection_drawn_for_every_tier_witness :
  fair (constant 0)
  /\ exists c,
      fst (getRandomConnectionType "rural" (constant 0)) = Some c
      /\ In (type c) ["4g"; "3g"; "2g"; "satellite"] /\ (downlink c <= 10)%Q.
Proof.
  split; [exact fair_zero |].
  destruct (connection_drawn_for_every_tier "rural" (constant 0) fair_zero)
    as (c & Hc & _ & Hrural & _).
  exists c. split; [exact Hc | exact (Hrural eq_refl)].
Defined.

(** X4. [generateIndianIPData] copies ISP, city, state, pincode and area
    from one record of the IP table, appends an octet between 1 and 254 to
    the record's three-octet prefix, and sets the country to India / IN. *)
Theorem ip_data_copies_one_table_record (g : Rng) :
  fair g ->
  exists e octet d,
    In e indianIPData
    /\ (1 <= octet <= 254)%Z
    /\ fst (generateIndianIPData g) = Some d
    /\ geo_ip d = ip e ++ decimal octet
    /\ geo_isp d = isp e /\ geo_city d = city e /\ geo_state d = state e
    /\ geo_pincode d = pincode e /\ geo_area d = area e
    /\ country d = "India" /\ countryCode d = "IN".
Proof.
  intros Hg.
  destruct (getRandomElement_In indianIPData g Hg indianIPData_nonempty) as [e [He Hin]].
  unfold generateIndianIPData.
  unfold getRandomElement, Math_random in *. cbn [fst] in He. rewrite He.
  unfold getRandomCoordinatesForCity, Math_random.
  destruct (Hg 1%nat) as [H0 H1].
  pose proof (floor_scaled_Z (g 1%nat) 254 H0 H1 ltac:(lia)) as Hoct.
  eexists e, (Math_floor (g 1%nat * 254) + 1)%Z, _.
  split; [exact Hin |]. split; [change (inject_Z 254) with (254 : Q) in Hoct; lia |].
  split; [reflexivity |]. cbn. repeat split; reflexivity.
Qed.

Lemma ip_data_copies_one_table_record_witness :
  fair (constant (1 # 2))
  /\ exists e octet d,
      In e indianIPData
      /\ (1 <= octet <= 254)%Z
      /\ fst (generateIndianIPData (constant (1 # 2))) = Some d
      /\ geo_ip d = ip e ++ decimal octet
      /\ geo_city d = city e.
Proof.
  split; [exact fair_half |].
  destruct (ip_data_copies_one_table_record (constant (1 # 2)) fair_half)
    as (e & octet & d & Hin & Hoct & Hd & Hip & _ & Hcity & _).
  exists e, octet, d. repeat split; assumption || apply Hoct.
Defined.

(** X5. [getLocationTier] answers by list membership alone: tier1 exactly
    for the ten cities of the first list, tier2 exactly for the cities of
    the second list, tier3 for every other string; the two lists share no
    city, so the order of the two tests does not matter. *)
Theorem tier_follows_list_membership (cityName : string) :
  (getLocationTier cityName = "tier1" <-> In cityName tier1Cities)
  /\ (getLocationTier cityName = "tier2" <-> In cityName tier2Cities)
  /\ (getLocationTier cityName = "tier3"
      <-> ~ In cityName tier1Cities /\ ~ In cityName tier2Cities).
Proof.
  assert (Hdisj : forall c, In c tier1Cities -> In c tier2Cities -> False).
  { intros c H1 H2.
    assert (Hall : forallb (fun c => negb (includes tier2Cities c)) tier1Cities = true)
      by (vm_compute; reflexivity).
    rewrite forallb_forall in Hall. specialize (Hall c H1).
    apply In_includes in H2. rewrite H2 in Hall. discriminate. }
  unfold getLocationTier.
  destruct (includes tier1Cities cityName) eqn:E1;
    [| destruct (includes tier2Cities cityName) eqn:E2].
  - apply includes_iff in E1. split; [tauto |]. split.
    + split; [discriminate | intros H2; exfalso; exact (Hdisj _ E1 H2)].
    + split; [discriminate | tauto].
  - apply includes_iff in E2.
    assert (N1 : ~ In cityName tier1Cities).
    { intros H. apply In_includes in H. congruence. }
    split; [split; [discriminate | tauto] |]. split; [tauto |].
    split; [discriminate | tauto].
  - assert (N1 : ~ In cityName tier1Cities).
    { intros H. apply In_includes in H. congruence. }
    assert (N2 : ~ In cityName tier2Cities).
    { intros H. apply In_includes in H. congruence. }
    split; [split; [discriminate | tauto] |].
    split; [split; [discriminate | tauto] |]. tauto.
Qed.

End ProfileExtras.

(** ** Account details *)

Module IdentityExtras.
Import Random Profile ProfileFacts Engine Identity DrawFacts.

(** X6. [generateAccountDetails] returns exactly five fields: a name made
    of a first and a last name of the two tables, an e-mail address that is
    the lower-cased first name, a number between 1 and 999 and always the
    domain gmail.com (the list of domains is not used), a user id of four
    digits, a session id of at most six characters and the time of the
    call. *)
Theorem account_details_shape (toString36 : Q -> string) (now : string) (g : Rng) :
  fair g ->
  exists first last n d,
    In first indianFirstNames /\ In last indianLastNames
    /\ (1 <= n <= 999)%Z
    /\ fst (generateAccountDetails toString36 now g) = Some d
    /\ name d = first ++ " " ++ last
    /\ email d = toLowerCase first ++ decimal n ++ "@gmail.com"
    /\ (1000 <= userId d <= 9999)%Z
    /\ (String.length (sessionId d) <= 6)%nat
    /\ timestamp d = now.
Proof.
  intros Hg.
  assert (Hf : indianFirstNames <> []) by discriminate.
  assert (Hl : indianLastNames <> []) by discriminate.
  destruct (getRandomElement_In indianFirstNames g Hg Hf) as [first [Hfirst Hin1]].
  destruct (getRandomElement_In indianLastNames (fun n => g (S n))
              (fun n => Hg (S n)) Hl) as [last [Hlast Hin2]].
  unfold generateAccountDetails.
  unfold getRandomElement, Math_random in *. cbn [fst] in Hfirst, Hlast.
  rewrite Hfirst, Hlast.
  destruct (Hg 2%nat) as [A0 A1]. destruct (Hg 3%nat) as [B0 B1].
  pose proof (floor_scaled_Z (g 2%nat) 999 A0 A1 ltac:(lia)) as Hn.
  pose proof (floor_scaled_Z (g 3%nat) 9000 B0 B1 ltac:(lia)) as Hid.
  change (inject_Z 999) with (999 : Q) in Hn. change (inject_Z 9000) with (9000 : Q) in Hid.
  eexists first, last, (Math_floor (g 2%nat * 999) + 1)%Z, _.
  split; [exact Hin1 |]. split; [exact Hin2 |]. split; [lia |].
  split; [reflexivity |]. cbn [name email userId sessionId timestamp template].
  split; [reflexivity |]. split; [reflexivity |]. split; [lia |].
  split; [apply length_substring | reflexivity].
Qed.

Lemma account_details_shape_witness :
  fair (constant (1 # 2))
  /\ exists d,
      fst (generateAccountDetails (fun _ => "0.i") "2025-01-01T00:00:00.000Z"
             (constant (1 # 2))) = Some d
      /\ (1000 <= userId d <= 9999)%Z
      /\ (String.length (sessionId d) <= 6)%nat.
Proof.
  split; [exact fair_half |].
  destruct (account_details_shape (fun _ => "0.i") "2025-01-01T00:00:00.000Z"
              (constant (1 # 2)) fair_half)
    as (first & last & n & d & _ & _ & _ & Hd & _ & _ & Hid & Hsid & _).
  exists d. split; [exact Hd |]. split; [exact Hid | exact Hsid].
Defined.

End IdentityExtras.
(** ** Browser-side overrides *)

Module OverridesExtras.
Import Random Profile ProfileFacts Engine Overrides DrawFacts.

(** X7. The navigator overrides: [hardwareConcurrency] is between 2 and 9
    (never 10), [deviceMemory] is one of 1, 2, 4, 8, 16, and
    [maxTouchPoints] is between 5 and 9 for a mobile user agent and 0,
    without a draw, for any other. *)
Theorem navigator_overrides_within_bounds (userAgent : string) (g : Rng) :
  fair g ->
  (2 <= fst (hardwareConcurrency g) <= 9)%Z
  /\ (exists m, fst (deviceMemory g) = Some m /\ In m [1; 2; 4; 8; 16]%Z)
  /\ (if isMobile userAgent
      then (5 <= fst (maxTouchPoints userAgent g) <= 9)%Z
      else maxTouchPoints userAgent g = (0%Z, g)).
Proof.
  intros Hg. destruct (Hg 0%nat) as [H0 H1].
  split; [| split].
  - unfold hardwareConcurrency, Math_random. cbn [fst].
    pose proof (floor_scaled_Z (g 0%nat) 8 H0 H1 ltac:(lia)) as H.
    change (inject_Z 8) with (8 : Q) in H. lia.
  - apply getRandomElement_In; [exact Hg | discriminate].
  - unfold maxTouchPoints. destruct (isMobile userAgent); [| reflexivity].
    unfold Math_random. cbn [fst].
    pose proof (floor_scaled_Z (g 0%nat) 5 H0 H1 ltac:(lia)) as H.
    change (inject_Z 5) with (5 : Q) in H. lia.
Qed.

Lemma navigator_overrides_within_bounds_witness :
  fair (constant (1 # 2))
  /\ (2 <= fst (hardwareConcurrency (constant (1 # 2))) <= 9)%Z
  /\ (5 <= fst (maxTouchPoints "Mozilla/5.0 (Linux; Android 13)" (constant (1 # 2))) <= 9)%Z.
Proof.
  split; [exact fair_half |].
  destruct (navigator_overrides_within_bounds "Mozilla/5.0 (Linux; Android 13)"
              (constant (1 # 2)) fair_half) as (Hcores & _ & Htouch).
  split; [exact Hcores | exact Htouch].
Defined.

(** X8. The spoofed connection: the downlink is within 1 of the table
    value and the round-trip time between 10 below and 9 above it.
    Neither is kept non-negative: a tier-1 connection can get a negative
    round-trip time and a tier-3 connection a negative downlink. *)
Theorem spoofed_connection_variance (c : Connection) (g : Rng) :
  fair g ->
  (downlink c - 1 <= fst (spoofedDownlink c g))%Q
  /\ (fst (spoofedDownlink c g) <= downlink c + 1)%Q
  /\ (Z.of_nat (rtt c) - 10 <= fst (spoofedRtt c g) <= Z.of_nat (rtt c) + 9)%Z
  /\ (exists c5 g5,
         fair g5 /\ In c5 (filteredConnections "tier1")
         /\ (fst (spoofedRtt c5 g5) < 0)%Z)
  /\ (exists c2 g2,
         fair g2 /\ In c2 (filteredConnections "tier3")
         /\ (fst (spoofedDownlink c2 g2) < 0)%Q).
Proof.
  intros Hg. destruct (Hg 0%nat) as [H0 H1].
  unfold spoofedDownlink, spoofedRtt, Math_random. cbn [fst].
  split; [lra |]. split; [lra |]. split.
  - assert (Hf : (-10 <= Qfloor ((g 0%nat - (1 # 2)) * 20) < 10)%Z).
    { apply floor_between.
      - unfold inject_Z. lra.
      - unfold inject_Z. lra. }
    unfold Math_floor. lia.
  - split.
    + exists (mkConn "5g" (200 # 1) "4g" 5 "Jio True 5G"), (constant 0).
      split; [exact fair_zero |].
      split; [vm_compute; tauto | vm_compute; reflexivity].
    + exists (mkConn "2g" (5 # 10) "2g" 800 "EDGE Connection"), (constant 0).
      split; [exact fair_zero |].
      split; [vm_compute; tauto | vm_compute; reflexivity].
Qed.

Lemma spoofed_connection_variance_witness :
  fair (constant 0)
  /\ (Z.of_nat 5 - 10
      <= fst (spoofedRtt (mkConn "5g" (200 # 1) "4g" 5 "Jio True 5G") (constant 0))
      <= Z.of_nat 5 + 9)%Z.
Proof.
  split; [exact fair_zero |].
  apply (spoofed_connection_variance (mkConn "5g" (200 # 1) "4g" 5 "Jio True 5G")
           (constant 0) fair_zero).
Defined.

(** X9. The geolocation mock reports the coordinates of the generated IP
    data unchanged, after a delay between 100 and 1100 ms, with an accuracy
    between 20 and 70, an altitude between 10 and 110, an altitude accuracy
    between 5 and 25, a heading between 0 and 360 and a speed between 0
    and 2. *)
Theorem geolocation_mock_within_bounds (ipInfo : GeoIP) (g : Rng) :
  fair g ->
  let delay := fst (fst (getCurrentPosition ipInfo g)) in
  let position := snd (fst (getCurrentPosition ipInfo g)) in
  pos_latitude position = latitude ipInfo
  /\ pos_longitude position = longitude ipInfo
  /\ (100 <= delay <= 1100)%Q
  /\ (20 <= accuracy position <= 70)%Q
  /\ (10 <= altitude position <= 110)%Q
  /\ (5 <= altitudeAccuracy position <= 25)%Q
  /\ (0 <= heading position <= 360)%Q
  /\ (0 <= speed position <= 2)%Q.
Proof.
  intros Hg. cbn zeta. unfold getCurrentPosition, Math_random.
  cbn [fst snd pos_latitude pos_longitude accuracy altitude altitudeAccuracy heading speed].
  destruct (Hg 0%nat), (Hg 1%nat), (Hg 2%nat), (Hg 3%nat), (Hg 4%nat), (Hg 5%nat).
  repeat split; try reflexivity; lra.
Qed.

Lemma geolocation_mock_within_bounds_witness :
  fair (constant (1 # 2))
  /\ (20 <= accuracy
              (snd (fst (getCurrentPosition
                           (mkGeoIP "103.21.58.7" "Reliance Jio" "Mumbai" "Maharashtra"
                              "400001" "Fort" "India" "IN"
                              (190760 # 10000) (728777 # 10000))
                           (constant (1 # 2)))))
      <= 70)%Q.
Proof.
  split; [exact fair_half |].
  apply (geolocation_mock_within_bounds
           (mkGeoIP "103.21.58.7" "Reliance Jio" "Mumbai" "Maharashtra"
              "400001" "Fort" "India" "IN" (190760 # 10000) (728777 # 10000))
           (constant (1 # 2)) fair_half).
Defined.

(** A number within a quarter of an integer of the range is stored as
    that integer. *)
Lemma ToUint8Clamp_near (pixel : Z) (y : Q) :
  (0 <= pixel <= 255)%Z ->
  (inject_Z pixel - (1 # 4) < y)%Q -> (y < inject_Z pixel + (1 # 4))%Q ->
  ToUint8Clamp y = pixel.
Proof.
  intros Hp Hlo Hhi. unfold ToUint8Clamp.
  destruct (Qle_bool y 0) eqn:E0.
  - apply Qle_bool_iff in E0.
    assert (H : (inject_Z pixel < inject_Z 1)%Q) by (unfold inject_Z at 2; lra).
    rewrite <- Zlt_Qlt in H. lia.
  - apply Qle_bool_false in E0.
    destruct (Qle_bool 255 y) eqn:E255.
    + apply Qle_bool_iff in E255.
      assert (H : (inject_Z 254 < inject_Z pixel)%Q) by (unfold inject_Z at 1; lra).
      rewrite <- Zlt_Qlt in H. lia.
    + apply Qle_bool_false in E255.
      destruct (Qlt_le_dec y (inject_Z pixel)) as [Hlt | Hge].
      * assert (Hf : Qfloor y = (pixel - 1)%Z).
        { pose proof (floor_between y (pixel + -1) pixel) as Hb.
          pose proof (inject_Z_shift pixel (-1)) as Hs. unfold inject_Z at 3 in Hs.
          specialize (Hb ltac:(lra) Hlt). lia. }
        rewrite Hf.
        pose proof (inject_Z_shift pixel (-1)) as Hs. unfold inject_Z at 3 in Hs.
        replace (pixel - 1)%Z with (pixel + -1)%Z by lia.
        rewrite Qle_bool_lt by lra. lia.
      * assert (Hf : Qfloor y = pixel).
        { pose proof (floor_between y pixel (pixel + 1)) as Hb.
          pose proof (inject_Z_shift pixel 1) as Hs. unfold inject_Z at 3 in Hs.
          specialize (Hb Hge ltac:(lra)). lia. }
        rewrite Hf. rewrite Qle_bool_true by lra.
        rewrite Qle_bool_lt by lra. reflexivity.
Qed.

(** X10. The canvas noise changes nothing: the first colour component of
    the pixel is an integer between 0 and 255, the noise added to it is
    smaller than 0.013, and the clamped array rounds the sum back to the
    value it held. *)
Theorem canvas_noise_leaves_the_pixel (pixel : Z) (g : Rng) :
  fair g -> (0 <= pixel <= 255)%Z ->
  noisyPixel pixel g = (pixel, fun n => g (S n)).
Proof.
  intros Hg Hp. destruct (Hg 0%nat) as [H0 H1].
  unfold noisyPixel, Math_random. f_equal.
  set (x := (inject_Z pixel + (g 0%nat - (1 # 2)) * (1 # 10000) * 255)%Q).
  assert (Hx : (inject_Z pixel - (2 # 100) < x /\ x < inject_Z pixel + (2 # 100))%Q).
  { subst x. split; lra. }
  assert (Hp0 : (0 <= inject_Z pixel)%Q)
    by (change 0%Q with (inject_Z 0); rewrite <- Zle_Qle; lia).
  assert (Hp255 : (inject_Z pixel <= 255)%Q)
    by (change 255%Q with (inject_Z 255); rewrite <- Zle_Qle; lia).
  clearbody x. destruct Hx as [Hlo Hhi].
  apply ToUint8Clamp_near; [exact Hp | |];
    unfold Math_min, Math_max;
    destruct (Qle_bool 0 x) eqn:E0;
    try (apply Qle_bool_iff in E0); try (apply Qle_bool_false in E0);
    match goal with
    | |- context [Qle_bool 255 ?z] => destruct (Qle_bool 255 z) eqn:E255
    end;
    try (apply Qle_bool_iff in E255); try (apply Qle_bool_false in E255); lra.
Qed.

Lemma canvas_noise_leaves_the_pixel_witness :
  fair (constant 0) /\ (0 <= 128 <= 255)%Z
  /\ fst (noisyPixel 128 (constant 0)) = 128%Z.
Proof.
  split; [exact fair_zero |]. split; [lia |].
  rewrite (canvas_noise_leaves_the_pixel 128 (constant 0) fair_zero); [reflexivity | lia].
Defined.

End OverridesExtras.
(** ** The virtual-machine demonstration *)

Module DemoExtras.
Import Random Profile ProfileFacts Engine Identity Demo DrawFacts.

Lemma In_bytes (b : Z) : (0 <= b < 256)%Z -> In b bytes.
Proof.
  intros H. unfold bytes. apply in_map_iff. exists (Z.to_nat b).
  split; [lia | apply in_seq; lia].
Qed.

(** [toString(16).padStart(2, '0')] of a byte is its two hexadecimal
    digits. *)
Lemma padded_byte (b : Z) :
  (0 <= b < 256)%Z -> padStart 2 "0" (toString16 b) = hexByte b.
Proof.
  intros H. apply In_bytes in H.
  assert (Hall : forallb (fun b => padStart 2 "0" (toString16 b) =? hexByte b) bytes = true)
    by (vm_compute; reflexivity).
  rewrite forallb_forall in Hall. apply String.eqb_eq. apply Hall. exact H.
Qed.

Lemma lower_byte (b : Z) : (0 <= b < 256)%Z -> toLowerCase (hexByte b) = hexByte b.
Proof.
  intros H. apply In_bytes in H.
  assert (Hall : forallb (fun b => toLowerCase (hexByte b) =? hexByte b) bytes = true)
    by (vm_compute; reflexivity).
  rewrite forallb_forall in Hall. apply String.eqb_eq. apply Hall. exact H.
Qed.

Lemma length_byte (b : Z) : String.length (hexByte b) = 2%nat.
Proof. reflexivity. Qed.

Lemma randomByte_spec (g : Rng) :
  fair g ->
  exists b, (0 <= b < 256)%Z /\ randomByte g = (hexByte b, fun n => g (S n)).
Proof.
  intros Hg. destruct (Hg 0%nat) as [H0 H1].
  pose proof (floor_scaled_Z (g 0%nat) 256 H0 H1 ltac:(lia)) as Hb.
  change (inject_Z 256) with (256 : Q) in Hb.
  exists (Math_floor (g 0%nat * 256)). split; [exact Hb |].
  unfold randomByte, Math_random. rewrite padded_byte by exact Hb. reflexivity.
Qed.

(** X11. [generateMacAddress] returns seventeen characters: one of the
    five vendor prefixes followed by three bytes, each written as two
    lower-case hexadecimal digits, separated by colons; it consumes four
    draws. *)
Theorem mac_address_format (g : Rng) :
  fair g ->
  exists prefix b1 b2 b3,
    In prefix vendorPrefixes
    /\ (0 <= b1 < 256)%Z /\ (0 <= b2 < 256)%Z /\ (0 <= b3 < 256)%Z
    /\ generateMacAddress g
       = (prefix ++ ":" ++ hexByte b1 ++ ":" ++ hexByte b2 ++ ":" ++ hexByte b3,
          fun n => g (4 + n)%nat)
    /\ String.length (fst (generateMacAddress g)) = 17%nat.
Proof.
  intros Hg.
  destruct (getRandomElement_In vendorPrefixes g Hg ltac:(discriminate)) as [prefix [Hp Hin]].
  set (g1 := fun n => g (S n)).
  assert (Hg1 : fair g1) by (intros n; apply Hg).
  destruct (randomByte_spec g1 Hg1) as (b1 & Hb1 & E1).
  set (g2 := fun n => g1 (S n)) in *.
  assert (Hg2 : fair g2) by (intros n; apply Hg1).
  destruct (randomByte_spec g2 Hg2) as (b2 & Hb2 & E2).
  set (g3 := fun n => g2 (S n)) in *.
  assert (Hg3 : fair g3) by (intros n; apply Hg2).
  destruct (randomByte_spec g3 Hg3) as (b3 & Hb3 & E3).
  assert (Hmac : generateMacAddress g
                 = (prefix ++ ":" ++ hexByte b1 ++ ":" ++ hexByte b2 ++ ":" ++ hexByte b3,
                    fun n => g (4 + n)%nat)).
  { unfold generateMacAddress.
    rewrite (surjective_pairing (getRandomElement vendorPrefixes g)), Hp.
    change (snd (getRandomElement vendorPrefixes g)) with g1.
    rewrite E1, E2, E3. f_equal.
    cbn [template String.concat].
    rewrite !toLowerCase_app, !lower_byte by assumption.
    assert (Hlow : toLowerCase prefix = prefix).
    { destruct Hin as [<- | [<- | [<- | [<- | [<- | []]]]]]; reflexivity. }
    rewrite Hlow. reflexivity. }
  exists prefix, b1, b2, b3.
  split; [exact Hin |]. split; [exact Hb1 |]. split; [exact Hb2 |]. split; [exact Hb3 |].
  split; [exact Hmac |]. rewrite Hmac. cbn [fst].
  rewrite !length_append, !length_byte.
  destruct Hin as [<- | [<- | [<- | [<- | [<- | []]]]]]; reflexivity.
Qed.

Lemma mac_address_format_witness :
  fair (constant (1 # 2))
  /\ String.length (fst (generateMacAddress (constant (1 # 2)))) = 17%nat.
Proof.
  split; [exact fair_half |].
  destruct (mac_address_format (constant (1 # 2)) fair_half)
    as (prefix & b1 & b2 & b3 & _ & _ & _ & _ & _ & Hlen).
  exact Hlen.
Defined.

(** X12. [generateHardwareProfile] draws a brand and then a processor of
    that brand's list, so the processor name starts with the brand; the
    memory is one of 8, 16, 32, 64 followed by [GB DDR4] and the graphics
    card one of the three listed. *)
Theorem hardware_matches_the_drawn_brand (g : Rng) :
  fair g ->
  exists brand model size card,
    fst (getRandomElement cpuBrands g) = Some brand
    /\ In brand cpuBrands
    /\ cpu (fst (generateHardwareProfile g)) = Some model
    /\ In model (if brand =? "Intel" then intelCpus else amdCpus)
    /\ startsWith model brand = true
    /\ In size ramSizes
    /\ ram (fst (generateHardwareProfile g)) = decimal size ++ "GB DDR4"
    /\ gpu (fst (generateHardwareProfile g)) = Some card
    /\ In card gpus.
Proof.
  intros Hg.
  destruct (getRandomElement_In cpuBrands g Hg ltac:(discriminate)) as [brand [Hb Hin]].
  set (g1 := fun n => g (S n)).
  assert (Hg1 : fair g1) by (intros n; apply Hg).
  set (g2 := fun n => g1 (S n)).
  assert (Hg2 : fair g2) by (intros n; apply Hg1).
  set (g3 := fun n => g2 (S n)).
  assert (Hg3 : fair g3) by (intros n; apply Hg2).
  destruct (getRandomElement_In ramSizes g2 Hg2 ltac:(discriminate)) as [size [Hs Hsin]].
  destruct (getRandomElement_In gpus g3 Hg3 ltac:(discriminate)) as [card [Hc Hcin]].
  assert (Hcpu : exists model,
             fst (getRandomElement (if brand =? "Intel" then intelCpus else amdCpus) g1)
             = Some model
             /\ In model (if brand =? "Intel" then intelCpus else amdCpus)).
  { apply getRandomElement_In; [exact Hg1 |]. destruct (brand =? "Intel"); discriminate. }
  destruct Hcpu as [model [Hm Hmin]].
  exists brand, model, size, card.
  split; [exact Hb |]. split; [exact Hin |].
  unfold generateHardwareProfile.
  rewrite (surjective_pairing (getRandomElement cpuBrands g)), Hb.
  change (snd (getRandomElement cpuBrands g)) with g1.
  assert (E : (if brand =? "Intel"
               then getRandomElement intelCpus g1 else getRandomElement amdCpus g1)
              = getRandomElement (if brand =? "Intel" then intelCpus else amdCpus) g1)
    by (destruct (brand =? "Intel"); reflexivity).
  rewrite E.
  rewrite (surjective_pairing (getRandomElement (if brand =? "Intel" then _ else _) g1)), Hm.
  change (snd (getRandomElement (if brand =? "Intel" then intelCpus else amdCpus) g1))
    with g2.
  rewrite (surjective_pairing (getRandomElement ramSizes g2)), Hs.
  change (snd (getRandomElement ramSizes g2)) with g3.
  rewrite (surjective_pairing (getRandomElement gpus g3)), Hc.
  cbn [fst cpu ram gpu option_map template].
  split; [reflexivity |]. split; [exact Hmin |].
  split.
  - destruct Hin as [<- | [<- | []]]; cbn [String.eqb Ascii.eqb Bool.eqb] in Hmin;
      [destruct Hmin as [<- | [<- | [<- | []]]] | destruct Hmin as [<- | [<- | [<- | []]]]];
      reflexivity.
  - split; [exact Hsin |]. split; [reflexivity |]. split; [reflexivity | exact Hcin].
Qed.

Lemma hardware_matches_the_drawn_brand_witness :
  fair (constant 0)
  /\ exists brand model,
      fst (getRandomElement cpuBrands (constant 0)) = Some brand
      /\ cpu (fst (generateHardwareProfile (constant 0))) = Some model
      /\ startsWith model brand = true.
Proof.
  split; [exact fair_zero |].
  destruct (hardware_matches_the_drawn_brand (constant 0) fair_zero)
    as (brand & model & _ & _ & Hb & _ & Hm & _ & Hs & _).
  exists brand, model. split; [exact Hb |]. split; [exact Hm | exact Hs].
Defined.

Section Rotation.

Variable toString36 : Q -> string.

Lemma expectedClick_eq (n vm counter : nat) :
  (counter + 5 * (vm - 1) = S n)%nat -> (1 <= vm)%nat -> (1 <= counter <= 5)%nat ->
  expectedClick (S n) = (S n, vm, counter).
Proof.
  intros H Hvm Hc. unfold expectedClick.
  replace (S n - 1)%nat with ((vm - 1) * 5 + (counter - 1))%nat by lia.
  rewrite Nat.div_add_l by lia. rewrite Nat.div_small by lia.
  rewrite (Nat.add_comm ((vm - 1) * 5) (counter - 1)), Nat.Div0.mod_add.
  rewrite Nat.mod_small by lia.
  f_equal; [f_equal |]; lia.
Qed.

Lemma filter_app_len {X : Type} (f : X -> bool) (l l' : list X) :
  length (filter f (l ++ l')) = (length (filter f l) + length (filter f l'))%nat.
Proof. rewrite filter_app, length_app. reflexivity. Qed.

Lemma clickStep_Served (n : nat) (st : Vm) :
  Served n st -> Served (S n) (clickStep toString36 (S n) st).
Proof.
  intros (Hsum & Hvm & Hle & Hzero & Hpos & Hrot & Hid & Hlines).
  unfold clickStep. cbn zeta.
  destruct (generateMacAddress (rng st)) as [mac g1].
  destruct (generateHardwareProfile g1) as [hw g2].
  destruct (generateSystemProfile toString36 g2) as [sys g3].
  assert (Hseq : map expectedClick (seq 1 (S n))
                 = (map expectedClick (seq 1 n) ++ [expectedClick (S n)])%list).
  { rewrite seq_S, map_app. reflexivity. }
  unfold Served. unfold rotations, identities, clickLines in *.
  destruct (Nat.ltb_spec 5 (vmClickCounter st + 1)) as [Hrotate | Hstay].
  - cbn [Nat.eqb vmClickCounter currentVmId output].
    rewrite !filter_app_len, !flat_map_app, Hrot, Hid, Hlines, Hseq.
    cbn [filter isRotation isIdentity length flat_map clickOf app].
    rewrite (expectedClick_eq n (currentVmId st + 1) 1) by lia.
    rewrite app_nil_r.
    destruct (Nat.eqb_spec n 0) as [-> | Hn]; [lia |].
    repeat split; lia.
  - destruct (Nat.eqb_spec (vmClickCounter st + 1) 1) as [Hfirst | Hlater].
    + destruct n as [| m]; [| exfalso; specialize (Hpos ltac:(lia)); lia].
      cbn [vmClickCounter currentVmId output].
      rewrite !filter_app_len, !flat_map_app, Hrot, Hid, Hlines, Hseq.
      cbn [filter isRotation isIdentity length flat_map clickOf app Nat.eqb seq map].
      rewrite (expectedClick_eq 0 (currentVmId st) (vmClickCounter st + 1)) by lia.
      repeat split; try lia.
    + cbn [vmClickCounter currentVmId output].
      rewrite !filter_app_len, !flat_map_app, Hrot, Hid, Hlines, Hseq.
      cbn [filter isRotation isIdentity length flat_map clickOf app].
      rewrite (expectedClick_eq n (currentVmId st) (vmClickCounter st + 1)) by lia.
      destruct (Nat.eqb_spec n 0) as [-> | Hn]; [specialize (Hzero eq_refl); lia |].
      cbn [Nat.eqb]. repeat split; try lia.
Qed.

Lemma clicksFrom_Served (remaining n : nat) (st : Vm) :
  Served n st -> Served (n + remaining) (clicksFrom toString36 (S n) remaining st).
Proof.
  revert n st. induction remaining as [| k IH]; intros n st H; cbn [clicksFrom].
  - rewrite Nat.add_0_r. exact H.
  - replace (n + S k)%nat with (S n + k)%nat by lia.
    replace (S n + 1)%nat with (S (S n)) by lia.
    apply IH. apply clickStep_Served. exact H.
Qed.

End Rotation.

(** X13. The rotation loop, for any number of clicks and any draws: click
    [k] is served by machine [(k - 1) / 5 + 1] as its click
    [(k - 1) mod 5 + 1]; the output has one rotation notice for every five
    clicks completed before the last click and one identity block for
    every machine, so twelve clicks give two rotations and three
    identities. *)
Theorem every_machine_serves_five_clicks (toString36 : Q -> string) (clicks : nat)
  (g : Rng) :
  (1 <= clicks)%nat ->
  let st := simulate toString36 clicks g in
  vmClickCounter st = ((clicks - 1) mod 5 + 1)%nat
  /\ currentVmId st = ((clicks - 1) / 5 + 1)%nat
  /\ rotations (output st) = ((clicks - 1) / 5)%nat
  /\ identities (output st) = ((clicks - 1) / 5 + 1)%nat
  /\ clickLines (output st) = map expectedClick (seq 1 clicks).
Proof.
  intros Hpos. cbn zeta. unfold simulate.
  assert (H0 : Served 0 (mkVm 0 1 g [])).
  { unfold Served, rotations, identities, clickLines. cbn. repeat split; lia. }
  pose proof (clicksFrom_Served toString36 clicks 0 _ H0) as H. cbn [Nat.add] in H.
  destruct H as (Hsum & Hvm & Hle & _ & Hone & Hrot & Hid & Hlines).
  specialize (Hone Hpos).
  set (st := clicksFrom toString36 1 clicks (mkVm 0 1 g [])) in *.
  assert (Hdiv : ((clicks - 1) / 5 = currentVmId st - 1)%nat).
  { replace (clicks - 1)%nat with ((currentVmId st - 1) * 5 + (vmClickCounter st - 1))%nat
      by lia.
    rewrite Nat.div_add_l by lia. rewrite Nat.div_small by lia. lia. }
  assert (Hmod : ((clicks - 1) mod 5 = vmClickCounter st - 1)%nat).
  { replace (clicks - 1)%nat with ((vmClickCounter st - 1) + (currentVmId st - 1) * 5)%nat
      by lia.
    rewrite Nat.Div0.mod_add. apply Nat.mod_small. lia. }
  rewrite Hdiv, Hmod, Hrot, Hid.
  destruct (Nat.eqb_spec clicks 0) as [E | _]; [lia |].
  repeat split; try lia. exact Hlines.
Qed.

Lemma every_machine_serves_five_clicks_witness :
  (1 <= 12)%nat
  /\ rotations (output (simulate (fun _ => "0.4fzyo82mvyr") 12 (constant (1 # 2)))) = 2%nat
  /\ identities (output (simulate (fun _ => "0.4fzyo82mvyr") 12 (constant (1 # 2)))) = 3%nat.
Proof.
  split; [lia |].
  destruct (every_machine_serves_five_clicks (fun _ => "0.4fzyo82mvyr") 12
              (constant (1 # 2)) ltac:(lia)) as (_ & _ & Hrot & Hid & _).
  split; [exact Hrot | exact Hid].
Defined.

End DemoExtras.
(** ** The batch scheduler of the bounded campaign *)

Module CampaignExtras.
Import Campaign CampaignFacts.
Local Open Scope nat_scope.
Local Open Scope list_scope.

Section Batches.

Variable cfg : Config.

Let T := numberOfTabsPerUrl cfg.
Let C := concurrentTabsPerUrl cfg.

Lemma batchSize_boundary (i : nat) :
  i < T -> ((i + 1) mod C =? 0) || (i =? T - 1) = true -> batchSize cfg i = 1.
Proof.
  intros Hi Hb. unfold batchSize. fold T C.
  destruct (Nat.ltb_spec i T) as [_ | ?]; [| lia].
  apply orb_true_iff in Hb as [Hb | Hb].
  - apply Nat.eqb_eq in Hb.
    destruct (Nat.eqb_spec C 0) as [E | E].
    + rewrite E in Hb. cbn in Hb. lia.
    + pose proof (Nat.mod_upper_bound i C E) as Hr.
      assert (Hm : i mod C = C - 1).
      { destruct (Nat.eq_dec (i mod C) (C - 1)) as [? | Hne]; [assumption |].
        exfalso. pose proof (Nat.div_mod_eq i C) as Hd.
        assert (Hs : (i + 1) mod C = i mod C + 1).
        { symmetry. apply (Nat.mod_unique (i + 1) C (i / C)).
          - lia.
          - lia. }
        lia. }
      lia.
  - apply Nat.eqb_eq in Hb. destruct (Nat.eqb_spec C 0) as [E | E]; [lia |].
    pose proof (Nat.mod_upper_bound i C E) as Hr. lia.
Qed.

Lemma batchSize_inner (i : nat) :
  i < T -> ((i + 1) mod C =? 0) || (i =? T - 1) = false ->
  i + 1 < T /\ batchSize cfg i = S (batchSize cfg (i + 1)) /\ 1 <= batchSize cfg (i + 1).
Proof.
  intros Hi Hb. apply orb_false_iff in Hb as [Hm Hl].
  apply Nat.eqb_neq in Hm. apply Nat.eqb_neq in Hl.
  assert (Hi1 : i + 1 < T) by lia. split; [exact Hi1 |].
  unfold batchSize. fold T C.
  destruct (Nat.ltb_spec i T) as [_ | ?]; [| lia].
  destruct (Nat.ltb_spec (i + 1) T) as [_ | ?]; [| lia].
  destruct (Nat.eqb_spec C 0) as [E | E]; [lia |].
  pose proof (succ_mod cfg i ltac:(fold C; lia) Hm) as Hs. fold C in Hs.
  pose proof (Nat.mod_upper_bound (i + 1) C E) as Hr.
  lia.
Qed.

(** The loop creates the workers of [batchSize] consecutive tab indices
    and suspends at the last of them. *)
Lemma dispatchLoop_shape (fuel i : nat) :
  T - i < fuel ->
  dispatchLoop cfg true fuel i
  = (seq i (batchSize cfg i),
     if batchSize cfg i =? 0 then Returned else AwaitingWorkers (i + batchSize cfg i - 1)).
Proof.
  revert i. induction fuel as [| fuel IH]; intros i Hf; [lia |].
  cbn [dispatchLoop]. fold T C.
  destruct (Nat.ltb_spec i T) as [Hi | Hi].
  - destruct (((i + 1) mod C =? 0) || (i =? T - 1)) eqn:Hb.
    + rewrite (batchSize_boundary i Hi Hb). cbn [seq Nat.eqb].
      replace (i + 1 - 1) with i by lia. reflexivity.
    + destruct (batchSize_inner i Hi Hb) as (Hi1 & Hk & Hpos).
      rewrite (IH (i + 1)) by lia. rewrite Hk. cbn [seq Nat.eqb].
      replace (S i) with (i + 1) by lia.
      destruct (Nat.eqb_spec (batchSize cfg (i + 1)) 0) as [E | _]; [lia |].
      do 2 f_equal. lia.
  - unfold batchSize. fold T. destruct (Nat.ltb_spec i T) as [? | _]; [lia |]. reflexivity.
Qed.

End Batches.


(** The size of a batch, whatever the loop index. *)
Lemma batchSize_range (cfg : Config) (i : nat) :
  let T := numberOfTabsPerUrl cfg in
  let C := concurrentTabsPerUrl cfg in
  (batchSize cfg i = 0 <-> T <= i)
  /\ i + batchSize cfg i <= Nat.max T i
  /\ (1 <= C -> batchSize cfg i <= C)
  /\ (C = 0 -> batchSize cfg i = T - i).
Proof.
  cbn zeta. unfold batchSize.
  destruct (Nat.ltb_spec i (numberOfTabsPerUrl cfg)) as [Hi | Hi];
    destruct (Nat.eqb_spec (concurrentTabsPerUrl cfg) 0) as [E | E];
    try (pose proof (Nat.mod_upper_bound i (concurrentTabsPerUrl cfg) E));
    repeat split; intros; lia.
Qed.

(** X14. [openEnhancedTabs] creates its workers in batches of consecutive
    tab indices: resumed at index [i] while the budget is unmet it creates
    the workers [i .. i + batchSize - 1] and suspends at the last of them,
    where the batch reaches the next multiple of [concurrentTabsPerUrl] or
    the last tab; with the budget met it creates nothing and returns.  A
    batch never holds more than [concurrentTabsPerUrl] workers, unless that
    number is 0, in which case all remaining tabs are created at once. *)
Theorem batches_are_runs_of_consecutive_tabs (cfg : Config) (i : nat) :
  let T := numberOfTabsPerUrl cfg in
  let C := concurrentTabsPerUrl cfg in
  dispatchLoop cfg true (S T) i
  = (seq i (batchSize cfg i),
     if batchSize cfg i =? 0 then Returned else AwaitingWorkers (i + batchSize cfg i - 1))
  /\ dispatchLoop cfg false (S T) i = ([], Returned)
  /\ (batchSize cfg i = 0 <-> T <= i)
  /\ i + batchSize cfg i <= Nat.max T i
  /\ (1 <= C -> batchSize cfg i <= C)
  /\ (C = 0 -> batchSize cfg i = T - i).
Proof.
  cbn zeta. split; [apply dispatchLoop_shape; lia |].
  split; [apply dispatchLoop_stopped |].
  apply batchSize_range.
Qed.

Lemma inFlight_le (cfg : Config) (ts : list Tabs) :
  Forall (TabsOk cfg) ts ->
  list_sum (map (fun tb => length (workers tb)) ts) <= length ts * concurrentTabsPerUrl cfg.
Proof.
  induction 1 as [| tb ts [Hw _] _ IH]; [cbn; lia |].
  cbn [map length]. rewrite list_sum_cons. lia.
Qed.

(** X15. With a positive concurrency setting and at least one URL, at
    every moment of a campaign each URL has at most
    [concurrentTabsPerUrl] workers that have not settled, and the campaign
    at most [urls.length * concurrentTabsPerUrl] in all: the number the
    script prints as its maximum of concurrent tabs. *)
Theorem in_flight_workers_bounded (cfg : Config) (events : list Event) (s : State) :
  1 <= concurrentTabsPerUrl cfg ->
  urls cfg <> [] ->
  runEvents cfg events initialState = Some s ->
  length (tabs s) <= length (urls cfg)
  /\ Forall (fun tb => length (workers tb) <= concurrentTabsPerUrl cfg) (tabs s)
  /\ inFlight s <= length (urls cfg) * concurrentTabsPerUrl cfg.
Proof.
  intros HC Hurls Hrun.
  assert (HU : 1 <= length (urls cfg)).
  { destruct (urls cfg); [congruence | cbn [length]; lia]. }
  destruct (runEvents_BudgetInv cfg events s HC HU Hrun) as (Hlen & Hok & _).
  split; [exact Hlen |]. split.
  - apply Forall_impl with (2 := Hok). intros tb [H _]. exact H.
  - unfold inFlight. pose proof (inFlight_le cfg (tabs s) Hok) as H.
    apply Nat.le_trans with (1 := H). apply Nat.mul_le_mono_r. exact Hlen.
Qed.

Lemma in_flight_workers_bounded_witness :
  exists s,
    runEvents twoUrls [LoopTest; WorkerRecords 0 0] initialState = Some s
    /\ inFlight s = 2
    /\ inFlight s <= length (urls twoUrls) * concurrentTabsPerUrl twoUrls.
Proof.
  destruct (runEvents twoUrls [LoopTest; WorkerRecords 0 0] initialState)
    as [s |] eqn:E; [| vm_compute in E; discriminate].
  exists s. split; [reflexivity |].
  assert (HC : 1 <= concurrentTabsPerUrl twoUrls) by (cbn; lia).
  assert (Hurls : urls twoUrls <> []) by discriminate.
  destruct (in_flight_workers_bounded twoUrls [LoopTest; WorkerRecords 0 0] s HC Hurls E)
    as (_ & _ & Hbound).
  split; [| exact Hbound].
  vm_compute in E. injection E as <-. reflexivity.
Defined.

Lemma dispatchLoop_no_tabs (cfg : Config) (continue : bool) (fuel i : nat) :
  numberOfTabsPerUrl cfg = 0 -> dispatchLoop cfg continue fuel i = ([], Returned).
Proof.
  intros HT. destruct fuel as [| fuel]; cbn [dispatchLoop]; [reflexivity |].
  rewrite HT. destruct (Nat.ltb_spec i 0) as [? | _]; [lia | reflexivity].
Qed.

Lemma startAll_nothing (cfg : Config) (k u : nat) (targets : list string) :
  targets = [] \/ numberOfTabsPerUrl cfg = 0 ->
  snd (startAll cfg true k u targets) = []
  /\ Forall (fun tb => phase tb = Returned /\ workers tb = [])
       (fst (startAll cfg true k u targets)).
Proof.
  intros [-> | HT]; [cbn; split; [reflexivity | constructor] |].
  revert u. induction targets as [| target rest IH]; intros u; cbn [startAll].
  - split; [reflexivity | constructor].
  - unfold startTabs, resumeTabs. rewrite dispatchLoop_no_tabs by exact HT. cbn [map].
    destruct (IH (S u)) as [Hs Hf].
    destruct (startAll cfg true k (S u) rest) as [others later].
    cbn [fst snd app] in *. split; [exact Hs |].
    constructor; [split; reflexivity | exact Hf].
Qed.

Lemma step_Idle (cfg : Config) (event : Event) (s s' : State) :
  urls cfg = [] \/ numberOfTabsPerUrl cfg = 0 ->
  1 <= MAX_CLICKS cfg ->
  Idle s -> step cfg event s = Some s' -> Idle s'.
Proof.
  intros Hempty HM (Hd & Hc & Hr & Hfin & Htabs) Hstep.
  assert (Hgo : shouldContinue cfg s = true).
  { unfold shouldContinue. rewrite Hc. apply Nat.ltb_lt. lia. }
  assert (Hnone : forall u tb, nth_error (tabs s) u = Some tb ->
                               phase tb = Returned /\ workers tb = []).
  { intros u tb Hu. apply (Forall_nth_error _ _ _ _ Htabs Hu). }
  destruct event as [| u t | u t | u t | u | u |]; cbn [step] in Hstep.
  - rewrite Hgo in Hstep.
    destruct (startAll_nothing cfg (cycleCount s) 0 (urls cfg) Hempty) as [Hs Hf].
    destruct (startAll cfg true (cycleCount s) 0 (urls cfg)) as [started created].
    cbn [fst snd] in *. subst created.
    destruct (control s); try discriminate; injection Hstep as <-;
      (repeat split; cbn [dispatched globalClickCounter clickReportData control tabs];
       [rewrite Hd; reflexivity | exact Hc | exact Hr | discriminate | exact Hf]).
  - destruct (nth_error (tabs s) u) as [tb |] eqn:Hu; [| discriminate].
    destruct (Hnone u tb Hu) as [_ Hw]. rewrite Hw in Hstep. discriminate.
  - destruct (nth_error (tabs s) u) as [tb |] eqn:Hu; [| discriminate].
    destruct (Hnone u tb Hu) as [_ Hw]. rewrite Hw in Hstep. discriminate.
  - destruct (nth_error (tabs s) u) as [tb |] eqn:Hu; [| discriminate].
    destruct (Hnone u tb Hu) as [_ Hw]. rewrite Hw in Hstep. discriminate.
  - destruct (nth_error (tabs s) u) as [tb |] eqn:Hu; [| discriminate].
    destruct (Hnone u tb Hu) as [Hp _]. destruct tb as [ph ws]. cbn [phase] in Hp.
    subst ph. discriminate.
  - destruct (nth_error (tabs s) u) as [tb |] eqn:Hu; [| discriminate].
    destruct (Hnone u tb Hu) as [Hp _]. destruct tb as [ph ws]. cbn [phase] in Hp.
    subst ph. discriminate.
  - rewrite Hgo in Hstep. destruct (control s); try discriminate.
    destruct (allReturned (tabs s)); [| discriminate].
    injection Hstep as <-.
    repeat split; cbn [dispatched globalClickCounter clickReportData control tabs];
      [exact Hd | exact Hc | exact Hr | discriminate | constructor].
Qed.

Lemma allReturned_Forall (ts : list Tabs) :
  Forall (fun tb => phase tb = Returned /\ workers tb = []) ts -> allReturned ts = true.
Proof.
  induction 1 as [| tb ts [Hp _] _ IH]; [reflexivity |].
  cbn [allReturned forallb]. rewrite Hp. exact IH.
Qed.

Lemma emptyCycles_run (cfg : Config) (k : nat) (s : State) :
  urls cfg = [] \/ numberOfTabsPerUrl cfg = 0 ->
  1 <= MAX_CLICKS cfg ->
  Idle s -> control s = NotStarted \/ control s = BetweenCycles ->
  exists s',
    runEvents cfg (emptyCycles k) s = Some s' /\ cycleCount s' = cycleCount s + k.
Proof.
  intros Hempty HM. revert s. induction k as [| k IH]; intros s Hidle Hctl.
  - exists s. split; [reflexivity | lia].
  - pose proof Hidle as (Hd & Hc & Hr & Hfin & Htabs).
    assert (Hgo : shouldContinue cfg s = true).
    { unfold shouldContinue. rewrite Hc. apply Nat.ltb_lt. lia. }
    cbn [emptyCycles runEvents].
    destruct (step cfg LoopTest s) as [s1 |] eqn:E1.
    + pose proof (step_Idle cfg LoopTest s s1 Hempty HM Hidle E1) as Hidle1.
      assert (H1 : control s1 = InCycle /\ cycleCount s1 = cycleCount s
                   /\ globalClickCounter s1 = 0).
      { cbn [step] in E1. rewrite Hgo in E1.
        destruct (startAll cfg true (cycleCount s) 0 (urls cfg)) as [started created].
        destruct Hctl as [Hctl | Hctl]; rewrite Hctl in E1; injection E1 as <-;
          cbn; repeat split; exact Hc. }
      destruct H1 as (Hc1 & Hk1 & Hn1).
      destruct Hidle1 as (_ & _ & _ & _ & Htabs1).
      assert (E2 : exists s2, step cfg CycleSettled s1 = Some s2
                              /\ control s2 = BetweenCycles
                              /\ cycleCount s2 = cycleCount s + 1).
      { cbn [step]. rewrite Hc1, (allReturned_Forall _ Htabs1).
        unfold shouldContinue. rewrite Hn1.
        destruct (Nat.ltb_spec 0 (MAX_CLICKS cfg)) as [_ | ?]; [| lia].
        eexists. split; [reflexivity |]. cbn. split; [reflexivity | lia]. }
      destruct E2 as (s2 & E2 & Hc2 & Hk2). rewrite E2.
      assert (Hidle2 : Idle s2).
      { apply (step_Idle cfg CycleSettled s1 s2 Hempty HM); [| exact E2].
        apply (step_Idle cfg LoopTest s s1 Hempty HM Hidle E1). }
      destruct (IH s2 Hidle2 (or_intror Hc2)) as (s' & Hrun & Hk').
      exists s'. split; [exact Hrun | lia].
    + exfalso. cbn [step] in E1. rewrite Hgo in E1.
      destruct (startAll cfg true (cycleCount s) 0 (urls cfg)) as [started created].
      destruct Hctl as [Hctl | Hctl]; rewrite Hctl in E1; discriminate.
Qed.

(** X16. With an empty URL list, or with zero tabs per URL, and a budget
    of at least one click, a campaign never creates a worker, never counts
    a click and never finishes: the cycle loop can go round any number of
    times. *)
Theorem nothing_to_visit_never_finishes (cfg : Config) (events : list Event)
  (s : State) (k : nat) :
  urls cfg = [] \/ numberOfTabsPerUrl cfg = 0 ->
  1 <= MAX_CLICKS cfg ->
  runEvents cfg events initialState = Some s ->
  dispatched s = []
  /\ globalClickCounter s = 0
  /\ control s <> Finished
  /\ exists s', runEvents cfg (emptyCycles k) initialState = Some s'
                /\ cycleCount s' = 1 + k.
Proof.
  intros Hempty HM Hrun.
  assert (H0 : Idle initialState).
  { unfold Idle, initialState. cbn. repeat split; try discriminate. constructor. }
  assert (Hs : Idle s).
  { apply (runEvents_invariant cfg Idle) with (events := events) (s := initialState);
      [| exact H0 | exact Hrun].
    intros event s0 s1. apply step_Idle; assumption. }
  destruct Hs as (Hd & Hc & _ & Hfin & _).
  split; [exact Hd |]. split; [exact Hc |]. split; [exact Hfin |].
  apply (emptyCycles_run cfg k initialState Hempty HM H0). left. reflexivity.
Qed.

Lemma nothing_to_visit_never_finishes_witness :
  exists s s',
    runEvents noUrls [LoopTest; CycleSettled; LoopTest] initialState = Some s
    /\ control s <> Finished
    /\ globalClickCounter s = 0
    /\ runEvents noUrls (emptyCycles 1000) initialState = Some s'
    /\ cycleCount s' = 1001.
Proof.
  destruct (runEvents noUrls [LoopTest; CycleSettled; LoopTest] initialState)
    as [s |] eqn:E; [| vm_compute in E; discriminate].
  assert (Hempty : urls noUrls = [] \/ numberOfTabsPerUrl noUrls = 0)
    by (left; reflexivity).
  assert (HM : 1 <= MAX_CLICKS noUrls) by (cbn; lia).
  destruct (nothing_to_visit_never_finishes noUrls [LoopTest; CycleSettled; LoopTest]
              s 1000 Hempty HM E) as (_ & Hc & Hfin & s' & Hrun & Hk).
  exists s, s'. split; [reflexivity |]. split; [exact Hfin |]. split; [exact Hc |].
  split; [exact Hrun | exact Hk].
Defined.

Lemma NoDup_app_intro {X : Type} (l l' : list X) :
  NoDup l -> NoDup l' -> (forall x, In x l -> In x l' -> False) -> NoDup (l ++ l').
Proof.
  intros Hl Hl' Hd. induction Hl as [| x l Hx Hl IH]; [exact Hl' |].
  cbn [app]. constructor.
  - intros Hin. apply in_app_or in Hin as [Hin | Hin]; [exact (Hx Hin) |].
    apply (Hd x); [left; reflexivity | exact Hin].
  - apply IH. intros y Hy Hy'. apply (Hd y); [right; exact Hy | exact Hy'].
Qed.

Lemma NoDup_map_injective {X Y : Type} (f : X -> Y) (l : list X) :
  (forall x y, f x = f y -> x = y) -> NoDup l -> NoDup (map f l).
Proof.
  intros Hinj H. induction H as [| x l Hx Hl IH]; cbn [map]; constructor.
  - intros Hin. apply in_map_iff in Hin as [y [E Hy]]. apply Hinj in E. subst y. exact (Hx Hy).
  - exact IH.
Qed.

Lemma In_block_inv (k : nat) (ts : list nat) (a n : nat) (d : Dispatch) :
  In d (block k ts a n) ->
  ofCycle d = k /\ a <= ofUrl d < a + n /\ In (ofTab d) ts.
Proof.
  unfold block. intros H. apply in_flat_map in H as [u [Hu H]].
  apply in_map_iff in H as [t [<- Ht]]. apply in_seq in Hu.
  cbn [ofCycle ofUrl ofTab]. repeat split; try lia. exact Ht.
Qed.

Lemma NoDup_block (k : nat) (ts : list nat) (a n : nat) :
  NoDup ts -> NoDup (block k ts a n).
Proof.
  intros Hts. revert a. induction n as [| n IH]; intros a; [constructor |].
  change (block k ts a (S n)) with (map (mkDispatch k a) ts ++ block k ts (S a) n).
  apply NoDup_app_intro; [| apply IH |].
  - apply NoDup_map_injective; [| exact Hts].
    intros t t' E. injection E as E. exact E.
  - intros d H1 H2. apply in_map_iff in H1 as [t [<- _]].
    apply In_block_inv in H2 as (_ & Hu & _). cbn [ofUrl] in Hu. lia.
Qed.

(** Every activation started by [urls.map] holds the first batch. *)
Lemma startAll_tabs (cfg : Config) (k u0 : nat) (targets : list string) :
  let created := fst (dispatchLoop cfg true (S (numberOfTabsPerUrl cfg)) 0) in
  let suspended := snd (dispatchLoop cfg true (S (numberOfTabsPerUrl cfg)) 0) in
  length (fst (startAll cfg true k u0 targets)) = length targets
  /\ Forall (fun tb => tb = mkTabs suspended (map (fun t => (t, Running)) created))
       (fst (startAll cfg true k u0 targets)).
Proof.
  cbn zeta. revert u0. induction targets as [| target rest IH]; intros u0;
    cbn [startAll length].
  - split; [reflexivity | constructor].
  - unfold startTabs, resumeTabs.
    destruct (IH (S u0)) as [Hl Hf].
    destruct (dispatchLoop cfg true (S (numberOfTabsPerUrl cfg)) 0) as [created suspended].
    destruct (startAll cfg true k (S u0) rest) as [others later].
    cbn [fst snd length] in *. split; [f_equal; exact Hl |].
    constructor; [reflexivity | exact Hf].
Qed.

Lemma In_recordWorker (t t' : nat) (ws : list (nat * WorkerPhase)) :
  In (t', Running) (recordWorker t ws) -> In (t', Running) ws /\ t' <> t.
Proof.
  unfold recordWorker. intros H. apply in_map_iff in H as [[t0 p0] [E Hin]].
  unfold isWorker in E. cbn [fst snd] in E.
  destruct (Nat.eqb_spec t0 t) as [-> | Hne]; destruct p0; cbn in E; try discriminate;
    injection E as <-; split; try assumption; congruence.
Qed.

Lemma In_withoutWorker (t : nat) (p : WorkerPhase) (w : nat * WorkerPhase)
  (ws : list (nat * WorkerPhase)) :
  In w (withoutWorker t p ws) -> In w ws.
Proof. unfold withoutWorker. intros H. apply filter_In in H. apply H. Qed.

Lemma hasWorker_In (t : nat) (p : WorkerPhase) (ws : list (nat * WorkerPhase)) :
  hasWorker t p ws = true -> In (t, p) ws.
Proof.
  unfold hasWorker. intros H. apply existsb_exists in H as [[t0 p0] [Hin E]].
  unfold isWorker in E. cbn [fst snd] in E. apply andb_true_iff in E as [E1 E2].
  apply Nat.eqb_eq in E1. subst t0.
  destruct p0, p; cbn in E2; try discriminate; exact Hin.
Qed.


Ltac ledger :=
  split; [| split; [| split; [| split; [| split; [| split; [| split; [| split]]]]]]];
  cbn [dispatched cycleCount control tabs clickReportData globalClickCounter].

Lemma Ledger_not_idle (cfg : Config) (s : State) (u : nat) (tb : Tabs) :
  Ledger cfg s -> nth_error (tabs s) u = Some tb ->
  ~ (control s = NotStarted \/ control s = BetweenCycles).
Proof.
  intros (_ & _ & Hidle & _) Hu Hc. destruct (Hidle Hc) as [Ht _].
  rewrite Ht in Hu. destruct u; discriminate.
Qed.

(** Replacing one activation by one in the same phase with fewer workers
    still to count keeps the ledger. *)
Lemma Ledger_set_tabs (cfg : Config) (s : State) (u : nat) (old new : Tabs) :
  Ledger cfg s -> nth_error (tabs s) u = Some old ->
  (forall i, phase new = AwaitingWorkers i \/ phase new = Pausing i ->
             phase old = AwaitingWorkers i \/ phase old = Pausing i) ->
  (forall t, In (t, Running) (workers new) -> In (t, Running) (workers old)) ->
  Ledger cfg (set_tabs u new s).
Proof.
  intros HL Hu Hph Hws.
  pose proof (Ledger_not_idle cfg s u old HL Hu) as Hbusy.
  destruct HL as (Hnd & Hrange & Hidle & Hlen & Hcyc & Hidx & Hrnd & Hincl & Hrun).
  unfold set_tabs. ledger; try assumption.
  - intros Hc. exfalso. exact (Hbusy Hc).
  - rewrite length_replace. exact Hlen.
  - intros v tb i d Hv Hp. apply nth_error_replace in Hv as [[-> ->] | [_ Hv]].
    + apply (Hidx u old i d Hu). apply Hph. exact Hp.
    + apply (Hidx v tb i d Hv Hp).
  - intros v tb t Hv Ht. apply nth_error_replace in Hv as [[-> ->] | [_ Hv]].
    + apply (Hrun u old t Hu). apply Hws. exact Ht.
    + apply (Hrun v tb t Hv Ht).
Qed.

Lemma step_Ledger (cfg : Config) (event : Event) (s s' : State) :
  Ledger cfg s -> step cfg event s = Some s' -> Ledger cfg s'.
Proof.
  intros HL Hstep.
  pose proof HL as (Hnd & Hrange & Hidle & Hlen & Hcyc & Hidx & Hrnd & Hincl & Hrun).
  assert (Hbatch : forall i,
             dispatchLoop cfg true (S (numberOfTabsPerUrl cfg)) i
             = (seq i (batchSize cfg i),
                if batchSize cfg i =? 0 then Returned
                else AwaitingWorkers (i + batchSize cfg i - 1))
             /\ (batchSize cfg i = 0 <-> numberOfTabsPerUrl cfg <= i)
             /\ i + batchSize cfg i <= Nat.max (numberOfTabsPerUrl cfg) i).
  { intros i. split; [apply dispatchLoop_shape; lia |].
    destruct (batchSize_range cfg i) as (H1 & H2 & _). split; assumption. }
  destruct event as [| u t | u t | u t | u | u |]; cbn [step] in Hstep.
  - (* LoopTest *)
    assert (Hc : control s = NotStarted \/ control s = BetweenCycles).
    { destruct (control s); try discriminate; auto. }
    assert (Hgo : (if shouldContinue cfg s
                   then let (started, created) :=
                          startAll cfg true (cycleCount s) 0 (urls cfg) in
                        Some (mkState (globalClickCounter s) (clickReportData s)
                                (dispatched s ++ created) started InCycle (cycleCount s))
                   else Some (mkState (globalClickCounter s) (clickReportData s)
                                (dispatched s) (tabs s) Finished (cycleCount s)))
                  = Some s').
    { destruct (control s); try discriminate; exact Hstep. }
    clear Hstep. destruct (Hidle Hc) as [Htabs Hfresh].
    destruct (shouldContinue cfg s).
    + destruct (startAll_spec cfg (cycleCount s) 0 (urls cfg)) as [Hs _].
      destruct (startAll_tabs cfg (cycleCount s) 0 (urls cfg)) as [Hl Hf].
      destruct (Hbatch 0) as (Hshape & _ & Hmax).
      rewrite Hshape in Hs, Hf. cbn [fst snd] in Hs, Hf.
      set (b := batchSize cfg 0) in *.
      assert (HbT : b <= numberOfTabsPerUrl cfg) by lia.
      destruct (startAll cfg true (cycleCount s) 0 (urls cfg)) as [started created].
      cbn [fst snd] in *. subst created. injection Hgo as <-.
      rewrite Forall_forall in Hf.
      ledger.
      * apply NoDup_app_intro; [exact Hnd | apply NoDup_block; apply seq_NoDup |].
        intros d H1 H2. apply In_block_inv in H2 as (Hk & _). specialize (Hfresh d H1). lia.
      * intros d Hd. apply in_app_or in Hd as [Hd | Hd]; [apply Hrange; exact Hd |].
        apply In_block_inv in Hd as (Hk & Hu & Ht). apply in_seq in Ht. lia.
      * intros [H | H]; discriminate.
      * lia.
      * exact Hcyc.
      * intros u tb i d Hu Hp Hd Hk Hurl.
        rewrite (Hf tb (nth_error_In _ _ Hu)) in Hp. cbn [phase] in Hp.
        apply in_app_or in Hd as [Hd | Hd]; [specialize (Hfresh d Hd); lia |].
        apply In_block_inv in Hd as (_ & _ & Ht). apply in_seq in Ht.
        destruct (Nat.eqb_spec b 0) as [E | E]; [destruct Hp; discriminate |].
        destruct Hp as [Hp | Hp]; [injection Hp as <-; lia | discriminate].
      * exact Hrnd.
      * intros r Hr. apply in_or_app. left. apply Hincl. exact Hr.
      * intros u tb t Hu Ht.
        rewrite (Hf tb (nth_error_In _ _ Hu)) in Ht. cbn [workers] in Ht.
        apply in_map_iff in Ht as [t0 [E Ht0]]. injection E as ->.
        assert (Hlt : u < length started) by (apply nth_error_Some; congruence).
        split.
        -- apply in_or_app. right. apply In_block; [lia | exact Ht0].
        -- intros Hr. apply Hincl in Hr. specialize (Hfresh _ Hr). cbn [ofCycle] in Hfresh. lia.
    + injection Hgo as <-. ledger; try assumption.
      intros [H | H]; discriminate.
  - (* WorkerRecords *)
    destruct (nth_error (tabs s) u) as [tb |] eqn:Hu; [| discriminate].
    destruct (hasWorker t Running (workers tb)) eqn:Hw; [| discriminate].
    injection Hstep as <-. apply hasWorker_In in Hw.
    destruct (Hrun u tb t Hu Hw) as [Hin Hnot].
    pose proof (Ledger_set_tabs cfg s u tb (mkTabs (phase tb) (recordWorker t (workers tb)))
                  HL Hu (fun i H => H)
                  (fun t' H => proj1 (In_recordWorker t t' (workers tb) H)))
      as (K1 & K2 & K3 & K4 & K5 & K6 & _ & _ & K9).
    unfold set_tabs in *.
    cbn [dispatched cycleCount control tabs clickReportData globalClickCounter] in *.
    ledger; try assumption.
    + apply NoDup_app_intro; [exact Hrnd | constructor; [intros [] | constructor] |].
      intros d H1 [<- | []]. exact (Hnot H1).
    + intros r Hr. apply in_app_or in Hr as [Hr | [<- | []]]; [apply Hincl; exact Hr | exact Hin].
    + intros v tb' t' Hv Ht'.
      apply nth_error_replace in Hv as [[-> ->] | [Hne Hv]].
      * cbn [workers] in Ht'. apply In_recordWorker in Ht' as [Ht' Hne].
        destruct (Hrun u tb t' Hu Ht') as [H1 H2]. split; [exact H1 |].
        intros Hr. apply in_app_or in Hr as [Hr | [E | []]]; [exact (H2 Hr) |].
        injection E as E. congruence.
      * destruct (Hrun v tb' t' Hv Ht') as [H1 H2]. split; [exact H1 |].
        intros Hr. apply in_app_or in Hr as [Hr | [E | []]]; [exact (H2 Hr) |].
        injection E as E _. congruence.
  - (* WorkerFails *)
    destruct (nth_error (tabs s) u) as [tb |] eqn:Hu; [| discriminate].
    destruct (hasWorker t Running (workers tb)); [| discriminate].
    injection Hstep as <-. apply (Ledger_set_tabs cfg s u tb); [exact HL | exact Hu | auto |].
    intros t' H. apply (In_withoutWorker _ _ _ _ H).
  - (* WorkerSettles *)
    destruct (nth_error (tabs s) u) as [tb |] eqn:Hu; [| discriminate].
    destruct (hasWorker t Recorded (workers tb)); [| discriminate].
    injection Hstep as <-. apply (Ledger_set_tabs cfg s u tb); [exact HL | exact Hu | auto |].
    intros t' H. apply (In_withoutWorker _ _ _ _ H).
  - (* BatchSettled *)
    destruct (nth_error (tabs s) u) as [[ph ws] |] eqn:Hu; [| discriminate].
    destruct ph as [i | i |]; try discriminate.
    destruct ws as [| w0 ws]; [| discriminate].
    injection Hstep as <-. apply (Ledger_set_tabs cfg s u _ _ HL Hu).
    + intros j. cbn [phase]. destruct (shouldContinue cfg s); intros [H | H];
        try discriminate. injection H as <-. left. reflexivity.
    + intros t' [].
  - (* PauseOver *)
    destruct (nth_error (tabs s) u) as [[ph ws] |] eqn:Hu; [| discriminate].
    destruct ph as [i | i |]; try discriminate.
    pose proof (Ledger_not_idle cfg s u _ HL Hu) as Hbusy.
    assert (HuU : u < length (urls cfg)).
    { assert (u < length (tabs s)) by (apply nth_error_Some; congruence). lia. }
    assert (Hold : forall d, In d (dispatched s) -> ofCycle d = cycleCount s ->
                             ofUrl d = u -> ofTab d <= i).
    { intros d. apply (Hidx u _ i d Hu). right. reflexivity. }
    unfold resumeTabs in Hstep.
    destruct (shouldContinue cfg s).
    + destruct (Hbatch (i + 1)) as (Hshape & Hzero & Hmax).
      rewrite Hshape in Hstep. injection Hstep as <-.
      set (b := batchSize cfg (i + 1)) in *.
      assert (HbT : b = 0 \/ i + 1 + b <= numberOfTabsPerUrl cfg) by lia.
      ledger.
      * apply NoDup_app_intro; [exact Hnd | |].
        -- apply NoDup_map_injective; [| apply seq_NoDup].
           intros x y E. injection E as E. exact E.
        -- intros d H1 H2. apply in_map_iff in H2 as [t [<- Ht]]. apply in_seq in Ht.
           specialize (Hold _ H1 eq_refl eq_refl). cbn [ofTab] in Hold. lia.
      * intros d Hd. apply in_app_or in Hd as [Hd | Hd]; [apply Hrange; exact Hd |].
        apply in_map_iff in Hd as [t [<- Ht]]. apply in_seq in Ht.
        cbn [ofCycle ofUrl ofTab]. lia.
      * intros Hc. exfalso. exact (Hbusy Hc).
      * rewrite length_replace. exact Hlen.
      * exact Hcyc.
      * intros v tb j d Hv Hp Hd Hk Hurl.
        apply nth_error_replace in Hv as [[-> ->] | [Hne Hv]].
        -- cbn [phase] in Hp.
           destruct (Nat.eqb_spec b 0) as [E | E]; [destruct Hp; discriminate |].
           destruct Hp as [Hp | Hp]; [injection Hp as <- | discriminate].
           apply in_app_or in Hd as [Hd | Hd].
           ++ specialize (Hold d Hd Hk Hurl). lia.
           ++ apply in_map_iff in Hd as [t [<- Ht]]. apply in_seq in Ht. cbn [ofTab]. lia.
        -- apply in_app_or in Hd as [Hd | Hd]; [apply (Hidx v tb j d Hv Hp Hd Hk Hurl) |].
           apply in_map_iff in Hd as [t [<- Ht]]. cbn [ofUrl] in Hurl. congruence.
      * exact Hrnd.
      * intros r Hr. apply in_or_app. left. apply Hincl. exact Hr.
      * intros v tb t Hv Ht.
        apply nth_error_replace in Hv as [[-> ->] | [Hne Hv]].
        -- cbn [workers] in Ht. apply in_map_iff in Ht as [t0 [E Ht0]]. injection E as ->.
           split; [apply in_or_app; right; apply in_map; exact Ht0 |].
           intros Hr. apply Hincl in Hr. specialize (Hold _ Hr eq_refl eq_refl).
           apply in_seq in Ht0. cbn [ofTab] in Hold. lia.
        -- destruct (Hrun v tb t Hv Ht) as [H1 H2].
           split; [apply in_or_app; left; exact H1 | exact H2].
    + rewrite dispatchLoop_stopped in Hstep. cbn [map] in Hstep. injection Hstep as <-.
      rewrite app_nil_r.
      pose proof (Ledger_set_tabs cfg s u _ (mkTabs Returned []) HL Hu) as K.
      unfold set_tabs in K. apply K.
      * intros j [H | H]; discriminate.
      * intros t' [].
  - (* CycleSettled *)
    destruct (control s) eqn:Ec; try discriminate.
    destruct (allReturned (tabs s)); [| discriminate].
    destruct (shouldContinue cfg s); injection Hstep as <-.
    + ledger; try assumption.
      * intros d Hd. specialize (Hrange d Hd). lia.
      * intros _. split; [reflexivity |]. intros d Hd. specialize (Hrange d Hd). lia.
      * cbn. lia.
      * lia.
      * intros u tb i d Hu. destruct u; discriminate.
      * intros u tb t Hu. destruct u; discriminate.
    + ledger; try assumption.
      intros [H | H]; discriminate.
Qed.

Lemma Ledger_initial (cfg : Config) : Ledger cfg initialState.
Proof.
  unfold initialState. ledger.
  - constructor.
  - intros d [].
  - intros _. split; [reflexivity | intros d []].
  - cbn. lia.
  - lia.
  - intros u tb i d Hu. destruct u; discriminate.
  - constructor.
  - intros r [].
  - intros u tb t Hu. destruct u; discriminate.
Qed.

Lemma runEvents_Ledger (cfg : Config) (events : list Event) (s : State) :
  runEvents cfg events initialState = Some s -> Ledger cfg s.
Proof.
  apply runEvents_invariant.
  - intros event s0 s1. apply step_Ledger.
  - apply Ledger_initial.
Qed.

(** X17. No tab worker is created twice: the workers of a campaign are
    pairwise distinct in cycle, URL and tab index, the cycle is between 1
    and the current cycle, the URL is a position of the list and the tab
    index is below [numberOfTabsPerUrl]. *)
Theorem every_worker_is_created_once (cfg : Config) (events : list Event) (s : State) :
  runEvents cfg events initialState = Some s ->
  NoDup (dispatched s)
  /\ forall d, In d (dispatched s) ->
       1 <= ofCycle d <= cycleCount s
       /\ ofUrl d < length (urls cfg)
       /\ ofTab d < numberOfTabsPerUrl cfg.
Proof.
  intros Hrun. destruct (runEvents_Ledger cfg events s Hrun) as (H1 & H2 & _).
  split; assumption.
Qed.

Lemma every_worker_is_created_once_witness :
  exists s,
    runEvents threeUrls lastFirst initialState = Some s
    /\ NoDup (dispatched s)
    /\ length (dispatched s) = 3.
Proof.
  destruct (runEvents threeUrls lastFirst initialState) as [s |] eqn:E;
    [| vm_compute in E; discriminate].
  exists s. split; [reflexivity |].
  destruct (every_worker_is_created_once threeUrls lastFirst s E) as [Hnd _].
  split; [exact Hnd |].
  vm_compute in E. injection E as <-. reflexivity.
Defined.



End CampaignExtras.
(** ** The telemetry of the sequential campaign *)

Module RecorderExtras.
Import Async Engine AsyncFacts EngineFacts WorkerFacts Automated.
Local Open Scope nat_scope.
Local Open Scope list_scope.

(** What [incrementClickCounter] does to the two kinds of files. *)
Lemma run_incrementClickCounter_files (env : Env) (data : ClickData) (w : World) :
  let record := mkClickRecord (globalClickCounter w + 1) (clock w) data in
  let w' := snd (run (incrementClickCounter env data) w) in
  globalClickCounter w' = globalClickCounter w + 1
  /\ clickReportData w' = clickReportData w ++ [record]
  /\ dataCsv w' = (if appendOk env then appended (dataCsv w) record else dataCsv w)
  /\ reportFiles w' =
     (if ((globalClickCounter w + 1) mod 25 =? 0) && writeOk env
      then reportFiles w ++ [clickReportData w ++ [record]]
      else reportFiles w).
Proof.
  cbn zeta. unfold incrementClickCounter.
  rewrite run_bind, run_modify, run_bind, run_await, run_addClickRecord.
  cbn zeta.
  set (w1 := if appendOk env then _ else _).
  assert (H1 : globalClickCounter w1 = globalClickCounter w + 1
               /\ clickReportData w1 =
                  clickReportData w
                  ++ [mkClickRecord (globalClickCounter w + 1) (clock w) data]
               /\ dataCsv w1 =
                  (if appendOk env
                   then appended (dataCsv w)
                          (mkClickRecord (globalClickCounter w + 1) (clock w) data)
                   else dataCsv w)
               /\ reportFiles w1 = reportFiles w).
  { subst w1. destruct (appendOk env); cbn; repeat split; reflexivity. }
  clearbody w1. destruct H1 as (Hc & Hr & Hd & Hf).
  rewrite run_bind, run_gets, run_bind, run_log, run_bind, run_gets.
  cbn [globalClickCounter set_console]. rewrite Hc.
  destruct ((globalClickCounter w + 1) mod 25 =? 0).
  - rewrite run_bind, run_await, run_generateCSVReport.
    destruct (writeOk env); cbn [andb].
    + rewrite run_bind, run_gets.
      cbn [globalClickCounter set_console set_reportFiles]. rewrite Hc.
      destruct ((globalClickCounter w + 1) mod 10 =? 0).
      * rewrite run_bind, run_delay, run_ret. cbn. rewrite Hf, Hr.
        repeat split; (assumption || reflexivity).
      * rewrite run_bind, run_ret, run_ret. cbn. rewrite Hf, Hr.
        repeat split; (assumption || reflexivity).
    + cbn. repeat split; assumption.
  - rewrite run_bind, run_ret, run_bind, run_gets.
    cbn [globalClickCounter set_console andb]. rewrite Hc.
    destruct ((globalClickCounter w + 1) mod 10 =? 0).
    + rewrite run_bind, run_delay, run_ret. cbn. repeat split; assumption.
    + rewrite run_bind, run_ret, run_ret. cbn. repeat split; assumption.
Qed.

(** What one session of [automated.js] does to the telemetry. *)
Lemma createClickWorker_telemetry (env : Env) (target : string) (i : nat) (w : World) :
  let w' := snd (run (createClickWorker env target i) w) in
  fst (run (createClickWorker env target i) w) = Ok tt
  /\ if reaches env
     then exists r,
         clickNumber r = globalClickCounter w + 1
         /\ globalClickCounter w' = globalClickCounter w + 1
         /\ clickReportData w' = clickReportData w ++ [r]
         /\ dataCsv w' = (if appendOk env then appended (dataCsv w) r else dataCsv w)
         /\ reportFiles w' =
            (if ((globalClickCounter w + 1) mod 25 =? 0) && writeOk env
             then reportFiles w ++ [clickReportData w ++ [r]]
             else reportFiles w)
     else telemetry w' = telemetry w.
Proof.
  cbn zeta. unfold createClickWorker, reaches, telemetry.
  exec.
  destruct (launchOk env) eqn:El; exec; [| split; reflexivity].
  destruct (newPageOk env) eqn:En; exec;
    [| destruct (browserCloseOk env) eqn:Ec; exec; split; reflexivity].
  destruct (gotoOk env) eqn:Eg; exec;
    [| destruct (pageCloseOk env) eqn:Ep; exec;
       destruct (browserCloseOk env) eqn:Ec; exec; split; reflexivity].
  destruct (titleOk env) eqn:Et; exec;
    [| destruct (pageCloseOk env) eqn:Ep; exec;
       destruct (browserCloseOk env) eqn:Ec; exec; split; reflexivity].
  match goal with
  | |- context [run (interact env) ?W] =>
      destruct (run_quiet_nothrow (interact env) W (Quiet_interact env)
                  (NoThrow_interact env)) as (wi & Hi & Hcore)
  end.
  rewrite Hi; unfold core in Hcore; injection Hcore as H1 H2 H3 H4 H5 H6 H7 H8 H9 H10.
  simpl_world_all. exec.
  match goal with
  | |- context [run (incrementClickCounter env ?d) ?W] =>
      pose proof (run_incrementClickCounter_files env d W) as Hfiles;
      destruct (run_incrementClickCounter env d W) as (wc & Hc & _)
  end.
  cbn zeta in Hfiles. rewrite Hc in *. cbn [snd] in Hfiles.
  destruct Hfiles as (F1 & F2 & F3 & F4).
  rewrite H1, H2, H3, H4 in *.
  cbn [andb].
  destruct (reportFails env wi) eqn:Erep;
    exec;
    destruct (pageCloseOk env) eqn:Ep; exec; destruct (browserCloseOk env) eqn:Ec; exec;
    (split; [reflexivity |]);
    eexists; (split; [| split; [exact F1 | split; [exact F2 | split; [exact F3 | exact F4]]]]);
    reflexivity.
Qed.


(** *** Invariants of the sequential campaign *)

Section Lifting.

(** A property of the telemetry that every session of a family keeps. *)
Variable P : World -> Prop.
Variable family : Env -> Prop.

Hypothesis P_telemetry : forall w v, telemetry w = telemetry v -> P w -> P v.

Hypothesis P_session :
  forall env target i w,
    family env -> P w -> P (snd (run (createClickWorker env target i) w)).

Lemma processUrls_keeps (envs : nat -> nat -> nat -> Env) (targets : list string)
  (batchCount urlIndex : nat) (w : World) :
  (forall b u i, family (envs b u i)) -> P w ->
  fst (run (processUrls envs targets batchCount urlIndex) w) = Ok tt
  /\ P (snd (run (processUrls envs targets batchCount urlIndex) w)).
Proof.
  intros Hfam. revert urlIndex w.
  induction targets as [| target rest IH]; intros urlIndex w Hw; cbn [processUrls].
  - exec. split; [reflexivity | exact Hw].
  - unfold openEnhancedTabs. cbn [clickLoop]. exec.
    match goal with
    | |- context [run (createClickWorker ?e ?t ?i) ?W] =>
        assert (HW : P W) by (apply (P_telemetry w); [reflexivity | exact Hw]);
        pose proof (P_session e t i W (Hfam _ _ _) HW) as Hnext;
        destruct (createClickWorker_spec e t i W) as (w1 & Hrun & _)
    end.
    rewrite Hrun in *. cbn [snd] in Hnext. simpl_world_all. exec.
    apply IH. exact Hnext.
Qed.

Lemma runBatches_keeps (envs : nat -> nat -> nat -> Env) (targets : list string)
  (batchCount batches : nat) (w : World) :
  (forall b u i, family (envs b u i)) -> P w ->
  fst (run (runBatches envs targets batchCount batches) w) = Ok tt
  /\ P (snd (run (runBatches envs targets batchCount batches) w)).
Proof.
  intros Hfam. revert batchCount w.
  induction batches as [| k IH]; intros batchCount w Hw; cbn [runBatches].
  - exec. split; [reflexivity | exact Hw].
  - exec.
    destruct (processUrls_keeps envs targets batchCount 0 w Hfam Hw) as [Hok Hnext].
    destruct (run (processUrls envs targets batchCount 0) w) as [r w1].
    cbn [fst snd] in *. subst r. exec.
    apply IH. apply (P_telemetry w1); [reflexivity | exact Hnext].
Qed.

End Lifting.


Lemma Subseq_refl {X : Type} (l : list X) : Subseq l l.
Proof. induction l; constructor; assumption. Qed.

Lemma Subseq_snoc_skip {X : Type} (l l' : list X) (x : X) :
  Subseq l l' -> Subseq l (l' ++ [x]).
Proof.
  induction 1; cbn [app]; try (constructor; assumption).
  apply Subseq_skip. constructor.
Qed.

Lemma Subseq_snoc_take {X : Type} (l l' : list X) (x : X) :
  Subseq l l' -> Subseq (l ++ [x]) (l' ++ [x]).
Proof.
  induction 1; cbn [app]; try (constructor; assumption).
  apply Subseq_take. constructor.
Qed.

Lemma appended_csvAfter (file : option (list CsvLine)) (rs : list ClickRecord)
  (r : ClickRecord) :
  appended (csvAfter file rs) r = csvAfter file (rs ++ [r]).
Proof.
  unfold csvAfter, appended. destruct file as [old |].
  - rewrite map_app, app_assoc. reflexivity.
  - destruct rs as [| r0 rs]; [reflexivity |].
    cbn [app map]. rewrite map_app. reflexivity.
Qed.

Lemma Numbered_length (w : World) :
  Numbered w -> length (clickReportData w) = globalClickCounter w.
Proof.
  unfold Numbered. intros H. apply (f_equal (@length nat)) in H.
  rewrite length_map, length_seq in H. exact H.
Qed.

Lemma div25_succ (c : nat) :
  (c + 1) / 25 = c / 25 + (if (c + 1) mod 25 =? 0 then 1 else 0).
Proof.
  pose proof (Nat.div_mod_eq c 25) as H1. pose proof (Nat.div_mod_eq (c + 1) 25) as H2.
  pose proof (Nat.mod_upper_bound c 25 ltac:(lia)) as B1.
  pose proof (Nat.mod_upper_bound (c + 1) 25 ltac:(lia)) as B2.
  destruct (Nat.eqb_spec ((c + 1) mod 25) 0) as [E | E]; lia.
Qed.

Lemma Numbered_session (env : Env) (target : string) (i : nat) (w : World) :
  Numbered w -> Numbered (snd (run (createClickWorker env target i) w)).
Proof.
  intros H. destruct (createClickWorker_telemetry env target i w) as [_ Ht].
  lazy zeta in Ht. unfold Numbered in *.
  set (w' := snd (run (createClickWorker env target i) w)) in *. clearbody w'.
  destruct (reaches env).
  - destruct Ht as (r & Hn & Hc & Hr & _). rewrite Hc, Hr, map_app, H.
    change (map clickNumber [r]) with [clickNumber r].
    rewrite Hn, Nat.add_1_r, seq_S. reflexivity.
  - unfold telemetry in Ht. injection Ht as -> -> _ _. exact H.
Qed.

Lemma Snapshots_session (env : Env) (target : string) (i : nat) (w : World) :
  Snapshots w -> Snapshots (snd (run (createClickWorker env target i) w)).
Proof.
  intros (Hnum & Hall & Hcount).
  pose proof (Numbered_session env target i w Hnum) as Hnum'.
  pose proof (Numbered_length w Hnum) as Hlen.
  destruct (createClickWorker_telemetry env target i w) as [_ Ht].
  lazy zeta in Ht.
  set (w' := snd (run (createClickWorker env target i) w)) in *. clearbody w'.
  split; [exact Hnum' |]. destruct (reaches env).
  - destruct Ht as (r & Hn & Hc & Hr & _ & Hf). rewrite Hc, Hr, Hf.
    pose proof (div25_succ (globalClickCounter w)) as Hdiv.
    assert (Hold : Forall (fun f => exists k,
                              1 <= k /\ 25 * k <= globalClickCounter w + 1
                              /\ f = firstn (25 * k) (clickReportData w ++ [r]))
                     (reportFiles w)).
    { apply Forall_impl with (2 := Hall). intros f (k & Hk & Hle & ->).
      exists k. split; [exact Hk |]. split; [lia |].
      rewrite firstn_app. replace (25 * k - length (clickReportData w)) with 0 by lia.
      cbn [firstn]. rewrite app_nil_r. reflexivity. }
    destruct (Nat.eqb_spec ((globalClickCounter w + 1) mod 25) 0) as [E | E];
      [destruct (writeOk env) |]; cbn [andb].
    + split.
      * apply Forall_app. split; [exact Hold |]. constructor; [| constructor].
        exists ((globalClickCounter w + 1) / 25).
        pose proof (Nat.div_mod_eq (globalClickCounter w + 1) 25) as Hd.
        split; [lia |]. split; [lia |].
        rewrite firstn_all2; [reflexivity |]. rewrite length_app. cbn [length]. lia.
      * rewrite length_app. cbn [length]. lia.
    + split; [exact Hold | lia].
    + split; [exact Hold | lia].
  - unfold telemetry in Ht. injection Ht as Hc Hr _ Hf. rewrite Hc, Hr, Hf.
    split; assumption.
Qed.

Lemma telemetry_Numbered (w v : World) : telemetry w = telemetry v -> Numbered w -> Numbered v.
Proof. unfold telemetry, Numbered. intros E. injection E as -> -> _ _. trivial. Qed.

Lemma telemetry_Snapshots (w v : World) :
  telemetry w = telemetry v -> Snapshots w -> Snapshots v.
Proof.
  intros E (H1 & H2 & H3). pose proof (telemetry_Numbered w v E H1) as H1'.
  unfold telemetry in E. injection E as Hc Hr _ Hf.
  split; [exact H1' |]. rewrite <- Hc, <- Hr, <- Hf. split; assumption.
Qed.

(** X19. In the sequential campaign of [automated.js], whatever fails in
    any session and for any number of batches, the run ends without an
    exception, the records carry the click numbers 1, 2, ... up to the
    counter in order, and there are as many records as clicks counted. *)
Theorem sequential_records_are_numbered
  (envs : nat -> nat -> nat -> Env) (batches : nat) (file : option (list CsvLine)) :
  let done := run (runEnhancedAutomation envs batches) (startWorld file) in
  fst done = Ok tt
  /\ map clickNumber (clickReportData (snd done)) = seq 1 (globalClickCounter (snd done))
  /\ length (clickReportData (snd done)) = globalClickCounter (snd done).
Proof.
  cbn zeta. unfold runEnhancedAutomation.
  destruct (runBatches_keeps Numbered (fun _ => True) telemetry_Numbered
              (fun env target i w _ => Numbered_session env target i w)
              envs urls 1 batches (startWorld file) (fun _ _ _ => I) eq_refl)
    as [Hok Hnum].
  split; [exact Hok |]. split; [exact Hnum | apply Numbered_length; exact Hnum].
Qed.

Lemma EverySnapshot_session (env : Env) (target : string) (i : nat) (w : World) :
  writeOk env = true ->
  EverySnapshot w -> EverySnapshot (snd (run (createClickWorker env target i) w)).
Proof.
  unfold EverySnapshot. intros Hw H.
  destruct (createClickWorker_telemetry env target i w) as [_ Ht].
  lazy zeta in Ht.
  set (w' := snd (run (createClickWorker env target i) w)) in *. clearbody w'.
  destruct (reaches env).
  - destruct Ht as (r & _ & Hc & _ & _ & Hf). rewrite Hc, Hf, Hw, andb_true_r.
    rewrite div25_succ.
    destruct ((globalClickCounter w + 1) mod 25 =? 0);
      [rewrite length_app; cbn [length] |]; lia.
  - unfold telemetry in Ht. injection Ht as Hc _ _ Hf. rewrite Hc, Hf. exact H.
Qed.

Lemma telemetry_EverySnapshot (w v : World) :
  telemetry w = telemetry v -> EverySnapshot w -> EverySnapshot v.
Proof.
  unfold telemetry, EverySnapshot. intros E. injection E as Hc _ _ Hf.
  rewrite <- Hc, <- Hf. trivial.
Qed.

(** X20. Every periodic report file of the sequential campaign holds
    exactly the first [25 * k] records for some [k >= 1]; there is at most
    one file per 25 clicks counted, and exactly one when no report write
    fails. *)
Theorem periodic_reports_are_snapshots
  (envs : nat -> nat -> nat -> Env) (batches : nat) (file : option (list CsvLine)) :
  let w := snd (run (runEnhancedAutomation envs batches) (startWorld file)) in
  Forall (fun f => exists k,
              1 <= k /\ 25 * k <= globalClickCounter w
              /\ length f = 25 * k
              /\ f = firstn (25 * k) (clickReportData w))
    (reportFiles w)
  /\ length (reportFiles w) <= globalClickCounter w / 25
  /\ ((forall b u i, writeOk (envs b u i) = true) ->
      length (reportFiles w) = globalClickCounter w / 25).
Proof.
  cbn zeta. unfold runEnhancedAutomation.
  assert (Hall' : (forall b u i, writeOk (envs b u i) = true) ->
                  EverySnapshot (snd (run (runBatches envs urls 1 batches)
                                        (startWorld file)))).
  { intros Hw.
    apply (runBatches_keeps EverySnapshot (fun env => writeOk env = true)
             telemetry_EverySnapshot EverySnapshot_session
             envs urls 1 batches (startWorld file) Hw).
    reflexivity. }
  assert (H0 : Snapshots (startWorld file)).
  { split; [reflexivity |]. split; [constructor | cbn; lia]. }
  destruct (runBatches_keeps Snapshots (fun _ => True) telemetry_Snapshots
              (fun env target i w _ => Snapshots_session env target i w)
              envs urls 1 batches (startWorld file) (fun _ _ _ => I) H0)
    as [_ (Hnum & Hall & Hcount)].
  split; [| split; [exact Hcount | exact Hall']].
  pose proof (Numbered_length _ Hnum) as Hlen.
  apply Forall_impl with (2 := Hall). intros f (k & Hk & Hle & ->).
  exists k. split; [exact Hk |]. split; [exact Hle |]. split; [| reflexivity].
  apply firstn_length_le. lia.
Qed.


Lemma periodic_reports_are_snapshots_witness :
  let w := snd (run (runEnhancedAutomation (fun _ _ _ => Strategy.exampleEnv) 3)
                  (startWorld None)) in
  length (reportFiles w) = globalClickCounter w / 25.
Proof.
  cbn zeta.
  destruct (periodic_reports_are_snapshots (fun _ _ _ => Strategy.exampleEnv) 3 None)
    as (_ & _ & Hall).
  apply Hall. intros b u i. reflexivity.
Defined.

Lemma CsvRows_session (file : option (list CsvLine)) (env : Env) (target : string)
  (i : nat) (w : World) :
  CsvRows file w -> CsvRows file (snd (run (createClickWorker env target i) w)).
Proof.
  intros (rs & Hd & Hs).
  destruct (createClickWorker_telemetry env target i w) as [_ Ht].
  lazy zeta in Ht.
  set (w' := snd (run (createClickWorker env target i) w)) in *. clearbody w'.
  unfold CsvRows. destruct (reaches env).
  - destruct Ht as (r & _ & _ & Hr & Hf & _). rewrite Hr, Hf, Hd.
    destruct (appendOk env).
    + exists (rs ++ [r]). split; [apply appended_csvAfter | apply Subseq_snoc_take; exact Hs].
    + exists rs. split; [reflexivity | apply Subseq_snoc_skip; exact Hs].
  - unfold telemetry in Ht. injection Ht as _ Hr Hf _. rewrite Hr, Hf.
    exists rs. split; assumption.
Qed.

Lemma CsvMirror_session (file : option (list CsvLine)) (env : Env) (target : string)
  (i : nat) (w : World) :
  appendOk env = true ->
  CsvMirror file w -> CsvMirror file (snd (run (createClickWorker env target i) w)).
Proof.
  unfold CsvMirror. intros Ha Hd.
  destruct (createClickWorker_telemetry env target i w) as [_ Ht].
  lazy zeta in Ht.
  set (w' := snd (run (createClickWorker env target i) w)) in *. clearbody w'.
  destruct (reaches env).
  - destruct Ht as (r & _ & _ & Hr & Hf & _). rewrite Hr, Hf, Hd, Ha.
    apply appended_csvAfter.
  - unfold telemetry in Ht. injection Ht as _ Hr Hf _. rewrite Hr, Hf. exact Hd.
Qed.

Lemma telemetry_CsvRows (file : option (list CsvLine)) (w v : World) :
  telemetry w = telemetry v -> CsvRows file w -> CsvRows file v.
Proof.
  unfold telemetry, CsvRows. intros E. injection E as _ Hr Hf _.
  rewrite <- Hr, <- Hf. trivial.
Qed.

Lemma telemetry_CsvMirror (file : option (list CsvLine)) (w v : World) :
  telemetry w = telemetry v -> CsvMirror file w -> CsvMirror file v.
Proof.
  unfold telemetry, CsvMirror. intros E. injection E as _ Hr Hf _.
  rewrite <- Hr, <- Hf. trivial.
Qed.

(** X21. In the sequential campaign [data.csv] is the file found at the
    start followed by the rows of some of the records, in the order of
    the records, under one header line that is written only when the file
    did not exist; when no append fails every record has its row. *)
Theorem data_csv_gets_its_header_once
  (envs : nat -> nat -> nat -> Env) (batches : nat) (file : option (list CsvLine)) :
  let w := snd (run (runEnhancedAutomation envs batches) (startWorld file)) in
  (exists rs, dataCsv w = csvAfter file rs /\ Subseq rs (clickReportData w))
  /\ ((forall b u i, appendOk (envs b u i) = true) ->
      dataCsv w = csvAfter file (clickReportData w)).
Proof.
  cbn zeta. unfold runEnhancedAutomation. split.
  - apply (runBatches_keeps (CsvRows file) (fun _ => True) (telemetry_CsvRows file)
             (fun env target i w _ => CsvRows_session file env target i w)
             envs urls 1 batches (startWorld file) (fun _ _ _ => I)).
    exists []. split; [| constructor].
    unfold csvAfter, startWorld. cbn. destruct file; [rewrite app_nil_r |]; reflexivity.
  - intros Ha.
    apply (runBatches_keeps (CsvMirror file) (fun env => appendOk env = true)
             (telemetry_CsvMirror file) (CsvMirror_session file)
             envs urls 1 batches (startWorld file) Ha).
    unfold CsvMirror, csvAfter, startWorld. cbn.
    destruct file; [rewrite app_nil_r |]; reflexivity.
Qed.


Lemma data_csv_gets_its_header_once_witness :
  let w := snd (run (runEnhancedAutomation (fun _ _ _ => Strategy.exampleEnv) 2)
                  (startWorld None)) in
  dataCsv w = csvAfter None (clickReportData w).
Proof.
  cbn zeta.
  destruct (data_csv_gets_its_header_once (fun _ _ _ => Strategy.exampleEnv) 2 None)
    as (_ & Hall).
  apply Hall. intros b u i. reflexivity.
Defined.

Lemma run_runBatches (envs : nat -> nat -> nat -> Env) (targets : list string)
  (first batches : nat) (w : World) :
  exists w',
    run (runBatches envs targets first batches) w = (Ok tt, w')
    /\ navigations w' = navigations w ++ visited opensPage envs targets first batches
    /\ recordedUrls w' = recordedUrls w ++ visited reaches envs targets first batches.
Proof.
  revert first w. induction batches as [| k IH]; intros first w;
    cbn [runBatches]; unfold visited; cbn [seq flat_map].
  - exec. eexists. split; [reflexivity |]. rewrite !app_nil_r. split; reflexivity.
  - exec. destruct (run_processUrls envs targets first 0 w) as (w1 & Hrun & Hnav & Hrec).
    rewrite Hrun. exec.
    match goal with
    | |- context [run (runBatches envs targets ?b k) ?W] =>
        destruct (IH b W) as (w2 & Hrun2 & Hnav2 & Hrec2)
    end.
    exists w2. split; [exact Hrun2 |].
    unfold visited in Hnav2, Hrec2. unfold recordedUrls in *. simpl_world_all.
    replace (first + 1) with (S first) in * by lia.
    rewrite Hnav2, Hrec2, Hnav, Hrec, <- !app_assoc. split; reflexivity.
Qed.

Lemma sessionsSuchThat_all (p : Env -> bool) (envs : nat -> nat -> nat -> Env)
  (targets : list string) (b u : nat) :
  (forall b u i, p (envs b u i) = true) -> sessionsSuchThat p envs targets b u = targets.
Proof.
  intros Hp. revert u. induction targets as [| t rest IH]; intros u;
    cbn [sessionsSuchThat]; [reflexivity |].
  rewrite Hp, IH. reflexivity.
Qed.

Lemma visited_all (p : Env -> bool) (envs : nat -> nat -> nat -> Env)
  (targets : list string) (first batches : nat) :
  (forall b u i, p (envs b u i) = true) ->
  visited p envs targets first batches = concat (repeat targets batches).
Proof.
  intros Hp. unfold visited. revert first.
  induction batches as [| k IH]; intros first; cbn [seq flat_map repeat concat];
    [reflexivity |].
  rewrite (sessionsSuchThat_all p envs targets first 0 Hp), IH. reflexivity.
Qed.

(** X22. [runEnhancedAutomation] of [automated.js] visits the ten URLs
    in list order, batch after batch: the navigations are the URLs whose
    session obtained a page and the records the URLs whose session reached
    the recording step, each in list order within its batch; when every
    session gets that far a campaign of [n] batches leaves [10 * n]
    records, the URL list repeated [n] times. *)
Theorem batches_visit_the_urls_in_list_order
  (envs : nat -> nat -> nat -> Env) (batches : nat) (w : World) :
  let done := run (runEnhancedAutomation envs batches) w in
  fst done = Ok tt
  /\ navigations (snd done) = navigations w ++ visited opensPage envs urls 1 batches
  /\ recordedUrls (snd done) = recordedUrls w ++ visited reaches envs urls 1 batches
  /\ ((forall b u i, reaches (envs b u i) = true) ->
      recordedUrls (snd done) = recordedUrls w ++ concat (repeat urls batches)
      /\ length (clickReportData (snd done)) = length (clickReportData w) + 10 * batches).
Proof.
  cbn zeta. unfold runEnhancedAutomation.
  destruct (run_runBatches envs urls 1 batches w) as (w' & Hrun & Hnav & Hrec).
  rewrite Hrun. cbn [fst snd].
  split; [reflexivity |]. split; [exact Hnav |]. split; [exact Hrec |].
  intros Hall. rewrite (visited_all reaches envs urls 1 batches Hall) in Hrec.
  split; [exact Hrec |].
  apply (f_equal (@length string)) in Hrec. unfold recordedUrls in Hrec.
  rewrite length_app, !length_map in Hrec. rewrite Hrec. f_equal.
  clear. induction batches as [| k IH]; [reflexivity |].
  cbn [repeat concat]. rewrite length_app, IH. cbn [urls length]. lia.
Qed.

Lemma batches_visit_the_urls_in_list_order_witness :
  let done := run (runEnhancedAutomation (fun _ _ _ => Strategy.exampleEnv) 2)
                initialWorld in
  recordedUrls (snd done) = recordedUrls initialWorld ++ concat (repeat urls 2)
  /\ length (clickReportData (snd done)) = length (clickReportData initialWorld) + 10 * 2.
Proof.
  cbn zeta.
  destruct (batches_visit_the_urls_in_list_order (fun _ _ _ => Strategy.exampleEnv) 2
              initialWorld) as (_ & _ & _ & Hall).
  apply Hall. intros b u i. reflexivity.
Defined.

End RecorderExtras.

(** ** Completions that overlap *)

Module RaceExtras.
Import Async Engine AsyncFacts EngineFacts Pool.
Local Open Scope nat_scope.
Local Open Scope list_scope.

(** X23. When two sessions complete while [data.csv] does not exist and
    the second tests for the file before the append of the first has
    resolved, both write the header line: the file then holds a header,
    the first row, a second header and the second row.  This holds for
    both scripts. *)
Theorem concurrent_first_appends_write_two_headers
  (script : Script) (first second : Job) :
  appendOk (fst first) = true -> appendOk (fst second) = true ->
  exists w pool,
    runSchedule [0; 1; 0; 1] (completions script [first; second]) initialWorld
    = Some (w, pool)
    /\ dataCsv w
       = Some [ HeaderLine; RowLine (mkClickRecord 1 0 (snd first));
                HeaderLine; RowLine (mkClickRecord 2 0 (snd second)) ]
    /\ map clickNumber (clickReportData w) = [1; 2].
Proof.
  intros H1 H2. destruct first as [env1 data1], second as [env2 data2].
  cbn [fst snd] in *.
  destruct script as [| M]; cbn; rewrite H1; cbn; rewrite H2; cbn;
    eexists _, _; (split; [reflexivity |]); split; reflexivity.
Qed.

Lemma concurrent_first_appends_write_two_headers_witness :
  appendOk Strategy.exampleEnv = true
  /\ exists w pool,
      runSchedule [0; 1; 0; 1]
        (completions AutomatedScript
           [(Strategy.exampleEnv, Strategy.exampleData);
            (Strategy.exampleEnv, Strategy.exampleData)]) initialWorld
      = Some (w, pool)
      /\ dataCsv w
         = Some [ HeaderLine; RowLine (mkClickRecord 1 0 Strategy.exampleData);
                  HeaderLine; RowLine (mkClickRecord 2 0 Strategy.exampleData) ].
Proof.
  split; [reflexivity |].
  destruct (concurrent_first_appends_write_two_headers AutomatedScript
              (Strategy.exampleEnv, Strategy.exampleData)
              (Strategy.exampleEnv, Strategy.exampleData) eq_refl eq_refl)
    as (w & pool & Hrun & Hcsv & _).
  exists w, pool. split; [exact Hrun | exact Hcsv].
Defined.

End RaceExtras.

(** ** One session, from start to record *)

Module WorkerExtras.
Import Async Engine AsyncFacts EngineFacts WorkerFacts.
Local Open Scope nat_scope.
Local Open Scope list_scope.

Lemma Lasts_weaken {A : Type} (a b : N) (m : Co World A) :
  (b <= a)%N -> Lasts a m -> Lasts b m.
Proof.
  intros Hle Hm w. specialize (Hm w).
  destruct (fst (run m w)); lia.
Qed.

Lemma Lasts_ret {A : Type} (a : A) : Lasts 0 (ret a : Co World A).
Proof. intros w. cbn. lia. Qed.

Lemma Lasts_throw {A : Type} (n : N) (error : Error) : Lasts n (throw error : Co World A).
Proof. intros w. cbn. lia. Qed.

Lemma Lasts_bind {A B : Type} (a b : N) (m : Co World A) (f : A -> Co World B) :
  Lasts a m -> (forall x, Lasts b (f x)) -> Lasts (a + b) (bind m f).
Proof.
  intros Hm Hf w. rewrite run_bind. specialize (Hm w).
  destruct (run m w) as [[x | error] w1]; cbn [fst snd] in *.
  - specialize (Hf x w1). destruct (fst (run (f x) w1)); lia.
  - exact Hm.
Qed.

Lemma Lasts_tryCatch {A : Type} (a : N) (m : Co World A) (handler : Error -> Co World A) :
  Lasts a m -> (forall error, Lasts a (handler error)) -> Lasts a (tryCatch m handler).
Proof.
  intros Hm Hh w. rewrite run_tryCatch. specialize (Hm w).
  destruct (run m w) as [[x | error] w1]; cbn [fst snd] in *.
  - exact Hm.
  - specialize (Hh error w1). destruct (fst (run (handler error) w1)); lia.
Qed.

Lemma Lasts_log (line : LogLine) : Lasts 0 (log line).
Proof. intros w. cbn. lia. Qed.

Lemma Lasts_delay (ms : N) : Lasts ms (delay ms).
Proof. intros w. cbn. lia. Qed.

Lemma Lasts_click (element : Element) : Lasts 0 (click element).
Proof. intros w. unfold click. cbn [run]. destruct (clickFails element); cbn; lia. Qed.

Lemma Lasts_evaluate (element : Element) : Lasts 0 (evaluate element).
Proof.
  intros w. unfold evaluate. cbn [run]. destruct (evaluateFails element); cbn; lia.
Qed.

Lemma Lasts_querySelectorAll (env : Env) (selector : Selector) :
  Lasts 0 (querySelectorAll env selector).
Proof.
  intros w. unfold querySelectorAll. cbn [run].
  destruct (queryFails env selector); cbn; lia.
Qed.

Lemma Lasts_waitForBody (env : Env) : Lasts 0 (waitForBody env).
Proof. intros w. unfold waitForBody. cbn [run]. destruct (bodyOk env); cbn; lia. Qed.

Lemma Lasts_evaluateContent (env : Env) : Lasts 0 (evaluateContent env).
Proof.
  intros w. unfold evaluateContent. cbn [run]. destruct (contentOk env); cbn; lia.
Qed.

(** A step that may take no time, followed by one that lasts. *)
Lemma Lasts_then {A B : Type} (n : N) (m : Co World A) (f : A -> Co World B) :
  Lasts 0 m -> (forall x, Lasts n (f x)) -> Lasts n (bind m f).
Proof. intros Hm Hf. apply (Lasts_bind 0 n); assumption. Qed.

Lemma Lasts_zero {A : Type} (n : N) (m : Co World A) : Lasts n m -> Lasts 0 m.
Proof. apply Lasts_weaken. lia. Qed.

Create HintDb lasts.
#[export] Hint Resolve Lasts_ret Lasts_throw Lasts_log Lasts_click Lasts_evaluate
  Lasts_querySelectorAll Lasts_waitForBody Lasts_evaluateContent : lasts.

Ltac steady :=
  repeat first
    [ solve [auto with lasts]
    | apply (Lasts_zero _ _ (Lasts_delay _))
    | apply Lasts_then; [| intros ?]
    | apply Lasts_tryCatch; [| intros ?]
    | match goal with |- Lasts _ (if ?b then _ else _) => destruct b end ].

Section AutomatedTiming.
Import Automated.

Lemma steady_clickFirstThatWorks (elements : list Element) :
  Lasts 0 (clickFirstThatWorks elements).
Proof.
  induction elements as [| element rest IH]; cbn [clickFirstThatWorks]; [steady |].
  unfold attempt. apply Lasts_then; [steady | intros [|]; [steady | exact IH]].
Qed.

Lemma steady_clickButtonWithText (env : Env) (searchText : string)
  (buttons : list Element) :
  Lasts 0 (clickButtonWithText env searchText buttons).
Proof.
  induction buttons as [| b rest IH]; cbn [clickButtonWithText]; [steady |].
  apply Lasts_then; [steady | intros _].
  destruct (strIncludes _ _); [steady | exact IH].
Qed.

Lemma steady_trySelectors (env : Env) (selectors : list SubmitSelector) :
  Lasts 0 (trySelectors env selectors).
Proof.
  induction selectors as [| s rest IH]; cbn [trySelectors]; [steady |].
  apply Lasts_then; [| intros [|]; [steady | exact IH]].
  apply Lasts_tryCatch; [| intros; steady].
  destruct s; cbn [trySelector]; (apply Lasts_then; [steady | intros els]).
  - apply steady_clickFirstThatWorks.
  - apply steady_clickButtonWithText.
Qed.

Lemma steady_tryFallbackSelectors (env : Env) (selectors : list Simple) :
  Lasts 0 (tryFallbackSelectors env selectors).
Proof.
  induction selectors as [| s rest IH]; cbn [tryFallbackSelectors]; [steady |].
  apply Lasts_then; [steady | intros els].
  apply Lasts_then; [apply steady_clickFirstThatWorks | intros [|]; [steady | exact IH]].
Qed.

Lemma steady_findAndClick (env : Env) : Lasts 0 (findAndClick env).
Proof.
  unfold findAndClick.
  apply Lasts_then; [apply steady_trySelectors | intros s1].
  apply Lasts_then.
  - destruct s1; [steady |]. apply Lasts_tryCatch; [| intros; steady].
    apply steady_tryFallbackSelectors.
  - intros s2. destruct s2; [steady |].
    apply Lasts_tryCatch; [| intros; steady].
    apply Lasts_then; [steady | intros els]. apply steady_clickFirstThatWorks.
Qed.

Lemma interact_lasts (env : Env) : Lasts 25000 (interact env).
Proof.
  unfold interact. apply Lasts_tryCatch.
  - apply Lasts_then; [steady | intros _].
    apply Lasts_then; [apply steady_findAndClick | intros [|]].
    + apply (Lasts_weaken (15000 + (0 + (20000 + 0)))); [lia |].
      apply Lasts_bind; [apply Lasts_delay | intros _].
      apply Lasts_bind; [steady | intros _].
      apply Lasts_bind; [apply Lasts_delay | intros _].
      steady.
    + apply Lasts_then; [steady | intros _]. apply Lasts_delay.
  - intros error. apply Lasts_then; [steady | intros _]. apply Lasts_delay.
Qed.

(** X27. A session of [automated.js] that appends a record has let at
    least 28.6 seconds of the script's own delays pass between its start
    and its end time (3.6 s after the navigation and at least 25 s in the
    interaction block, on every path through it); the record carries the
    tab number [clickIndex + 1] and the URL of the session. *)
Theorem recorded_session_lasts_28_seconds (env : Env) (target : string) (i : nat)
  (w : World) :
  reaches env = true ->
  exists r,
    clickReportData (snd (run (createClickWorker env target i) w))
    = clickReportData w ++ [r]
    /\ tabNumber (clickData r) = i + 1
    /\ url (clickData r) = target
    /\ sessionStartTime (clickData r) = clock w
    /\ (clock w + 28600 <= sessionEndTime (clickData r))%N.
Proof.
  unfold reaches. intros Hr.
  apply andb_prop in Hr as [Hr Et]. apply andb_prop in Hr as [Hr Eg].
  apply andb_prop in Hr as [El En].
  unfold createClickWorker. exec. rewrite El. exec. rewrite En. exec.
  rewrite Eg. exec. rewrite Et. exec.
  match goal with
  | |- context [run (interact env) ?W] =>
      pose proof (interact_lasts env W) as Hlast;
      destruct (run_quiet_nothrow (interact env) W (Quiet_interact env)
                  (NoThrow_interact env)) as (wi & Hi & Hcore)
  end.
  rewrite Hi in *; unfold core in Hcore; injection Hcore as H1 H2 H3 H4 H5 H6 H7 H8 H9 H10.
  simpl_world_all. exec.
  match goal with
  | |- context [run (incrementClickCounter env ?d) ?W] =>
      destruct (run_incrementClickCounter env d W)
        as (wc & Hc & Hcnt & Hrec & Hcomp & Hacq & Hcc & Hrel & Hnav)
  end.
  rewrite Hc.
  destruct (reportFails env wi) eqn:Erep;
    exec;
    destruct (pageCloseOk env) eqn:Ep; exec; destruct (browserCloseOk env) eqn:Ec; exec;
    rewrite Hrec, H2; eexists; (split; [reflexivity |]); cbn;
    repeat split; try reflexivity; lia.
Qed.
Lemma recorded_session_lasts_28_seconds_witness :
  reaches Strategy.exampleEnv = true
  /\ exists r,
      clickReportData
        (snd (run (createClickWorker Strategy.exampleEnv Strategy.exampleTarget 0)
                initialWorld))
      = clickReportData initialWorld ++ [r]
      /\ (clock initialWorld + 28600 <= sessionEndTime (clickData r))%N.
Proof.
  split; [reflexivity |].
  destruct (recorded_session_lasts_28_seconds Strategy.exampleEnv Strategy.exampleTarget 0
              initialWorld eq_refl) as (r & Hr & _ & _ & _ & Hend).
  exists r. split; [exact Hr | exact Hend].
Defined.

End AutomatedTiming.

Section BoundedTiming.
Import Bounded.
Variable MAX_CLICKS : nat.

Lemma steady_clickElementWithText (env : Env) (searchText : string)
  (elements : list Element) :
  Lasts 0 (clickElementWithText env searchText elements).
Proof.
  induction elements as [| e rest IH]; cbn [clickElementWithText]; [steady |].
  apply Lasts_then; [steady | intros _].
  destruct (textMatches env e searchText); [steady | exact IH].
Qed.

Lemma steady_clickFirstElement (elements : list Element) :
  Lasts 0 (clickFirstElement elements).
Proof. destruct elements; cbn [clickFirstElement]; steady. Qed.

Lemma steady_bounded_trySelectors (env : Env) (selectors : list SubmitSelector) :
  Lasts 0 (trySelectors env selectors).
Proof.
  induction selectors as [| s rest IH]; cbn [trySelectors]; [steady |].
  apply Lasts_then; [| intros [|]; [steady | exact IH]].
  apply Lasts_tryCatch; [| intros; steady].
  destruct s; cbn [trySelector]; (apply Lasts_then; [steady | intros els]).
  - apply steady_clickFirstElement.
  - apply steady_clickElementWithText.
Qed.

Lemma bounded_interact_lasts (env : Env) : Lasts 10000 (interact env).
Proof.
  unfold interact. apply Lasts_tryCatch.
  - apply Lasts_then; [steady | intros _].
    apply Lasts_then.
    + unfold findAndClick.
      apply Lasts_then; [apply steady_bounded_trySelectors | intros [|]; [steady |]].
      apply Lasts_tryCatch; [| intros; steady].
      apply Lasts_then; [steady | intros els]. apply steady_clickFirstElement.
    + intros [|].
      * apply (Lasts_weaken (10000 + 0)); [lia |].
        apply Lasts_bind; [apply Lasts_delay | intros _]. steady.
      * apply Lasts_then; [steady | intros _].
        apply (Lasts_weaken 15000); [lia | apply Lasts_delay].
  - intros error. apply Lasts_then; [steady | intros _].
    apply (Lasts_weaken 15000); [lia | apply Lasts_delay].
Qed.

(** X28. A tab worker of the bounded script that appends a record has let
    at least 15 seconds of the script's own delays pass between its start
    and its end time (5 s after the navigation and at least 10 s in the
    interaction block); the record carries the tab number [tabIndex + 1]
    and the URL of the worker. *)
Theorem recorded_tab_lasts_15_seconds (env : Env) (target : string) (i : nat)
  (w : World) :
  reaches env = true ->
  exists r,
    clickReportData (snd (run (createTabWorker MAX_CLICKS env target i) w))
    = clickReportData w ++ [r]
    /\ tabNumber (clickData r) = i + 1
    /\ url (clickData r) = target
    /\ sessionStartTime (clickData r) = clock w
    /\ (clock w + 15000 <= sessionEndTime (clickData r))%N.
Proof.
  unfold reaches. intros Hr.
  apply andb_prop in Hr as [Hr Et]. apply andb_prop in Hr as [Hr Eg].
  apply andb_prop in Hr as [El En].
  unfold createTabWorker. exec. rewrite El. exec. rewrite En. exec.
  rewrite Eg. exec. rewrite Et. exec.
  match goal with
  | |- context [run (interact env) ?W] =>
      pose proof (bounded_interact_lasts env W) as Hlast;
      destruct (run_quiet_nothrow (interact env) W (Quiet_bounded_interact env)
                  (NoThrow_bounded_interact env)) as (wi & Hi & Hcore)
  end.
  rewrite Hi in *; unfold core in Hcore; injection Hcore as H1 H2 H3 H4 H5 H6 H7 H8 H9 H10.
  simpl_world_all. exec.
  match goal with
  | |- context [run (incrementClickCounter MAX_CLICKS env ?d) ?W] =>
      destruct (run_bounded_incrementClickCounter MAX_CLICKS env d W)
        as (wc & Hc & Hcnt & Hrec & Hcomp & Hact & Hacq & Hcc & Hrel & Hnav)
  end.
  rewrite Hc. unfold budgetOutcome.
  destruct (MAX_CLICKS <=? globalClickCounter wi + 1)%nat eqn:EM;
    [destruct (writeOk env) eqn:Ew |];
    exec;
    destruct (pageCloseOk env) eqn:Ep; exec; destruct (browserCloseOk env) eqn:Ec; exec;
    rewrite Hrec, H2; eexists; (split; [reflexivity |]); cbn;
    repeat split; try reflexivity; lia.
Qed.
End BoundedTiming.

Lemma recorded_tab_lasts_15_seconds_witness :
  reaches Strategy.exampleEnv = true
  /\ exists r,
      clickReportData
        (snd (run (Bounded.createTabWorker 100 Strategy.exampleEnv Strategy.exampleTarget 0)
                initialWorld))
      = clickReportData initialWorld ++ [r]
      /\ (clock initialWorld + 15000 <= sessionEndTime (clickData r))%N.
Proof.
  split; [reflexivity |].
  destruct (recorded_tab_lasts_15_seconds 100 Strategy.exampleEnv Strategy.exampleTarget 0
              initialWorld eq_refl) as (r & Hr & _ & _ & _ & Hend).
  exists r. split; [exact Hr | exact Hend].
Defined.

Section BoundedWorker.
Import Bounded.

(** X24. A tab worker of the bounded script leaves [activeConnections] as
    it found it on every path, whatever fails: the increment at its start
    is always matched by the decrement of its [finally] block. *)
Theorem tab_worker_balances_active_connections
  (MAX_CLICKS : nat) (env : Env) (target : string) (i : nat) (w : World) :
  activeConnections (snd (run (createTabWorker MAX_CLICKS env target i) w))
  = activeConnections w.
Proof.
  unfold createTabWorker.
  exec.
  destruct (launchOk env) eqn:El; exec; [| lia].
  destruct (newPageOk env) eqn:En; exec;
    [| destruct (browserCloseOk env) eqn:Ec; exec; lia].
  destruct (gotoOk env) eqn:Eg; exec;
    [| destruct (pageCloseOk env) eqn:Ep; exec;
       destruct (browserCloseOk env) eqn:Ec; exec; lia].
  destruct (titleOk env) eqn:Et; exec;
    [| destruct (pageCloseOk env) eqn:Ep; exec;
       destruct (browserCloseOk env) eqn:Ec; exec; lia].
  match goal with
  | |- context [run (interact env) ?W] =>
      destruct (run_quiet_nothrow (interact env) W (Quiet_bounded_interact env)
                  (NoThrow_bounded_interact env)) as (wi & Hi & Hcore)
  end.
  rewrite Hi; unfold core in Hcore; injection Hcore as H1 H2 H3 H4 H5 H6 H7 H8 H9 H10.
  simpl_world_all. exec.
  match goal with
  | |- context [run (incrementClickCounter MAX_CLICKS env ?d) ?W] =>
      destruct (run_bounded_incrementClickCounter MAX_CLICKS env d W)
        as (wc & Hc & Hcnt & Hrec & Hcomp & Hact & Hacq & Hcc & Hrel & Hnav)
  end.
  rewrite Hc. unfold budgetOutcome.
  destruct (MAX_CLICKS <=? globalClickCounter wi + 1)%nat eqn:EM;
    [destruct (writeOk env) eqn:Ew |];
    exec;
    destruct (pageCloseOk env) eqn:Ep; exec; destruct (browserCloseOk env) eqn:Ec; exec;
    rewrite Hact, H6; lia.
Qed.

End BoundedWorker.

Section Interleaved.
Import Pool Budget BudgetFacts.

(** X25. However the turns of any number of tab workers of the bounded
    script interleave, every increment of [completedTabs] belongs to a
    click that was counted, and at most [MAX_CLICKS - 1 - c] workers
    increment it, [c] being the counter at the start: a worker increments
    [completedTabs] only if it finds the counter below [MAX_CLICKS] when
    it reads it again after recording.  So once the counter has reached
    the budget, fewer tabs are completed than clicks were counted; with
    two workers and a budget of two, both count before either reads the
    counter again, and no tab is completed. *)
Theorem budget_click_is_not_a_completed_tab
  (MAX_CLICKS : nat) (tabs : list Tab) (schedule : list nat)
  (w w' : World) (pool' : list (Co World unit)) :
  runSchedule schedule (tabWorkers MAX_CLICKS tabs) w = Some (w', pool') ->
  globalClickCounter w <= globalClickCounter w'
  /\ completed w' - completed w <= globalClickCounter w' - globalClickCounter w
  /\ completed w' - completed w <= MAX_CLICKS - 1 - globalClickCounter w
  /\ (MAX_CLICKS <= globalClickCounter w' ->
      globalClickCounter w < globalClickCounter w' ->
      completed w' - completed w < globalClickCounter w' - globalClickCounter w).
Proof.
  intros Hrun.
  assert (Hstart : Budget.Inv MAX_CLICKS (globalClickCounter w) (completed w)
                     (tabWorkers MAX_CLICKS tabs) w).
  { apply workers_start_Fresh. unfold tabWorkers. apply Forall_forall. intros m Hm.
    apply in_map_iff in Hm. destruct Hm as (tab & <- & _).
    exact (createTabWorker_Fresh MAX_CLICKS (fst (fst tab)) (snd (fst tab)) (snd tab)). }
  destruct (runSchedule_keeps_budget MAX_CLICKS _ _ schedule _ _ _ _ Hstart Hrun)
    as (phases & k & d & t & _ & Hc & Hd & Ht & Hb & Hcomp).
  lia.
Qed.

Lemma budget_click_is_not_a_completed_tab_witness :
  exists w' pool',
    runSchedule (alternating 27) (tabWorkers 2 twoTabs) initialWorld = Some (w', pool')
    /\ allSettled pool' = true
    /\ globalClickCounter w' = 2
    /\ completed w' - completed initialWorld <= 2 - 1 - globalClickCounter initialWorld
    /\ completed w' = 0.
Proof.
  destruct (runSchedule (alternating 27) (tabWorkers 2 twoTabs) initialWorld)
    as [[w' pool'] |] eqn:E; [| vm_compute in E; discriminate].
  exists w', pool'. split; [reflexivity |].
  destruct (budget_click_is_not_a_completed_tab 2 twoTabs (alternating 27)
              initialWorld w' pool' E) as (_ & _ & Hbudget & _).
  vm_compute in E. injection E as <- <-.
  split; [reflexivity |]. split; [reflexivity |]. split; [exact Hbudget | reflexivity].
Defined.

End Interleaved.

End WorkerExtras.
(** ** The columns of the two CSV files *)

Module ReportExtras.
Import Report.

(** X26. The periodic report has 34 columns, and the records the workers
    build have values for 12 of them: in every row the 22 columns from
    Fingerprint to Language (URL Clicked apart) carry no data, six of them
    empty and sixteen the text [undefined] between quotes.  The row of
    [data.csv] has 12 columns, all filled from the record; the user id is
    quoted there and bare in the report. *)
Theorem report_rows_leave_22_columns_without_data (numberToString : Q -> string)
  (clickNumber tabNumber userId timeTaken : Q)
  (timestamp username email sessionId url sessionStartTime sessionEndTime
     interactionDuration : string) :
  let record :=
    recordWithMeta clickNumber timestamp
      (workerClickData tabNumber username email userId sessionId url
         sessionStartTime sessionEndTime timeTaken interactionDuration) in
  columns numberToString reportHeaders (reportRow numberToString record) =
    [ ("Click Number", numberToString clickNumber);
      ("Timestamp", inQuotes timestamp);
      ("Tab Number", numberToString tabNumber);
      ("Username", inQuotes username);
      ("Email", inQuotes email);
      ("User ID", numberToString userId);
      ("Session ID", inQuotes sessionId);
      ("Fingerprint", missing);
      ("Birth Year", EmptyString);
      ("Account Age", EmptyString);
      ("URL Clicked", inQuotes url);
      ("IP Address", missing);
      ("ISP", missing);
      ("City", missing);
      ("State", missing);
      ("Area", missing);
      ("Pincode", missing);
      ("Country", missing);
      ("Country Code", missing);
      ("Latitude", EmptyString);
      ("Longitude", EmptyString);
      ("Connection Type", missing);
      ("Connection Speed (Mbps)", EmptyString);
      ("Latency (ms)", EmptyString);
      ("Connection Description", missing);
      ("Location Tier", missing);
      ("User Agent", missing);
      ("Screen Resolution", missing);
      ("Timezone", missing);
      ("Language", missing);
      ("Session Start Time", inQuotes sessionStartTime);
      ("Session End Time", inQuotes sessionEndTime);
      ("Time Taken (seconds)", numberToString timeTaken);
      ("Interaction Duration (seconds)", interactionDuration) ]
  /\ columns numberToString csvHeaders (csvRow numberToString record) =
    [ ("Click Number", numberToString clickNumber);
      ("Timestamp", inQuotes timestamp);
      ("Tab Number", numberToString tabNumber);
      ("Username", inQuotes username);
      ("Email", inQuotes email);
      ("User ID", inQuotes (numberToString userId));
      ("Session ID", inQuotes sessionId);
      ("URL Clicked", inQuotes url);
      ("Session Start Time", inQuotes sessionStartTime);
      ("Session End Time", inQuotes sessionEndTime);
      ("Time Taken (seconds)", numberToString timeTaken);
      ("Interaction Duration (seconds)", interactionDuration) ].
Proof.
  split; reflexivity.
Qed.

End ReportExtras.
(** ** The pace of the sequential campaign *)

Module PaceExtras.
Import Async Engine AsyncFacts EngineFacts WorkerFacts WorkerExtras Automated.
Local Open Scope nat_scope.
Local Open Scope list_scope.

Lemma incrementClickCounter_clock (env : Env) (data : ClickData) (w : World) :
  (clock w <= clock (snd (run (incrementClickCounter env data) w)))%N.
Proof.
  unfold incrementClickCounter.
  rewrite run_bind, run_modify, run_bind, run_await, run_addClickRecord.
  cbn zeta.
  set (w1 := if appendOk env then _ else _).
  assert (H1 : globalClickCounter w1 = globalClickCounter w + 1 /\ clock w1 = clock w).
  { subst w1. destruct (appendOk env); cbn; split; reflexivity. }
  clearbody w1. destruct H1 as (Hc & Hk).
  rewrite run_bind, run_gets, run_bind, run_log, run_bind, run_gets.
  cbn [globalClickCounter set_console]. rewrite Hc.
  destruct ((globalClickCounter w + 1) mod 25 =? 0).
  - rewrite run_bind, run_await, run_generateCSVReport.
    destruct (writeOk env).
    + rewrite run_bind, run_gets.
      cbn [globalClickCounter set_console set_reportFiles]. rewrite Hc.
      destruct ((globalClickCounter w + 1) mod 10 =? 0).
      * rewrite run_bind, run_delay, run_ret. cbn. lia.
      * rewrite run_bind, run_ret, run_ret. cbn. lia.
    + cbn. lia.
  - rewrite run_bind, run_ret, run_bind, run_gets.
    cbn [globalClickCounter set_console]. rewrite Hc.
    destruct ((globalClickCounter w + 1) mod 10 =? 0).
    + rewrite run_bind, run_delay, run_ret. cbn. lia.
    + rewrite run_bind, run_ret, run_ret. cbn. lia.
Qed.

(** The clicks and the scripted delay of one session. *)
Ltac clocked := cbn [andb fst snd]; simpl_world; repeat split; try reflexivity; lia.

Lemma createClickWorker_pace (env : Env) (target : string) (i : nat) (w : World) :
  let w' := snd (run (createClickWorker env target i) w) in
  fst (run (createClickWorker env target i) w) = Ok tt
  /\ globalClickCounter w' = globalClickCounter w + (if reaches env then 1 else 0)
  /\ (clock w
      + (if reaches env
         then 28600 + (if reportFails env w then 0 else randomDelay env)
         else 0)
      <= clock w')%N.
Proof.
  cbn zeta. unfold createClickWorker, reaches.
  exec.
  destruct (launchOk env) eqn:El; exec; [| clocked].
  destruct (newPageOk env) eqn:En; exec;
    [| destruct (browserCloseOk env) eqn:Ec; exec; clocked].
  destruct (gotoOk env) eqn:Eg; exec;
    [| destruct (pageCloseOk env) eqn:Ep; exec;
       destruct (browserCloseOk env) eqn:Ec; exec; clocked].
  destruct (titleOk env) eqn:Et; exec;
    [| destruct (pageCloseOk env) eqn:Ep; exec;
       destruct (browserCloseOk env) eqn:Ec; exec; clocked].
  match goal with
  | |- context [run (interact env) ?W] =>
      pose proof (interact_lasts env W) as Hlast;
      destruct (run_quiet_nothrow (interact env) W (Quiet_interact env)
                  (NoThrow_interact env)) as (wi & Hi & Hcore)
  end.
  rewrite Hi in *; unfold core in Hcore; injection Hcore as H1 H2 H3 H4 H5 H6 H7 H8 H9 H10.
  simpl_world_all. exec.
  match goal with
  | |- context [run (incrementClickCounter env ?d) ?W] =>
      pose proof (incrementClickCounter_clock env d W) as Hclock;
      destruct (run_incrementClickCounter env d W)
        as (wc & Hc & Hcnt & Hrec & Hcomp & Hacq & Hcc & Hrel & Hnav)
  end.
  rewrite Hc in *. cbn [snd] in Hclock.
  assert (Erf : reportFails env w = reportFails env wi)
    by (unfold reportFails; rewrite H1; reflexivity).
  rewrite Erf.
  destruct (reportFails env wi) eqn:Erep;
    exec;
    destruct (pageCloseOk env) eqn:Ep; exec; destruct (browserCloseOk env) eqn:Ec; exec;
    rewrite ?Hcnt, ?H1; clocked.
Qed.

Section Pace.

Variable perClick : N.
Variable start : World.
Variable family : Env -> Prop.

Hypothesis session_pace :
  forall env target i w,
    family env ->
    let w' := snd (run (createClickWorker env target i) w) in
    (clock w + (if reaches env then perClick else 0) <= clock w')%N.

Lemma Paced_session (env : Env) (target : string) (i : nat) (w : World) :
  family env -> Paced perClick start w ->
  Paced perClick start (snd (run (createClickWorker env target i) w)).
Proof.
  intros Hf [Hle Hclock].
  pose proof (session_pace env target i w Hf) as Hs. cbn zeta in Hs.
  destruct (createClickWorker_pace env target i w) as (_ & Hc & _). cbn zeta in Hc.
  unfold Paced. rewrite Hc. destruct (reaches env); (split; [lia |]).
  - replace (globalClickCounter w + 1 - globalClickCounter start)
      with (S (globalClickCounter w - globalClickCounter start)) by lia.
    lia.
  - rewrite Nat.add_0_r. lia.
Qed.

Lemma processUrls_pace (envs : nat -> nat -> nat -> Env) (targets : list string)
  (batchCount urlIndex : nat) (w : World) :
  (forall b u i, family (envs b u i)) -> Paced perClick start w ->
  fst (run (processUrls envs targets batchCount urlIndex) w) = Ok tt
  /\ Paced perClick start (snd (run (processUrls envs targets batchCount urlIndex) w)).
Proof.
  intros Hfam. revert urlIndex w.
  induction targets as [| target rest IH]; intros urlIndex w Hw; cbn [processUrls].
  - exec. split; [reflexivity | exact Hw].
  - unfold openEnhancedTabs. cbn [clickLoop]. exec.
    match goal with
    | |- context [run (createClickWorker ?e ?t ?i) ?W] =>
        assert (HW : Paced perClick start W) by exact Hw;
        pose proof (Paced_session e t i W (Hfam _ _ _) HW) as Hnext;
        destruct (createClickWorker_spec e t i W) as (w1 & Hrun & _)
    end.
    rewrite Hrun in *. cbn [snd] in Hnext. simpl_world_all. exec.
    apply IH. exact Hnext.
Qed.

Lemma runBatches_pace (envs : nat -> nat -> nat -> Env) (targets : list string)
  (batchCount batches : nat) (w : World) :
  (forall b u i, family (envs b u i)) -> Paced perClick start w ->
  Paced perClick start (snd (run (runBatches envs targets batchCount batches) w)).
Proof.
  intros Hfam. revert batchCount w.
  induction batches as [| k IH]; intros batchCount w Hw; cbn [runBatches].
  - exec. exact Hw.
  - exec.
    destruct (processUrls_pace envs targets batchCount 0 w Hfam Hw) as [Hok Hnext].
    destruct (run (processUrls envs targets batchCount 0) w) as [r w1].
    cbn [fst snd] in *. subst r. exec.
    apply IH. destruct Hnext as [H1 H2]. split; simpl_world; [exact H1 | lia].
Qed.

End Pace.

(** X29. The sequential campaign of [automated.js] cannot count clicks
    faster than its delays allow: between any start and the end of any
    number of batches, at least 28.6 seconds of scripted delay pass for
    every click counted, whatever fails; when no report write fails and
    the random delay after a click is at least the 20 seconds of its
    formula, at least 48.6 seconds pass for every click. *)
Theorem clicks_are_paced (envs : nat -> nat -> nat -> Env) (batches : nat) (w : World) :
  let w' := snd (run (runEnhancedAutomation envs batches) w) in
  let clicks := globalClickCounter w' - globalClickCounter w in
  (clock w + 28600 * N.of_nat clicks <= clock w')%N
  /\ ((forall b u i, writeOk (envs b u i) = true
                     /\ (20000 <= randomDelay (envs b u i))%N) ->
      (clock w + 48600 * N.of_nat clicks <= clock w')%N).
Proof.
  cbn zeta. unfold runEnhancedAutomation.
  assert (H0 : forall p, Paced p w w).
  { intros p. split; [lia |]. rewrite Nat.sub_diag. cbn. lia. }
  split.
  - apply (runBatches_pace 28600 w (fun _ => True)); [| intros; exact I | apply H0].
    intros env target i w0 _. cbn zeta.
    destruct (createClickWorker_pace env target i w0) as (_ & _ & Hk). cbn zeta in Hk.
    destruct (reaches env); [destruct (reportFails env w0) |]; lia.
  - intros Hall.
    apply (runBatches_pace 48600 w
             (fun env => writeOk env = true /\ (20000 <= randomDelay env)%N));
      [| exact Hall | apply H0].
    intros env target i w0 [Hw Hd]. cbn zeta.
    destruct (createClickWorker_pace env target i w0) as (_ & _ & Hk). cbn zeta in Hk.
    unfold reportFails in Hk. rewrite Hw, andb_false_r in Hk.
    destruct (reaches env); lia.
Qed.

Lemma clicks_are_paced_witness :
  let w' := snd (run (runEnhancedAutomation (fun _ _ _ => Strategy.exampleEnv) 2)
                   initialWorld) in
  (clock initialWorld
   + 48600 * N.of_nat (globalClickCounter w' - globalClickCounter initialWorld)
   <= clock w')%N.
Proof.
  cbn zeta.
  destruct (clicks_are_paced (fun _ _ _ => Strategy.exampleEnv) 2 initialWorld)
    as [_ Hall].
  apply Hall. intros b u i. split; [reflexivity | cbn; lia].
Defined.

End PaceExtras.
